(* ===== verification/_CoqProject ===== *)
-Q . S2P
Prelude.v
CLib.v
EchoCgi.v
UtilCgi.v
Bits.v
Base64.v
Md5.v
Des.v
Sql.v
Tables.v
CProg.v
FdfsApi.v
RedisDemo.v
MakeLog.v
Mysql.v
Redis.v
Float64.v
CJson.v
CJsonRound.v
CJsonBuffer.v
CJsonMinify.v
CJsonTyped.v
CHeap.v
CJsonHeap.v
CJsonOwn.v
CJsonParse.v
CJsonPrint.v
Sim.v
Config.v
Demo.v
Auth.v
Handler.v
Samples.v
Register.v
Login.v
DealFile.v
Md5Cgi.v
DealShareFile.v
Upload.v
Listing.v
MyFiles.v
ClientView.v
ShareFiles.v
Ranking.v
System.v
Interleave.v
Rely.v
