(* ===== verification/Prelude.v ===== *)
(** * HF_DFS: a verification development

    HF_DFS is a small cloud drive.  FastCGI programs in C (src/src/cgi) serve
    the requests of a browser client; users, files and shares are rows of MySQL
    tables, tokens and the records of shared files are in Redis, and the
    contents of the files are in FastDFS.  The programs share a library
    (src/src/common): string helpers, JSON, configuration, Redis and MySQL
    access, and the DES, MD5 and Base64 code from which login tokens are made.

    ** Method

    Pure functions of the C code are Rocq functions on byte strings and
    integers of explicit width; undefined behaviour is a value ([Undef] of
    [outcome], [Crash] of a program), so that its absence is provable.  A CGI
    program is a tree of calls to its services ([CProg.prog]): MySQL, Redis,
    the tools of FastDFS, files, processes and pipes, the clock and the random
    numbers.  [CProg.ev_spec] is the contract of the services, in terms of an
    observable state ([CProg.obs]): every call may fail where its documentation
    says so.  [wp p Q G o] says that all runs of [p] allowed by the contract
    avoid undefined behaviour and end in [Q] (or jump in [G]); [wpc] is the same
    with a condition on the states in which a run may crash, [can] says that a
    run exists.  SQL statements are texts: the programs format them from the
    templates of Sql.v, the contract parses them back and Tables.v gives the
    effect of each, for an arbitrary collation of the string columns.  Sim.v
    has executable services that satisfy the contract, with which programs run
    inside Rocq: witnesses and counterexamples are such runs.

    ** Files

    - Prelude, CLib: byte strings, machine integers, counting in lists; the
      functions of the C library the sources use (strstr, atoi, the printf
      family).
    - UtilCgi: the string helpers of util_cgi.c.
    - Bits, Base64, Md5, Des: words of fixed width; base64.c, md5.c and md5.h,
      des.c with the width of [unsigned long] as a parameter.
    - Sql, Tables: the SQL texts of the programs and their meaning.
    - CProg: programs, services, contract, proof rules.
    - MakeLog: make_log.c on a file system; LOG of the programs as its
      abstraction.
    - Mysql, Redis, Config: deal_mysql.c, redis_op.c, config.c.
    - Float64: the doubles of cJSON.c (IEEE binary64 as in [SpecFloat]), %f and
      %e, exactness of integers, lengths of printed numbers.
    - CJson, CJsonRound, CJsonTyped: cJSON.c on trees: parsing, printing, lookup
      and construction; the round trip; the shape of parsed trees.
    - CJsonBuffer, CJsonMinify: the printer into a growing buffer and the
      allocations of the other printer; cJSON_Minify in place on bytes.
    - CHeap, CJsonHeap, CJsonOwn, CJsonParse, CJsonPrint: cJSON.c on linked cells.  CHeap is
      a memory with a malloc that may fail, and a separation logic on it (an
      instance of the Iris logic of bunched implications, without weakening, so
      that a leak is not provable); CJsonHeap has the functions as they follow
      and set pointers, CJsonOwn their specifications in terms of trees,
      CJsonParse the parser that builds the cells, CJsonPrint the printer that
      allocates the texts of the parts and joins them.
    - Sim, Demo, Samples: executable services, a sample installation, sample
      tables and the decision procedures for the hypotheses of the theorems.
    - Auth: return_status and verify_token of util_cgi.c.
    - Handler: what the CGI programs share (the END block, guarded statements,
      request parsing), the operations on the tables in which their effects are
      stated, well-formedness of tables, proof rules.
    - Register, Login, DealFile, Md5Cgi, DealShareFile: register_cgi.c,
      login_cgi.c, dealfile_cgi.c, md5_cgi.c, dealsharefile_cgi.c, each from
      [get_json_info] (or its like) over the handlers to [main], which is given
      the list of the requests it serves.
    - Upload: upload_cgi.c: the multipart parser on raw memory, the FastDFS
      tools run by fork, execlp and a pipe, the rows of a new file.
    - Listing, MyFiles, ShareFiles: what the listings share (rows to JSON, pages
      of a join), myfiles_cgi.c, sharefiles_cgi.c.
    - ClientView: a listing from the tables to the client that parses it.
    - Ranking: Redis as a mirror of the shared files, across dealfile_cgi,
      dealsharefile_cgi and sharefiles_cgi.
    - System: all operations that change files together as a step relation.
    - Interleave: several processes at once, one call at a time.
    - Rely: a proof rule for interleaved processes (an invariant that others
      keep between any two calls) and, under it, the handlers that take nothing
      away (sharing, saving, taking over known files, counting downloads).
    - EchoCgi, FdfsApi, RedisDemo: the programs of src/src/demo.  EchoCgi is
      fastcgi_demo.c as an interaction tree (its loop has no bound); FdfsApi has
      fdfs_upload_file.c, fdfs_api.c and fdfs_main.c over the client library of
      FastDFS, a class with its documented laws; RedisDemo has myredis.c and
      redis_example.c over a class of servers.

    ** What the theorems show

    - Each handler has one theorem for all its paths ([share_file_spec],
      [del_file_spec], [deal_md5_spec], [save_file_spec],
      [cancel_share_file_spec], [share_pv_file_spec], [user_register_spec],
      [set_token_spec], [check_user_pwd_sound], [upload_spec], [filelist_spec],
      [ranking_spec], [share_handle_spec]): which status object or listing is
      printed, which table operations were applied (all of them, or a prefix
      when a service failed), what Redis and FastDFS hold, that connections are
      closed again and that no run is undefined (for uploads and listings: in
      which states a run is undefined).
    - Authorisation: [verify_token_sound], [handle_authorised],
      [filelist_authorised], [login_token_exclusive].
    - The ranking: Redis is an exact mirror of share_file_list after a refill,
      stays one through completed shares, cancellations and downloads
      ([ranking_maintained]), and what is then shown is the table ordered by
      downloads ([ranking_refines]).
    - Uploads: every body in the client's format is parsed back to its fields
      and content ([upload_roundtrip]).
    - The upload tool of FastDFS, as fdfs_upload_file.c has it, keeps the contract
      under which the CGI programs run it ([upload_tool_refines]); the echo
      program answers every request with its page ([echo_serves]); the hiredis
      examples print what a server that keeps its documentation makes them print
      ([redis_example_runs], [myredis_runs]).
    - Logging: a message reaches the file of its day ([log_appended]) and the
      programs' LOG crashes exactly when make_log.c does ([log_abstraction]).
    - The system: reference counts cover the users' rows and stored files are
      never lost under any sequence of uploads and other operations, with
      failing services and crashes ([reference_counts], [files_never_lost]), if
      files are deleted by their owners.
    - Interleaving: processes that share, save, upload known files and count
      downloads at the same time keep the keys unique and the numbers in range, never
      crash and answer correctly ([interleaved_safe]), and always come to an end
      ([interleaved_ends]).  Their counts may be lost: see the defects.
    - Codecs: Base64 and DES round trips, MD5 against its specification for
      every division of the message; the string helpers against their
      specifications.
    - JSON as text: printed trees are parsed back ([json_print_parse], whole
      numbers of up to 53 bits included), the parser ends ([parse_fuel_enough]) and builds
      well-formed trees only ([parse_typed]); the buffered printer writes the
      same text inside its buffer ([print_buffered]), the other printer
      allocates enough, and little more ([print_lengths_bounded]); cJSON_Minify refines a function on
      texts and turns the formatted into the unformatted print-out
      ([minify_refines], [minify_formatted]).
    - JSON in memory: the parser on cells builds exactly the tree of the
      functional parser, or cleans up and returns NULL when malloc fails at any
      point ([parse_in_memory]); the printer gives the text of the functional
      printer in one new block, or NULL with nothing left allocated, and writes
      inside its blocks ([print_in_memory]); the operations on arrays and objects are the
      list operations, without leak or stray access ([array_operations],
      [object_operations]); duplication gives a disjoint copy or cleans up
      ([duplicate_correct]).
    - From the tables to the client: what myfiles_cgi prints is, once parsed, a
      page of the user's rows ([filelist_read_back]).
    - Defects, as theorems on concrete runs or for all inputs: deleting without
      owning, reuse of the previous request's fields and token, login without
      an account, tokens overwriting shared-file records, undefined behaviour
      on registering an existing name and on cancelling a repaired share, a
      download counter that always reports failure, a failed lookup reported as
      done, a wrong table of the cipher, undefined encryption on 64-bit
      platforms, uploads that write and delete files the client names, a child
      process that goes on after a failed execlp, a failed query of the storage
      address, counts shown without a valid token, listings longer than the log
      buffer, a file lost by two processes that count it at the same time
      ([concurrent_saves_lose_file]), a crash of two processes that delete the same
      shared file at the same time ([concurrent_deletes_crash]), open connections
      and lost results in the demo programs ([demo_upload_defects],
      [redis_demo_defects]); in cJSON.c, literals that are freed, names
      that leak, array constructors that write through NULL
      ([cjson_memory_defects]), cJSON_Minify on unclosed comments and strings
      ([minify_overruns]), a zero that becomes NaN ([parse_nan]).

    ** Bounds, fuel, assumptions

    The recursive functions are structural, on a list of requests or blocks or
    on fuel: the JSON parser takes as fuel twice the length of the text plus two
    ([parse_fuel_enough] shows that it suffices), the block loop of MD5 the
    length of the input, cJSON_Minify the number of bytes plus one, the loops
    over linked items the number of allocated cells (the theorems give the
    result, so the fuel suffices), the printer on cells twice that number.  Texts of
    the buffered printer stay 64 bytes below 2^30, where [pow2gt] would overflow;
    texts of the other printer have at most a quarter of the largest [int], less
    64 bytes, since it adds up worst cases.  User names, checksums and file names in the handlers'
    theorems are free of quotes and backslashes and have at most 330 bytes
    together ([names_ok]), so that the statements denote what they should and
    fit their buffers of 512 bytes; table numbers stay away from the limits of
    [int] ([tables_wf]); the configuration fits its buffers ([conf_ok]).
    Memory allocation fails anywhere in the theorems about cJSON.c on cells and
    about the buffered printer; in the CGI programs it succeeds, except for the
    buffers whose size a request chooses.  Signed overflow wraps around.  One operation is one step of
    [System.step]; Interleave.v and Rely.v have the steps of several processes,
    whose calls interleave.

    ** Not modelled

    All programs of src/src are modelled: the CGI programs, the common library
    and the demo programs.  The vendored services (FastDFS, nginx, Redis, hiredis,
    FastCGI, OpenSSL, PCRE) are third-party code, and are what the contract and
    the classes of the interfaces describe.  Of the modelled code, these behaviours
    have no general theorem: the handlers that take records from Redis (deleting,
    cancelling, counting downloads of shared files) under interleaving, for which
    safety does not hold; the round trip of JSON numbers with a fraction, which
    the printer rounds to six digits; the text of a NaN, which differs between C
    libraries.  The order in which memory blocks are laid out, signals and the
    timing of processes are not modelled. *)

From Stdlib Require Export ZArith Lia.
From Stdlib Require Export Ascii.
From stdpp Require Export base list strings gmap numbers.

Declare Scope hfdfs_scope.
Delimit Scope hfdfs_scope with hfdfs.

(** ** Hint databases

    [slen_db] rewrites byte lengths of composed strings; [hf_core] holds the
    small facts that close side conditions of the component lemmas. *)
Create Rewrite HintDb slen_db.
Create HintDb hf_core.

(** ** Byte strings

    A C string is a Rocq [string]: a list of 8-bit characters.  [slen] is
    [strlen] as an integer. *)
Definition slen (s : string) : Z := Z.of_nat (String.length s).

Lemma slen_nil : slen EmptyString = 0%Z.
Proof. reflexivity. Qed.

Lemma slen_cons c s : slen (String c s) = (1 + slen s)%Z.
Proof. unfold slen. cbn [String.length]. lia. Qed.

Lemma slen_nonneg s : (0 <= slen s)%Z.
Proof. unfold slen. lia. Qed.

Lemma string_length_app a b :
  String.length (a +:+ b) = (String.length a + String.length b)%nat.
Proof.
  induction a as [|c a IH]; [reflexivity|].
  change (S (String.length (a +:+ b)) = S (String.length a + String.length b)).
  by rewrite IH.
Qed.

Lemma slen_app a b : slen (a +:+ b) = (slen a + slen b)%Z.
Proof. unfold slen. rewrite string_length_app. lia. Qed.

Lemma string_app_cons c a b : String c a +:+ b = String c (a +:+ b).
Proof. reflexivity. Qed.

Lemma string_app_nil_l b : EmptyString +:+ b = b.
Proof. reflexivity. Qed.

Lemma string_app_nil_r a : a +:+ EmptyString = a.
Proof. induction a as [|c a IH]; [done|]. by rewrite string_app_cons, IH. Qed.

Lemma string_app_assoc a b c : a +:+ (b +:+ c) = (a +:+ b) +:+ c.
Proof. induction a as [|x a IH]; [done|]. by rewrite !string_app_cons, IH. Qed.

#[export] Hint Rewrite slen_nil slen_cons slen_app : slen_db.
#[export] Hint Resolve slen_nonneg : hf_core.

(** The characters of a string satisfy a boolean predicate. *)
Fixpoint sforall (p : ascii -> bool) (s : string) : bool :=
  match s with
  | EmptyString => true
  | String c s' => p c && sforall p s'
  end.

Lemma sforall_app p a b : sforall p (a +:+ b) = sforall p a && sforall p b.
Proof.
  induction a as [|c a IH]; [done|].
  rewrite string_app_cons. simpl. rewrite IH. by destruct (p c).
Qed.

Lemma sforall_impl p q s :
  (forall c, p c = true -> q c = true) -> sforall p s = true -> sforall q s = true.
Proof.
  intros Hpq. induction s as [|c s IH]; [done|]. simpl.
  intros [Hc Hs]%andb_prop. by rewrite (Hpq _ Hc), IH.
Qed.

(** Bytes of a string as integers 0..255, and back. *)
Definition byte_of (c : ascii) : Z := Z.of_N (N_of_ascii c).
Definition chr (z : Z) : ascii := ascii_of_N (Z.to_N (z mod 256)).

Lemma byte_of_range c : (0 <= byte_of c < 256)%Z.
Proof.
  unfold byte_of. pose proof (N_ascii_bounded c). lia.
Qed.

Lemma chr_byte_of c : chr (byte_of c) = c.
Proof.
  unfold chr. rewrite Z.mod_small by apply byte_of_range.
  unfold byte_of. rewrite N2Z.id. apply ascii_N_embedding.
Qed.

Lemma byte_of_chr z : (0 <= z < 256)%Z -> byte_of (chr z) = z.
Proof.
  intros Hz. unfold chr, byte_of. rewrite Z.mod_small by lia.
  rewrite N_ascii_embedding by lia. lia.
Qed.

Lemma byte_of_inj a b : byte_of a = byte_of b -> a = b.
Proof. intros H. rewrite <- (chr_byte_of a), <- (chr_byte_of b). by rewrite H. Qed.

#[export] Hint Resolve byte_of_range : hf_core.

Fixpoint bytes_of (s : string) : list Z :=
  match s with
  | EmptyString => []
  | String c s' => byte_of c :: bytes_of s'
  end.

Fixpoint string_of (l : list Z) : string :=
  match l with
  | [] => EmptyString
  | z :: l' => String (chr z) (string_of l')
  end.

Definition is_byte (z : Z) : Prop := (0 <= z < 256)%Z.

Lemma bytes_of_bytes s : Forall is_byte (bytes_of s).
Proof. induction s; simpl; constructor; auto. apply byte_of_range. Qed.

Lemma bytes_of_string_of l : Forall is_byte l -> bytes_of (string_of l) = l.
Proof.
  induction 1 as [|z l Hz _ IH]; [done|]. simpl. by rewrite byte_of_chr, IH.
Qed.

Lemma string_of_bytes_of s : string_of (bytes_of s) = s.
Proof. induction s as [|c s IH]; [done|]. simpl. by rewrite chr_byte_of, IH. Qed.

Lemma length_bytes_of s : length (bytes_of s) = String.length s.
Proof. induction s; simpl; auto. Qed.

(** ** Machine integers: values are [Z], wrap-around is explicit. *)
Definition INT_MAX : Z := 2147483647.
Definition INT_MIN : Z := -2147483648.
Definition LONG_MAX : Z := 9223372036854775807.
Definition LONG_MIN : Z := -9223372036854775808.
Definition int32 (z : Z) : Z := ((z + 2147483648) mod 4294967296 - 2147483648)%Z.
Definition uint32 (z : Z) : Z := (z mod 4294967296)%Z.
Definition uint16 (z : Z) : Z := (z mod 65536)%Z.
Definition is_int (z : Z) : Prop := (INT_MIN <= z <= INT_MAX)%Z.

Lemma int32_small z : is_int z -> int32 z = z.
Proof. unfold is_int, INT_MIN, INT_MAX, int32. intros H. rewrite Z.mod_small; lia. Qed.

Lemma int32_range z : is_int (int32 z).
Proof.
  unfold is_int, INT_MIN, INT_MAX, int32.
  pose proof (Z.mod_pos_bound (z + 2147483648) 4294967296 ltac:(lia)). lia.
Qed.

#[export] Hint Resolve int32_range : hf_core.

(** ** Counting the elements of a list that satisfy a test. *)
Section CountIf.
Context {A : Type}.
Implicit Types (f g : A -> bool) (l : list A).

Definition count_if f l : Z := Z.of_nat (length (List.filter f l)).

Lemma count_if_nil f : count_if f [] = 0%Z.
Proof. reflexivity. Qed.

Lemma count_if_cons f x l :
  count_if f (x :: l) = ((if f x then 1 else 0) + count_if f l)%Z.
Proof. unfold count_if. simpl. destruct (f x); simpl; lia. Qed.

Lemma count_if_app f l1 l2 :
  count_if f (l1 ++ l2) = (count_if f l1 + count_if f l2)%Z.
Proof. unfold count_if. rewrite List.filter_app, length_app. lia. Qed.

Lemma count_if_nonneg f l : (0 <= count_if f l)%Z.
Proof. unfold count_if. lia. Qed.

Lemma count_if_le_length f l : (count_if f l <= Z.of_nat (length l))%Z.
Proof. unfold count_if. pose proof (filter_length_le f l). lia. Qed.

Lemma count_if_ext f g l :
  (forall x, In x l -> f x = g x) -> count_if f l = count_if g l.
Proof.
  intros H. induction l as [|x l IH]; [done|].
  rewrite !count_if_cons, (H x), IH by (simpl; auto; intros; apply H; simpl; auto).
  done.
Qed.

Lemma count_if_map f (h : A -> A) l :
  (forall x, f (h x) = f x) -> count_if f (List.map h l) = count_if f l.
Proof.
  intros H. induction l as [|x l IH]; [done|]. simpl.
  by rewrite !count_if_cons, H, IH.
Qed.

Lemma count_if_zero f l :
  (forall x, In x l -> f x = false) -> count_if f l = 0%Z.
Proof.
  intros H. induction l as [|x l IH]; [done|].
  rewrite count_if_cons, (H x) by (simpl; auto). rewrite IH; [done|].
  intros y Hy. apply H. simpl; auto.
Qed.

Lemma count_if_zero_inv f l x : count_if f l = 0%Z -> In x l -> f x = false.
Proof.
  induction l as [|y l IH]; [done|]. rewrite count_if_cons.
  pose proof (count_if_nonneg f l). intros H0 [->|Hin].
  - destruct (f x); [lia|done].
  - apply IH; [|done]. destruct (f y); lia.
Qed.

Lemma count_if_pos_In f l :
  (0 < count_if f l)%Z -> exists x, In x l /\ f x = true.
Proof.
  unfold count_if. destruct (List.filter f l) as [|x l'] eqn:E; [simpl; lia|].
  intros _. exists x. apply filter_In. rewrite E. simpl; auto.
Qed.

Lemma count_if_filter_negb f g l :
  count_if f (List.filter (fun x => negb (g x)) l)
  = (count_if f l - count_if (fun x => f x && g x) l)%Z.
Proof.
  induction l as [|x l IH]; [done|]. simpl.
  destruct (g x) eqn:E; simpl; rewrite !count_if_cons, ?E, IH;
    destruct (f x); simpl; lia.
Qed.
End CountIf.

(** ** Development tactics *)

(** Split every boolean conjunction of the context. *)
Ltac split_andb :=
  repeat match goal with
  | H : (_ && _)%bool = true |- _ =>
      let H1 := fresh H in apply andb_prop in H as [H1 H]
  end.

(** Reduce byte lengths to linear arithmetic. *)
Ltac slen_simpl := autorewrite with slen_db in *.
Ltac slen_lia :=
  slen_simpl;
  repeat match goal with
  | |- context [slen ?s] =>
      lazymatch goal with
      | _ : (0 <= slen s)%Z |- _ => fail
      | _ => pose proof (slen_nonneg s)
      end
  | _ : context [slen ?s] |- _ =>
      lazymatch goal with
      | _ : (0 <= slen s)%Z |- _ => fail
      | _ => pose proof (slen_nonneg s)
      end
  end; lia.
