(* ===== verification/CLib.v ===== *)
(** * The C library as the CGI programs use it

    Strings, character classes, number parsing ([strtol], [atoi], [atol]),
    searching ([strstr], [strchr]), and the [printf] family.  The sources
    under src/src call these functions from libc; the definitions follow the
    C standard for the "C" locale on a 64-bit target ([int] 32 bits, [long]
    64 bits). *)

From S2P Require Import Prelude.

(** ** Characters *)

(** [isspace]: space, and the control characters \t \n \v \f \r. *)
Definition isspace (c : ascii) : bool :=
  let b := byte_of c in ((b =? 32) || ((9 <=? b) && (b <=? 13)))%Z.

Definition isdigit (c : ascii) : bool :=
  let b := byte_of c in ((48 <=? b) && (b <=? 57))%Z.

(** [tolower] in the "C" locale. *)
Definition tolower (c : ascii) : ascii :=
  let b := byte_of c in
  if ((65 <=? b) && (b <=? 90))%Z then chr (b + 32) else c.

Definition NUL : ascii := chr 0.
Definition DQUOTE : ascii := chr 34.
Definition SQUOTE : ascii := chr 39.
Definition BACKSLASH : ascii := chr 92.
Definition LF : ascii := chr 10.
Definition CR : ascii := chr 13.
Definition TAB : ascii := chr 9.
Definition CRLF : string := String CR (String LF EmptyString).

(** The C string held by a byte buffer: its bytes up to the first NUL. *)
Fixpoint cstr (s : string) : string :=
  match s with
  | EmptyString => EmptyString
  | String c s' => if Ascii.eqb c NUL then EmptyString else String c (cstr s')
  end.

Definition no_nul (s : string) : bool := sforall (fun c => negb (Ascii.eqb c NUL)) s.

Lemma cstr_no_nul s : no_nul (cstr s) = true.
Proof.
  induction s as [|c s IH]; [done|]. simpl.
  destruct (Ascii.eqb c NUL) eqn:E; [done|]. unfold no_nul. simpl. by rewrite E.
Qed.

Lemma slen_cstr s : (slen (cstr s) <= slen s)%Z.
Proof.
  induction s as [|c s IH]; [done|]. cbn [cstr]. destruct (Ascii.eqb c NUL); slen_lia.
Qed.

Lemma cstr_id s : no_nul s = true -> cstr s = s.
Proof.
  induction s as [|c s IH]; [done|]. unfold no_nul. simpl.
  destruct (Ascii.eqb c NUL); [done|]. simpl. intros H. by rewrite IH.
Qed.

(** [s[i]] of a C string: NUL at the end of the string. *)
Definition char_at (s : string) (i : nat) : ascii :=
  match String.get i s with Some c => c | None => NUL end.

(** The suffix of [s] from index [i] on. *)
Fixpoint sdrop (i : nat) (s : string) : string :=
  match i, s with
  | O, _ => s
  | S i', String _ s' => sdrop i' s'
  | S _, EmptyString => EmptyString
  end.

(** The first [n] characters of [s]. *)
Fixpoint stake (n : nat) (s : string) : string :=
  match n, s with
  | S n', String c s' => String c (stake n' s')
  | _, _ => EmptyString
  end.

Lemma stake_sdrop n s : stake n s +:+ sdrop n s = s.
Proof.
  revert s. induction n as [|n IH]; intros [|c s]; try done.
  simpl. by rewrite string_app_cons, IH.
Qed.

Lemma stake_app a b : stake (String.length a) (a +:+ b) = a.
Proof.
  induction a as [|c a IH]; [by destruct b|]. rewrite string_app_cons. simpl. by rewrite IH.
Qed.

Lemma sdrop_app a b : sdrop (String.length a) (a +:+ b) = b.
Proof.
  induction a as [|c a IH]; [done|]. rewrite string_app_cons. simpl. by rewrite IH.
Qed.

Lemma sdrop_length n s : String.length (sdrop n s) = (String.length s - n)%nat.
Proof. revert s. induction n as [|n IH]; intros [|c s]; simpl; auto. Qed.

Lemma stake_length n s : String.length (stake n s) = Nat.min n (String.length s).
Proof. revert s. induction n as [|n IH]; intros [|c s]; simpl; auto. Qed.

Lemma stake_all n s : (String.length s <= n)%nat -> stake n s = s.
Proof.
  revert s. induction n as [|n IH]; intros [|c s] Hn; simpl in *; try done; try lia.
  by rewrite IH by lia.
Qed.

Lemma sdrop_sdrop a b s : sdrop a (sdrop b s) = sdrop (b + a) s.
Proof.
  revert s. induction b as [|b IH]; intros s; [done|].
  destruct s as [|c s]; simpl; [by destruct a|]. apply IH.
Qed.

(** ** Searching *)

(** [strstr]: index of the first occurrence of [needle] (0 for an empty
    needle), [None] for a NULL result. *)
Fixpoint strstr (hay needle : string) : option nat :=
  if String.prefix needle hay then Some O
  else match hay with
       | EmptyString => None
       | String _ hay' => option_map S (strstr hay' needle)
       end.

(** [strchr] for a character other than NUL. *)
Fixpoint strchr (s : string) (c : ascii) : option nat :=
  match s with
  | EmptyString => None
  | String d s' => if Ascii.eqb d c then Some O else option_map S (strchr s' c)
  end.

(** [strcmp (a, b) == 0]. *)
Definition streq (a b : string) : bool := String.eqb a b.

Lemma streq_refl a : streq a a = true.
Proof. apply String.eqb_refl. Qed.

Lemma streq_true a b : streq a b = true <-> a = b.
Proof. apply String.eqb_eq. Qed.

Lemma streq_false a b : streq a b = false <-> a <> b.
Proof. apply String.eqb_neq. Qed.

Lemma streq_sym a b : streq a b = streq b a.
Proof. apply String.eqb_sym. Qed.

Lemma prefix_app p s : String.prefix p (p +:+ s) = true.
Proof.
  induction p as [|c p IH]; [by destruct s|].
  rewrite string_app_cons. simpl. destruct (ascii_dec c c); done.
Qed.

Lemma prefix_split p s : String.prefix p s = true -> exists r, s = p +:+ r.
Proof.
  revert s. induction p as [|c p IH]; intros s.
  - intros _. by exists s.
  - destruct s as [|d s]; [done|]. simpl. destruct (ascii_dec c d) as [->|]; [|done].
    intros [r ->]%IH. by exists r.
Qed.

(** [strstr] finds an occurrence, and the first one. *)
Lemma strstr_some hay needle i :
  strstr hay needle = Some i ->
  (exists r, hay = stake i hay +:+ needle +:+ r)
  /\ (forall j, (j < i)%nat -> String.prefix needle (sdrop j hay) = false).
Proof.
  revert i. induction hay as [|c hay IH]; intros i; cbn [strstr].
  - destruct (String.prefix needle EmptyString) eqn:E; [|done].
    intros [= <-]. apply prefix_split in E as [r Hr]. split; [|intros; lia].
    by exists r.
  - destruct (String.prefix needle (String c hay)) eqn:E.
    + intros [= <-]. apply prefix_split in E as [r Hr]. split; [by exists r|intros; lia].
    + destruct (strstr hay needle) as [j|]; [|done]. simpl. intros [= <-].
      destruct (IH j eq_refl) as [[r Hr] Hmin]. split.
      * exists r. simpl. rewrite string_app_cons. by f_equal.
      * intros [|k] Hk; [done|]. simpl. apply Hmin. lia.
Qed.

Lemma strstr_none hay needle :
  strstr hay needle = None -> forall j, String.prefix needle (sdrop j hay) = false.
Proof.
  induction hay as [|c hay IH]; cbn [strstr].
  - destruct (String.prefix needle EmptyString) eqn:E; [done|]. intros _ j. by destruct j.
  - destruct (String.prefix needle (String c hay)) eqn:E; [done|].
    destruct (strstr hay needle); [done|]. intros _ [|j]; [done|]. by apply IH.
Qed.

(** ** Numbers *)

Definition digit_val (c : ascii) : Z := (byte_of c - 48)%Z.
Definition digit_chr (z : Z) : ascii := chr (48 + z).

Fixpoint parse_digits (s : string) (acc : Z) : Z :=
  match s with
  | String c s' => if isdigit c then parse_digits s' (acc * 10 + digit_val c)%Z else acc
  | EmptyString => acc
  end.

Fixpoint skip_space (s : string) : string :=
  match s with
  | String c s' => if isspace c then skip_space s' else s
  | EmptyString => EmptyString
  end.

Definition clamp_long (z : Z) : Z := Z.max LONG_MIN (Z.min LONG_MAX z).

(** [strtol (s, NULL, 10)]: optional blanks, optional sign, digits; the value
    saturates at the ends of [long]. *)
Definition strtol (s : string) : Z :=
  match skip_space s with
  | String c s' =>
      if Ascii.eqb c (chr 45) then clamp_long (- parse_digits s' 0)
      else if Ascii.eqb c (chr 43) then clamp_long (parse_digits s' 0)
      else clamp_long (parse_digits (String c s') 0)
  | EmptyString => 0
  end.

Definition atol (s : string) : Z := strtol s.

(** glibc's [atoi] is [(int) strtol (s, NULL, 10)]. *)
Definition atoi (s : string) : Z := int32 (strtol s).

(** Decimal digits of a natural number, most significant first. *)
Fixpoint dec_digits (fuel : nat) (n : Z) (acc : string) : string :=
  match fuel with
  | O => acc
  | S f =>
      let acc' := String (digit_chr (n mod 10)) acc in
      if (n <? 10)%Z then acc' else dec_digits f (n / 10) acc'
  end.

Definition dec_fuel (n : Z) : nat := S (Z.to_nat (Z.log2 n)).

(** The text of [%d] / [%ld]. *)
Definition dec_string (z : Z) : string :=
  if (z <? 0)%Z then String (chr 45) (dec_digits (dec_fuel (- z)) (- z) EmptyString)
  else dec_digits (dec_fuel z) z EmptyString.

Definition hex_digit (d : Z) : ascii := if (d <? 10)%Z then chr (48 + d) else chr (87 + d).

Fixpoint hex_digits (fuel : nat) (n : Z) (acc : string) : string :=
  match fuel with
  | O => acc
  | S f =>
      let acc' := String (hex_digit (n mod 16)) acc in
      if (n <? 16)%Z then acc' else hex_digits f (n / 16) acc'
  end.

(** The text of [%x]. *)
Definition hex_string (z : Z) : string := hex_digits (dec_fuel z) z EmptyString.

Lemma isdigit_digit_chr d : (0 <= d < 10)%Z -> isdigit (digit_chr d) = true.
Proof.
  intros Hd. unfold isdigit, digit_chr. rewrite byte_of_chr by lia. lia.
Qed.

Lemma digit_val_digit_chr d : (0 <= d < 10)%Z -> digit_val (digit_chr d) = d.
Proof. intros Hd. unfold digit_val, digit_chr. rewrite byte_of_chr; lia. Qed.

Lemma parse_digits_dec fuel n acc a :
  (0 <= n < 10 ^ Z.of_nat fuel)%Z ->
  exists k, (0 <= k)%Z
    /\ parse_digits (dec_digits fuel n acc) a = parse_digits acc (a * 10 ^ k + n)%Z.
Proof.
  revert n acc. induction fuel as [|f IH]; intros n acc Hn.
  - exists 0%Z. simpl in *. split; [lia|]. f_equal. lia.
  - simpl. pose proof (Z.mod_pos_bound n 10 ltac:(lia)) as Hm.
    destruct (n <? 10)%Z eqn:E.
    + exists 1%Z. split; [lia|]. simpl.
      rewrite isdigit_digit_chr, digit_val_digit_chr by lia.
      rewrite Z.mod_small by lia. f_equal; lia.
    + rewrite Nat2Z.inj_succ, Z.pow_succ_r in Hn by lia.
      destruct (IH (n / 10)%Z (String (digit_chr (n mod 10)) acc)) as (k & Hk & ->).
      { split; [apply Z.div_pos; lia|]. apply Z.div_lt_upper_bound; lia. }
      exists (k + 1)%Z. split; [lia|]. simpl.
      rewrite isdigit_digit_chr, digit_val_digit_chr by lia. f_equal.
      rewrite Z.pow_add_r by lia. pose proof (Z_div_mod_eq_full n 10). lia.
Qed.

Lemma dec_fuel_enough n : (0 <= n)%Z -> (n < 10 ^ Z.of_nat (dec_fuel n))%Z.
Proof.
  intros Hn. unfold dec_fuel. rewrite Nat2Z.inj_succ, Z2Nat.id by apply Z.log2_nonneg.
  destruct (Z.eq_dec n 0%Z) as [->|]; [reflexivity|].
  pose proof (Z.log2_spec n ltac:(lia)) as [_ Hs].
  eapply Z.lt_le_trans; [exact Hs|]. apply Z.pow_le_mono_l. lia.
Qed.

Lemma parse_digits_dec_digits n :
  (0 <= n)%Z -> parse_digits (dec_digits (dec_fuel n) n EmptyString) 0%Z = n.
Proof.
  intros Hn.
  destruct (parse_digits_dec (dec_fuel n) n EmptyString 0%Z) as (k & _ & ->); [|done].
  split; [lia|]. by apply dec_fuel_enough.
Qed.

(** The first character of a decimal numeral is a digit. *)
Lemma dec_digits_head fuel n acc :
  exists d s, dec_digits (S fuel) n acc = String (digit_chr d) s /\ (0 <= d < 10)%Z.
Proof.
  revert n acc. induction fuel as [|f IH]; intros n acc; cbn [dec_digits];
    pose proof (Z.mod_pos_bound n 10 ltac:(lia)).
  - destruct (n <? 10)%Z; by eexists _, _.
  - destruct (n <? 10)%Z; [by eexists _, _|]. apply IH.
Qed.

Lemma digit_chr_not_special d :
  (0 <= d < 10)%Z ->
  isspace (digit_chr d) = false /\ Ascii.eqb (digit_chr d) (chr 45) = false
  /\ Ascii.eqb (digit_chr d) (chr 43) = false.
Proof.
  intros Hd. unfold isspace, digit_chr. rewrite byte_of_chr by lia.
  repeat split; try lia; apply Ascii.eqb_neq; intros H%(f_equal byte_of);
    rewrite !byte_of_chr in H; lia.
Qed.

(** [strtol] reads back what [%ld] printed. *)
Lemma strtol_dec_string n :
  (LONG_MIN <= n <= LONG_MAX)%Z -> strtol (dec_string n) = n.
Proof.
  intros Hn. unfold dec_string, strtol. destruct (n <? 0)%Z eqn:E.
  - cbn [skip_space]. change (isspace (chr 45)) with false. cbn iota beta.
    rewrite Ascii.eqb_refl, parse_digits_dec_digits by lia. unfold clamp_long. lia.
  - pose proof (parse_digits_dec_digits n ltac:(lia)) as Hp. unfold dec_fuel in *.
    destruct (dec_digits_head (Z.to_nat (Z.log2 n)) n EmptyString) as (d & s & Hs & Hd).
    rewrite Hs in *. destruct (digit_chr_not_special d Hd) as (H1 & H2 & H3).
    cbn [skip_space]. rewrite H1, H2, H3, Hp. unfold clamp_long. lia.
Qed.

Lemma atoi_dec_string n : is_int n -> atoi (dec_string n) = n.
Proof.
  intros Hn. unfold atoi. rewrite strtol_dec_string; [by apply int32_small|].
  revert Hn. unfold is_int, INT_MIN, INT_MAX, LONG_MIN, LONG_MAX. lia.
Qed.

Lemma dec_digits_length fuel n acc k :
  (0 <= n < 10 ^ Z.of_nat k)%Z -> (0 < k)%nat ->
  (slen (dec_digits fuel n acc) <= Z.of_nat k + slen acc)%Z.
Proof.
  revert n acc k. induction fuel as [|f IH]; intros n acc k Hn Hk; cbn [dec_digits]; [lia|].
  destruct (n <? 10)%Z eqn:E; [rewrite slen_cons; lia|].
  destruct k as [|[|k]]; [lia|simpl in Hn; lia|].
  rewrite Nat2Z.inj_succ, Z.pow_succ_r in Hn by lia.
  etrans; [apply (IH _ _ (S k)); [split; [apply Z.div_pos; lia|apply Z.div_lt_upper_bound; lia]|lia]|].
  rewrite slen_cons. lia.
Qed.

(** A 64-bit integer prints in at most 20 characters, a 32-bit one in 11. *)
Lemma dec_string_length n k :
  (0 < k)%nat -> (- 10 ^ Z.of_nat k < n < 10 ^ Z.of_nat k)%Z ->
  (slen (dec_string n) <= 1 + Z.of_nat k)%Z.
Proof.
  intros Hk Hn. unfold dec_string.
  destruct (n <? 0)%Z eqn:E; [rewrite slen_cons|].
  - pose proof (dec_digits_length (dec_fuel (- n)) (- n) EmptyString k) as H.
    rewrite slen_nil in H. lia.
  - pose proof (dec_digits_length (dec_fuel n) n EmptyString k) as H.
    rewrite slen_nil in H. lia.
Qed.

Definition is_long (z : Z) : Prop := (LONG_MIN <= z <= LONG_MAX)%Z.

Lemma is_int_long z : is_int z -> is_long z.
Proof. unfold is_int, is_long, INT_MIN, INT_MAX, LONG_MIN, LONG_MAX. lia. Qed.

Lemma dec_string_long n : is_long n -> (slen (dec_string n) <= 20)%Z.
Proof.
  unfold is_long, LONG_MIN, LONG_MAX. intros Hn.
  apply (dec_string_length n 19); [lia|]. change (10 ^ Z.of_nat 19)%Z with 10000000000000000000%Z. lia.
Qed.

Lemma dec_string_int n : is_int n -> (slen (dec_string n) <= 11)%Z.
Proof.
  unfold is_int, INT_MIN, INT_MAX. intros Hn.
  apply (dec_string_length n 10); [lia|]. change (10 ^ Z.of_nat 10)%Z with 10000000000%Z. lia.
Qed.

#[export] Hint Resolve is_int_long : hf_core.

(** ** The printf family

    A format is parsed once into pieces; rendering consumes one argument per
    conversion.  [None] stands for the undefined behaviour of a conversion
    without a matching argument; surplus arguments are ignored, as in C. *)

Inductive arg : Type :=
| AStr (s : string)
| AInt (z : Z).

(** Conversions used by the sources: %s, and integers in decimal or lower-case
    hexadecimal with an optional zero-padded width ([l] modifiers only select
    the argument's width, which the caller's [AInt] already has). *)
Inductive piece : Type :=
| PLit (c : ascii)
| PStr
| PDec (width : nat)
| PHex (width : nat).

Fixpoint parse_fmt (fuel : nat) (f : string) : option (list piece) :=
  match fuel with
  | O => None
  | S fuel' =>
    match f with
    | EmptyString => Some []
    | String c f1 =>
      if negb (Ascii.eqb c "%") then option_map (cons (PLit c)) (parse_fmt fuel' f1)
      else match f1 with
      | String "%" f2 => option_map (cons (PLit "%")) (parse_fmt fuel' f2)
      | String "s" f2 => option_map (cons PStr) (parse_fmt fuel' f2)
      | String "d" f2 | String "u" f2
      | String "l" (String "d" f2) | String "l" (String "u" f2) =>
          option_map (cons (PDec 0)) (parse_fmt fuel' f2)
      | String "x" f2 => option_map (cons (PHex 0)) (parse_fmt fuel' f2)
      | String "0" (String w (String "d" f2)) =>
          if isdigit w then option_map (cons (PDec (Z.to_nat (digit_val w)))) (parse_fmt fuel' f2)
          else None
      | String "0" (String w (String "x" f2)) =>
          if isdigit w then option_map (cons (PHex (Z.to_nat (digit_val w)))) (parse_fmt fuel' f2)
          else None
      | _ => None
      end
    end
  end.

Definition pieces_of (f : string) : option (list piece) := parse_fmt (S (String.length f)) f.

Fixpoint zeros (n : nat) : string :=
  match n with O => EmptyString | S n' => String "0" (zeros n') end.

(** Zero padding goes between the sign and the digits. *)
Definition pad_dec (w : nat) (z : Z) : string :=
  let t := dec_string z in
  if (z <? 0)%Z
  then String "-" (zeros (w - String.length t) +:+ sdrop 1 t)
  else zeros (w - String.length t) +:+ t.

Definition pad_hex (w : nat) (z : Z) : string :=
  let t := hex_string z in zeros (w - String.length t) +:+ t.

Fixpoint render (ps : list piece) (args : list arg) : option string :=
  match ps with
  | [] => Some EmptyString
  | PLit c :: ps' => option_map (String c) (render ps' args)
  | PStr :: ps' =>
      match args with
      | AStr s :: args' => option_map (fun r => s +:+ r) (render ps' args')
      | _ => None
      end
  | PDec w :: ps' =>
      match args with
      | AInt z :: args' => option_map (fun r => pad_dec w z +:+ r) (render ps' args')
      | _ => None
      end
  | PHex w :: ps' =>
      match args with
      | AInt z :: args' => option_map (fun r => pad_hex w z +:+ r) (render ps' args')
      | _ => None
      end
  end.

(** [sprintf (out, f, args)] without the bound of [out]. *)
Definition format (f : string) (args : list arg) : option string :=
  match pieces_of f with
  | Some ps => render ps args
  | None => None
  end.

Arguments format : simpl never.

(** Length of a rendering: the literal characters plus the arguments, an
    integer counting for at most 20 characters. *)
Definition arg_len (a : arg) : Z :=
  match a with AStr s => slen s | AInt _ => 20 end.

Definition arg_ok (a : arg) : Prop :=
  match a with AStr _ => True | AInt z => is_long z end.

Fixpoint args_len (l : list arg) : Z :=
  match l with [] => 0 | a :: l' => arg_len a + args_len l' end.

(** The pieces are literals, [%s] and unpadded [%d], and match the arguments. *)
Fixpoint simple_fmt (ps : list piece) (args : list arg) : bool :=
  match ps, args with
  | [], [] => true
  | PLit _ :: ps', _ => simple_fmt ps' args
  | PStr :: ps', AStr _ :: args' => simple_fmt ps' args'
  | PDec O :: ps', AInt _ :: args' => simple_fmt ps' args'
  | _, _ => false
  end.

Fixpoint lits_len (ps : list piece) : Z :=
  match ps with
  | [] => 0
  | PLit _ :: ps' => 1 + lits_len ps'
  | _ :: ps' => lits_len ps'
  end.

Lemma slen_zeros n : slen (zeros n) = Z.of_nat n.
Proof. induction n as [|n IH]; [done|]. cbn [zeros]. rewrite slen_cons, IH. lia. Qed.

Lemma pad_dec_0 z : pad_dec 0 z = dec_string z.
Proof.
  unfold pad_dec, dec_string. destruct (z <? 0)%Z; reflexivity.
Qed.

Lemma render_simple ps args :
  simple_fmt ps args = true -> Forall arg_ok args ->
  exists s, render ps args = Some s /\ (slen s <= lits_len ps + args_len args)%Z.
Proof.
  revert args. induction ps as [|[c| |[|w]|w] ps IH]; intros args Hf Ha; simpl in *.
  - destruct args; [|done]. exists EmptyString. done.
  - destruct (IH args) as (s & -> & Hs); auto. eexists. split; [done|]. slen_lia.
  - destruct args as [|[s0|] args]; try done. inversion Ha; subst.
    destruct (IH args) as (s & -> & Hs); auto. eexists. split; [done|]. simpl. slen_lia.
  - destruct args as [|[|z] args]; try done. inversion Ha as [|? ? Hz]; subst. simpl in Hz.
    destruct (IH args) as (s & -> & Hs); auto. eexists. split; [done|].
    rewrite pad_dec_0. pose proof (dec_string_long z Hz). simpl. slen_lia.
  - by destruct args as [|[|z] args].
  - done.
Qed.

(** A format applied to arguments of the right kinds. *)
Lemma format_simple f ps args :
  pieces_of f = Some ps -> simple_fmt ps args = true -> Forall arg_ok args ->
  exists s, format f args = Some s /\ (slen s <= lits_len ps + args_len args)%Z.
Proof. intros Hp Hf Ha. unfold format. rewrite Hp. by apply render_simple. Qed.
