(* ===== verification/EchoCgi.v ===== *)
(** * demo/fastcgi_demo.c: the FastCGI echo program

    The program serves requests until the web server shuts it down: for every
    request it prints a page with a running number, the first CONTENT_LENGTH
    bytes of the standard input and two environments.  It may run for ever, so
    it is an interaction tree: the events are the calls of fcgi_stdio, and
    [serve_requests] interprets them over a world with a (possibly infinite)
    sequence of requests.  [page] says what the page of a request is. *)

From S2P Require Import Prelude CLib.
From ITree Require Import ITree ITreeFacts Events.State Events.StateFacts.

Declare Scope cgi_scope.
Notation "x <- m ;; f" := (ITree.bind m (fun x => f))
  (at level 100, m at next level, right associativity) : cgi_scope.
Notation "m ;;; f" := (ITree.bind m (fun _ => f))
  (at level 100, right associativity) : cgi_scope.
#[local] Open Scope cgi_scope.

(** ** Data *)

(** An environment is the list of the texts NAME=value in [environ]. *)
Definition environment := list string.

Record request := mkRequest { r_env : environment; r_stdin : string }.

(** [FCGI_Accept] waits for a request and replaces [environ] and the standard
    streams ([None]: it answers a negative number, the process is to end);
    [getchar] is negative ([None]) at the end of the input. *)
Variant cgiE : Type -> Type :=
| FCGI_Accept : cgiE (option environment)
| Getchar : cgiE (option ascii)
| Putchar (c : ascii) : cgiE unit
| Puts (s : string) : cgiE unit
| Getpid : cgiE Z
| Undefined : cgiE void.

Notation cgi := (itree cgiE).

(** A conversion without its argument is undefined. *)
Definition printf (f : string) (args : list arg) : cgi unit :=
  match format f args with
  | Some s => ITree.trigger (Puts s)
  | None => ITree.bind (ITree.trigger Undefined) (fun v : void => match v with end)
  end.

Definition lf : string := String LF EmptyString.

(** [getenv]: the value of the first entry of that name. *)
Fixpoint getenv (env : environment) (name : string) : option string :=
  match env with
  | [] => None
  | e :: env' =>
      if String.prefix (name +:+ "=") e then Some (sdrop (S (String.length name)) e)
      else getenv env' name
  end.

(** ** The program *)

Fixpoint print_entries (envp : environment) : cgi unit :=
  match envp with
  | [] => Ret tt
  | e :: envp' => printf ("%s" +:+ lf) [AStr e] ;;; print_entries envp'
  end.

Definition PrintEnv (label : string) (envp : environment) : cgi unit :=
  printf ("%s:<br>" +:+ lf +:+ "<pre>" +:+ lf) [AStr label] ;;;
  print_entries envp ;;;
  printf ("</pre><p>" +:+ lf) [].

(** [for (i = 0; i < len; i++)]: at most [n] more bytes are copied. *)
Fixpoint copy_input (n : nat) : cgi unit :=
  match n with
  | O => Ret tt
  | S n' =>
      ch <- ITree.trigger Getchar ;;
      match ch with
      | None => printf ("Error: Not enough bytes received on standard input<p>" +:+ lf) []
      | Some c => ITree.trigger (Putchar c) ;;; copy_input n'
      end
  end.

Definition content_length (env : environment) : Z :=
  match getenv env "CONTENT_LENGTH" with
  | Some s => int32 (strtol s)
  | None => 0
  end.

Definition show_input (len : Z) : cgi unit :=
  if (len <=? 0)%Z then printf ("No data from standard input.<p>" +:+ lf) []
  else
    printf ("Standard input:<br>" +:+ lf +:+ "<pre>" +:+ lf) [] ;;;
    copy_input (Z.to_nat len) ;;;
    printf (lf +:+ "</pre><p>" +:+ lf) [].

(** The body of the loop, once a request has been accepted. *)
Definition answer_request (initialEnv env : environment) (count : Z) : cgi Z :=
  let count := int32 (count + 1) in
  pid <- ITree.trigger Getpid ;;
  printf ("Content-type: text/html" +:+ CRLF +:+ CRLF +:+ "<title>FastCGI echo</title>"
            +:+ "<h1>FastCGI echo</h1>" +:+ lf
            +:+ "Request number %d,  Process ID: %d<p>" +:+ lf) [AInt count; AInt pid] ;;;
  show_input (content_length env) ;;;
  PrintEnv "Request environment" env ;;;
  PrintEnv "Initial environment" initialEnv ;;;
  Ret count.

(** [while (FCGI_Accept() >= 0) ...; return 0]. *)
Definition serve (initialEnv : environment) : Z -> cgi Z :=
  ITree.iter (fun count =>
    acc <- ITree.trigger FCGI_Accept ;;
    match acc with
    | None => Ret (inr 0%Z)
    | Some env => count' <- answer_request initialEnv env count ;; Ret (inl count')
    end).

Definition main (initialEnv : environment) : cgi Z := serve initialEnv 0.

(** ** The world the program runs in *)

Record world := mkWorld {
  w_requests : nat -> option request;  (* the answers of FCGI_Accept, in order *)
  w_accepted : nat;                    (* how many it has given *)
  w_stdin : string;                    (* what is left of the input *)
  w_out : string;                      (* all output so far *)
  w_pid : Z }.

Definition put (s : string) (w : world) : world :=
  mkWorld (w_requests w) (w_accepted w) (w_stdin w) (w_out w +:+ s) (w_pid w).
Definition with_stdin (s : string) (w : world) : world :=
  mkWorld (w_requests w) (w_accepted w) s (w_out w) (w_pid w).
Definition accepted (r : request) (w : world) : world :=
  mkWorld (w_requests w) (S (w_accepted w)) (r_stdin r) (w_out w) (w_pid w).

(** Undefined behaviour has no result. *)
Definition serve_requests : cgiE ~> Monads.stateT world (itree void1) :=
  fun _ e w =>
    match e with
    | FCGI_Accept =>
        match w_requests w (w_accepted w) with
        | None => Ret (w, None)
        | Some r => Ret (accepted r w, Some (r_env r))
        end
    | Getchar =>
        match w_stdin w with
        | EmptyString => Ret (w, None)
        | String c s => Ret (with_stdin s w, Some c)
        end
    | Putchar c => Ret (put (String c EmptyString) w, tt)
    | Puts s => Ret (put s w, tt)
    | Getpid => Ret (w, w_pid w)
    | Undefined => ITree.spin
    end.

Notation run p w := (interp_state serve_requests p w).

(** [p], started in [w], ends in [w'] with result [a]. *)
Definition yields {A} (p : cgi A) (w w' : world) (a : A) : Prop := run p w ≈ Ret (w', a).

(** ** The page of a request *)

Fixpoint env_text (env : environment) : string :=
  match env with
  | [] => EmptyString
  | e :: env' => e +:+ lf +:+ env_text env'
  end.

Definition env_block (label : string) (env : environment) : string :=
  label +:+ ":<br>" +:+ lf +:+ "<pre>" +:+ lf +:+ env_text env +:+ "</pre><p>" +:+ lf.

(** The echo: the first [n] bytes, with a message when there are fewer. *)
Definition echo (n : nat) (input : string) : string :=
  stake n input
  +:+ (if (String.length input <? n)%nat
       then "Error: Not enough bytes received on standard input<p>" +:+ lf else EmptyString).

Definition input_block (len : Z) (input : string) : string :=
  if (len <=? 0)%Z then "No data from standard input.<p>" +:+ lf
  else "Standard input:<br>" +:+ lf +:+ "<pre>" +:+ lf
       +:+ echo (Z.to_nat len) input +:+ lf +:+ "</pre><p>" +:+ lf.

Definition page (initialEnv : environment) (pid number : Z) (r : request) : string :=
  "Content-type: text/html" +:+ CRLF +:+ CRLF
  +:+ "<title>FastCGI echo</title><h1>FastCGI echo</h1>" +:+ lf
  +:+ "Request number " +:+ dec_string number +:+ ",  Process ID: " +:+ dec_string pid +:+ "<p>" +:+ lf
  +:+ input_block (content_length (r_env r)) (r_stdin r)
  +:+ env_block "Request environment" (r_env r)
  +:+ env_block "Initial environment" initialEnv.

(** The pages of [n] requests from the [k]-th on: the [k]-th has number [k + 1],
    as an [int]. *)
Fixpoint pages (initialEnv : environment) (pid : Z) (reqs : nat -> option request)
    (k n : nat) : string :=
  match n with
  | O => EmptyString
  | S n' =>
      match reqs k with
      | Some r =>
          page initialEnv pid (int32 (Z.of_nat (S k))) r +:+ pages initialEnv pid reqs (S k) n'
      | None => EmptyString
      end
  end.

(** ** Proofs *)

Lemma yields_ret {A} (a : A) w : yields (Ret a) w w a.
Proof. unfold yields. rewrite interp_state_ret. reflexivity. Qed.

Lemma run_step {A B} (m : cgi A) (f : A -> cgi B) w w1 a :
  yields m w w1 a -> run (ITree.bind m f) w ≈ run (f a) w1.
Proof.
  unfold yields. intros H. rewrite interp_state_bind, H, bind_ret_l. reflexivity.
Qed.

Lemma yields_then {A B} (m : cgi A) (f : A -> cgi B) w w1 w2 a b :
  yields m w w1 a -> yields (f a) w1 w2 b -> yields (ITree.bind m f) w w2 b.
Proof. intros H1 H2. unfold yields. rewrite (run_step _ _ _ _ _ H1). exact H2. Qed.

Lemma yields_event {A} (e : cgiE A) w w' a :
  serve_requests _ e w = Ret (w', a) -> yields (ITree.trigger e) w w' a.
Proof. intros H. unfold yields. rewrite interp_state_trigger, H. reflexivity. Qed.

Lemma yields_printf f args s w :
  format f args = Some s -> yields (printf f args) w (put s w) tt.
Proof. intros H. unfold printf. rewrite H. by apply yields_event. Qed.

Lemma put_put a b w : put b (put a w) = put (a +:+ b) w.
Proof. unfold put. simpl. by rewrite string_app_assoc. Qed.

Lemma put_nil w : put EmptyString w = w.
Proof. unfold put. rewrite string_app_nil_r. by destruct w. Qed.

(** A program that only prints. *)
Definition prints (p : cgi unit) (s : string) : Prop := forall w, yields p w (put s w) tt.

Lemma prints_ret : prints (Ret tt) EmptyString.
Proof. intros w. rewrite put_nil. apply yields_ret. Qed.

Lemma prints_printf f args s : format f args = Some s -> prints (printf f args) s.
Proof. intros H w. by apply yields_printf. Qed.

Lemma prints_seq p q a b : prints p a -> prints q b -> prints (p ;;; q) (a +:+ b).
Proof. intros Hp Hq w. eapply yields_then; [apply Hp|]. rewrite <- put_put. apply Hq. Qed.

Lemma print_entries_spec env : prints (print_entries env) (env_text env).
Proof.
  induction env as [|e env IH]; simpl; [apply prints_ret|].
  rewrite string_app_assoc. apply prints_seq; [|done]. by apply prints_printf.
Qed.

Lemma PrintEnv_spec label env : prints (PrintEnv label env) (env_block label env).
Proof.
  unfold PrintEnv, env_block.
  replace (label +:+ _) with
    ((label +:+ ":<br>" +:+ lf +:+ "<pre>" +:+ lf) +:+ env_text env +:+ "</pre><p>" +:+ lf)
    by (by rewrite !string_app_assoc).
  apply prints_seq; [by apply prints_printf|].
  apply prints_seq; [apply print_entries_spec|by apply prints_printf].
Qed.

Lemma copy_input_spec n w :
  yields (copy_input n) w (with_stdin (sdrop n (w_stdin w)) (put (echo n (w_stdin w)) w)) tt.
Proof.
  revert w. induction n as [|n IH]; intros w; simpl.
  - unfold echo. simpl. replace (with_stdin _ _) with w; [apply yields_ret|].
    destruct w as [rs k [|c i] out pid]; unfold with_stdin, put; simpl; by rewrite string_app_nil_r.
  - destruct w as [rs k i out pid]. simpl. destruct i as [|c i].
    + eapply yields_then; [by apply yields_event|]. simpl.
      match goal with |- yields _ ?v ?v' _ => change v' with (put (echo (S n) EmptyString) v) end.
      by apply yields_printf.
    + eapply yields_then; [by apply yields_event|]. simpl.
      eapply yields_then; [by apply yields_event|].
      match goal with |- yields _ ?v _ _ => pose proof (IH v) as Hc end.
      unfold with_stdin, put, echo in *. simpl in *. rewrite <- string_app_assoc in Hc. exact Hc.
Qed.

Lemma format_head count pid :
  format ("Content-type: text/html" +:+ CRLF +:+ CRLF +:+ "<title>FastCGI echo</title>"
            +:+ "<h1>FastCGI echo</h1>" +:+ lf
            +:+ "Request number %d,  Process ID: %d<p>" +:+ lf) [AInt count; AInt pid]
  = Some ("Content-type: text/html" +:+ CRLF +:+ CRLF
      +:+ "<title>FastCGI echo</title><h1>FastCGI echo</h1>" +:+ lf
      +:+ "Request number " +:+ dec_string count +:+ ",  Process ID: " +:+ dec_string pid
      +:+ "<p>" +:+ lf).
Proof. rewrite <- !(pad_dec_0 count), <- !(pad_dec_0 pid). reflexivity. Qed.

Lemma show_input_spec len w :
  yields (show_input len) w
    (with_stdin (sdrop (Z.to_nat len) (w_stdin w)) (put (input_block len (w_stdin w)) w)) tt.
Proof.
  unfold show_input, input_block. destruct (Z.leb_spec len 0) as [Hn|Hn].
  - replace (Z.to_nat len) with O by lia.
    match goal with |- yields _ w ?v' _ => replace v' with (put ("No data from standard input.<p>" +:+ lf) w) end;
      [by apply yields_printf|destruct w as [rs k [|c i] out pid]; done].
  - eapply yields_then; [by apply yields_printf|].
    eapply yields_then; [apply copy_input_spec|].
    match goal with |- yields _ ?v ?v' _ => replace v' with (put (lf +:+ "</pre><p>" +:+ lf) v) end;
      [by apply yields_printf|].
    destruct w as [rs k i out pid]. unfold with_stdin, put. simpl. by rewrite <- !string_app_assoc.
Qed.

(** What is left of the input once the page of [r] is printed. *)
Definition leftover (r : request) : string := sdrop (Z.to_nat (content_length (r_env r))) (r_stdin r).

Lemma answer_request_spec initialEnv r count w :
  w_stdin w = r_stdin r ->
  yields (answer_request initialEnv (r_env r) count) w
    (with_stdin (leftover r) (put (page initialEnv (w_pid w) (int32 (count + 1)) r) w))
    (int32 (count + 1)).
Proof.
  intros Hin. unfold answer_request.
  eapply yields_then; [by apply yields_event|]. cbv beta.
  eapply yields_then; [apply yields_printf, format_head|].
  eapply yields_then; [apply show_input_spec|].
  eapply yields_then; [apply PrintEnv_spec|].
  eapply yields_then; [apply PrintEnv_spec|].
  match goal with |- yields _ ?v ?v' _ => replace v' with v; [apply yields_ret|] end.
  destruct w as [rs k i out pid]. simpl in Hin. subst i.
  unfold leftover, with_stdin, put, page. cbn [w_stdin w_out w_pid w_requests w_accepted].
  by rewrite <- !string_app_assoc.
Qed.

(** One round of the loop. *)
Lemma serve_round initialEnv count w :
  run (serve initialEnv count) w
  ≈ match w_requests w (w_accepted w) with
    | None => Ret (w, 0%Z)
    | Some r =>
        run (serve initialEnv (int32 (count + 1)))
          (with_stdin (leftover r)
             (put (page initialEnv (w_pid w) (int32 (count + 1)) r) (accepted r w)))
    end.
Proof.
  unfold serve at 1. rewrite unfold_iter, bind_bind.
  destruct (w_requests w (w_accepted w)) as [r|] eqn:E.
  - rewrite (run_step _ _ w (accepted r w) (Some (r_env r)))
      by (apply yields_event; simpl; by rewrite E).
    rewrite bind_bind.
    rewrite (run_step _ _ _ _ _ (answer_request_spec initialEnv r count (accepted r w) eq_refl)).
    rewrite bind_ret_l, interp_state_tau, tau_eutt. reflexivity.
  - rewrite (run_step _ _ w w None) by (apply yields_event; simpl; by rewrite E).
    rewrite bind_ret_l, interp_state_ret. reflexivity.
Qed.

(** The world after [n] requests have been answered. *)
Definition answered (initialEnv : environment) (n : nat) (w : world) (input : string) : world :=
  mkWorld (w_requests w) (w_accepted w + n) input
    (w_out w +:+ pages initialEnv (w_pid w) (w_requests w) (w_accepted w) n) (w_pid w).

Lemma int32_succ k : int32 (int32 (Z.of_nat k) + 1) = int32 (Z.of_nat (S k)).
Proof.
  unfold int32. replace (_ - 2147483648 + 1 + 2147483648)%Z
    with ((Z.of_nat k + 2147483648) mod 4294967296 + 1)%Z by lia.
  rewrite Z.add_mod_idemp_l by lia. do 2 f_equal. lia.
Qed.

Lemma serve_prefix initialEnv n w :
  (forall i, (i < n)%nat -> is_Some (w_requests w (w_accepted w + i))) ->
  exists input,
    run (serve initialEnv (int32 (Z.of_nat (w_accepted w)))) w
    ≈ run (serve initialEnv (int32 (Z.of_nat (w_accepted w + n))))
        (answered initialEnv n w input).
Proof.
  revert w. induction n as [|n IH]; intros w Hreq.
  - exists (w_stdin w). unfold answered. simpl. rewrite string_app_nil_r, Nat.add_0_r.
    by destruct w.
  - destruct (Hreq O) as [r Hr]; [lia|]. rewrite Nat.add_0_r in Hr.
    edestruct (IH (with_stdin (leftover r)
      (put (page initialEnv (w_pid w) (int32 (Z.of_nat (S (w_accepted w)))) r) (accepted r w))))
      as [input Hrun].
    { intros i Hi. simpl. replace (S (w_accepted w + i)) with (w_accepted w + S i)%nat by lia.
      apply Hreq. lia. }
    exists input. rewrite serve_round, Hr, int32_succ, Hrun.
    unfold answered. simpl. rewrite Hr, string_app_assoc.
    replace (S (w_accepted w + n)) with (w_accepted w + S n)%nat by lia. reflexivity.
Qed.

(** The world in which the program starts. *)
Definition start (pid : Z) (reqs : nat -> option request) : world :=
  mkWorld reqs 0 EmptyString EmptyString pid.

(** C38: However long it runs, the echo program answers the requests in order:
    after the first [n] of any sequence of requests, finite or not, it has
    printed exactly their pages, and is about to wait for the next one; when
    there is none, it ends with status 0.  The page of a request has its
    number, the first CONTENT_LENGTH bytes of its input (with a message when
    there are fewer) and the two environments. *)
Theorem echo_serves initialEnv pid reqs n :
  (forall i, (i < n)%nat -> is_Some (reqs i)) ->
  exists input,
    let w := mkWorld reqs n input (pages initialEnv pid reqs 0 n) pid in
    run (main initialEnv) (start pid reqs) ≈ run (serve initialEnv (int32 (Z.of_nat n))) w
    /\ (reqs n = None -> yields (main initialEnv) (start pid reqs) w 0%Z).
Proof.
  intros Hreq. destruct (serve_prefix initialEnv n (start pid reqs) Hreq) as [input Hrun].
  exists input. simpl. split; [exact Hrun|]. intros Hn.
  unfold yields, main. change 0%Z with (int32 (Z.of_nat (w_accepted (start pid reqs)))) at 1.
  rewrite Hrun. unfold answered. simpl. rewrite serve_round. simpl. by rewrite Hn.
Qed.

(** Two requests: one with a body that is too short, one without. *)
Definition two_requests (i : nat) : option request :=
  match i with
  | O => Some (mkRequest ["CONTENT_LENGTH=5"; "REQUEST_METHOD=POST"] "abc")
  | S O => Some (mkRequest ["REQUEST_METHOD=GET"] "ignored")
  | _ => None
  end.

Lemma echo_serves_witness :
  exists w, w_out w = pages ["HOME=/"] 7 two_requests 0 2
            /\ yields (main ["HOME=/"]) (start 7 two_requests) w 0%Z.
Proof.
  destruct (echo_serves ["HOME=/"] 7 two_requests 2) as (input & _ & H).
  - intros [|[|i]] Hi; [eexists; reflexivity|eexists; reflexivity|lia].
  - eexists. split; [|apply H; reflexivity]. reflexivity.
Defined.

Example echo_short_page :
  input_block (content_length ["CONTENT_LENGTH=5"; "REQUEST_METHOD=POST"]) "abc"
  = "Standard input:<br>" +:+ lf +:+ "<pre>" +:+ lf +:+ "abc"
    +:+ "Error: Not enough bytes received on standard input<p>" +:+ lf +:+ lf
    +:+ "</pre><p>" +:+ lf.
Proof. reflexivity. Qed.
