(* ===== verification/UtilCgi.v ===== *)
(** * String utilities of the CGI programs (src/src/common/util_cgi.c)

    [trim_space], [memstr], [query_parse_key_value], [get_file_suffix] and
    [str_replace] as functions on byte strings, with their specifications.
    Writes past the caller's buffer are checked by the callers (file
    [CProg]); reads past the terminator are the outcome [Undef] here. *)

From S2P Require Import Prelude CLib.

Inductive outcome (A : Type) : Type :=
| Ok (a : A)
| Err
| Undef.
Arguments Ok {A} a.
Arguments Err {A}.
Arguments Undef {A}.

(** ** trim_space *)

(** First loop: number of leading blanks. *)
Fixpoint trim_front (str : string) : nat :=
  match str with
  | String c str' => if isspace c && negb (Ascii.eqb c NUL) then S (trim_front str') else O
  | EmptyString => O
  end.

(** Second loop: move [j] left over blanks while [j > i]. *)
Fixpoint trim_back (str : string) (i j : nat) : nat :=
  match j with
  | O => O
  | S j' => if isspace (char_at str j) && (i <? j)%nat then trim_back str i j' else j
  end.

(** The new content of [inbuf].  The first branch is [strlen (inbuf) == 0],
    where [j] is -1 and [count] is 0. *)
Definition trim_space (inbuf : string) : string :=
  match String.length inbuf with
  | O => EmptyString
  | S j0 =>
      let i := trim_front inbuf in
      let j := trim_back inbuf i j0 in
      let count := (Z.of_nat j - Z.of_nat i + 1)%Z in
      stake (Z.to_nat count) (sdrop i inbuf)
  end.

(** ** memstr *)

Fixpoint memstr_loop (n : nat) (cur substr : string) (i : nat) : option nat :=
  match n with
  | O => None
  | S n' =>
      if Ascii.eqb (char_at cur 0) (char_at substr 0) && String.prefix substr cur
      then Some i
      else memstr_loop n' (sdrop 1 cur) substr (S i)
  end.

(** Offset in [full_data] of the match, [None] for NULL. *)
Definition memstr (full_data : string) (full_data_len : Z) (substr : string) : option nat :=
  if (full_data_len <=? 0)%Z then None
  else match substr with
  | EmptyString => None
  | _ =>
      let sublen := slen substr in
      let last_possible := (full_data_len - sublen + 1)%Z in
      memstr_loop (Z.to_nat last_possible) full_data substr 0
  end.

(** ** query_parse_key_value *)

Definition value_end (c : ascii) : bool :=
  Ascii.eqb c NUL || Ascii.eqb c "#" || Ascii.eqb c "&".

Fixpoint take_value (s : string) : string :=
  match s with
  | String c s' => if value_end c then EmptyString else String c (take_value s')
  | EmptyString => EmptyString
  end.

(** [Err] is the return value -1; [Undef] is the read past the terminator
    when the key is the very end of the query ([temp++] skips the NUL). *)
Definition query_parse_key_value (query key : string) : outcome string :=
  match strstr query key with
  | None => Err
  | Some t =>
      let temp := (t + String.length key)%nat in
      if (String.length query <? temp + 1)%nat then Undef
      else Ok (take_value (sdrop (temp + 1) query))
  end.

(** ** get_file_suffix *)

(** [k] moves left from the end of the name to a dot or to the start. *)
Fixpoint back_to_dot (p : string) (k : nat) : nat :=
  match k with
  | O => O
  | S k' => if Ascii.eqb (char_at p k) "." then k else back_to_dot p k'
  end.

Definition get_file_suffix (file_name : string) : string :=
  let q := String.length file_name in
  let k := back_to_dot file_name q in
  if Ascii.eqb (char_at file_name k) "."
  then (if (q - (k + 1) =? 0)%nat then "null" else sdrop (k + 1) file_name)
  else "null".

(** ** str_replace *)

Fixpoint str_replace_loop (fuel : nat) (strSrc strFind strReplace : string) : string :=
  match fuel with
  | O => strSrc
  | S fuel' =>
      match strSrc with
      | EmptyString => EmptyString
      | String c rest =>
          if Ascii.eqb c (char_at strFind 0) then
            if String.prefix strFind strSrc
            then strReplace +:+ str_replace_loop fuel' (sdrop (String.length strFind) strSrc)
                                                 strFind strReplace
            else String c (str_replace_loop fuel' rest strFind strReplace)
          else String c (str_replace_loop fuel' rest strFind strReplace)
      end
  end.

Definition str_replace (strSrc strFind strReplace : string) : string :=
  str_replace_loop (S (String.length strSrc)) strSrc strFind strReplace.

(** ** Properties of trim_space *)

Lemma isspace_not_nul c : isspace c = true -> Ascii.eqb c NUL = false.
Proof.
  intros H. apply Ascii.eqb_neq. intros ->. by vm_compute in H.
Qed.

(** The leading blanks are exactly the first [trim_front s] characters. *)
Lemma trim_front_split s :
  sforall isspace (stake (trim_front s) s) = true
  /\ match sdrop (trim_front s) s with
     | EmptyString => True
     | String c _ => isspace c = false
     end.
Proof.
  induction s as [|c s [IH1 IH2]]; [done|]. simpl.
  destruct (isspace c) eqn:E; simpl; [|by rewrite E].
  rewrite isspace_not_nul by done. simpl. by rewrite E, IH1.
Qed.

Lemma trim_back_le s i j : (trim_back s i j <= j)%nat.
Proof.
  induction j as [|j IH]; [done|]. cbn [trim_back].
  destruct (isspace (char_at s (S j)) && (i <? S j)%nat); lia.
Qed.

(** Where the second loop stops: at [i] or at a character that is no blank,
    with only blanks to its right. *)
Lemma trim_back_spec s i j :
  (i <= j)%nat ->
  (i <= trim_back s i j)%nat
  /\ (forall k, (trim_back s i j < k <= j)%nat -> isspace (char_at s k) = true)
  /\ (trim_back s i j = i \/ isspace (char_at s (trim_back s i j)) = false).
Proof.
  intros Hij. induction j as [|j IH].
  - simpl. split; [lia|]. split; [intros; lia|]. left. lia.
  - cbn [trim_back]. destruct (isspace (char_at s (S j))) eqn:E; simpl.
    + destruct (Nat.ltb_spec i (S j)).
      * destruct IH as (H1 & H2 & H3); [lia|]. split; [done|]. split; [|done].
        intros k Hk. destruct (Nat.eq_dec k (S j)) as [->|]; [done|]. apply H2. lia.
      * split; [lia|]. split; [intros; lia|]. left. lia.
    + split; [lia|]. split; [intros; lia|]. by right.
Qed.

Lemma char_at_sdrop s i k : char_at (sdrop i s) k = char_at s (i + k).
Proof.
  revert s. induction i as [|i IH]; intros s; [done|].
  destruct s as [|c s]; [by destruct k|]. simpl. rewrite IH. done.
Qed.

Lemma char_at_stake s n k : (k < n)%nat -> char_at (stake n s) k = char_at s k.
Proof.
  revert s k. induction n as [|n IH]; intros s k Hk; [lia|].
  destruct s as [|c s]; [done|]. destruct k as [|k]; [done|].
  unfold char_at in *. simpl. apply IH. lia.
Qed.

(** A string all of whose positions hold blanks is blank. *)
Lemma sforall_char_at p s :
  (forall k, (k < String.length s)%nat -> p (char_at s k) = true) -> sforall p s = true.
Proof.
  induction s as [|c s IH]; [done|]. intros H. simpl.
  assert (p c = true) as -> by (apply (H 0%nat); simpl; lia). simpl.
  apply IH. intros k Hk. apply (H (S k)). simpl. lia.
Qed.

(** [trimmed r]: [r] neither starts nor ends with a blank. *)
Definition trimmed (r : string) : Prop :=
  r = EmptyString
  \/ (isspace (char_at r 0) = false /\ isspace (char_at r (String.length r - 1)) = false).

Lemma trim_space_shape s :
  exists a b, s = a +:+ trim_space s +:+ b
    /\ sforall isspace a = true /\ sforall isspace b = true /\ trimmed (trim_space s).
Proof.
  unfold trim_space. destruct (String.length s) as [|j0] eqn:Hlen.
  { destruct s; [|done]. exists EmptyString, EmptyString. repeat split. by left. }
  set (i := trim_front s). set (j := trim_back s i j0).
  destruct (trim_front_split s) as [Ha Hb]. fold i in Ha, Hb.
  exists (stake i s).
  destruct (Nat.le_gt_cases i j0) as [Hij|Hij].
  - destruct (trim_back_spec s i j0 Hij) as (H1 & H2 & H3). fold j in H1, H2, H3.
    pose proof (trim_back_le s i j0) as Hj. fold j in Hj.
    replace (Z.to_nat (Z.of_nat j - Z.of_nat i + 1)) with (S (j - i)) by lia.
    set (n := S (j - i)).
    exists (sdrop n (sdrop i s)). split; [by rewrite !stake_sdrop|]. split; [done|]. split.
    + apply sforall_char_at. intros k Hk. rewrite !sdrop_length in Hk.
      rewrite !char_at_sdrop. apply H2. lia.
    + right. assert (isspace (char_at s i) = false) as Hi.
      { assert (String.length (sdrop i s) = (String.length s - i)%nat) by apply sdrop_length.
        destruct (sdrop i s) as [|c r] eqn:Es; [simpl in *; lia|].
        replace i with (i + 0)%nat by lia. rewrite <- char_at_sdrop, Es. done. }
      rewrite stake_length, sdrop_length, !char_at_stake, !char_at_sdrop by lia.
      split; [by rewrite Nat.add_0_r|].
      replace (i + (n `min` (String.length s - i) - 1))%nat with j by lia.
      destruct H3 as [->|]; done.
  - assert (j = j0) as ->.
    { unfold j. destruct j0; [done|]. cbn [trim_back].
      destruct (Nat.ltb_spec i (S j0)); [lia|]. by rewrite andb_false_r. }
    replace (Z.to_nat (Z.of_nat j0 - Z.of_nat i + 1)) with 0%nat by lia.
    exists (sdrop i s). split; [by rewrite stake_sdrop|]. split; [done|].
    split; [|by left]. assert (sdrop i s = EmptyString) as ->; [|done].
    assert (String.length (sdrop i s) = 0)%nat by (rewrite sdrop_length; lia).
    by destruct (sdrop i s).
Qed.

Lemma trim_front_app a s :
  sforall isspace a = true ->
  match s with EmptyString => True | String c _ => isspace c = false end ->
  trim_front (a +:+ s) = String.length a.
Proof.
  intros Ha Hs. induction a as [|c a IH].
  - rewrite string_app_nil_l. destruct s as [|c s]; [done|]. simpl. by rewrite Hs.
  - rewrite string_app_cons. simpl in *. apply andb_prop in Ha as [Hc Ha].
    rewrite Hc, isspace_not_nul by done. simpl. by rewrite IH.
Qed.

Lemma char_at_app_r a s k : char_at (a +:+ s) (String.length a + k) = char_at s k.
Proof. rewrite <- char_at_sdrop, sdrop_app. done. Qed.

Lemma char_at_app_l a s k : (k < String.length a)%nat -> char_at (a +:+ s) k = char_at a k.
Proof.
  intros Hk. rewrite <- (char_at_stake (a +:+ s) (String.length a)) by done. by rewrite stake_app.
Qed.

Lemma sforall_char_at_inv p s k :
  sforall p s = true -> (k < String.length s)%nat -> p (char_at s k) = true.
Proof.
  revert k. induction s as [|c s IH]; intros k Hs Hk; simpl in *; [lia|].
  apply andb_prop in Hs as [Hc Hs]. destruct k; [done|]. apply (IH k); [done|lia].
Qed.

Lemma trim_space_around a r b :
  sforall isspace a = true -> sforall isspace b = true -> trimmed r ->
  trim_space (a +:+ r +:+ b) = r.
Proof.
  intros Ha Hb Hr. set (s := a +:+ r +:+ b).
  destruct (decide (r = EmptyString)) as [->|Hne].
  - destruct (trim_space_shape s) as (a' & b' & Hs & _ & _ & [H|[H _]]); [done|].
    assert (sforall isspace s = true) as Hall.
    { unfold s. rewrite string_app_nil_l, sforall_app, Ha. done. }
    rewrite Hs, !sforall_app in Hall. destruct (trim_space s) as [|c t]; [done|].
    change (isspace c = false) in H.
    simpl in Hall. split_andb. congruence.
  - destruct Hr as [|[Hfirst Hlast]]; [done|].
    assert (0 < String.length r)%nat by (destruct r; [done|simpl; lia]).
    assert (trim_front s = String.length a) as Hi.
    { apply trim_front_app; [done|]. destruct r; [done|]. rewrite string_app_cons. done. }
    assert (String.length s = String.length a + String.length r + String.length b)%nat as Hlen.
    { unfold s. rewrite !string_length_app. lia. }
    unfold trim_space. rewrite Hi. destruct (String.length s) as [|j0] eqn:El; [lia|].
    set (i := String.length a). set (j := trim_back s i j0).
    destruct (trim_back_spec s i j0) as (H1 & H2 & H3); [lia|]. fold j in H1, H2, H3.
    pose proof (trim_back_le s i j0) as Hj. fold j in Hj.
    set (e := (i + (String.length r - 1))%nat).
    assert (isspace (char_at s e) = false) as He.
    { unfold e, s, i. rewrite char_at_app_r, char_at_app_l by lia. done. }
    assert (forall k, (e < k <= j0)%nat -> isspace (char_at s k) = true) as Hright.
    { intros k Hk. unfold s.
      replace k with (String.length a + (String.length r + (k - e - 1)))%nat by lia.
      rewrite !char_at_app_r. apply sforall_char_at_inv; [done|lia]. }
    assert (isspace (char_at s i) = false) as Hi0.
    { pose proof (char_at_app_r a (r +:+ b) 0) as E0. rewrite Nat.add_0_r in E0.
      unfold s, i. rewrite E0, char_at_app_l by lia. done. }
    assert (j = e) as ->.
    { destruct (Nat.lt_trichotomy j e) as [Hlt|[|Hgt]]; [|done|].
      - rewrite H2 in He by lia. done.
      - destruct H3 as [Hji|H3]; [lia|]. rewrite Hright in H3 by lia. done. }
    replace (Z.to_nat (Z.of_nat e - Z.of_nat i + 1)) with (String.length r) by lia.
    unfold s, i. by rewrite sdrop_app, stake_app.
Qed.

(** [trim_space] removes exactly the blanks at both ends: applied to any
    text [r] that neither starts nor ends with a blank, surrounded by blanks
    on both sides, it leaves [r]; in particular it is idempotent and maps an
    all-blank buffer to the empty string. *)
Theorem trim_space_spec a r b :
  sforall isspace a = true -> sforall isspace b = true -> trimmed r ->
  trim_space (a +:+ r +:+ b) = r.
Proof. apply trim_space_around. Qed.

Lemma trim_space_spec_witness : trim_space "  a b	" = "a b".
Proof.
  apply (trim_space_spec "  " "a b" "	"); [reflexivity|reflexivity|].
  right. split; reflexivity.
Defined.

(** ** Properties of memstr *)

Lemma memstr_loop_some n cur sub i r :
  memstr_loop n cur sub i = Some r ->
  exists k, r = (i + k)%nat /\ (k < n)%nat /\ String.prefix sub (sdrop k cur) = true
    /\ (forall k', (k' < k)%nat -> String.prefix sub (sdrop k' cur) = true ->
        char_at (sdrop k' cur) 0 <> char_at sub 0).
Proof.
  revert cur i. induction n as [|n IH]; intros cur i; [done|]. cbn [memstr_loop].
  destruct (Ascii.eqb (char_at cur 0) (char_at sub 0) && String.prefix sub cur) eqn:E.
  - intros [= <-]. apply andb_prop in E as [_ E]. exists 0%nat.
    split; [lia|]. split; [lia|]. split; [done|]. intros; lia.
  - intros (k & -> & Hk & Hp & Hmin)%IH. exists (S k). rewrite !sdrop_sdrop in *.
    split; [lia|]. split; [lia|]. split; [done|].
    intros [|k'] Hk' Hp'.
    + simpl in *. rewrite Hp', andb_true_r in E. by apply Ascii.eqb_neq in E.
    + specialize (Hmin k' ltac:(lia)). rewrite sdrop_sdrop in Hmin. by apply Hmin.
Qed.

Lemma memstr_loop_none n cur sub i k :
  memstr_loop n cur sub i = None -> (k < n)%nat ->
  String.prefix sub (sdrop k cur) = true -> char_at (sdrop k cur) 0 <> char_at sub 0.
Proof.
  revert cur i k. induction n as [|n IH]; intros cur i k; [lia|]. cbn [memstr_loop].
  destruct (Ascii.eqb (char_at cur 0) (char_at sub 0) && String.prefix sub cur) eqn:E; [done|].
  intros Hn Hk Hp. destruct k as [|k].
  - simpl in *. rewrite Hp, andb_true_r in E. by apply Ascii.eqb_neq in E.
  - specialize (IH (sdrop 1 cur) (S i) k Hn ltac:(lia)). rewrite sdrop_sdrop in IH. by apply IH.
Qed.

Lemma prefix_first sub s :
  sub <> EmptyString -> String.prefix sub s = true -> char_at s 0 = char_at sub 0.
Proof.
  intros Hne [r ->]%prefix_split. destruct sub; [done|]. by rewrite string_app_cons.
Qed.

(** [memstr] returns the offset of the first occurrence of a non-empty
    needle that lies entirely inside the first [len] bytes, and NULL exactly
    when there is none: the first-byte shortcut loses no match. *)
Theorem memstr_spec data len sub :
  sub <> EmptyString ->
  match memstr data len sub with
  | Some i =>
      (Z.of_nat i + slen sub <= len)%Z /\ String.prefix sub (sdrop i data) = true
      /\ (forall j, (j < i)%nat -> String.prefix sub (sdrop j data) = false)
  | None =>
      forall j, (Z.of_nat j + slen sub <= len)%Z -> String.prefix sub (sdrop j data) = false
  end.
Proof.
  intros Hne. unfold memstr. pose proof (slen_nonneg sub).
  destruct (Z.leb_spec len 0).
  { intros j Hj. destruct sub; [done|]. rewrite slen_cons in Hj. pose proof (slen_nonneg sub). lia. }
  assert (forall A (x y : A), match sub with EmptyString => x | _ => y end = y) as ->
    by (by destruct sub).
  destruct (memstr_loop _ _ _ _) as [i|] eqn:E.
  - apply memstr_loop_some in E as (k & -> & Hk & Hp & Hmin). simpl.
    split; [lia|]. split; [done|]. intros j Hj.
    destruct (String.prefix sub (sdrop j data)) eqn:Ep; [|done].
    exfalso. apply (Hmin j Hj Ep). by apply prefix_first.
  - intros j Hj. destruct (String.prefix sub (sdrop j data)) eqn:Ep; [|done].
    exfalso. eapply (memstr_loop_none _ _ _ _ j); eauto; [lia|]. by apply prefix_first.
Qed.

Lemma memstr_spec_witness :
  (2 + 3 <= 6)%Z /\ String.prefix "--b" "--b-" = true
  /\ (forall j, (j < 2)%nat -> String.prefix "--b" (sdrop j "ab--b-") = false).
Proof. exact (memstr_spec "ab--b-" 6 "--b" ltac:(discriminate)). Defined.

(** ** Properties of query_parse_key_value *)

Lemma take_value_app v rest :
  sforall (fun c => negb (value_end c)) v = true ->
  match rest with EmptyString => True | String c _ => value_end c = true end ->
  take_value (v +:+ rest) = v.
Proof.
  intros Hv Hr. induction v as [|c v IH].
  - rewrite string_app_nil_l. destruct rest as [|c rest]; [done|]. simpl. by rewrite Hr.
  - rewrite string_app_cons. simpl in *. apply andb_prop in Hv as [Hc Hv].
    apply negb_true_iff in Hc. by rewrite Hc, IH.
Qed.

Lemma strstr_prefix s needle : String.prefix needle s = true -> strstr s needle = Some 0%nat.
Proof. intros H. destruct s; cbn [strstr]; by rewrite H. Qed.

Lemma strstr_first pre needle rest :
  (forall j, (j < String.length pre)%nat ->
     String.prefix needle (sdrop j (pre +:+ needle +:+ rest)) = false) ->
  strstr (pre +:+ needle +:+ rest) needle = Some (String.length pre).
Proof.
  induction pre as [|c pre IH]; intros Hmin.
  - rewrite string_app_nil_l in *. apply strstr_prefix, prefix_app.
  - rewrite string_app_cons in *. cbn [strstr]. specialize (Hmin 0%nat ltac:(simpl; lia)) as H0.
    cbn [sdrop] in H0. rewrite H0, IH; [done|].
    intros j Hj. apply (Hmin (S j)). simpl. lia.
Qed.

(** A query in which the first occurrence of the key is followed by one
    separator and the value yields exactly the value, up to the next [&] or
    [#] or the end of the query. *)
Theorem query_parse_spec pre key sep v rest :
  (forall j, (j < String.length pre)%nat ->
     String.prefix key (sdrop j (pre +:+ key +:+ String sep (v +:+ rest))) = false) ->
  sforall (fun c => negb (value_end c)) v = true ->
  match rest with EmptyString => True | String c _ => value_end c = true end ->
  query_parse_key_value (pre +:+ key +:+ String sep (v +:+ rest)) key = Ok v.
Proof.
  intros Hmin Hv Hr. unfold query_parse_key_value. rewrite strstr_first by done.
  rewrite !string_length_app. cbn [String.length].
  destruct (Nat.ltb_spec (String.length pre + (String.length key + S (String.length (v +:+ rest))))
                         (String.length pre + String.length key + 1)); [lia|].
  f_equal. rewrite <- !sdrop_sdrop, !sdrop_app. cbn [sdrop]. by apply take_value_app.
Qed.

Lemma query_parse_spec_witness :
  query_parse_key_value "a=1&cmd=del&x=2" "cmd" = Ok "del".
Proof.
  apply (query_parse_spec "a=1&" "cmd" "=" "del" "&x=2"); [|reflexivity|reflexivity].
  intros j Hj. simpl in Hj. do 4 (destruct j; [reflexivity|]). lia.
Defined.

(** ** Properties of get_file_suffix *)

Definition no_dot (s : string) : bool := sforall (fun c => negb (Ascii.eqb c ".")) s.

Lemma back_to_dot_skip p k m :
  (forall i, (m < i <= k)%nat -> Ascii.eqb (char_at p i) "." = false) ->
  (m <= k)%nat -> back_to_dot p k = back_to_dot p m.
Proof.
  induction k as [|k IH]; intros H Hm; [by replace m with 0%nat by lia|].
  destruct (Nat.eq_dec m (S k)) as [->|]; [done|]. cbn [back_to_dot].
  rewrite (H (S k)) by lia. apply IH; [|lia]. intros i Hi. apply H. lia.
Qed.

Lemma char_at_end s : char_at s (String.length s) = NUL.
Proof. induction s; [done|]. exact IHs. Qed.

Lemma char_at_no_dot s i : no_dot s = true -> Ascii.eqb (char_at s i) "." = false.
Proof.
  intros Hs. destruct (Nat.lt_ge_cases i (String.length s)) as [Hi|Hi].
  - apply negb_true_iff. by apply (sforall_char_at_inv (fun c => negb (Ascii.eqb c "."))).
  - replace i with (String.length s + (i - String.length s))%nat by lia.
    rewrite <- (string_app_nil_r s) at 1. rewrite char_at_app_r. by destruct (i - String.length s)%nat.
Qed.

(** [get_file_suffix] is the text after the last dot of the name, and
    the word [null] when there is no dot or nothing after it. *)
Theorem get_file_suffix_spec base ext :
  no_dot ext = true ->
  get_file_suffix (base +:+ String "." ext) = (if streq ext EmptyString then "null" else ext)
  /\ get_file_suffix ext = "null".
Proof.
  intros Hext. split.
  - unfold get_file_suffix. set (s := base +:+ String "." ext).
    assert (String.length s = String.length base + S (String.length ext))%nat as Hlen
      by (unfold s; by rewrite string_length_app).
    assert (char_at s (String.length base) = ".")%char as Hdot.
    { pose proof (char_at_app_r base (String "." ext) 0) as E0. by rewrite Nat.add_0_r in E0. }
    assert (back_to_dot s (String.length s) = String.length base) as Hk.
    { rewrite (back_to_dot_skip _ _ (String.length base)); [|intros i Hi|lia].
      - destruct (String.length base) eqn:Eb; [done|]. cbn [back_to_dot].
        by rewrite Hdot.
      - unfold s. replace i with (String.length base + S (i - String.length base - 1))%nat by lia.
        rewrite char_at_app_r. apply (char_at_no_dot ext). done. }
    rewrite Hk, Hdot, Hlen, Ascii.eqb_refl.
    replace (String.length base + S (String.length ext) - (String.length base + 1))%nat
      with (String.length ext) by lia.
    destruct ext as [|c ext]; [done|]. unfold s. by rewrite <- sdrop_sdrop, sdrop_app.
  - unfold get_file_suffix. by rewrite char_at_no_dot.
Qed.

Lemma get_file_suffix_spec_witness :
  get_file_suffix "mike.doc.png" = "png" /\ get_file_suffix "png" = "null".
Proof. exact (get_file_suffix_spec "mike.doc" "png" eq_refl). Defined.

(** ** Properties of str_replace *)

(** The reference: scan left to right; at each position either an occurrence
    starts, which is replaced and skipped, or the character is kept. *)
Inductive replaced (f r : string) : string -> string -> Prop :=
| replaced_nil : replaced f r EmptyString EmptyString
| replaced_hit s s' :
    f <> EmptyString -> replaced f r s s' -> replaced f r (f +:+ s) (r +:+ s')
| replaced_keep c s s' :
    (f = EmptyString \/ String.prefix f (String c s) = false) ->
    replaced f r s s' -> replaced f r (String c s) (String c s').

Lemma str_replace_loop_replaced fuel s f r :
  no_nul s = true -> (String.length s < fuel)%nat -> replaced f r s (str_replace_loop fuel s f r).
Proof.
  revert s. induction fuel as [|fuel IH]; intros s Hs Hf; [lia|]. cbn [str_replace_loop].
  destruct s as [|c s]; [constructor|]. cbn [String.length] in Hf.
  assert (no_nul s = true /\ Ascii.eqb c NUL = false) as [Hs' Hc].
  { unfold no_nul in *. simpl in Hs. apply andb_prop in Hs as [H1 H2].
    by apply negb_true_iff in H1. }
  destruct (Ascii.eqb c (char_at f 0)) eqn:E1; [destruct (String.prefix f (String c s)) eqn:E2|].
  - assert (f <> EmptyString) as Hne.
    { intros ->. change (char_at EmptyString 0) with NUL in E1. congruence. }
    apply prefix_split in E2 as [t Ht]. rewrite Ht, sdrop_app. constructor; [done|]. apply IH.
    + rewrite Ht in Hs. unfold no_nul in *. rewrite sforall_app in Hs. by apply andb_prop in Hs as [_ ?].
    + apply (f_equal String.length) in Ht. rewrite string_length_app in Ht. simpl in Ht.
      destruct f; [done|]. simpl in Ht. lia.
  - constructor; [by right|]. apply IH; [done|lia].
  - constructor; [|apply IH; [done|lia]]. destruct f as [|d f]; [by left|]. right.
    simpl. destruct (ascii_dec d c) as [->|]; [|done].
    change (char_at (String c f) 0) with c in E1. by rewrite Ascii.eqb_refl in E1.
Qed.

(** [str_replace] terminates and computes the leftmost, non-overlapping
    replacement of every occurrence of the pattern; a replacement is never
    scanned again, so the loop ends even when it contains the pattern. *)
Theorem str_replace_spec s f r : no_nul s = true -> replaced f r s (str_replace s f r).
Proof. intros Hs. apply str_replace_loop_replaced; [done|lia]. Qed.

Lemma str_replace_spec_witness : replaced "a" "ba" "xaa" "xbaba".
Proof. exact (str_replace_spec "xaa" "a" "ba" eq_refl). Defined.
