(* ===== verification/Bits.v ===== *)
(** * Fixed-width words

    Words of [n] bits are integers in [0, 2^n); the C operators on unsigned
    types are the integer operators followed by the truncation of the type. *)

From S2P Require Import Prelude.

Create Rewrite HintDb bits_db.

Definition is_word (n z : Z) : Prop := (0 <= z < 2 ^ n)%Z.

(** Conversion to [unsigned char] and [unsigned int]. *)
Definition u8 (z : Z) : Z := Z.land z 255.
Definition u32 (z : Z) : Z := Z.land z 4294967295.

Lemma word_testbit n z i : is_word n z -> (0 <= n <= i)%Z -> Z.testbit z i = false.
Proof.
  intros Hz Hi. rewrite <- (Z.mod_small z (2 ^ n)) by done. apply Z.mod_pow2_bits_high. lia.
Qed.

Lemma word_of_bits n z :
  (0 <= n)%Z -> (0 <= z)%Z -> (forall i, (n <= i)%Z -> Z.testbit z i = false) -> is_word n z.
Proof.
  intros Hn Hz Hb. split; [done|].
  assert (z mod 2 ^ n = z)%Z as <-; [|apply Z.mod_pos_bound, Z.pow_pos_nonneg; lia].
  apply Z.bits_inj'. intros i Hi. destruct (Z.lt_ge_cases i n).
  - rewrite Z.mod_pow2_bits_low by lia. done.
  - rewrite Z.mod_pow2_bits_high by lia. by rewrite Hb.
Qed.

(** Words are equal when their [n] bits are. *)
Lemma word_eq n x y :
  is_word n x -> is_word n y -> (0 <= n)%Z ->
  (forall i, (0 <= i < n)%Z -> Z.testbit x i = Z.testbit y i) -> x = y.
Proof.
  intros Hx Hy Hn H. apply Z.bits_inj'. intros i Hi. destruct (Z.lt_ge_cases i n); [auto|].
  by rewrite !(word_testbit n) by (done || lia).
Qed.

Lemma word_lxor n x y : (0 <= n)%Z -> is_word n x -> is_word n y -> is_word n (Z.lxor x y).
Proof.
  intros Hn Hx Hy. apply word_of_bits; [done|apply Z.lxor_nonneg; split; intros; apply Hy || apply Hx|].
  intros i Hi. rewrite Z.lxor_spec, !(word_testbit n) by (done || lia). done.
Qed.

Lemma word_lor n x y : (0 <= n)%Z -> is_word n x -> is_word n y -> is_word n (Z.lor x y).
Proof.
  intros Hn Hx Hy. apply word_of_bits; [done|apply Z.lor_nonneg; split; apply Hx || apply Hy|].
  intros i Hi. rewrite Z.lor_spec, !(word_testbit n) by (done || lia). done.
Qed.

Lemma word_land n x y : (0 <= n)%Z -> is_word n y -> is_word n (Z.land x y).
Proof.
  intros Hn Hy. apply word_of_bits; [done|apply Z.land_nonneg; right; apply Hy|].
  intros i Hi. rewrite Z.land_spec, (word_testbit n y) by (done || lia). by rewrite andb_false_r.
Qed.

Lemma word_shiftr n k x : (0 <= n)%Z -> (0 <= k)%Z -> is_word n x -> is_word n (Z.shiftr x k).
Proof.
  intros Hn Hk Hx. apply word_of_bits; [done|apply Z.shiftr_nonneg, Hx|].
  intros i Hi. rewrite Z.shiftr_spec by lia. apply (word_testbit n); [done|lia].
Qed.

Lemma word_le n m x : (n <= m)%Z -> is_word n x -> is_word m x.
Proof. intros Hle [H0 H1]. split; [done|]. pose proof (Z.pow_le_mono_r 2 n m). lia. Qed.

Lemma word_u8 z : is_word 8 (u8 z).
Proof. apply word_land; [lia|]. split; lia. Qed.

Lemma word_u32 z : is_word 32 (u32 z).
Proof. apply word_land; [lia|]. split; lia. Qed.

Lemma u32_id z : is_word 32 z -> u32 z = z.
Proof.
  intros Hz. unfold u32. change 4294967295%Z with (Z.ones 32). rewrite Z.land_ones by lia.
  by apply Z.mod_small.
Qed.

Lemma u8_id z : is_word 8 z -> u8 z = z.
Proof.
  intros Hz. unfold u8. change 255%Z with (Z.ones 8). rewrite Z.land_ones by lia.
  by apply Z.mod_small.
Qed.

Lemma u32_mod z : u32 z = (z mod 4294967296)%Z.
Proof. unfold u32. change 4294967295%Z with (Z.ones 32). by rewrite Z.land_ones by lia. Qed.

Lemma byte_word z : is_byte z <-> is_word 8 z.
Proof. unfold is_byte, is_word. lia. Qed.

#[export] Hint Rewrite Z.lor_spec Z.land_spec Z.lxor_spec : bits_db.

(** The side conditions of the word lemmas. *)
Ltac word_tac :=
  repeat match goal with
  | |- is_word _ (Z.lxor _ _) => apply word_lxor
  | |- is_word _ (Z.lor _ _) => apply word_lor
  | |- is_word _ (Z.shiftr _ _) => apply word_shiftr
  | |- is_word _ (Z.land _ _) => apply word_land
  | |- is_word _ (u8 _) => apply word_u8
  | |- is_word 32 (u32 _) => apply word_u32
  end;
  try done; try lia; try (split; lia).

(** Equality of short words, bit by bit: the bit index runs through [0..n-1]
    and the bits of constants are computed. *)
Ltac each_bit i Hi :=
  lazymatch type of Hi with (0 <= _ < ?n)%Z =>
    let n' := eval vm_compute in (Z.to_nat n) in
    let rec go k :=
      lazymatch k with
      | O => lia
      | S ?k' =>
          let z := eval vm_compute in (Z.of_nat k') in
          destruct (Z.eq_dec i z) as [->|]; [|go k']
      end
    in go n'
  end.
Ltac bit_step :=
  match goal with
  | |- context [Z.testbit (Z.lor ?a ?b) ?i] => rewrite (Z.lor_spec a b i)
  | |- context [Z.testbit (Z.land ?a ?b) ?i] => rewrite (Z.land_spec a b i)
  | |- context [Z.testbit (Z.lxor ?a ?b) ?i] => rewrite (Z.lxor_spec a b i)
  | |- context [Z.testbit (Z.shiftr ?a ?k) ?i] =>
      let j := eval vm_compute in (i + k)%Z in
      rewrite (Z.shiftr_spec a k i) by lia; change (i + k)%Z with j
  | |- context [Z.testbit (Z.shiftl ?a ?k) ?i] =>
      let j := eval vm_compute in (i - k)%Z in
      lazymatch j with
      | Z.neg _ => rewrite (Z.shiftl_spec_low a k i) by lia
      | _ => rewrite (Z.shiftl_spec a k i) by lia; change (i - k)%Z with j
      end
  end.
Ltac bit_const :=
  match goal with
  | |- context [Z.testbit ?c ?i] =>
      let b := eval vm_compute in (Z.testbit c i) in
      lazymatch b with
      | true => change (Z.testbit c i) with true
      | false => change (Z.testbit c i) with false
      end
  end.
Ltac bit_calc :=
  unfold u8, u32; repeat bit_step; repeat bit_const;
  repeat first [rewrite andb_true_r | rewrite andb_false_r | rewrite orb_false_r | rewrite orb_true_r
               | rewrite orb_false_l | rewrite xorb_false_r | rewrite xorb_false_l];
  cbn [andb orb xorb negb]; try reflexivity.
