(* ===== verification/Base64.v ===== *)
(** * base64 (src/src/common/base64.c) *)

From S2P Require Import Prelude CLib UtilCgi Bits.

Definition base64char : string := "ABCDEFGHIJKLMNOPQRSTUVWXYZabcdefghijklmnopqrstuvwxyz0123456789+/".

(** [base64char[(int) current]], and the '=' sign. *)
Definition b64 (current : Z) : ascii := char_at base64char (Z.to_nat current).
Definition EQ_SIGN : ascii := chr 61.

(** The loop of the encoder takes three bytes at a time; the text is the
    content of the output buffer before its NUL. *)
Fixpoint base64_encode (bindata : list Z) : string :=
  match bindata with
  | [] => EmptyString
  | b0 :: rest =>
      let current := Z.land (Z.shiftr b0 2) 63 in
      String (b64 current)
        (let current := Z.land (u8 (Z.shiftl b0 4)) 48 in
         match rest with
         | [] => String (b64 current) (String EQ_SIGN (String EQ_SIGN EmptyString))
         | b1 :: rest =>
             let current := Z.lor current (Z.land (u8 (Z.shiftr b1 4)) 15) in
             String (b64 current)
               (let current := Z.land (u8 (Z.shiftl b1 2)) 60 in
                match rest with
                | [] => String (b64 current) (String EQ_SIGN EmptyString)
                | b2 :: rest =>
                    let current := Z.lor current (Z.land (u8 (Z.shiftr b2 6)) 3) in
                    String (b64 current)
                      (String (b64 (Z.land (u8 b2) 63)) (base64_encode rest))
                end)
         end)
  end.

(** The search loops: the last index with this character, 0xFF when there is
    none. *)
Fixpoint b64_search (k : nat) (c : ascii) (temp : Z) (chars : string) : Z :=
  match chars with
  | EmptyString => temp
  | String d chars => b64_search (S k) c (if Ascii.eqb d c then Z.of_nat k else temp) chars
  end.
Definition b64_index (c : ascii) : Z := b64_search 0 c 255 base64char.

(** The decoder: four characters at a time.  Reading the terminating NUL is
    defined, reading past it is not. *)
Fixpoint base64_decode (base64 : string) : outcome (list Z) :=
  match base64 with
  | EmptyString => Ok []
  | String c0 (String c1 (String c2 rest)) =>
      let c3 := match rest with EmptyString => NUL | String c _ => c end in
      let t0 := b64_index c0 in
      let t1 := b64_index c1 in
      let t2 := b64_index c2 in
      let t3 := b64_index c3 in
      let d0 := Z.lor (u8 (Z.land (u8 (Z.shiftl t0 2)) 252)) (u8 (Z.land (u8 (Z.shiftr t1 4)) 3)) in
      if Ascii.eqb c2 EQ_SIGN then Ok [d0] else
      let d1 := Z.lor (u8 (Z.land (u8 (Z.shiftl t1 4)) 240)) (u8 (Z.land (u8 (Z.shiftr t2 2)) 15)) in
      if Ascii.eqb c3 EQ_SIGN then Ok [d0; d1] else
      let d2 := Z.lor (u8 (Z.land (u8 (Z.shiftl t2 6)) 240)) (u8 (Z.land t3 63)) in
      match rest with
      | EmptyString => Undef
      | String _ rest =>
          match base64_decode rest with
          | Ok l => Ok (d0 :: d1 :: d2 :: l)
          | r => r
          end
      end
  | _ => Undef
  end.

Example encode_man : base64_encode (bytes_of "Man is") = "TWFuIGlz".
Proof. reflexivity. Qed.

(** ** Round trip *)

(** The 64 characters, checked one by one. *)
Lemma b64_table :
  forallb (fun k => (b64_index (b64 (Z.of_nat k)) =? Z.of_nat k)%Z
                    && negb (Ascii.eqb (b64 (Z.of_nat k)) EQ_SIGN)
                    && negb (Ascii.eqb (b64 (Z.of_nat k)) NUL)) (seq 0 64) = true.
Proof. vm_compute. reflexivity. Qed.

Lemma b64_table_at z : is_word 6 z ->
  b64_index (b64 z) = z /\ Ascii.eqb (b64 z) EQ_SIGN = false /\ Ascii.eqb (b64 z) NUL = false.
Proof.
  intros [H0 H1]. pose proof b64_table as H. rewrite forallb_forall in H.
  specialize (H (Z.to_nat z)). rewrite Z2Nat.id in H by done.
  assert (In (Z.to_nat z) (seq 0 64)) as Hin by (apply in_seq; change (2 ^ 6)%Z with 64%Z in H1; lia).
  apply H in Hin. split_andb. split; [lia|]. split; by apply negb_true_iff.
Qed.

Lemma b64_index_b64 z : is_word 6 z -> b64_index (b64 z) = z.
Proof. intros H. apply (b64_table_at z H). Qed.
Lemma b64_not_eq z : is_word 6 z -> Ascii.eqb (b64 z) EQ_SIGN = false.
Proof. intros H. apply (b64_table_at z H). Qed.

(** The bytes put together from the 6-bit groups. *)
Lemma join0 a b : is_word 8 a ->
  Z.lor (u8 (Z.land (u8 (Z.shiftl (Z.land (Z.shiftr a 2) 63) 2)) 252))
        (u8 (Z.land (u8 (Z.shiftr (Z.lor (Z.land (u8 (Z.shiftl a 4)) 48)
                                         (Z.land (u8 (Z.shiftr b 4)) 15)) 4)) 3)) = a.
Proof.
  intros Ha. apply (word_eq 8); [word_tac..|]. intros i Hi. each_bit i Hi.
  all: bit_calc.
Qed.

Definition group1 (a b : Z) : Z := Z.lor (Z.land (u8 (Z.shiftl a 4)) 48) (Z.land (u8 (Z.shiftr b 4)) 15).
Definition group2 (b c : Z) : Z := Z.lor (Z.land (u8 (Z.shiftl b 2)) 60) (Z.land (u8 (Z.shiftr c 6)) 3).

Lemma join1 a b c : is_word 8 b ->
  Z.lor (u8 (Z.land (u8 (Z.shiftl (group1 a b) 4)) 240))
        (u8 (Z.land (u8 (Z.shiftr (group2 b c) 2)) 15)) = b.
Proof.
  intros Hb. unfold group1, group2. apply (word_eq 8); [word_tac..|]. intros i Hi. each_bit i Hi.
  all: bit_calc.
Qed.

Lemma join2 b c : is_word 8 c ->
  Z.lor (u8 (Z.land (u8 (Z.shiftl (group2 b c) 6)) 240)) (u8 (Z.land (Z.land (u8 c) 63) 63)) = c.
Proof.
  intros Hc. unfold group2. apply (word_eq 8); [word_tac..|]. intros i Hi. each_bit i Hi.
  all: bit_calc.
Qed.

Lemma group1_0 a : Z.land (u8 (Z.shiftl a 4)) 48 = group1 a 0.
Proof. unfold group1. change (Z.land (u8 (Z.shiftr 0 4)) 15) with 0%Z. by rewrite Z.lor_0_r. Qed.
Lemma group2_0 b : Z.land (u8 (Z.shiftl b 2)) 60 = group2 b 0.
Proof. unfold group2. change (Z.land (u8 (Z.shiftr 0 6)) 3) with 0%Z. by rewrite Z.lor_0_r. Qed.

Lemma word_group0 a : is_word 6 (Z.land (Z.shiftr a 2) 63).
Proof. word_tac. Qed.
Lemma word_group1 a b : is_word 6 (group1 a b).
Proof. unfold group1. word_tac. Qed.
Lemma word_group2 b c : is_word 6 (group2 b c).
Proof. unfold group2. word_tac. Qed.
Lemma word_group3 c : is_word 6 (Z.land (u8 c) 63).
Proof. word_tac. Qed.

(** Induction by three elements. *)
Lemma list_ind3 {A} (P : list A -> Prop) :
  P [] -> (forall a, P [a]) -> (forall a b, P [a; b]) ->
  (forall a b c l, P l -> P (a :: b :: c :: l)) -> forall l, P l.
Proof.
  intros H0 H1 H2 H3. fix IH 1. intros [|a [|b [|c l]]]; [done|apply H1|apply H2|]. apply H3, IH.
Qed.

(** The text of one group of three bytes, and of the last one. *)
Definition head0 (a : Z) : ascii := b64 (Z.land (Z.shiftr a 2) 63).

Lemma encode_1 a :
  base64_encode [a]
  = String (head0 a) (String (b64 (group1 a 0)) (String EQ_SIGN (String EQ_SIGN EmptyString))).
Proof. cbn [base64_encode]. by rewrite group1_0. Qed.

Lemma encode_2 a b :
  base64_encode [a; b]
  = String (head0 a) (String (b64 (group1 a b)) (String (b64 (group2 b 0)) (String EQ_SIGN EmptyString))).
Proof. cbn [base64_encode]. by rewrite group2_0. Qed.

Lemma encode_3 a b c l :
  base64_encode (a :: b :: c :: l)
  = String (head0 a) (String (b64 (group1 a b)) (String (b64 (group2 b c))
      (String (b64 (Z.land (u8 c) 63)) (base64_encode l)))).
Proof. reflexivity. Qed.

#[local] Hint Resolve word_group0 word_group1 word_group2 word_group3 : core.

Lemma decode_encode l : Forall is_byte l -> base64_decode (base64_encode l) = Ok l.
Proof.
  induction l as [|a|a b|a b c l IH] using list_ind3; intros Hl; [done|..];
    repeat match goal with H : Forall _ (_ :: _) |- _ => inversion H as [|? ? ?%byte_word ?]; subst; clear H end;
    rewrite ?encode_1, ?encode_2, ?encode_3; cbn [base64_decode]; unfold head0;
    rewrite ?b64_not_eq, ?b64_index_b64 by auto.
  - rewrite Ascii.eqb_refl. do 2 f_equal. by apply (join0 a 0).
  - rewrite Ascii.eqb_refl. f_equal. f_equal; [by apply (join0 a b)|]. f_equal. by apply (join1 a b 0).
  - rewrite IH by done. f_equal. f_equal; [by apply (join0 a b)|]. f_equal; [by apply (join1 a b c)|].
    f_equal. by apply (join2 b c).
Qed.



(** The text has four characters for each three bytes begun, all of them from
    the alphabet or '='; in particular no NUL. *)
Definition b64_text_char (c : ascii) : bool :=
  Ascii.eqb c EQ_SIGN || negb (b64_index c =? 255)%Z.

Lemma b64_is_text z : is_word 6 z -> b64_text_char (b64 z) = true.
Proof.
  intros Hz. unfold b64_text_char. rewrite b64_index_b64 by done. destruct Hz as [H0 H1].
  change (2 ^ 6)%Z with 64%Z in H1. destruct (Z.eqb_spec z 255); [lia|]. by rewrite orb_true_r.
Qed.

Lemma encode_text l : sforall b64_text_char (base64_encode l) = true.
Proof.
  induction l as [|a|a b|a b c l IH] using list_ind3; [done|..];
    rewrite ?encode_1, ?encode_2, ?encode_3; cbn [sforall]; unfold head0;
    rewrite ?b64_is_text by auto; done.
Qed.

Lemma encode_length l :
  slen (base64_encode l) = (4 * ((Z.of_nat (length l) + 2) / 3))%Z.
Proof.
  induction l as [|a|a b|a b c l IH] using list_ind3; [done..|].
  cbn [base64_encode]. rewrite !slen_cons, IH. cbn [length].
  replace (Z.of_nat (S (S (S (length l)))) + 2)%Z with (Z.of_nat (length l) + 2 + 1 * 3)%Z by lia.
  rewrite Z.div_add by lia. lia.
Qed.

Lemma text_no_nul c : b64_text_char c = true -> negb (Ascii.eqb c NUL) = true.
Proof.
  intros H. destruct (Ascii.eqb c NUL) eqn:E; [|done]. apply Ascii.eqb_eq in E as ->.
  vm_compute in H. done.
Qed.

Lemma encode_no_nul l : no_nul (base64_encode l) = true.
Proof. eapply sforall_impl; [apply text_no_nul|apply encode_text]. Qed.
