(* ===== verification/Md5.v ===== *)
(** * MD5 (src/src/common/md5.c, src/src/include/md5.h)

    Words are [unsigned int] of 32 bits, bytes are integers in [0, 256).  The
    buffers handed to [MD5Update] are shorter than 2^32 - 64 bytes, so that the
    index of its loop does not wrap around. *)

From S2P Require Import Prelude CLib Bits.

Record MD5_CTX := mkMd5Ctx {
  count0 : Z; count1 : Z;
  state : Z * Z * Z * Z;
  buffer : list Z }.

Definition PADDING : list Z := 128%Z :: repeat 0%Z 63.

(** The macros of md5.h. *)
Definition bnot (x : Z) : Z := Z.lxor x 4294967295.
Definition F (x y z : Z) : Z := Z.lor (Z.land x y) (Z.land (bnot x) z).
Definition G (x y z : Z) : Z := Z.lor (Z.land x z) (Z.land y (bnot z)).
Definition H (x y z : Z) : Z := Z.lxor (Z.lxor x y) z.
Definition I (x y z : Z) : Z := Z.lxor y (Z.lor x (bnot z)).
Definition ROTATE_LEFT (x n : Z) : Z := Z.lor (u32 (Z.shiftl x n)) (Z.shiftr x (32 - n)).
Definition step (f : Z -> Z -> Z -> Z) (a b c d x s ac : Z) : Z :=
  let a := u32 (a + u32 (f b c d + x + ac)) in
  let a := ROTATE_LEFT a s in
  u32 (a + b).
Definition FF := step F.
Definition GG := step G.
Definition HH := step H.
Definition II := step I.

(** Little-endian words. *)
Fixpoint MD5Encode (input : list Z) : list Z :=
  match input with
  | [] => []
  | w :: input =>
      Z.land w 255 :: Z.land (Z.shiftr w 8) 255 :: Z.land (Z.shiftr w 16) 255
      :: Z.land (Z.shiftr w 24) 255 :: MD5Encode input
  end.

Fixpoint MD5Decode (input : list Z) : list Z :=
  match input with
  | b0 :: b1 :: b2 :: b3 :: input =>
      u32 (Z.lor (Z.lor (Z.lor b0 (Z.shiftl b1 8)) (Z.shiftl b2 16)) (Z.shiftl b3 24))
      :: MD5Decode input
  | _ => []
  end.

Definition MD5Transform (st : Z * Z * Z * Z) (block : list Z) : Z * Z * Z * Z :=
  let '(s0, s1, s2, s3) := st in
  let words := MD5Decode block in
  let x i := nth i words 0%Z in
  let a := s0 in
  let b := s1 in
  let c := s2 in
  let d := s3 in
  let a := FF a b c d (x 0) 7 0xd76aa478 in
  let d := FF d a b c (x 1) 12 0xe8c7b756 in
  let c := FF c d a b (x 2) 17 0x242070db in
  let b := FF b c d a (x 3) 22 0xc1bdceee in
  let a := FF a b c d (x 4) 7 0xf57c0faf in
  let d := FF d a b c (x 5) 12 0x4787c62a in
  let c := FF c d a b (x 6) 17 0xa8304613 in
  let b := FF b c d a (x 7) 22 0xfd469501 in
  let a := FF a b c d (x 8) 7 0x698098d8 in
  let d := FF d a b c (x 9) 12 0x8b44f7af in
  let c := FF c d a b (x 10) 17 0xffff5bb1 in
  let b := FF b c d a (x 11) 22 0x895cd7be in
  let a := FF a b c d (x 12) 7 0x6b901122 in
  let d := FF d a b c (x 13) 12 0xfd987193 in
  let c := FF c d a b (x 14) 17 0xa679438e in
  let b := FF b c d a (x 15) 22 0x49b40821 in
  let a := GG a b c d (x 1) 5 0xf61e2562 in
  let d := GG d a b c (x 6) 9 0xc040b340 in
  let c := GG c d a b (x 11) 14 0x265e5a51 in
  let b := GG b c d a (x 0) 20 0xe9b6c7aa in
  let a := GG a b c d (x 5) 5 0xd62f105d in
  let d := GG d a b c (x 10) 9 0x2441453 in
  let c := GG c d a b (x 15) 14 0xd8a1e681 in
  let b := GG b c d a (x 4) 20 0xe7d3fbc8 in
  let a := GG a b c d (x 9) 5 0x21e1cde6 in
  let d := GG d a b c (x 14) 9 0xc33707d6 in
  let c := GG c d a b (x 3) 14 0xf4d50d87 in
  let b := GG b c d a (x 8) 20 0x455a14ed in
  let a := GG a b c d (x 13) 5 0xa9e3e905 in
  let d := GG d a b c (x 2) 9 0xfcefa3f8 in
  let c := GG c d a b (x 7) 14 0x676f02d9 in
  let b := GG b c d a (x 12) 20 0x8d2a4c8a in
  let a := HH a b c d (x 5) 4 0xfffa3942 in
  let d := HH d a b c (x 8) 11 0x8771f681 in
  let c := HH c d a b (x 11) 16 0x6d9d6122 in
  let b := HH b c d a (x 14) 23 0xfde5380c in
  let a := HH a b c d (x 1) 4 0xa4beea44 in
  let d := HH d a b c (x 4) 11 0x4bdecfa9 in
  let c := HH c d a b (x 7) 16 0xf6bb4b60 in
  let b := HH b c d a (x 10) 23 0xbebfbc70 in
  let a := HH a b c d (x 13) 4 0x289b7ec6 in
  let d := HH d a b c (x 0) 11 0xeaa127fa in
  let c := HH c d a b (x 3) 16 0xd4ef3085 in
  let b := HH b c d a (x 6) 23 0x4881d05 in
  let a := HH a b c d (x 9) 4 0xd9d4d039 in
  let d := HH d a b c (x 12) 11 0xe6db99e5 in
  let c := HH c d a b (x 15) 16 0x1fa27cf8 in
  let b := HH b c d a (x 2) 23 0xc4ac5665 in
  let a := II a b c d (x 0) 6 0xf4292244 in
  let d := II d a b c (x 7) 10 0x432aff97 in
  let c := II c d a b (x 14) 15 0xab9423a7 in
  let b := II b c d a (x 5) 21 0xfc93a039 in
  let a := II a b c d (x 12) 6 0x655b59c3 in
  let d := II d a b c (x 3) 10 0x8f0ccc92 in
  let c := II c d a b (x 10) 15 0xffeff47d in
  let b := II b c d a (x 1) 21 0x85845dd1 in
  let a := II a b c d (x 8) 6 0x6fa87e4f in
  let d := II d a b c (x 15) 10 0xfe2ce6e0 in
  let c := II c d a b (x 6) 15 0xa3014314 in
  let b := II b c d a (x 13) 21 0x4e0811a1 in
  let a := II a b c d (x 4) 6 0xf7537e82 in
  let d := II d a b c (x 11) 10 0xbd3af235 in
  let c := II c d a b (x 2) 15 0x2ad7d2bb in
  let b := II b c d a (x 9) 21 0xeb86d391 in
  (u32 (s0 + a), u32 (s1 + b), u32 (s2 + c), u32 (s3 + d)).

(** [buffer] is not initialised: [buf] is what it holds. *)
Definition MD5Init (buf : list Z) : MD5_CTX :=
  mkMd5Ctx 0 0 (0x67452301, 0xEFCDAB89, 0x98BADCFE, 0x10325476)%Z buf.

(** [memcpy (&buffer[index], data, length data)]. *)
Definition put (buf : list Z) (index : nat) (data : list Z) : list Z :=
  take index buf ++ data ++ drop (index + length data) buf.

(** The loop over the whole blocks of the rest of the input. *)
Fixpoint md5_loop (fuel : nat) (st : Z * Z * Z * Z) (rest : list Z) : Z * Z * Z * Z * list Z :=
  match fuel with
  | O => (st, rest)
  | S fuel =>
      if (64 <=? length rest)%nat then md5_loop fuel (MD5Transform st (take 64 rest)) (drop 64 rest)
      else (st, rest)
  end.

Definition md5_index (ctx : MD5_CTX) : nat := Z.to_nat (Z.land (Z.shiftr (count0 ctx) 3) 63).

Definition MD5Update (ctx : MD5_CTX) (input : list Z) : MD5_CTX :=
  let inputlen := Z.of_nat (length input) in
  let index := md5_index ctx in
  let partlen := (64 - index)%nat in
  let c0 := u32 (count0 ctx + u32 (Z.shiftl inputlen 3)) in
  let c1 := if (c0 <? u32 (Z.shiftl inputlen 3))%Z then u32 (count1 ctx + 1) else count1 ctx in
  let c1 := u32 (c1 + Z.shiftr inputlen 29) in
  if (partlen <=? length input)%nat then
    let buf := put (buffer ctx) index (take partlen input) in
    let st := MD5Transform (state ctx) buf in
    let rest := drop partlen input in
    let '(st, rest) := md5_loop (length rest) st rest in
    mkMd5Ctx c0 c1 st (put buf 0 rest)
  else mkMd5Ctx c0 c1 (state ctx) (put (buffer ctx) index input).

(** The digest; the context is not used afterwards. *)
Definition MD5Final (ctx : MD5_CTX) : list Z :=
  let index := md5_index ctx in
  let padlen := (if (index <? 56)%nat then 56 - index else 120 - index)%nat in
  let bits := MD5Encode [count0 ctx; count1 ctx] in
  let ctx := MD5Update ctx (take padlen PADDING) in
  let ctx := MD5Update ctx bits in
  let '(s0, s1, s2, s3) := state ctx in
  MD5Encode [s0; s1; s2; s3].

(** The digest of a text given in pieces, as the callers compute it. *)
Definition md5_of (buf : list Z) (chunks : list (list Z)) : list Z :=
  MD5Final (fold_left MD5Update chunks (MD5Init buf)).

Fixpoint hex_text (l : list Z) : string :=
  match l with [] => EmptyString | b :: l => pad_hex 2 b +:+ hex_text l end.

(** The test suite of RFC 1321. *)
Example md5_empty :
  hex_text (md5_of (repeat 0%Z 64) []) = "d41d8cd98f00b204e9800998ecf8427e".
Proof. vm_compute. reflexivity. Qed.
Example md5_abc :
  hex_text (md5_of (repeat 7%Z 64) [bytes_of "a"; bytes_of "bc"]) = "900150983cd24fb0d6963f7d28e17f72".
Proof. vm_compute. reflexivity. Qed.
Example md5_long :
  hex_text (md5_of (repeat 0%Z 64)
    [bytes_of "1234567890123456789012345678901234567890";
     bytes_of "1234567890123456789012345678901234567890"]) = "57edf4a22be3c955ac49da2e2107b67a".
Proof. vm_compute. reflexivity. Qed.

(** ** The specification

    The padded message is cut into blocks of 64 bytes, which are folded into
    the state. *)

Fixpoint blocks (n : nat) (st : Z * Z * Z * Z) (m : list Z) : Z * Z * Z * Z :=
  match n with
  | O => st
  | S n => blocks n (MD5Transform st (take 64 m)) (drop 64 m)
  end.

Definition init_state : Z * Z * Z * Z := (0x67452301, 0xEFCDAB89, 0x98BADCFE, 0x10325476)%Z.

(** The 64-bit little-endian number of bits. *)
Definition bit_length (m : list Z) : list Z :=
  let n := (8 * Z.of_nat (length m))%Z in
  MD5Encode [u32 n; u32 (Z.shiftr n 32)].

Definition pad_length (n : nat) : nat :=
  let r := (n mod 64)%nat in (if (r <? 56)%nat then 56 - r else 120 - r)%nat.
Definition padded (m : list Z) : list Z :=
  m ++ (128%Z :: repeat 0%Z (pad_length (length m) - 1)) ++ bit_length m.

Definition md5_spec (m : list Z) : list Z :=
  let p := padded m in
  let '(s0, s1, s2, s3) := blocks (length p / 64) init_state p in
  MD5Encode [s0; s1; s2; s3].

(** ** The context after a message *)

Record represents (ctx : MD5_CTX) (m : list Z) : Prop := {
  rep_count0 : count0 ctx = u32 (8 * Z.of_nat (length m));
  rep_count1 : count1 ctx = u32 (Z.shiftr (8 * Z.of_nat (length m)) 32);
  rep_state : state ctx = blocks (length m / 64) init_state m;
  rep_length : length (buffer ctx) = 64%nat;
  rep_buffer : take (length m mod 64) (buffer ctx) = drop (64 * (length m / 64)) m }.

Lemma blocks_app n st m x : (64 * n <= length m)%nat -> blocks n st (m ++ x) = blocks n st m.
Proof.
  revert st m. induction n as [|n IH]; intros st m Hn; [done|]. cbn [blocks].
  rewrite take_app_le, drop_app_le by lia. apply IH. rewrite length_drop. lia.
Qed.

Lemma blocks_add a b st m : blocks (a + b) st m = blocks b (blocks a st m) (drop (64 * a) m).
Proof.
  revert st m. induction a as [|a IH]; intros st m; [by rewrite Nat.mul_0_r|].
  cbn [blocks Nat.add]. rewrite IH, drop_drop. do 2 f_equal. lia.
Qed.

Lemma md5_loop_blocks fuel st m :
  (length m <= fuel)%nat ->
  md5_loop fuel st m = (blocks (length m / 64) st m, drop (64 * (length m / 64)) m).
Proof.
  revert st m. induction fuel as [|fuel IH]; intros st m Hf.
  { destruct m; [done|simpl in Hf; lia]. }
  cbn [md5_loop]. destruct (Nat.leb_spec 64 (length m)) as [Hl|Hl].
  - rewrite IH by (rewrite length_drop; lia). rewrite length_drop.
    assert (length m / 64 = S ((length m - 64) / 64))%nat as E.
    { rewrite <- (Nat.sub_add 64 (length m)) at 1 by lia.
      rewrite (Nat.add_comm _ 64). replace (64 + (length m - 64))%nat with (1 * 64 + (length m - 64))%nat by lia.
      rewrite Nat.div_add_l by lia. lia. }
    rewrite E. cbn [blocks]. rewrite drop_drop. do 2 f_equal. lia.
  - by rewrite Nat.div_small, Nat.mul_0_r by lia.
Qed.

(** The position in the buffer. *)
Lemma index_mod n : Z.land (Z.shiftr (u32 (8 * n)) 3) 63 = (n mod 64)%Z.
Proof.
  rewrite u32_mod. change 63%Z with (Z.ones 6). rewrite Z.land_ones by lia.
  rewrite Z.shiftr_div_pow2 by lia. change (2 ^ 3)%Z with 8%Z. change (2 ^ 6)%Z with 64%Z.
  pose proof (Z.div_mod (8 * n) 4294967296 ltac:(lia)).
  set (q := (8 * n / 4294967296)%Z) in *.
  replace ((8 * n) mod 4294967296)%Z with ((n - 536870912 * q) * 8)%Z by lia.
  rewrite Z.div_mul by lia.
  replace (n - 536870912 * q)%Z with (n + (- 8388608 * q) * 64)%Z by lia.
  apply Z.mod_add. lia.
Qed.

Lemma rep_index ctx m : represents ctx m -> md5_index ctx = (length m mod 64)%nat.
Proof.
  intros Hr. unfold md5_index. rewrite (rep_count0 _ _ Hr), index_mod.
  rewrite <- (Nat2Z.id (length m mod 64)). f_equal. by rewrite Nat2Z.inj_mod.
Qed.

Lemma init_represents buf : length buf = 64%nat -> represents (MD5Init buf) [].
Proof. by constructor. Qed.

(** The 64-bit bit counter in two words. *)
Lemma count_low n k :
  u32 (u32 (8 * n) + u32 (Z.shiftl k 3)) = u32 (8 * (n + k)).
Proof.
  rewrite !u32_mod, Z.shiftl_mul_pow2 by lia. change (2 ^ 3)%Z with 8%Z.
  rewrite <- Z.add_mod by lia. f_equal. lia.
Qed.

Lemma count_high n k : (0 <= n)%Z -> (0 <= k)%Z ->
  u32 ((if (u32 (8 * (n + k)) <? u32 (Z.shiftl k 3))%Z
        then u32 (u32 (Z.shiftr (8 * n) 32) + 1) else u32 (Z.shiftr (8 * n) 32)) + Z.shiftr k 29)
  = u32 (Z.shiftr (8 * (n + k)) 32).
Proof.
  intros Hn Hk. rewrite !u32_mod, Z.shiftl_mul_pow2, !Z.shiftr_div_pow2 by lia.
  change (2 ^ 3)%Z with 8%Z. change (2 ^ 32)%Z with 4294967296%Z. change (2 ^ 29)%Z with 536870912%Z.
  set (M := 4294967296%Z).
  assert (k / 536870912 = (k * 8) / M)%Z as ->.
  { unfold M. change 4294967296%Z with (536870912 * 8)%Z. rewrite Z.div_mul_cancel_r by lia. done. }
  replace (8 * (n + k))%Z with (8 * n + k * 8)%Z by lia.
  generalize (8 * n)%Z (k * 8)%Z. intros A B.
  pose proof (Z.div_mod A M ltac:(done)). pose proof (Z.mod_pos_bound A M ltac:(done)).
  pose proof (Z.div_mod B M ltac:(done)). pose proof (Z.mod_pos_bound B M ltac:(done)).
  set (qa := (A / M)%Z) in *. set (ra := (A mod M)%Z) in *.
  set (qb := (B / M)%Z) in *. set (rb := (B mod M)%Z) in *.
  destruct (Z.lt_ge_cases (ra + rb) M) as [Hc|Hc].
  - assert ((A + B) / M = qa + qb)%Z as ->
      by (symmetry; apply (Z.div_unique_pos _ _ _ (ra + rb)); lia).
    assert ((A + B) mod M = ra + rb)%Z as ->
      by (symmetry; apply (Z.mod_unique_pos _ _ (qa + qb)); lia).
    destruct (Z.ltb_spec (ra + rb) rb); [lia|]. by rewrite Z.add_mod_idemp_l.
  - assert ((A + B) / M = qa + qb + 1)%Z as ->
      by (symmetry; apply (Z.div_unique_pos _ _ _ (ra + rb - M)); lia).
    assert ((A + B) mod M = ra + rb - M)%Z as ->
      by (symmetry; apply (Z.mod_unique_pos _ _ (qa + qb + 1)); lia).
    destruct (Z.ltb_spec (ra + rb - M) rb); [|lia].
    rewrite !Z.add_mod_idemp_l by done.
    rewrite <- Z.add_assoc, Z.add_mod_idemp_l by done. f_equal. lia.
Qed.

Lemma length_put buf i data :
  (i + length data <= length buf)%nat -> length (put buf i data) = length buf.
Proof. intros Hl. unfold put. rewrite !length_app, length_take, length_drop. lia. Qed.

Lemma put_take buf i data :
  (i + length data <= length buf)%nat -> take (i + length data) (put buf i data) = take i buf ++ data.
Proof.
  intros Hl. unfold put. rewrite app_assoc. apply take_app_length'.
  rewrite length_app, length_take. lia.
Qed.

Lemma div_mod_64 n : n = (64 * (n / 64) + n mod 64)%nat.
Proof. apply Nat.div_mod. lia. Qed.

(** A message cut before and after a whole block. *)
Section Cut.
Variables (pre blk rest : list Z) (q : nat).
Hypothesis (Hpre : length pre = (64 * q)%nat) (Hblk : length blk = 64%nat).

Let msg := pre ++ blk ++ rest.

Lemma cut_div : (length msg / 64 = q + 1 + length rest / 64)%nat.
Proof.
  unfold msg. rewrite !length_app, Hpre, Hblk.
  replace (64 * q + (64 + length rest))%nat with ((q + 1) * 64 + length rest)%nat by lia.
  by rewrite Nat.div_add_l by lia.
Qed.

Lemma cut_mod : (length msg mod 64 = length rest mod 64)%nat.
Proof.
  unfold msg. rewrite !length_app, Hpre, Hblk.
  replace (64 * q + (64 + length rest))%nat with (length rest + (q + 1) * 64)%nat by lia.
  by rewrite Nat.Div0.mod_add.
Qed.

Lemma cut_blocks :
  blocks (length msg / 64) init_state msg
  = blocks (length rest / 64) (MD5Transform (blocks q init_state pre) blk) rest.
Proof.
  rewrite cut_div, <- Nat.add_assoc, blocks_add. unfold msg. rewrite blocks_app by lia.
  rewrite <- Hpre, drop_app_length. cbn [Nat.add blocks].
  by rewrite <- Hblk, take_app_length, drop_app_length.
Qed.

Lemma cut_drop :
  drop (64 * (length msg / 64)) msg = drop (64 * (length rest / 64)) rest.
Proof.
  rewrite cut_div. unfold msg.
  rewrite drop_app_ge, Hpre by lia. rewrite drop_app_ge, Hblk by lia. f_equal. lia.
Qed.
End Cut.

(** One call of [MD5Update] adds its input to the message. *)
Lemma update_represents ctx m x :
  represents ctx m -> represents (MD5Update ctx x) (m ++ x).
Proof.
  intros Hr. pose proof (rep_index _ _ Hr) as Hi. destruct Hr as [H0 H1 Hs Hb Hbuf].
  set (q := (length m / 64)%nat) in *. set (r := (length m mod 64)%nat) in *.
  assert (length m = 64 * q + r)%nat as Hm by apply div_mod_64.
  assert (r < 64)%nat as Hr by (apply Nat.mod_upper_bound; lia).
  assert (forall st buf, length buf = 64%nat ->
    st = blocks (length (m ++ x) / 64) init_state (m ++ x) ->
    take (length (m ++ x) mod 64) buf = drop (64 * (length (m ++ x) / 64)) (m ++ x) ->
    forall c0 c1, c0 = u32 (count0 ctx + u32 (Z.shiftl (Z.of_nat (length x)) 3)) ->
    c1 = u32 ((if (c0 <? u32 (Z.shiftl (Z.of_nat (length x)) 3))%Z then u32 (count1 ctx + 1)
               else count1 ctx) + Z.shiftr (Z.of_nat (length x)) 29) ->
    represents (mkMd5Ctx c0 c1 st buf) (m ++ x)) as Hrep.
  { intros st buf Hl Hst Htk c0 c1 E0 E1. rewrite H0, count_low, <- Nat2Z.inj_add, <- length_app in E0.
    rewrite H1, E0, length_app, Nat2Z.inj_add, count_high in E1 by lia.
    rewrite <- Nat2Z.inj_add, <- length_app in E1. constructor; done. }
  unfold MD5Update. rewrite Hi. fold r.
  destruct (Nat.leb_spec (64 - r) (length x)) as [Hp|Hp].
  - set (buf := put (buffer ctx) r (take (64 - r) x)).
    assert (length (take (64 - r) x) = 64 - r)%nat as Hlt by (rewrite length_take; lia).
    assert (buf = drop (64 * q) m ++ take (64 - r) x) as Hbufe.
    { unfold buf. rewrite <- Hbuf, <- put_take by lia. symmetry. apply take_ge.
      rewrite length_put by lia. lia. }
    assert (m ++ x = take (64 * q) m ++ (buf ++ drop (64 - r) x)) as Hmx.
    { rewrite Hbufe, <- app_assoc, take_drop, app_assoc. by rewrite take_drop. }
    assert (length (take (64 * q) m) = 64 * q)%nat as Hpre by (rewrite length_take; lia).
    assert (length buf = 64%nat) as Hlb by (unfold buf; rewrite length_put; lia).
    set (rest := drop (64 - r) x) in *. clearbody buf.
    assert (length (drop (64 * (length rest / 64)) rest) = length rest mod 64)%nat as Hlr.
    { rewrite length_drop. pose proof (div_mod_64 (length rest)). lia. }
    pose proof (Nat.mod_upper_bound (length rest) 64 ltac:(lia)) as Hlt64.
    rewrite md5_loop_blocks by done. apply Hrep; [rewrite length_put; lia| | |done|done]; rewrite Hmx.
    + assert (state ctx = blocks q init_state (take (64 * q) m)) as ->
        by (rewrite Hs, <- (take_drop (64 * q) m) at 1; apply blocks_app; lia).
      symmetry. by apply cut_blocks.
    + rewrite (cut_drop _ _ _ q), (cut_mod _ _ _ q) by done.
      rewrite <- Hlr at 1. apply (put_take buf 0). lia.
  - assert (length (m ++ x) / 64 = q)%nat as Hq.
    { rewrite length_app, Hm. rewrite <- Nat.add_assoc, (Nat.mul_comm 64).
      rewrite Nat.div_add_l by lia. rewrite Nat.div_small by lia. lia. }
    assert (length (m ++ x) mod 64 = r + length x)%nat as Hmod.
    { pose proof (div_mod_64 (length (m ++ x))) as E. rewrite Hq, length_app in *. lia. }
    apply Hrep; [rewrite length_put; lia| | |done|done].
    + rewrite Hq, Hs. symmetry. apply blocks_app. lia.
    + rewrite Hq, Hmod, put_take by lia. rewrite Hbuf, drop_app_le by lia. done.
Qed.

Lemma updates_represent ctx m chunks :
  represents ctx m -> represents (fold_left MD5Update chunks ctx) (m ++ concat chunks).
Proof.
  revert ctx m. induction chunks as [|x chunks IH]; intros ctx m Hr; cbn [fold_left concat].
  - by rewrite app_nil_r.
  - rewrite app_assoc. by apply IH, update_represents.
Qed.

Lemma padding_take n : (0 < n <= 64)%nat -> take n PADDING = 128%Z :: repeat 0%Z (n - 1).
Proof.
  intros Hn. destruct n as [|n]; [lia|]. unfold PADDING. rewrite firstn_cons. f_equal.
  rewrite Nat.sub_succ, Nat.sub_0_r.
  assert (n <= 63)%nat as Hle by lia. clear Hn. revert Hle. generalize 63%nat as k.
  induction n as [|n IH]; intros [|k] Hle; [done..|lia|]. cbn [repeat take]. by rewrite IH by lia.
Qed.

Lemma pad_length_range n : (0 < pad_length n <= 64)%nat.
Proof.
  unfold pad_length. pose proof (Nat.mod_upper_bound n 64 ltac:(lia)).
  destruct (Nat.ltb_spec (n mod 64) 56); lia.
Qed.

Lemma final_represents ctx m : represents ctx m -> MD5Final ctx = md5_spec m.
Proof.
  intros Hr. unfold MD5Final. rewrite (rep_index _ _ Hr). fold (pad_length (length m)).
  rewrite padding_take by apply pad_length_range.
  rewrite (rep_count0 _ _ Hr), (rep_count1 _ _ Hr). fold (bit_length m).
  set (pad := 128%Z :: _).
  pose proof (update_represents _ _ (bit_length m) (update_represents _ _ pad Hr)) as Hf.
  rewrite <- app_assoc in Hf. change (m ++ pad ++ bit_length m) with (padded m) in Hf.
  unfold md5_spec.
  by rewrite <- (rep_state _ _ Hf).
Qed.

(** C34: MD5 in pieces.  Whatever pieces a message is handed over in, and
    whatever the uninitialised buffer of the context holds, the digest is that
    of the specification: the message, a 1 bit, zeros up to 56 modulo 64 bytes
    and the 64-bit little-endian number of bits, folded block by block. *)
Theorem md5_chunks (buf : list Z) (chunks : list (list Z)) :
  length buf = 64%nat -> md5_of buf chunks = md5_spec (concat chunks).
Proof.
  intros Hb. apply final_represents.
  apply (updates_represent (MD5Init buf) []). by apply init_represents.
Qed.

Lemma md5_chunks_witness :
  md5_of (repeat 9%Z 64) [bytes_of "mess"; []; bytes_of "age digest"]
  = md5_spec (bytes_of "message digest")
  /\ hex_text (md5_spec (bytes_of "message digest")) = "f96b697d7cb7938d525a2f31aaf161d0".
Proof.
  split; [|vm_compute; reflexivity].
  apply (md5_chunks (repeat 9%Z 64) [bytes_of "mess"; []; bytes_of "age digest"]). reflexivity.
Defined.

(** The padded message is a whole number of blocks. *)
Lemma padded_whole m : (length (padded m) mod 64 = 0)%nat.
Proof.
  unfold padded, bit_length. rewrite !length_app. cbn [length MD5Encode]. rewrite repeat_length.
  pose proof (pad_length_range (length m)).
  replace (length m + (S (pad_length (length m) - 1) + 8))%nat
    with (length m + (pad_length (length m) + 8))%nat by lia.
  unfold pad_length. pose proof (div_mod_64 (length m)) as E.
  pose proof (Nat.mod_upper_bound (length m) 64 ltac:(lia)).
  set (q := (length m / 64)%nat) in *. set (r := (length m mod 64)%nat) in *.
  destruct (Nat.ltb_spec r 56).
  - replace (length m + (56 - r + 8))%nat with (0 + (q + 1) * 64)%nat by lia. apply Nat.Div0.mod_add.
  - replace (length m + (120 - r + 8))%nat with (0 + (q + 2) * 64)%nat by lia. apply Nat.Div0.mod_add.
Qed.

(** The digest has 16 bytes. *)
Lemma MD5Encode_bytes l : Forall is_byte (MD5Encode l).
Proof.
  induction l as [|w l IH]; [constructor|]. cbn [MD5Encode].
  repeat (constructor; [apply byte_word; word_tac|]). done.
Qed.

Lemma length_final ctx : length (MD5Final ctx) = 16%nat /\ Forall is_byte (MD5Final ctx).
Proof.
  unfold MD5Final. destruct (state _) as [[[s0 s1] s2] s3]. split; [done|]. apply MD5Encode_bytes.
Qed.
