(* ===== verification/Des.v ===== *)
(** * DES (src/src/common/des.c)

    The code takes [unsigned long] for a 32-bit word and copies an expanded
    key of 32 longs as 128 bytes; the width of [unsigned long] is a parameter
    ([long_bytes]: 4 on ILP32, 8 on LP64).  With 4 the code is DES; with 8 the
    second half of the copied key is indeterminate and lengths are stored
    through pointers of the wrong width, which is undefined behaviour. *)

From S2P Require Import Prelude CLib UtilCgi Bits.

Definition pc1 : list nat :=
  [56; 48; 40; 32; 24; 16; 8; 0; 57; 49; 41; 33; 25; 17; 9; 1; 58; 50; 42; 34; 26; 18; 10;
   2; 59; 51; 43; 35; 62; 54; 46; 38; 30; 22; 14; 6; 61; 53; 45; 37; 29; 21; 13; 5; 60; 52;
   44; 36; 28; 20; 12; 4; 27; 19; 11; 3]%nat.
Definition pc2 : list nat :=
  [13; 16; 10; 23; 0; 4; 2; 27; 14; 5; 20; 9; 22; 18; 11; 3; 25; 7; 15; 6; 26; 19; 12; 1;
   40; 51; 30; 36; 46; 54; 29; 39; 50; 44; 32; 47; 43; 48; 38; 55; 33; 52; 45; 41; 49; 35;
   28; 31]%nat.
Definition bytebit : list Z :=
  [128; 64; 32; 16; 8; 4; 2; 1]%Z.
Definition totrot : list nat :=
  [1; 2; 4; 6; 8; 10; 12; 14; 15; 17; 19; 21; 23; 25; 27; 28]%nat.
Definition bigbyte : list Z :=
  [0x800000; 0x400000; 0x200000; 0x100000; 0x80000; 0x40000; 0x20000; 0x10000; 0x8000;
   0x4000; 0x2000; 0x1000; 0x800; 0x400; 0x200; 0x100; 0x80; 0x40; 0x20; 0x10; 0x8; 0x4;
   0x2; 0x1]%Z.
Definition SP1 : list Z :=
  [0x1010400; 0x0; 0x10000; 0x1010404; 0x1010004; 0x10404; 0x4; 0x10000; 0x400; 0x1010400;
   0x1010404; 0x400; 0x1000404; 0x1010004; 0x1000000; 0x4; 0x404; 0x1000400; 0x1000400;
   0x10400; 0x10400; 0x1010000; 0x1010000; 0x1000404; 0x10004; 0x1000004; 0x1000004;
   0x10004; 0x0; 0x404; 0x10404; 0x1000000; 0x10000; 0x1010404; 0x4; 0x1010000; 0x1010400;
   0x1000000; 0x1000000; 0x400; 0x1010004; 0x10000; 0x10400; 0x1000004; 0x400; 0x4;
   0x1000404; 0x10404; 0x1010404; 0x10004; 0x1010000; 0x1000404; 0x1000004; 0x404; 0x10404;
   0x1010400; 0x404; 0x1000400; 0x1000400; 0x0; 0x10004; 0x10400; 0x0; 0x1010004]%Z.
Definition SP2 : list Z :=
  [0x80108020; 0x80008000; 0x8000; 0x108020; 0x100000; 0x20; 0x80100020; 0x80008020;
   0x80000020; 0x80108020; 0x80108000; 0x80000000; 0x80008000; 0x100000; 0x20; 0x80100020;
   0x108000; 0x100020; 0x80008020; 0x0; 0x80000000; 0x8000; 0x108020; 0x80100000; 0x100020;
   0x80000020; 0x0; 0x108000; 0x8020; 0x80108000; 0x80100000; 0x8020; 0x0; 0x108020;
   0x80100020; 0x100000; 0x80008020; 0x80100000; 0x80108000; 0x8000; 0x80100000;
   0x80008000; 0x20; 0x80108020; 0x108020; 0x20; 0x8000; 0x80000000; 0x8020; 0x80108000;
   0x100000; 0x80000020; 0x100020; 0x80008020; 0x80000020; 0x100020; 0x108000; 0x0;
   0x80008000; 0x8020; 0x80000000; 0x80100020; 0x80108020; 0x108000]%Z.
Definition SP3 : list Z :=
  [0x208; 0x8020200; 0x0; 0x8020008; 0x8000200; 0x0; 0x20208; 0x8000200; 0x20008;
   0x8000008; 0x8000008; 0x20000; 0x8020208; 0x20008; 0x8020000; 0x208; 0x8000000; 0x8;
   0x8020200; 0x200; 0x20200; 0x8020000; 0x8020008; 0x20208; 0x8000208; 0x20200; 0x20000;
   0x8000208; 0x8; 0x8020208; 0x200; 0x8000000; 0x8020200; 0x8000000; 0x20008; 0x208;
   0x20000; 0x8020200; 0x8000200; 0x0; 0x200; 0x20008; 0x8020208; 0x8000200; 0x8000008;
   0x200; 0x0; 0x8020008; 0x8000208; 0x20000; 0x8000000; 0x8020208; 0x8; 0x20208; 0x20200;
   0x8000008; 0x8020000; 0x8000208; 0x208; 0x8020000; 0x20208; 0x8; 0x8020008; 0x20200]%Z.
Definition SP4 : list Z :=
  [0x802001; 0x2081; 0x2081; 0x80; 0x802080; 0x800081; 0x800001; 0x2001; 0x0; 0x802000;
   0x802000; 0x802081; 0x81; 0x0; 0x800080; 0x800001; 0x1; 0x2000; 0x800000; 0x802001;
   0x80; 0x800000; 0x2001; 0x2080; 0x800081; 0x1; 0x2080; 0x800080; 0x2000; 0x802080;
   0x802081; 0x81; 0x800080; 0x800001; 0x802000; 0x802081; 0x81; 0x0; 0x0; 0x802000;
   0x2080; 0x800080; 0x800081; 0x1; 0x802001; 0x2081; 0x2081; 0x80; 0x802081; 0x81; 0x1;
   0x2000; 0x800001; 0x2001; 0x802080; 0x800081; 0x2001; 0x2080; 0x800000; 0x802001; 0x80;
   0x800000; 0x2000; 0x802080]%Z.
Definition SP5 : list Z :=
  [0x100; 0x2080100; 0x2080000; 0x42000100; 0x80000; 0x100; 0x40000000; 0x2080000;
   0x40080100; 0x80000; 0x2000100; 0x40080100; 0x42000100; 0x42080000; 0x80100; 0x40000000;
   0x2000000; 0x40080000; 0x40080000; 0x0; 0x40000100; 0x42080100; 0x42080100; 0x2000100;
   0x42080000; 0x40000100; 0x0; 0x42000000; 0x2080100; 0x2000000; 0x42000000; 0x80100;
   0x80000; 0x42000100; 0x100; 0x2000000; 0x40000000; 0x2080000; 0x42000100; 0x40080100;
   0x2000100; 0x40000000; 0x42080000; 0x2080100; 0x40080100; 0x100; 0x20000000; 0x42080000;
   0x42080100; 0x80100; 0x42000000; 0x42080100; 0x2080000; 0x2000100; 0x40000100; 0x80000;
   0x80100; 0x2000100; 0x40000100; 0x80000; 0x0; 0x40080000; 0x2080100; 0x40000100]%Z.
Definition SP6 : list Z :=
  [0x20000010; 0x20400000; 0x4000; 0x20404010; 0x20400000; 0x10; 0x20404010; 0x400000;
   0x20004000; 0x404010; 0x400000; 0x20000010; 0x400010; 0x20004000; 0x20000000; 0x4010;
   0x0; 0x400010; 0x20004010; 0x4000; 0x404000; 0x20004010; 0x10; 0x20400010; 0x20400010;
   0x0; 0x404010; 0x20404000; 0x4010; 0x404000; 0x20404000; 0x20000000; 0x20004000; 0x10;
   0x20400010; 0x404000; 0x20404010; 0x400000; 0x4010; 0x20000010; 0x400000; 0x20004000;
   0x20000000; 0x4010; 0x20000010; 0x20404010; 0x404000; 0x20400000; 0x404010; 0x20404000;
   0x0; 0x20400010; 0x10; 0x4000; 0x20400000; 0x404010; 0x4000; 0x400010; 0x20004010; 0x0;
   0x20404000; 0x20000000; 0x400010; 0x20004010]%Z.
Definition SP7 : list Z :=
  [0x200000; 0x4200002; 0x4000802; 0x0; 0x800; 0x4000802; 0x200802; 0x4200800; 0x4200802;
   0x200000; 0x0; 0x4000002; 0x2; 0x4000000; 0x4200002; 0x802; 0x4000800; 0x200802;
   0x200002; 0x4000800; 0x4000002; 0x4200000; 0x4200800; 0x200002; 0x4200000; 0x800; 0x802;
   0x4200802; 0x200800; 0x2; 0x4000000; 0x200800; 0x4000000; 0x200800; 0x200000; 0x4000802;
   0x4000802; 0x4200002; 0x4200002; 0x2; 0x200002; 0x4000000; 0x4000800; 0x200000;
   0x4200800; 0x802; 0x200802; 0x4200800; 0x802; 0x4000002; 0x4200802; 0x4200000; 0x200800;
   0x0; 0x2; 0x4200802; 0x0; 0x200802; 0x4200000; 0x800; 0x4000002; 0x4000800; 0x800;
   0x200002]%Z.
Definition SP8 : list Z :=
  [0x10001040; 0x1000; 0x40000; 0x10041040; 0x10000000; 0x10001040; 0x40; 0x10000000;
   0x40040; 0x10040000; 0x10041040; 0x41000; 0x10041000; 0x41040; 0x1000; 0x40; 0x10040000;
   0x10000040; 0x10001000; 0x1040; 0x41000; 0x40040; 0x10040040; 0x10041000; 0x1040; 0x0;
   0x0; 0x10040040; 0x10000040; 0x10001000; 0x41040; 0x40000; 0x41040; 0x40000; 0x10041000;
   0x1000; 0x40; 0x10040040; 0x1000; 0x41040; 0x10001000; 0x40; 0x10000040; 0x10040000;
   0x10040040; 0x10000000; 0x40000; 0x10001040; 0x0; 0x10041040; 0x40040; 0x10000040;
   0x10040000; 0x10001000; 0x10001040; 0x0; 0x10041040; 0x41000; 0x41000; 0x1040; 0x1040;
   0x40040; 0x10000000; 0x10041000]%Z.

Definition EN0 : Z := 0.
Definition DE1 : Z := 1.
Definition DES_KEYBYTES : Z := 128.

Section Des.
Variable long_bytes : Z.

(** [x << n] on [unsigned long]. *)
Definition shl (x n : Z) : Z := Z.land (Z.shiftl x n) (Z.ones (8 * long_bytes)).

(** ** Key schedule *)

Definition pc1m_of (key : list Z) : list Z :=
  List.map (fun l => let m := (l mod 8)%nat in
    if (Z.land (nth (l / 8) key 0) (nth m bytebit 0) =? 0)%Z then 0%Z else 1%Z) pc1.

(** Both halves rotated left by [rot]. *)
Definition pcr_of (pc1m : list Z) (rot : nat) : list Z :=
  List.map (fun j => let l := (j + rot)%nat in
    if (j <? 28)%nat
    then (if (l <? 28)%nat then nth l pc1m 0%Z else nth (l - 28) pc1m 0%Z)
    else (if (l <? 56)%nat then nth l pc1m 0%Z else nth (l - 28) pc1m 0%Z)) (seq 0 56).

(** The bits of [pcr] selected by [pc2] from position [off] on. *)
Definition raw_half (pcr : list Z) (off : nat) : Z :=
  fold_left (fun kn j => if (nth (nth (j + off) pc2 0%nat) pcr 0 =? 0)%Z then kn
                         else Z.lor kn (nth j bigbyte 0%Z)) (seq 0 24) 0%Z.

Definition raw_key (pc1m : list Z) (i : nat) : Z * Z :=
  let pcr := pcr_of pc1m (nth i totrot 0%nat) in (raw_half pcr 0, raw_half pcr 24).

(** Round [i] writes the words [2 i] and [2 i + 1], for decryption in reverse
    order. *)
Definition deskey (key : list Z) (edf : Z) : list Z :=
  let pc1m := pc1m_of key in
  fold_left (fun kn i =>
    let m := (if (edf =? DE1)%Z then (15 - i) * 2 else i * 2)%nat in
    let '(km, kn') := raw_key pc1m i in
    <[(m + 1)%nat := kn']> (<[m := km]> kn)) (seq 0 16) (repeat 0%Z 32).

Fixpoint cookey (raw : list Z) : list Z :=
  match raw with
  | raw0 :: raw1 :: raw =>
      Z.lor (Z.lor (Z.lor (shl (Z.land raw0 0x00fc0000) 6) (shl (Z.land raw0 0x00000fc0) 10))
                   (Z.shiftr (Z.land raw1 0x00fc0000) 10))
            (Z.shiftr (Z.land raw1 0x00000fc0) 6)
      :: Z.lor (Z.lor (Z.lor (shl (Z.land raw0 0x0003f000) 12) (shl (Z.land raw0 0x0000003f) 16))
                      (Z.shiftr (Z.land raw1 0x0003f000) 4))
               (Z.land raw1 0x0000003f)
      :: cookey raw
  | _ => []
  end.

(** ** One block *)

(** Eight bytes as two words, and back. *)
Definition scrunch (outof : list Z) : Z * Z :=
  let b i := Z.land (nth i outof 0%Z) 255 in
  (Z.lor (Z.lor (Z.lor (shl (b 0%nat) 24) (shl (b 1%nat) 16)) (shl (b 2%nat) 8)) (b 3%nat),
   Z.lor (Z.lor (Z.lor (shl (b 4%nat) 24) (shl (b 5%nat) 16)) (shl (b 6%nat) 8)) (b 7%nat)).

Definition unscrun (block : Z * Z) : list Z :=
  let '(x, y) := block in
  [u8 (Z.land (Z.shiftr x 24) 255); u8 (Z.land (Z.shiftr x 16) 255);
   u8 (Z.land (Z.shiftr x 8) 255); u8 (Z.land x 255);
   u8 (Z.land (Z.shiftr y 24) 255); u8 (Z.land (Z.shiftr y 16) 255);
   u8 (Z.land (Z.shiftr y 8) 255); u8 (Z.land y 255)].

(** [work = ((a >> k) ^ b) & mask; b ^= work; a ^= (work << k)]. *)
Definition exchange (k mask a b : Z) : Z * Z :=
  let work := Z.land (Z.lxor (Z.shiftr a k) b) mask in
  (Z.lxor a (shl work k), Z.lxor b work).

(** [work = (leftt ^ rightt) & 0xaaaaaaaa; leftt ^= work; rightt ^= work]. *)
Definition exchange0 (l r : Z) : Z * Z :=
  let work := Z.land (Z.lxor l r) 0xaaaaaaaa in (Z.lxor l work, Z.lxor r work).

(** The lines before the loop of [desfunc]. *)
Definition initial_perm (leftt rightt : Z) : Z * Z :=
  let '(leftt, rightt) := exchange 4 0x0f0f0f0f leftt rightt in
  let '(leftt, rightt) := exchange 16 0x0000ffff leftt rightt in
  let '(rightt, leftt) := exchange 2 0x33333333 rightt leftt in
  let '(rightt, leftt) := exchange 8 0x00ff00ff rightt leftt in
  let rightt := Z.land (Z.lor (shl rightt 1) (Z.land (Z.shiftr rightt 31) 1)) 0xffffffff in
  let '(leftt, rightt) := exchange0 leftt rightt in
  let leftt := Z.land (Z.lor (shl leftt 1) (Z.land (Z.shiftr leftt 31) 1)) 0xffffffff in
  (leftt, rightt).

(** [fval] from one half and two words of the key. *)
Definition sp (table : list Z) (i : Z) : Z := nth (Z.to_nat (Z.land i 0x3f)) table 0%Z.
Definition fval (half k1 k2 : Z) : Z :=
  let work := Z.lxor (Z.lor (shl half 28) (Z.shiftr half 4)) k1 in
  let fval := sp SP7 work in
  let fval := Z.lor fval (sp SP5 (Z.shiftr work 8)) in
  let fval := Z.lor fval (sp SP3 (Z.shiftr work 16)) in
  let fval := Z.lor fval (sp SP1 (Z.shiftr work 24)) in
  let work := Z.lxor half k2 in
  let fval := Z.lor fval (sp SP8 work) in
  let fval := Z.lor fval (sp SP6 (Z.shiftr work 8)) in
  let fval := Z.lor fval (sp SP4 (Z.shiftr work 16)) in
  Z.lor fval (sp SP2 (Z.shiftr work 24)).

(** The loop: four words of the key per iteration; [None] when [keys] points
    past the initialised words. *)
Fixpoint des_rounds (n : nat) (keys : list Z) (leftt rightt : Z) : option (Z * Z) :=
  match n with
  | O => Some (leftt, rightt)
  | S n =>
      match keys with
      | k1 :: k2 :: k3 :: k4 :: keys =>
          let leftt := Z.lxor leftt (fval rightt k1 k2) in
          let rightt := Z.lxor rightt (fval leftt k3 k4) in
          des_rounds n keys leftt rightt
      | _ => None
      end
  end.

(** The lines after the loop, with the halves in the order they are stored. *)
Definition final_perm (leftt rightt : Z) : Z * Z :=
  let rightt := Z.lor (shl rightt 31) (Z.shiftr rightt 1) in
  let '(leftt, rightt) := exchange0 leftt rightt in
  let leftt := Z.lor (shl leftt 31) (Z.shiftr leftt 1) in
  let '(leftt, rightt) := exchange 8 0x00ff00ff leftt rightt in
  let '(leftt, rightt) := exchange 2 0x33333333 leftt rightt in
  let '(rightt, leftt) := exchange 16 0x0000ffff rightt leftt in
  let '(rightt, leftt) := exchange 4 0x0f0f0f0f rightt leftt in
  (rightt, leftt).

Definition desfunc (block : Z * Z) (keys : list Z) : outcome (Z * Z) :=
  let '(leftt, rightt) := initial_perm (fst block) (snd block) in
  match des_rounds 8 keys leftt rightt with
  | Some (leftt, rightt) => Ok (final_perm leftt rightt)
  | None => Undef
  end.

(** The words of [dough] that a copy of 128 bytes takes. *)
Definition copied (dough : list Z) : list Z := take (Z.to_nat (DES_KEYBYTES / long_bytes)) dough.

(** Return value, expanded key and its length. *)
Definition expand (edf : Z) (pbDesKey : list Z) (ulDesKeyLen : Z) : Z * list Z * Z :=
  if negb (ulDesKeyLen =? 8)%Z then (0xEE20, [], 0)%Z
  else (0%Z, copied (cookey (deskey pbDesKey edf)), DES_KEYBYTES).
Definition OPENCOMM_DesExpandEncKey := expand EN0.
Definition OPENCOMM_DesExpandDecKey := expand DE1.

(** Return value and output of the functions for one block, whose bodies are
    the same. *)
Definition one_block (ek : list Z) (ulDesKeyLen : Z) (pbInData : list Z) (ulInDataLen : Z)
    : outcome (Z * list Z) :=
  if negb (ulInDataLen =? 8)%Z then Ok (0xEE20%Z, []) else
  if negb (ulDesKeyLen =? DES_KEYBYTES)%Z then Ok (0xEE20%Z, []) else
  match desfunc (scrunch pbInData) ek with
  | Ok work => Ok (0%Z, unscrun work)
  | Err => Err
  | Undef => Undef
  end.
Definition OPENCOMM_DesEncRaw := one_block.
Definition OPENCOMM_DesDecRaw := one_block.

(** The loop over the blocks. *)
Fixpoint des_loop (loops : nat) (raw : list Z -> outcome (Z * list Z)) (pInData : list Z)
    : outcome (Z * list Z) :=
  match loops with
  | O => Ok (0%Z, [])
  | S loops =>
      match raw (take 8 pInData) with
      | Ok (retval, out) =>
          if negb (retval =? 0)%Z then Ok (retval, out) else
          match des_loop loops raw (drop 8 pInData) with
          | Ok (retval, rest) => Ok (retval, out ++ rest)
          | r => r
          end
      | r => r
      end
  end.

(** Return value and output.  The length of the expanded key is stored through
    [(unsigned long * ) &EncKeyLen] into an [int] of 4 bytes. *)
Definition myic_DESEncrypt (pDesKey pInData : list Z) : outcome (Z * list Z) :=
  if negb (length pInData mod 8 =? 0)%nat then Ok (0xEE20%Z, []) else
  if negb (length pDesKey =? 8)%nat then Ok (0xEE20%Z, []) else
  let '(retval, DesEncKeyBuf, EncKeyLen) :=
    OPENCOMM_DesExpandEncKey pDesKey (Z.of_nat (length pDesKey)) in
  if negb (long_bytes =? 4)%Z then Undef else
  if negb (retval =? 0)%Z then Ok (retval, []) else
  des_loop (length pInData / 8)
    (fun data => OPENCOMM_DesEncRaw DesEncKeyBuf EncKeyLen data 8) pInData.
Definition myic_DESDecrypt (pDesKey pInData : list Z) : outcome (Z * list Z) :=
  if negb (length pInData mod 8 =? 0)%nat then Ok (0xEE20%Z, []) else
  if negb (length pDesKey =? 8)%nat then Ok (0xEE20%Z, []) else
  let '(retval, DesDecKeyBuf, DecKeyLen) :=
    OPENCOMM_DesExpandDecKey pDesKey (Z.of_nat (length pDesKey)) in
  if negb (long_bytes =? 4)%Z then Undef else
  if negb (retval =? 0)%Z then Ok (retval, []) else
  des_loop (length pInData / 8)
    (fun data => OPENCOMM_DesDecRaw DesDecKeyBuf DecKeyLen data 8) pInData.

(** ** Padding and the functions for the callers *)

(** [malloc] may fail: [None]. *)
Definition CW_dataPadAdd (malloc : bool) (tag : Z) (date : list Z) : option (list Z) :=
  if negb malloc then None else
  let padLen := (if (tag =? 0)%Z then 8 - length date mod 8 else 16 - length date mod 16)%nat in
  Some (date ++ repeat (Z.of_nat padLen) padLen).

Definition USER_PASSWORD_KEY : list Z := bytes_of "abcd1234".

(** Without memory [padDate] is NULL and its length 0: nothing is encrypted and
    the result is success. *)
Definition DesEnc (malloc : bool) (pInData : list Z) : outcome (Z * list Z) :=
  let padDate := default [] (CW_dataPadAdd malloc 0 pInData) in
  match myic_DESEncrypt USER_PASSWORD_KEY padDate with
  | Ok (rv, out) => if negb (rv =? 0)%Z then Ok (rv, []) else Ok (0%Z, out)
  | r => r
  end.

Definition DesEnc_raw (pInData : list Z) : outcome (Z * list Z) :=
  myic_DESEncrypt USER_PASSWORD_KEY pInData.

Definition ERR_MALLOC : Z := 20.
Definition ERR_FILECONT : Z := 20.

(** The last byte read as a (signed) [char]. *)
Definition char_of (b : Z) : Z := if (b <? 128)%Z then b else (b - 256)%Z.

Definition DesDec (malloc : bool) (pInData : list Z) : outcome (Z * list Z) :=
  if negb malloc then Ok (ERR_MALLOC, []) else
  match myic_DESDecrypt USER_PASSWORD_KEY pInData with
  | Ok (rv, tmpPlain) =>
      if negb (rv =? 0)%Z then Ok (rv, []) else
      match rev tmpPlain with
      | [] => Undef
      | b :: _ =>
          let padChar := char_of b in
          if ((padChar <=? 0) || (8 <? padChar))%Z then Ok (ERR_FILECONT, [])
          else Ok (0%Z, take (length tmpPlain - Z.to_nat padChar) tmpPlain)
      end
  | r => r
  end.

Definition DesDec_raw (pInData : list Z) : outcome (Z * list Z) :=
  myic_DESDecrypt USER_PASSWORD_KEY pInData.
End Des.

(** ** The tables against the standard

    The S-boxes and the permutation P of FIPS 46-3; entry [x] of table [k]
    should be the output of S-box [k] on [x], permuted and rotated by one. *)

Definition sbox : list (list Z) :=
  [[14;4;13;1;2;15;11;8;3;10;6;12;5;9;0;7;0;15;7;4;14;2;13;1;10;6;12;11;9;5;3;8;
    4;1;14;8;13;6;2;11;15;12;9;7;3;10;5;0;15;12;8;2;4;9;1;7;5;11;3;14;10;0;6;13];
   [15;1;8;14;6;11;3;4;9;7;2;13;12;0;5;10;3;13;4;7;15;2;8;14;12;0;1;10;6;9;11;5;
    0;14;7;11;10;4;13;1;5;8;12;6;9;3;2;15;13;8;10;1;3;15;4;2;11;6;7;12;0;5;14;9];
   [10;0;9;14;6;3;15;5;1;13;12;7;11;4;2;8;13;7;0;9;3;4;6;10;2;8;5;14;12;11;15;1;
    13;6;4;9;8;15;3;0;11;1;2;12;5;10;14;7;1;10;13;0;6;9;8;7;4;15;14;3;11;5;2;12];
   [7;13;14;3;0;6;9;10;1;2;8;5;11;12;4;15;13;8;11;5;6;15;0;3;4;7;2;12;1;10;14;9;
    10;6;9;0;12;11;7;13;15;1;3;14;5;2;8;4;3;15;0;6;10;1;13;8;9;4;5;11;12;7;2;14];
   [2;12;4;1;7;10;11;6;8;5;3;15;13;0;14;9;14;11;2;12;4;7;13;1;5;0;15;10;3;9;8;6;
    4;2;1;11;10;13;7;8;15;9;12;5;6;3;0;14;11;8;12;7;1;14;2;13;6;15;0;9;10;4;5;3];
   [12;1;10;15;9;2;6;8;0;13;3;4;14;7;5;11;10;15;4;2;7;12;9;5;6;1;13;14;0;11;3;8;
    9;14;15;5;2;8;12;3;7;0;4;10;1;13;11;6;4;3;2;12;9;5;15;10;11;14;1;7;6;0;8;13];
   [4;11;2;14;15;0;8;13;3;12;9;7;5;10;6;1;13;0;11;7;4;9;1;10;14;3;5;12;2;15;8;6;
    1;4;11;13;12;3;7;14;10;15;6;8;0;5;9;2;6;11;13;8;1;4;10;7;9;5;0;15;14;2;3;12];
   [13;2;8;4;6;15;11;1;10;9;3;14;5;0;12;7;1;15;13;8;10;3;7;4;12;5;6;11;0;14;9;2;
    7;11;4;1;9;12;14;2;0;6;10;13;15;3;5;8;2;1;14;7;4;10;8;13;15;12;9;0;3;5;6;11]]%Z.
Definition perm_P : list Z :=
  [16;7;20;21;29;12;28;17;1;15;23;26;5;18;31;10;2;8;24;14;32;27;3;9;19;13;30;6;22;11;4;25]%Z.

(** Row and column of the 6-bit input; the 4-bit output in its place. *)
Definition sbox_out (k x : nat) : Z :=
  let z := Z.of_nat x in
  let row := (2 * Z.shiftr z 5 + Z.land z 1)%Z in
  let col := Z.land (Z.shiftr z 1) 15 in
  Z.shiftl (nth (Z.to_nat (16 * row + col)) (nth k sbox []) 0%Z) (28 - 4 * Z.of_nat k).
Definition permuted (v : Z) : Z :=
  fold_left (fun r p => 2 * r + (if Z.testbit v (32 - p) then 1 else 0))%Z perm_P 0%Z.
Definition sp_standard (k x : nat) : Z :=
  let v := permuted (sbox_out k x) in
  Z.lor (u32 (Z.shiftl v 1)) (Z.shiftr v 31).

(** The entries of a table that differ from the standard. *)
Definition differing (k : nat) (table : list Z) : list nat :=
  List.filter (fun x => negb (nth x table 0 =? sp_standard k x)%Z) (seq 0 64).

(** The tables SP1-SP4 and SP6-SP8 are those of DES; SP5 differs in four
    entries, so the cipher is not DES: the standard test vector, whose result
    is 85E813540F0AB405, comes out differently. *)
Theorem sp_tables :
  List.map (fun p => differing (fst p) (snd p))
    [(0%nat, SP1); (1%nat, SP2); (2%nat, SP3); (3%nat, SP4); (4%nat, SP5); (5%nat, SP6);
     (6%nat, SP7); (7%nat, SP8)]
  = [[]; []; []; []; [46; 53; 54; 55]%nat; []; []; []]
  /\ myic_DESEncrypt 4 [0x13; 0x34; 0x57; 0x79; 0x9B; 0xBC; 0xDF; 0xF1]%Z
       [0x01; 0x23; 0x45; 0x67; 0x89; 0xAB; 0xCD; 0xEF]%Z
     = Ok (0%Z, [0x1E; 0xCE; 0xAF; 0xFE; 0x1C; 0x65; 0x52; 0x96]%Z).
Proof. split; vm_compute; reflexivity. Qed.

(** ** The permutations are inverse to each other (32-bit longs) *)

Section ILP32.
Lemma shl_u32 x n : shl 4 x n = u32 (Z.shiftl x n).
Proof. reflexivity. Qed.

Lemma word_shl x n : is_word 32 (shl 4 x n).
Proof. rewrite shl_u32. apply word_u32. Qed.

Lemma shl_masked x mask k : (0 <= k)%Z -> is_word 32 (Z.shiftl mask k) ->
  shl 4 (Z.land x mask) k = Z.shiftl (Z.land x mask) k.
Proof.
  intros Hk Hm. rewrite shl_u32. apply u32_id. rewrite Z.shiftl_land. by apply word_land.
Qed.

(** A masked exchange undoes itself. *)
Lemma exchange_twice k mask a b a' b' : (0 <= k)%Z -> is_word 32 (Z.shiftl mask k) ->
  exchange 4 k mask a b = (a', b') -> exchange 4 k mask a' b' = (a, b).
Proof.
  intros Hk Hm. unfold exchange. rewrite !shl_masked by done.
  set (work := Z.land (Z.lxor (Z.shiftr a k) b) mask). intros [= <- <-].
  rewrite Z.shiftr_lxor, Z.shiftr_shiftl_l, Z.sub_diag, Z.shiftl_0_r by lia.
  assert (Z.lxor (Z.lxor (Z.shiftr a k) work) (Z.lxor b work) = Z.lxor (Z.shiftr a k) b) as ->.
  { rewrite (Z.lxor_comm b work), Z.lxor_assoc, <- (Z.lxor_assoc work work b).
    by rewrite Z.lxor_nilpotent, Z.lxor_0_l. }
  fold work. by rewrite !Z.lxor_assoc, !Z.lxor_nilpotent, !Z.lxor_0_r.
Qed.

Lemma exchange0_twice l r l' r' : exchange0 l r = (l', r') -> exchange0 r' l' = (r, l).
Proof.
  unfold exchange0. set (work := Z.land (Z.lxor l r) _). intros [= <- <-].
  assert (Z.lxor (Z.lxor r work) (Z.lxor l work) = Z.lxor l r) as ->.
  { rewrite (Z.lxor_comm l work), Z.lxor_assoc, <- (Z.lxor_assoc work work l).
    by rewrite Z.lxor_nilpotent, Z.lxor_0_l, Z.lxor_comm. }
  fold work. by rewrite !Z.lxor_assoc, !Z.lxor_nilpotent, !Z.lxor_0_r.
Qed.

Definition words (p : Z * Z) : Prop := is_word 32 (fst p) /\ is_word 32 (snd p).

Lemma words_exchange k mask a b : words (a, b) -> is_word 32 mask -> words (exchange 4 k mask a b).
Proof.
  intros [Ha Hb] Hm. unfold exchange. split; apply word_lxor; try done; [apply word_shl|].
  by apply word_land.
Qed.

Lemma words_exchange0 l r : words (l, r) -> words (exchange0 l r).
Proof.
  intros [Hl Hr]. unfold exchange0.
  split; apply word_lxor; try done; apply word_land; try done; split; lia.
Qed.

(** The rotations by one. *)
Definition rol (x : Z) : Z := Z.land (Z.lor (shl 4 x 1) (Z.land (Z.shiftr x 31) 1)) 0xffffffff.
Definition ror (x : Z) : Z := Z.lor (shl 4 x 31) (Z.shiftr x 1).

Lemma word_rol x : is_word 32 (rol x).
Proof. apply word_land; [done|]. split; lia. Qed.
Lemma word_ror x : is_word 32 x -> is_word 32 (ror x).
Proof. intros Hx. apply word_lor; [done|apply word_shl|]. by apply word_shiftr. Qed.

Lemma ror_rol x : is_word 32 x -> ror (rol x) = x.
Proof.
  intros Hx. apply (word_eq 32); [apply word_ror, word_rol|done..|]. intros i Hi.
  unfold ror, rol. rewrite !shl_u32. each_bit i Hi. all: bit_calc.
Qed.

Lemma rol_ror x : is_word 32 x -> rol (ror x) = x.
Proof.
  intros Hx. apply (word_eq 32); [apply word_rol|done..|]. intros i Hi.
  unfold ror, rol. rewrite !shl_u32. each_bit i Hi. all: bit_calc.
  by rewrite (word_testbit 32 x 32), orb_false_r by (done || lia).
Qed.

Lemma initial_final l r : words (l, r) ->
  initial_perm 4 (fst (final_perm 4 l r)) (snd (final_perm 4 l r)) = (r, l).
Proof.
  intros [Hl Hr]. simpl in Hl, Hr. unfold final_perm. fold (ror r).
  pose proof (word_ror r Hr) as Hr1.
  destruct (exchange0 l (ror r)) as [l1 r2] eqn:E0.
  pose proof (words_exchange0 l (ror r) (conj Hl Hr1)) as [Hl1 Hr2]. rewrite E0 in Hl1, Hr2. simpl in Hl1, Hr2.
  fold (ror l1). destruct (exchange 4 8 _ (ror l1) r2) as [l3 r3] eqn:E8.
  destruct (exchange 4 2 _ l3 r3) as [l4 r4] eqn:E2.
  destruct (exchange 4 16 _ r4 l4) as [r5 l5] eqn:E16.
  destruct (exchange 4 4 _ r5 l5) as [r6 l6] eqn:E4. cbn [fst snd]. unfold initial_perm.
  apply exchange_twice in E4, E16, E2, E8; try lia; try (split; vm_compute; done).
  rewrite E4, E16, E2, E8. fold (rol (ror l1)). rewrite rol_ror by done.
  apply exchange0_twice in E0. rewrite E0. fold (rol (ror r)). by rewrite rol_ror.
Qed.

Lemma words_initial l r : words (l, r) -> words (initial_perm 4 l r).
Proof.
  intros H. unfold initial_perm.
  destruct (exchange 4 4 _ l r) as [l1 r1] eqn:E4.
  pose proof (words_exchange 4 0x0f0f0f0f l r H ltac:(split; lia)) as H1. rewrite E4 in H1.
  destruct (exchange 4 16 _ l1 r1) as [l2 r2] eqn:E16.
  pose proof (words_exchange 16 0x0000ffff l1 r1 H1 ltac:(split; lia)) as H2. rewrite E16 in H2.
  destruct (exchange 4 2 _ r2 l2) as [r3 l3] eqn:E2.
  pose proof (words_exchange 2 0x33333333 r2 l2 (conj (proj2 H2) (proj1 H2)) ltac:(split; lia)) as H3.
  rewrite E2 in H3. destruct (exchange 4 8 _ r3 l3) as [r4 l4] eqn:E8.
  pose proof (words_exchange 8 0x00ff00ff r3 l3 H3 ltac:(split; lia)) as H4. rewrite E8 in H4.
  fold (rol r4). destruct (exchange0 l4 (rol r4)) as [l5 r5] eqn:E0.
  pose proof (words_exchange0 l4 (rol r4) (conj (proj2 H4) (word_rol r4))) as H5. rewrite E0 in H5.
  fold (rol l5). split; [apply word_rol|apply H5].
Qed.

Lemma final_initial l r : words (l, r) ->
  final_perm 4 (snd (initial_perm 4 l r)) (fst (initial_perm 4 l r)) = (l, r).
Proof.
  intros H. unfold initial_perm.
  destruct (exchange 4 4 _ l r) as [l1 r1] eqn:E4.
  destruct (exchange 4 16 _ l1 r1) as [l2 r2] eqn:E16.
  destruct (exchange 4 2 _ r2 l2) as [r3 l3] eqn:E2.
  destruct (exchange 4 8 _ r3 l3) as [r4 l4] eqn:E8.
  pose proof (words_exchange 4 0x0f0f0f0f l r H ltac:(split; lia)) as H1. rewrite E4 in H1.
  pose proof (words_exchange 16 0x0000ffff l1 r1 H1 ltac:(split; lia)) as H2. rewrite E16 in H2.
  pose proof (words_exchange 2 0x33333333 r2 l2 (conj (proj2 H2) (proj1 H2)) ltac:(split; lia)) as H3.
  rewrite E2 in H3.
  pose proof (words_exchange 8 0x00ff00ff r3 l3 H3 ltac:(split; lia)) as H4. rewrite E8 in H4.
  fold (rol r4). destruct (exchange0 l4 (rol r4)) as [l5 r5] eqn:E0.
  pose proof (words_exchange0 l4 (rol r4) (conj (proj2 H4) (word_rol r4))) as H5. rewrite E0 in H5.
  fold (rol l5). cbn [fst snd]. unfold final_perm. fold (ror (rol l5)).
  rewrite ror_rol by apply H5. apply exchange0_twice in E0. rewrite E0.
  fold (ror (rol r4)). rewrite ror_rol by apply H4.
  apply exchange_twice in E4, E16, E2, E8; try lia; try (split; vm_compute; done).
  by rewrite E8, E2, E16, E4.
Qed.

(** ** The rounds *)

Definition swap (p : Z * Z) : Z * Z := (snd p, fst p).
Definition round (p k : Z * Z) : Z * Z :=
  (snd p, Z.lxor (fst p) (fval 4 (snd p) (fst k) (snd k))).

Fixpoint flat (l : list (Z * Z)) : list Z :=
  match l with [] => [] | (a, b) :: l => a :: b :: flat l end.

(** The loop runs through the pairs of key words. *)
Lemma rounds_fold n ks l r :
  length ks = (2 * n)%nat ->
  des_rounds 4 n (flat ks) l r = Some (fold_left round ks (l, r)).
Proof.
  revert ks l r. induction n as [|n IH]; intros ks l r Hk; [by destruct ks|].
  destruct ks as [|[k1 k2] [|[k3 k4] ks]]; simpl in Hk; [lia..|].
  cbn [flat des_rounds fold_left]. by rewrite IH by lia.
Qed.

Lemma round_undo p k : round (swap (round p k)) k = swap p.
Proof.
  destruct p as [l r], k as [k1 k2]. unfold round, swap. cbn [fst snd].
  by rewrite Z.lxor_assoc, Z.lxor_nilpotent, Z.lxor_0_r.
Qed.

Lemma rounds_undo ks p : fold_left round (rev ks) (swap (fold_left round ks p)) = swap p.
Proof.
  revert p. induction ks as [|k ks IH]; intros p; [done|]. cbn [rev fold_left].
  rewrite fold_left_app, IH. apply round_undo.
Qed.

(** The entries of the tables are 32-bit words. *)
Definition table_ok (t : list Z) : bool := forallb (fun z => (0 <=? z) && (z <? 2 ^ 32))%Z t.

Lemma word_sp t i : table_ok t = true -> is_word 32 (sp t i).
Proof.
  intros Ht. unfold sp. destruct (nth_in_or_default (Z.to_nat (Z.land i 0x3f)) t 0%Z) as [Hin| ->];
    [|split; lia].
  unfold table_ok in Ht. rewrite forallb_forall in Ht. apply Ht in Hin. split_andb. split; lia.
Qed.

Lemma word_fval h k1 k2 : is_word 32 (fval 4 h k1 k2).
Proof. unfold fval. repeat (apply word_lor; [done|..]); by apply word_sp. Qed.

Lemma words_rounds ks p : words p -> words (fold_left round ks p).
Proof.
  revert p. induction ks as [|k ks IH]; intros p Hp; [done|]. apply IH. destruct Hp as [Hl Hr].
  split; [done|]. apply word_lxor; [done..|apply word_fval].
Qed.

(** ** The key schedule: decryption has the pairs in reverse order *)

Definition cook (raw : Z * Z) : Z * Z :=
  match cookey 4 [fst raw; snd raw] with [a; b] => (a, b) | _ => (0, 0)%Z end.

Lemma cookey_flat l : cookey 4 (flat l) = flat (List.map cook l).
Proof. induction l as [|[a b] l IH]; [done|]. cbn [flat cookey List.map]. by rewrite IH. Qed.

Lemma deskey_flat key edf :
  let raw := List.map (raw_key (pc1m_of key)) (seq 0 16) in
  deskey key edf = flat (if (edf =? DE1)%Z then rev raw else raw).
Proof.
  unfold deskey. generalize (raw_key (pc1m_of key)). intros f. cbn [seq fold_left List.map].
  repeat match goal with |- context [f ?i] => destruct (f i) end.
  destruct (edf =? DE1)%Z; reflexivity.
Qed.

Definition schedule (key : list Z) : list (Z * Z) :=
  List.map cook (List.map (raw_key (pc1m_of key)) (seq 0 16)).

Lemma length_flat l : length (flat l) = (2 * length l)%nat.
Proof. induction l as [|[a b] l IH]; [done|]. simpl. lia. Qed.

Lemma expand_enc key :
  OPENCOMM_DesExpandEncKey 4 key 8 = (0%Z, flat (schedule key), DES_KEYBYTES).
Proof.
  unfold OPENCOMM_DesExpandEncKey, expand, copied. rewrite deskey_flat, cookey_flat.
  by rewrite take_ge by (rewrite length_flat, !length_map; done).
Qed.

Lemma expand_dec key :
  OPENCOMM_DesExpandDecKey 4 key 8 = (0%Z, flat (rev (schedule key)), DES_KEYBYTES).
Proof.
  unfold OPENCOMM_DesExpandDecKey, expand, copied. rewrite deskey_flat.
  change ((DE1 =? DE1)%Z) with true. cbv iota. rewrite cookey_flat, map_rev.
  by rewrite take_ge by (rewrite length_flat, length_rev, !length_map; done).
Qed.

(** ** One block *)

Lemma desfunc_rounds block ks :
  length ks = 16%nat -> words block ->
  desfunc 4 block (flat ks)
  = Ok (let p := fold_left round ks (initial_perm 4 (fst block) (snd block)) in
        final_perm 4 (fst p) (snd p)).
Proof.
  intros Hk Hw. unfold desfunc. destruct (initial_perm 4 _ _) as [l r].
  rewrite (rounds_fold 8) by done. by destruct (fold_left round ks (l, r)).
Qed.

(** The rounds with the keys in reverse order decrypt. *)
Lemma desfunc_inverse block ks c :
  length ks = 16%nat -> words block -> desfunc 4 block (flat ks) = Ok c -> words c ->
  desfunc 4 c (flat (rev ks)) = Ok block.
Proof.
  intros Hk Hw. rewrite desfunc_rounds by done. intros [= <-] Hc.
  rewrite desfunc_rounds by (rewrite ?length_rev; done).
  destruct block as [a b]. cbn [fst snd] in *.
  set (p := fold_left round ks (initial_perm 4 a b)) in *. cbn zeta in *.
  assert (words p) as Hp by (apply words_rounds, words_initial, Hw).
  rewrite initial_final by (by destruct p).
  change (snd p, fst p) with (swap p). subst p. rewrite rounds_undo.
  cbn [swap fst snd]. by rewrite final_initial.
Qed.

Lemma words_final l r : words (l, r) -> words (final_perm 4 l r).
Proof.
  intros [Hl Hr]. simpl in Hl, Hr. unfold final_perm. fold (ror r).
  pose proof (words_exchange0 l (ror r) (conj Hl (word_ror r Hr))) as H0.
  destruct (exchange0 l (ror r)) as [l1 r1]. fold (ror l1).
  pose proof (words_exchange 8 0x00ff00ff (ror l1) r1
    (conj (word_ror l1 (proj1 H0)) (proj2 H0)) ltac:(split; lia)) as H8.
  destruct (exchange 4 8 _ (ror l1) r1) as [l2 r2].
  pose proof (words_exchange 2 0x33333333 l2 r2 H8 ltac:(split; lia)) as H2.
  destruct (exchange 4 2 _ l2 r2) as [l3 r3].
  pose proof (words_exchange 16 0x0000ffff r3 l3 (conj (proj2 H2) (proj1 H2)) ltac:(split; lia)) as H16.
  destruct (exchange 4 16 _ r3 l3) as [r4 l4].
  pose proof (words_exchange 4 0x0f0f0f0f r4 l4 H16 ltac:(split; lia)) as H4.
  destruct (exchange 4 4 _ r4 l4) as [r5 l5]. done.
Qed.

(** Eight bytes and two words. *)
Lemma words_scrunch b : words (scrunch 4 b).
Proof.
  split; cbn [fst snd scrunch]; repeat (apply word_lor; [done|..]); try apply word_shl;
    apply word_land; try done; split; lia.
Qed.

Lemma unscrun_scrunch b : length b = 8%nat -> Forall is_byte b -> unscrun (scrunch 4 b) = b.
Proof.
  intros Hl Hb. do 8 (destruct b as [|? b]; [done|]). destruct b; [|done].
  repeat match goal with H : Forall _ (_ :: _) |- _ => inversion H as [|? ? ?%byte_word ?]; subst; clear H end.
  unfold scrunch, unscrun. cbn [nth]. rewrite !shl_u32.
  repeat (apply (f_equal2 cons)); [..|done].
  all: apply (word_eq 8); [apply word_u8|done..|]; intros i Hi; each_bit i Hi; bit_calc.
Qed.

Lemma scrunch_unscrun p : words p -> scrunch 4 (unscrun p) = p.
Proof.
  destruct p as [x y]. intros [Hx Hy]. simpl in Hx, Hy.
  pose proof (words_scrunch (unscrun (x, y))) as [H1 H2]. revert H1 H2.
  unfold scrunch, unscrun. cbn [nth fst snd]. rewrite !shl_u32. intros H1 H2.
  apply (f_equal2 pair); apply (word_eq 32); try done; intros i Hi; each_bit i Hi; bit_calc.
Qed.

Lemma unscrun_bytes p : Forall is_byte (unscrun p) /\ length (unscrun p) = 8%nat.
Proof.
  destruct p as [x y]. split; [|done]. unfold unscrun. repeat (constructor; [apply byte_word, word_u8|]).
  constructor.
Qed.

Definition block (b : list Z) : Prop := length b = 8%nat /\ Forall is_byte b.

(** Encrypting one block succeeds, and decrypting the result gives it back. *)
Lemma one_block_inverse key b :
  block b -> exists c, block c
    /\ OPENCOMM_DesEncRaw 4 (flat (schedule key)) DES_KEYBYTES b 8 = Ok (0%Z, c)
    /\ OPENCOMM_DesDecRaw 4 (flat (rev (schedule key))) DES_KEYBYTES c 8 = Ok (0%Z, b).
Proof.
  intros [Hl Hb].
  assert (length (schedule key) = 16%nat) as Hk by (unfold schedule; by rewrite !length_map).
  pose proof (words_scrunch b) as Hw.
  pose proof (desfunc_rounds (scrunch 4 b) (schedule key) Hk Hw) as Henc. cbn zeta in Henc.
  set (p := fold_left round _ _) in Henc.
  assert (words (final_perm 4 (fst p) (snd p))) as Hc.
  { apply words_final. destruct p as [l r] eqn:E. rewrite <- E. subst p.
    apply words_rounds, words_initial. by destruct (scrunch 4 b). }
  exists (unscrun (final_perm 4 (fst p) (snd p))).
  split; [split; apply unscrun_bytes|]. unfold OPENCOMM_DesEncRaw, OPENCOMM_DesDecRaw, one_block.
  cbn [Z.eqb negb Pos.eqb DES_KEYBYTES]. split; [by rewrite Henc|].
  rewrite scrunch_unscrun by done. rewrite (desfunc_inverse _ _ _ Hk Hw Henc Hc).
  by rewrite unscrun_scrunch.
Qed.

(** ** Messages *)

Lemma loop_inverse (enc dec : list Z -> outcome (Z * list Z)) n data :
  (forall b, block b -> exists c, block c /\ enc b = Ok (0%Z, c) /\ dec c = Ok (0%Z, b)) ->
  length data = (8 * n)%nat -> Forall is_byte data ->
  exists out, length out = length data /\ Forall is_byte out
    /\ des_loop n enc data = Ok (0%Z, out) /\ des_loop n dec out = Ok (0%Z, data).
Proof.
  intros Hinv. revert data. induction n as [|n IH]; intros data Hl Hb.
  { destruct data; [|done]. by exists []. }
  destruct (Hinv (take 8 data)) as (c & [Hcl Hcb] & Henc & Hdec).
  { split; [rewrite length_take; lia|by apply Forall_take]. }
  destruct (IH (drop 8 data)) as (out & Hol & Hob & Henc' & Hdec');
    [rewrite length_drop; lia|by apply Forall_drop|].
  rewrite length_drop in Hol.
  exists (c ++ out). split; [rewrite length_app; lia|]. split; [by apply Forall_app|].
  cbn [des_loop]. rewrite Henc. cbn [Z.eqb negb]. rewrite Henc'. split; [done|].
  rewrite take_app_length', drop_app_length' by done. rewrite Hdec. cbn [Z.eqb negb].
  rewrite Hdec'. by rewrite take_drop.
Qed.

(** Whole blocks under a key of eight bytes. *)
Lemma encrypt_decrypt key data :
  length key = 8%nat -> (length data mod 8 = 0)%nat -> Forall is_byte data ->
  exists out, length out = length data /\ Forall is_byte out
    /\ myic_DESEncrypt 4 key data = Ok (0%Z, out) /\ myic_DESDecrypt 4 key out = Ok (0%Z, data).
Proof.
  intros Hk Hd Hb.
  assert (length data = 8 * (length data / 8))%nat as Hn.
  { pose proof (Nat.div_mod (length data) 8 ltac:(lia)). lia. }
  destruct (loop_inverse _ _ (length data / 8) data (one_block_inverse key) Hn Hb)
    as (out & Hol & Hob & Henc & Hdec).
  exists out. split; [exact Hol|]. split; [exact Hob|].
  unfold myic_DESEncrypt, myic_DESDecrypt. rewrite Hol, Hk, Hd. cbn [Nat.eqb negb Z.eqb Pos.eqb].
  change (Z.of_nat 8) with 8%Z. rewrite expand_enc, expand_dec. cbn [Z.eqb negb].
  split; [exact Henc|exact Hdec].
Qed.

Lemma padded_whole8 n : ((n + (8 - n mod 8)) mod 8 = 0)%nat.
Proof.
  pose proof (Nat.mod_upper_bound n 8 ltac:(lia)). pose proof (Nat.div_mod n 8 ltac:(lia)).
  replace (n + (8 - n mod 8))%nat with (0 + (n / 8 + 1) * 8)%nat by lia. apply Nat.Div0.mod_add.
Qed.

Lemma rev_repeat_last {A} (l : list A) x n : (0 < n)%nat -> exists l', rev (l ++ repeat x n) = x :: l'.
Proof.
  intros Hn. destruct n as [|n]; [lia|]. rewrite rev_app_distr.
  change (repeat x (S n)) with (x :: repeat x n). rewrite repeat_cons, rev_app_distr. simpl. eauto.
Qed.

Lemma padding_range n : (1 <= 8 - n mod 8 <= 8)%nat.
Proof. pose proof (Nat.mod_upper_bound n 8 ltac:(lia)). lia. Qed.

Lemma enc_dec data :
  Forall is_byte data ->
  exists out, DesEnc 4 true data = Ok (0%Z, out)
    /\ length out = (8 * (length data / 8 + 1))%nat /\ Forall is_byte out
    /\ DesDec 4 true out = Ok (0%Z, data).
Proof.
  intros Hb. set (pad := (8 - length data mod 8)%nat).
  pose proof (padding_range (length data)) as Hp. fold pad in Hp.
  destruct (encrypt_decrypt USER_PASSWORD_KEY (data ++ repeat (Z.of_nat pad) pad))
    as (out & Hol & Hob & Henc & Hdec).
  - reflexivity.
  - rewrite length_app, repeat_length. apply padded_whole8.
  - apply Forall_app. split; [done|]. apply List.Forall_forall.
    intros z ->%repeat_spec. unfold is_byte. lia.
  - exists out. unfold DesEnc.
    change (default [] (CW_dataPadAdd true 0 data)) with (data ++ repeat (Z.of_nat pad) pad).
    rewrite Henc. cbn [Z.eqb negb]. split; [done|]. split.
    { rewrite Hol, length_app, repeat_length. subst pad.
      pose proof (Nat.div_mod (length data) 8 ltac:(lia)). lia. }
    split; [done|]. unfold DesDec. cbn [negb]. rewrite Hdec. cbn [Z.eqb negb].
    destruct (rev_repeat_last data (Z.of_nat pad) pad ltac:(lia)) as [l' ->].
    unfold char_of. destruct (Z.ltb_spec (Z.of_nat pad) 128); [|lia].
    destruct (Z.leb_spec (Z.of_nat pad) 0); [lia|]. destruct (Z.ltb_spec 8 (Z.of_nat pad)); [lia|].
    cbn [orb]. rewrite Nat2Z.id, length_app, repeat_length, Nat.add_sub.
    by rewrite take_app_length.
Qed.

Lemma enc_ok data : Forall is_byte data ->
  exists out, DesEnc 4 true data = Ok (0%Z, out)
    /\ length out = (8 * (length data / 8 + 1))%nat /\ Forall is_byte out.
Proof. intros (out & ? & ? & ? & _)%enc_dec. eauto. Qed.

(** C35: with 32-bit longs and enough memory, decryption undoes encryption:
    for a message of any length [DesEnc] succeeds with the next multiple of
    eight bytes and [DesDec] gives exactly the message back. *)
Theorem des_roundtrip (data : list Z) :
  Forall is_byte data ->
  exists out, DesEnc 4 true data = Ok (0%Z, out)
    /\ length out = (8 * (length data / 8 + 1))%nat /\ Forall is_byte out
    /\ DesDec 4 true out = Ok (0%Z, data).
Proof. apply enc_dec. Qed.

Lemma des_roundtrip_witness :
  exists out, DesEnc 4 true (bytes_of "bob12345") = Ok (0%Z, out) /\ length out = 16%nat
    /\ DesDec 4 true out = Ok (0%Z, bytes_of "bob12345").
Proof.
  destruct (des_roundtrip (bytes_of "bob12345") (bytes_of_bytes "bob12345"))
    as (out & Henc & Hl & _ & Hdec).
  exists out. split; [exact Henc|]. split; [exact Hl|exact Hdec].
Defined.
End ILP32.

(** ** 64-bit longs *)

(** Half of the key words are copied, the loop reads all of them. *)
Lemma desfunc_lp64 blk key :
  desfunc 8 blk (snd (fst (OPENCOMM_DesExpandEncKey 8 key 8))) = Undef.
Proof.
  cbn [OPENCOMM_DesExpandEncKey expand fst snd Z.eqb negb Pos.eqb].
  unfold copied. change (Z.to_nat (DES_KEYBYTES / 8)) with 16%nat.
  rewrite deskey_flat. set (raw := List.map _ (seq 0 16)).
  assert (length raw = 16%nat) as Hl by (unfold raw; by rewrite length_map).
  change ((EN0 =? DE1)%Z) with false. cbv iota.
  do 16 (destruct raw as [|[? ?] raw]; [done|]). cbn [flat cookey take].
  unfold desfunc. destruct (initial_perm _ _ _) as [l r]. reflexivity.
Qed.

Lemma DesEnc_lp64 malloc data : DesEnc 8 malloc data = Undef.
Proof.
  unfold DesEnc, myic_DESEncrypt.
  assert (length (default [] (CW_dataPadAdd malloc 0 data)) mod 8 = 0)%nat as ->; [|reflexivity].
  destruct malloc; [|reflexivity].
  change (default [] (CW_dataPadAdd true 0 data))
    with (data ++ repeat (Z.of_nat (8 - length data mod 8)) (8 - length data mod 8)).
  rewrite length_app, repeat_length. apply padded_whole8.
Qed.

(** On a platform with 64-bit longs [DesEnc], and with it the making of a
    login token, is undefined for every input: [desfunc] reads the half of the
    expanded key that was not copied, and the key's length is stored through a
    pointer to [unsigned long] into an [int]. *)
Theorem des_lp64_undefined (malloc : bool) (data blk : list Z) (key : list Z) :
  DesEnc 8 malloc data = Undef
  /\ desfunc 8 (scrunch 8 blk) (snd (fst (OPENCOMM_DesExpandEncKey 8 key 8))) = Undef.
Proof. split; [apply DesEnc_lp64|apply desfunc_lp64]. Qed.
