(* ===== verification/Sql.v ===== *)
(** * The SQL interface of the CGI programs

    Every SQL text the programs send is one of the [sprintf] templates below
    (the constants of the CGI sources).  [render_sql] is the text the code
    builds; [parse_sql] reads a text back as a template and its arguments.
    [stmt_spec] states the documented meaning of each statement on the tables
    of src/resource/HFDFS.sql: MySQL itself is not part of the sources, so its
    behaviour is a contract, used as a hypothesis by the programs' theorems
    and discharged by the executable engine of file [Sim]. *)

From S2P Require Import Prelude CLib.
From Stdlib Require Import Permutation.

(** ** Statement templates *)

Inductive sql_kind : Set :=
| SetNames
| SelPassword | SelUser | InsUser
| SelFileCount | SelUserFile | UpdFileCount | UpdFileCountTight
| InsUserFile
| SelUserCount | SelUserCountDq | InsUserCountSp | InsUserCount | UpdUserCount | DelUserCount
| SelShare | SetShared | ClearShared | InsShare | SelSharedStatus | DelShare | DelUserFile
| SelFileId | DelFileInfo
| SelPv | UpdPv | SelSharePv | UpdSharePv
| InsFileInfo
| SelFiles | SelFilesAsc | SelFilesDesc | SelShareFiles | SelRanking.

#[export] Instance sql_kind_eq_dec : EqDecision sql_kind.
Proof. solve_decision. Defined.

Definition all_kinds : list sql_kind :=
  [SetNames; SelPassword; SelUser; InsUser; SelFileCount; SelUserFile; UpdFileCount;
   UpdFileCountTight; InsUserFile; SelUserCount; SelUserCountDq; InsUserCountSp; InsUserCount;
   UpdUserCount; DelUserCount; SelShare; SetShared; ClearShared; InsShare; SelSharedStatus;
   DelShare; DelUserFile; SelFileId; DelFileInfo; SelPv; UpdPv; SelSharePv; UpdSharePv;
   InsFileInfo; SelFiles; SelFilesAsc; SelFilesDesc; SelShareFiles; SelRanking].

Definition dq : string := String DQUOTE EmptyString.

(** The format strings, copied from the sources. *)
Definition sql_template (k : sql_kind) : string :=
  match k with
  | SetNames => "set names utf8"
  | SelPassword => "select password from user where name=" +:+ dq +:+ "%s" +:+ dq
  | SelUser => "select * from user where name = '%s'"
  | InsUser => "insert into user (name, nickname, password, phone, createtime, email) values ('%s', '%s', '%s', '%s', '%s', '%s')"
  | SelFileCount => "select count from file_info where md5 = '%s'"
  | SelUserFile => "select * from user_file_list where user = '%s' and md5 = '%s' and filename = '%s'"
  | UpdFileCount => "update file_info set count = %d where md5 = '%s'"
  | UpdFileCountTight => "update file_info set count=%d where md5 = '%s'"
  | InsUserFile => "insert into user_file_list(user, md5, createtime, filename, shared_status, pv) values ('%s', '%s', '%s', '%s', %d, %d)"
  | SelUserCount => "select count from user_file_count where user = '%s'"
  | SelUserCountDq => "select count from user_file_count where user=" +:+ dq +:+ "%s" +:+ dq
  | InsUserCountSp => " insert into user_file_count (user, count) values('%s', %d)"
  | InsUserCount => "insert into user_file_count (user, count) values('%s', %d)"
  | UpdUserCount => "update user_file_count set count = %d where user = '%s'"
  | DelUserCount => "delete from user_file_count where user = '%s'"
  | SelShare => "select * from share_file_list where md5 = '%s' and filename = '%s'"
  | SetShared => "update user_file_list set shared_status = 1 where user = '%s' and md5 = '%s' and filename = '%s'"
  | ClearShared => "update user_file_list set shared_status = 0 where user = '%s' and md5 = '%s' and filename = '%s'"
  | InsShare => "insert into share_file_list (user, md5, createtime, filename, pv) values ('%s', '%s', '%s', '%s', %d)"
  | SelSharedStatus => "select shared_status from user_file_list where user = '%s' and md5 = '%s' and filename = '%s'"
  | DelShare => "delete from share_file_list where user = '%s' and md5 = '%s' and filename = '%s'"
  | DelUserFile => "delete from user_file_list where user = '%s' and md5 = '%s' and filename = '%s'"
  | SelFileId => "select file_id from file_info where md5 = '%s'"
  | DelFileInfo => "delete from file_info where md5 = '%s'"
  | SelPv => "select pv from user_file_list where user = '%s' and md5 = '%s' and filename = '%s'"
  | UpdPv => "update user_file_list set pv = %d where user = '%s' and md5 = '%s' and filename = '%s'"
  | SelSharePv => "select pv from share_file_list where md5 = '%s' and filename = '%s'"
  | UpdSharePv => "update share_file_list set pv = %d where md5 = '%s' and filename = '%s'"
  | InsFileInfo => "insert into file_info (md5, file_id, url, size, type, count) values ('%s', '%s', '%s', '%ld', '%s', %d)"
  | SelFiles => "select user_file_list.*, file_info.url, file_info.size, file_info.type from file_info, user_file_list where user = '%s' and file_info.md5 = user_file_list.md5 limit %d, %d"
  | SelFilesAsc => "select user_file_list.*, file_info.url, file_info.size, file_info.type from file_info, user_file_list where user = '%s' and file_info.md5 = user_file_list.md5  order by pv asc limit %d, %d"
  | SelFilesDesc => "select user_file_list.*, file_info.url, file_info.size, file_info.type from file_info, user_file_list where user = '%s' and file_info.md5 = user_file_list.md5 order by pv desc limit %d, %d"
  | SelShareFiles => "select share_file_list.*, file_info.url, file_info.size, file_info.type from file_info, share_file_list where file_info.md5 = share_file_list.md5 limit %d, %d"
  | SelRanking => "select md5, filename, pv from share_file_list order by pv desc"
  end.

Definition sql_pieces (k : sql_kind) : list piece :=
  match pieces_of (sql_template k) with Some ps => ps | None => [] end.

Definition render_sql (k : sql_kind) (args : list arg) : option string :=
  format (sql_template k) args.

(** ** Reading a statement back

    A quoted literal ends at the next quote; a text with a backslash is not
    read (MySQL would process the escape). *)

Definition plain_char (c : ascii) : bool :=
  negb (Ascii.eqb c SQUOTE || Ascii.eqb c DQUOTE || Ascii.eqb c BACKSLASH || Ascii.eqb c NUL).

(** A string that denotes itself inside a quoted SQL literal. *)
Definition plain (s : string) : bool := sforall plain_char s.

Fixpoint span (p : ascii -> bool) (s : string) : string * string :=
  match s with
  | String c s' => if p c then let '(a, b) := span p s' in (String c a, b) else (EmptyString, s)
  | EmptyString => (EmptyString, EmptyString)
  end.

Definition scan_dec (s : string) : option (Z * string) :=
  match s with
  | String c s' =>
      if Ascii.eqb c "-" then
        let '(d, r) := span isdigit s' in
        if streq d EmptyString then None else Some ((- parse_digits d 0)%Z, r)
      else
        let '(d, r) := span isdigit s in
        if streq d EmptyString then None else Some (parse_digits d 0, r)
  | EmptyString => None
  end.

Fixpoint scan (ps : list piece) (s : string) : option (list arg) :=
  match ps with
  | [] => if streq s EmptyString then Some [] else None
  | PLit c :: ps' =>
      match s with
      | String d s' => if Ascii.eqb c d then scan ps' s' else None
      | EmptyString => None
      end
  | PStr :: ps' =>
      let '(a, r) := span plain_char s in option_map (cons (AStr a)) (scan ps' r)
  | PDec O :: ps' =>
      match scan_dec s with
      | Some (z, r) => option_map (cons (AInt z)) (scan ps' r)
      | None => None
      end
  | _ => None
  end.

Fixpoint parse_kinds (ks : list sql_kind) (s : string) : option (sql_kind * list arg) :=
  match ks with
  | [] => None
  | k :: ks' =>
      match scan (sql_pieces k) s with
      | Some args => Some (k, args)
      | None => parse_kinds ks' s
      end
  end.

Definition parse_sql (s : string) : option (sql_kind * list arg) := parse_kinds all_kinds s.

(** ** Round trip *)

Definition plain_arg (a : arg) : bool :=
  match a with AStr s => plain s | AInt _ => true end.

Lemma span_app p a r :
  sforall p a = true -> match r with EmptyString => True | String c _ => p c = false end ->
  span p (a +:+ r) = (a, r).
Proof.
  intros Ha Hr. induction a as [|c a IH].
  - rewrite string_app_nil_l. destruct r as [|c r]; [done|]. simpl. by rewrite Hr.
  - rewrite string_app_cons. simpl in *. apply andb_prop in Ha as [Hc Ha].
    by rewrite Hc, IH.
Qed.

Lemma dec_digits_isdigit fuel n acc :
  sforall isdigit acc = true -> sforall isdigit (dec_digits fuel n acc) = true.
Proof.
  revert n acc. induction fuel as [|f IH]; intros n acc Ha; [done|]. cbn [dec_digits].
  pose proof (Z.mod_pos_bound n 10 ltac:(lia)).
  assert (sforall isdigit (String (digit_chr (n mod 10)) acc) = true).
  { simpl. by rewrite isdigit_digit_chr. }
  destruct (n <? 10)%Z; auto.
Qed.

Definition digit_start (s : string) : bool :=
  match s with EmptyString => false | String c _ => isdigit c end.

Lemma scan_dec_digits n r :
  (0 <= n)%Z -> digit_start r = false ->
  span isdigit (dec_digits (dec_fuel n) n EmptyString +:+ r)
    = (dec_digits (dec_fuel n) n EmptyString, r)
  /\ streq (dec_digits (dec_fuel n) n EmptyString) EmptyString = false
  /\ Ascii.eqb (char_at (dec_digits (dec_fuel n) n EmptyString) 0) "-" = false.
Proof.
  intros Hn Hr. split; [apply span_app; [by apply dec_digits_isdigit|by destruct r]|].
  unfold dec_fuel.
  destruct (dec_digits_head (Z.to_nat (Z.log2 n)) n EmptyString) as (d & s & -> & Hd).
  split; [done|]. apply (digit_chr_not_special d Hd).
Qed.

Lemma scan_dec_string z r :
  digit_start r = false -> scan_dec (dec_string z +:+ r) = Some (z, r).
Proof.
  intros Hr. unfold dec_string. destruct (Z.ltb_spec z 0).
  - rewrite string_app_cons. cbn [scan_dec]. change (Ascii.eqb (chr 45) "-") with true. cbn iota.
    destruct (scan_dec_digits (- z) r) as (-> & -> & _); [lia|done|].
    rewrite parse_digits_dec_digits by lia. f_equal. f_equal. lia.
  - destruct (scan_dec_digits z r) as (Hsp & Hne & Hm); [lia|done|].
    rewrite (surjective_pairing (span _ _)) in Hsp. unfold scan_dec.
    destruct (dec_digits (dec_fuel z) z EmptyString) as [|c t] eqn:Ed; [done|].
    rewrite string_app_cons in *. change (char_at (String c t) 0) with c in Hm. rewrite Hm.
    destruct (span isdigit (String c (t +:+ r))) as [d r'] eqn:Es. simpl in Hsp.
    injection Hsp as -> ->. rewrite Hne, <- Ed, parse_digits_dec_digits by lia. done.
Qed.

(** After a [%s] the template continues with a character that ends a quoted
    literal, after a [%d] with one that is no digit. *)
Fixpoint well_delimited (ps : list piece) : bool :=
  match ps with
  | [] => true
  | PStr :: ((PLit c :: _) as ps') => negb (plain_char c) && well_delimited ps'
  | PDec O :: ((PLit c :: _) as ps') => negb (isdigit c) && well_delimited ps'
  | PDec O :: [] => true
  | PLit _ :: ps' => well_delimited ps'
  | _ => false
  end.

Lemma render_lit_head c ps args s :
  render (PLit c :: ps) args = Some s -> exists s', s = String c s'.
Proof. simpl. destruct (render ps args); [|done]. intros [= <-]. eauto. Qed.

Lemma scan_PStr ps s :
  scan (PStr :: ps) s
  = (let '(a, r) := span plain_char s in option_map (cons (AStr a)) (scan ps r)).
Proof. reflexivity. Qed.

Lemma scan_PDec ps s :
  scan (PDec 0 :: ps) s
  = match scan_dec s with
    | Some (z, r) => option_map (cons (AInt z)) (scan ps r)
    | None => None
    end.
Proof. reflexivity. Qed.

Lemma scan_render ps args s :
  well_delimited ps = true -> simple_fmt ps args = true -> forallb plain_arg args = true ->
  render ps args = Some s -> scan ps s = Some args.
Proof.
  revert args s. induction ps as [|p ps IH]; intros args s Hw Hf Hp Hr.
  - destruct args; [|done]. injection Hr as <-. done.
  - destruct p as [c| |[|w]|w]; try done.
    + simpl in Hr. destruct (render ps args) as [t|] eqn:Er; [|done]. injection Hr as <-.
      simpl. rewrite Ascii.eqb_refl. by apply IH.
    + destruct args as [|[a|] args]; try done. simpl in Hf, Hp, Hr.
      destruct (render ps args) as [t|] eqn:Er; [|done]. injection Hr as <-.
      apply andb_prop in Hp as [Ha Hp].
      destruct ps as [|[c| | |] ps]; try done. apply andb_prop in Hw as [Hc Hw].
      destruct (render_lit_head _ _ _ _ Er) as [t' ->].
      rewrite scan_PStr, span_app by (done || by apply negb_true_iff in Hc).
      by rewrite (IH args).
    + destruct args as [|[|z] args]; try done. cbn [render] in Hr. cbn [simple_fmt] in Hf.
      simpl in Hp.
      destruct (render ps args) as [t|] eqn:Er; [|done]. simpl in Hr. injection Hr as <-.
      rewrite scan_PDec, pad_dec_0, scan_dec_string.
      * rewrite (IH args t); try done. by destruct ps as [|[c| | |] ps]; [|apply andb_prop in Hw as [_ Hw]|..].
      * destruct ps as [|[c| | |] ps]; try done.
        { simpl in Er. injection Er as <-. done. }
        apply andb_prop in Hw as [Hc Hw].
        destruct (render_lit_head _ _ _ _ Er) as [t' ->]. by apply negb_true_iff in Hc.
Qed.

(** Two templates that differ at a literal, after a common part of literals
    and conversions of the same kind. *)
Fixpoint incompatible (ps qs : list piece) : bool :=
  match ps, qs with
  | PLit c :: ps', PLit d :: qs' => negb (Ascii.eqb c d) || incompatible ps' qs'
  | PStr :: ps', PStr :: qs' => incompatible ps' qs'
  | PDec O :: ps', PDec O :: qs' => incompatible ps' qs'
  | PLit _ :: _, [] => true
  | [], PLit _ :: _ => true
  | _, _ => false
  end.

Lemma scan_incompatible ps qs args s :
  incompatible ps qs = true ->
  well_delimited qs = true -> simple_fmt qs args = true -> forallb plain_arg args = true ->
  render qs args = Some s -> scan ps s = None.
Proof.
  revert qs args s. induction ps as [|p ps IH]; intros qs args s Hi Hw Hf Hp Hr.
  - destruct qs as [|[c| | |] qs]; try done.
    destruct (render_lit_head _ _ _ _ Hr) as [t ->]. done.
  - destruct p as [c| |[|w]|w], qs as [|[d| |[|w']|w'] qs]; try done.
    + injection Hr as <-. done.
    + simpl in Hr. destruct (render qs args) as [t|] eqn:Er; [|done]. injection Hr as <-.
      simpl in Hi |- *. destruct (Ascii.eqb c d); [|done]. by apply (IH qs args).
    + destruct args as [|[a|] args]; try done. simpl in Hf, Hp, Hr, Hi.
      destruct (render qs args) as [t|] eqn:Er; [|done]. injection Hr as <-.
      apply andb_prop in Hp as [Ha Hp].
      destruct qs as [|[d| | |] qs]; try done. apply andb_prop in Hw as [Hc Hw].
      destruct (render_lit_head _ _ _ _ Er) as [t' ->].
      rewrite scan_PStr, span_app by (done || by apply negb_true_iff in Hc).
      by rewrite (IH (PLit d :: qs) args).
    + destruct args as [|[|z] args]; try done. cbn [render] in Hr. cbn [simple_fmt] in Hf.
      simpl in Hp, Hi.
      destruct (render qs args) as [t|] eqn:Er; [|done]. simpl in Hr. injection Hr as <-.
      rewrite scan_PDec, pad_dec_0, scan_dec_string.
      * rewrite (IH qs args t); try done. by destruct qs as [|[d| | |] qs]; [|apply andb_prop in Hw as [_ Hw]|..].
      * destruct qs as [|[d| | |] qs]; try done.
        { simpl in Er. injection Er as <-. done. }
        apply andb_prop in Hw as [Hc Hw].
        destruct (render_lit_head _ _ _ _ Er) as [t' ->]. by apply negb_true_iff in Hc.
Qed.

(** The templates of the sources are well delimited and pairwise distinct. *)
Lemma templates_ok :
  forallb (fun k => well_delimited (sql_pieces k)
    && forallb (fun k' => bool_decide (k = k')
                          || incompatible (sql_pieces k') (sql_pieces k)) all_kinds) all_kinds = true.
Proof. vm_compute. reflexivity. Qed.

Lemma all_kinds_complete k : In k all_kinds.
Proof. destruct k; simpl; tauto. Qed.

Lemma parse_kinds_render ks k args s :
  In k ks -> (forall k', In k' ks -> k' <> k -> scan (sql_pieces k') s = None) ->
  scan (sql_pieces k) s = Some args -> parse_kinds ks s = Some (k, args).
Proof.
  induction ks as [|k0 ks IH]; [done|]. intros Hin Hother Hk. simpl.
  destruct (decide (k0 = k)) as [->|Hne]; [by rewrite Hk|].
  rewrite Hother by (simpl; auto). apply IH; auto.
  - by destruct Hin.
  - intros k' Hk' Hne'. apply Hother; simpl; auto.
Qed.

Lemma sql_pieces_of k : pieces_of (sql_template k) = Some (sql_pieces k).
Proof. destruct k; vm_compute; reflexivity. Qed.

(** The arguments fit the template: right kinds, and strings that denote
    themselves inside a quoted literal. *)
Definition sql_ok (k : sql_kind) (args : list arg) : bool :=
  simple_fmt (sql_pieces k) args && forallb plain_arg args.

Lemma parse_render_sql k args s :
  sql_ok k args = true -> render_sql k args = Some s -> parse_sql s = Some (k, args).
Proof.
  intros [Hf Hp]%andb_prop Hr. unfold render_sql, format in Hr.
  pose proof templates_ok as Hall. rewrite forallb_forall in Hall.
  specialize (Hall k (all_kinds_complete k)). apply andb_prop in Hall as [Hw Hinc].
  rewrite forallb_forall in Hinc. rewrite sql_pieces_of in Hr.
  apply parse_kinds_render; [apply all_kinds_complete| |].
  - intros k' Hk' Hne. specialize (Hinc k' Hk').
    apply orb_prop in Hinc as [He|Hi]; [by apply bool_decide_eq_true in He|].
    eapply scan_incompatible; eauto.
  - by apply scan_render.
Qed.
