(* ===== verification/Tables.v ===== *)
(** * The MySQL tables and the meaning of the statements

    Rows follow src/resource/HFDFS.sql.  Comparison of strings in a WHERE
    clause goes through the column's collation, which is a parameter: two
    strings are equal when their weight strings are ([utf8_general_ci] folds
    case and trailing blanks, a binary collation is the identity).

    [stmt_spec k args t t' rs] says that statement [k] with arguments [args]
    may succeed on tables [t], leaving [t'] and the result set [rs] ([None]
    for a statement without one).  The order of the rows of a SELECT without
    ORDER BY is left open, as in SQL. *)

From S2P Require Import Prelude CLib Sql.
From Stdlib Require Import Permutation Sorted.

Definition row := list (option string).

Record user_row := mkUser {
  u_name : string; u_nickname : string; u_password : string;
  u_phone : string; u_createtime : string; u_email : string }.

Record file_row := mkFile {
  f_md5 : string; f_file_id : string; f_url : string;
  f_size : Z; f_type : string; f_count : Z }.

Record ufl_row := mkUfl {
  l_user : string; l_md5 : string; l_createtime : string;
  l_filename : string; l_shared_status : Z; l_pv : Z }.

Record share_row := mkShare {
  s_user : string; s_md5 : string; s_createtime : string;
  s_filename : string; s_pv : Z }.

Record cnt_row := mkCnt { c_user : string; c_count : Z }.

Record tables := mkTables {
  users : list user_row;
  file_info : list file_row;
  user_file_list : list ufl_row;
  share_file_list : list share_row;
  user_file_count : list cnt_row }.

Definition set_users (l : list user_row) (t : tables) : tables :=
  mkTables l (file_info t) (user_file_list t) (share_file_list t) (user_file_count t).
Definition set_file_info (l : list file_row) (t : tables) : tables :=
  mkTables (users t) l (user_file_list t) (share_file_list t) (user_file_count t).
Definition set_user_file_list (l : list ufl_row) (t : tables) : tables :=
  mkTables (users t) (file_info t) l (share_file_list t) (user_file_count t).
Definition set_share_file_list (l : list share_row) (t : tables) : tables :=
  mkTables (users t) (file_info t) (user_file_list t) l (user_file_count t).
Definition set_user_file_count (l : list cnt_row) (t : tables) : tables :=
  mkTables (users t) (file_info t) (user_file_list t) (share_file_list t) l.

Definition set_count (n : Z) (r : file_row) : file_row :=
  mkFile (f_md5 r) (f_file_id r) (f_url r) (f_size r) (f_type r) n.
Definition set_shared (v : Z) (r : ufl_row) : ufl_row :=
  mkUfl (l_user r) (l_md5 r) (l_createtime r) (l_filename r) v (l_pv r).
Definition set_pv (v : Z) (r : ufl_row) : ufl_row :=
  mkUfl (l_user r) (l_md5 r) (l_createtime r) (l_filename r) (l_shared_status r) v.
Definition set_spv (v : Z) (r : share_row) : share_row :=
  mkShare (s_user r) (s_md5 r) (s_createtime r) (s_filename r) v.
Definition set_ccount (n : Z) (r : cnt_row) : cnt_row := mkCnt (c_user r) n.

(** The collation of the string columns. *)
Class Collation := weight : string -> string.

Section Statements.
Context {coll : Collation}.

Definition ceq (a b : string) : bool := streq (weight a) (weight b).

(** WHERE clauses. *)
Definition is_user (n : string) (r : user_row) : bool := ceq (u_name r) n.
Definition is_file (m : string) (r : file_row) : bool := ceq (f_md5 r) m.
Definition is_ufl (u m f : string) (r : ufl_row) : bool :=
  ceq (l_user r) u && ceq (l_md5 r) m && ceq (l_filename r) f.
Definition is_share (m f : string) (r : share_row) : bool :=
  ceq (s_md5 r) m && ceq (s_filename r) f.
Definition is_ushare (u m f : string) (r : share_row) : bool :=
  ceq (s_user r) u && ceq (s_md5 r) m && ceq (s_filename r) f.
Definition is_cnt (u : string) (r : cnt_row) : bool := ceq (c_user r) u.

Definition update_where {A} (p : A -> bool) (f : A -> A) (l : list A) : list A :=
  List.map (fun r => if p r then f r else r) l.
Definition delete_where {A} (p : A -> bool) (l : list A) : list A :=
  List.filter (fun r => negb (p r)) l.

Definition num (z : Z) : option string := Some (dec_string z).

Definition ufl_cols (r : ufl_row) : row :=
  [Some (l_user r); Some (l_md5 r); Some (l_createtime r); Some (l_filename r);
   num (l_shared_status r); num (l_pv r)].
Definition share_cols (r : share_row) : row :=
  [Some (s_user r); Some (s_md5 r); Some (s_createtime r); Some (s_filename r); num (s_pv r)].
Definition user_cols (r : user_row) : row :=
  [Some (u_name r); Some (u_nickname r); Some (u_password r); Some (u_phone r);
   Some (u_createtime r); Some (u_email r)].
Definition file_cols (r : file_row) : row := [Some (f_url r); num (f_size r); Some (f_type r)].

(** The rows of the joins with file_info, with the pv they may be ordered by. *)
Definition join_ufl (u : string) (t : tables) : list (Z * row) :=
  List.flat_map (fun f =>
    List.map (fun l => (l_pv l, ufl_cols l ++ file_cols f))
      (List.filter (fun l => ceq (l_user l) u && ceq (f_md5 f) (l_md5 l)) (user_file_list t)))
    (file_info t).
Definition join_share (t : tables) : list (Z * row) :=
  List.flat_map (fun f =>
    List.map (fun l => (s_pv l, share_cols l ++ file_cols f))
      (List.filter (fun l => ceq (f_md5 f) (s_md5 l)) (share_file_list t)))
    (file_info t).

Inductive pv_order := Unordered | Ascending | Descending.

Definition ordered (o : pv_order) (l : list (Z * row)) : Prop :=
  match o with
  | Unordered => True
  | Ascending => StronglySorted (fun a b => (fst a <= fst b)%Z) l
  | Descending => StronglySorted (fun a b => (fst b <= fst a)%Z) l
  end.

(** A result set holding the rows [l], in some order. *)
Definition selects (rs : option (list row)) (l : list row) : Prop :=
  exists l', rs = Some l' /\ Permutation l' l.

(** ORDER BY pv ... LIMIT start, count. *)
Definition selects_limit (rs : option (list row)) (o : pv_order) (start count : Z)
    (l : list (Z * row)) : Prop :=
  (0 <= start)%Z /\ (0 <= count)%Z /\
  exists l', Permutation l' l /\ ordered o l'
    /\ rs = Some (List.map snd (firstn (Z.to_nat count) (skipn (Z.to_nat start) l'))).

Definition stmt_spec (k : sql_kind) (args : list arg) (t t' : tables)
    (rs : option (list row)) : Prop :=
  match k, args with
  | SetNames, [] => t' = t /\ rs = None
  | SelPassword, [AStr n] =>
      t' = t /\ selects rs (List.map (fun r => [Some (u_password r)])
                              (List.filter (is_user n) (users t)))
  | SelUser, [AStr n] =>
      t' = t /\ selects rs (List.map user_cols (List.filter (is_user n) (users t)))
  | InsUser, [AStr n; AStr nk; AStr p; AStr ph; AStr tm; AStr em] =>
      existsb (fun r => is_user n r || ceq (u_nickname r) nk) (users t) = false
      /\ t' = set_users (users t ++ [mkUser n nk p ph tm em]) t /\ rs = None
  | SelFileCount, [AStr m] =>
      t' = t /\ selects rs (List.map (fun r => [num (f_count r)])
                              (List.filter (is_file m) (file_info t)))
  | SelFileId, [AStr m] =>
      t' = t /\ selects rs (List.map (fun r => [Some (f_file_id r)])
                              (List.filter (is_file m) (file_info t)))
  | (UpdFileCount | UpdFileCountTight), [AInt n; AStr m] =>
      t' = set_file_info (update_where (is_file m) (set_count n) (file_info t)) t /\ rs = None
  | DelFileInfo, [AStr m] =>
      t' = set_file_info (delete_where (is_file m) (file_info t)) t /\ rs = None
  | InsFileInfo, [AStr m; AStr fid; AStr url; AInt size; AStr ty; AInt n] =>
      existsb (is_file m) (file_info t) = false
      /\ t' = set_file_info (file_info t ++ [mkFile m fid url size ty n]) t /\ rs = None
  | SelUserFile, [AStr u; AStr m; AStr f] =>
      t' = t /\ selects rs (List.map ufl_cols (List.filter (is_ufl u m f) (user_file_list t)))
  | SelSharedStatus, [AStr u; AStr m; AStr f] =>
      t' = t /\ selects rs (List.map (fun r => [num (l_shared_status r)])
                              (List.filter (is_ufl u m f) (user_file_list t)))
  | SelPv, [AStr u; AStr m; AStr f] =>
      t' = t /\ selects rs (List.map (fun r => [num (l_pv r)])
                              (List.filter (is_ufl u m f) (user_file_list t)))
  | InsUserFile, [AStr u; AStr m; AStr tm; AStr f; AInt s; AInt p] =>
      t' = set_user_file_list (user_file_list t ++ [mkUfl u m tm f s p]) t /\ rs = None
  | SetShared, [AStr u; AStr m; AStr f] =>
      t' = set_user_file_list (update_where (is_ufl u m f) (set_shared 1) (user_file_list t)) t
      /\ rs = None
  | ClearShared, [AStr u; AStr m; AStr f] =>
      t' = set_user_file_list (update_where (is_ufl u m f) (set_shared 0) (user_file_list t)) t
      /\ rs = None
  | UpdPv, [AInt n; AStr u; AStr m; AStr f] =>
      t' = set_user_file_list (update_where (is_ufl u m f) (set_pv n) (user_file_list t)) t
      /\ rs = None
  | DelUserFile, [AStr u; AStr m; AStr f] =>
      t' = set_user_file_list (delete_where (is_ufl u m f) (user_file_list t)) t /\ rs = None
  | (SelUserCount | SelUserCountDq), [AStr u] =>
      t' = t /\ selects rs (List.map (fun r => [num (c_count r)])
                              (List.filter (is_cnt u) (user_file_count t)))
  | (InsUserCountSp | InsUserCount), [AStr u; AInt n] =>
      existsb (is_cnt u) (user_file_count t) = false
      /\ t' = set_user_file_count (user_file_count t ++ [mkCnt u n]) t /\ rs = None
  | UpdUserCount, [AInt n; AStr u] =>
      t' = set_user_file_count (update_where (is_cnt u) (set_ccount n) (user_file_count t)) t
      /\ rs = None
  | DelUserCount, [AStr u] =>
      t' = set_user_file_count (delete_where (is_cnt u) (user_file_count t)) t /\ rs = None
  | SelShare, [AStr m; AStr f] =>
      t' = t /\ selects rs (List.map share_cols (List.filter (is_share m f) (share_file_list t)))
  | SelSharePv, [AStr m; AStr f] =>
      t' = t /\ selects rs (List.map (fun r => [num (s_pv r)])
                              (List.filter (is_share m f) (share_file_list t)))
  | InsShare, [AStr u; AStr m; AStr tm; AStr f; AInt p] =>
      t' = set_share_file_list (share_file_list t ++ [mkShare u m tm f p]) t /\ rs = None
  | DelShare, [AStr u; AStr m; AStr f] =>
      t' = set_share_file_list (delete_where (is_ushare u m f) (share_file_list t)) t /\ rs = None
  | UpdSharePv, [AInt n; AStr m; AStr f] =>
      t' = set_share_file_list (update_where (is_share m f) (set_spv n) (share_file_list t)) t
      /\ rs = None
  | SelFiles, [AStr u; AInt a; AInt n] =>
      t' = t /\ selects_limit rs Unordered a n (join_ufl u t)
  | SelFilesAsc, [AStr u; AInt a; AInt n] =>
      t' = t /\ selects_limit rs Ascending a n (join_ufl u t)
  | SelFilesDesc, [AStr u; AInt a; AInt n] =>
      t' = t /\ selects_limit rs Descending a n (join_ufl u t)
  | SelShareFiles, [AInt a; AInt n] =>
      t' = t /\ selects_limit rs Unordered a n (join_share t)
  | SelRanking, [] =>
      t' = t /\ exists l', rs = Some (List.map snd l') /\ ordered Descending l'
        /\ Permutation l' (List.map (fun r =>
             (s_pv r, [Some (s_md5 r); Some (s_filename r); num (s_pv r)])) (share_file_list t))
  | _, _ => False
  end.

(** ** Facts about collation equality and the row operations *)

Lemma ceq_refl a : ceq a a = true.
Proof. apply streq_refl. Qed.

Lemma ceq_sym a b : ceq a b = ceq b a.
Proof. apply streq_sym. Qed.

Lemma ceq_trans_l a b c : ceq a b = true -> ceq a c = ceq b c.
Proof. unfold ceq. intros ->%streq_true. done. Qed.

Lemma ceq_trans_r a b c : ceq b c = true -> ceq a b = ceq a c.
Proof. rewrite !(ceq_sym a). apply ceq_trans_l. Qed.

Lemma existsb_false_iff {A} (p : A -> bool) l :
  existsb p l = false <-> forall x, In x l -> p x = false.
Proof.
  rewrite <- not_true_iff_false, existsb_exists. split.
  - intros H x Hx. destruct (p x) eqn:E; [|done]. exfalso. apply H. eauto.
  - intros H (x & Hx & Hp). by rewrite H in Hp.
Qed.

Lemma update_where_noop {A} (p : A -> bool) f (l : list A) :
  existsb p l = false -> update_where p f l = l.
Proof.
  rewrite existsb_false_iff. intros H. unfold update_where.
  induction l as [|x l IH]; [done|]. simpl. rewrite (H x), IH; simpl; auto.
  intros y Hy. apply H. simpl; auto.
Qed.

Lemma delete_where_noop {A} (p : A -> bool) (l : list A) :
  existsb p l = false -> delete_where p l = l.
Proof.
  rewrite existsb_false_iff. intros H. unfold delete_where.
  induction l as [|x l IH]; [done|]. simpl. rewrite (H x) by (simpl; auto). simpl.
  rewrite IH; [done|]. intros y Hy. apply H. simpl; auto.
Qed.
End Statements.
