(* ===== verification/CProg.v ===== *)
(** * C programs over external services

    The CGI programs are sequences of calls to services: the MySQL client
    library, the Redis client library, the C library's I/O and clock, and the
    FastDFS tools.  A program is a tree of such calls ([prog]): it returns,
    jumps to its END label with a value, crashes (any behaviour the C standard
    leaves undefined: a NULL dereference, a write past a buffer, a conversion
    without argument), or makes a call and continues with the answer.

    [ev_spec] is the contract of the services: which answers a call may give
    and how it may change the observable state.  [wp p Q G o] holds when every
    run of [p] from state [o] that the contract allows avoids a crash and ends
    in [Q] (return) or [G] (jump); [can] is the existence of a run. *)

From S2P Require Import Prelude CLib UtilCgi Sql Tables.
From Stdlib Require Import Permutation Sorted.

(** ** Answers of the services *)

#[local] Set Warnings "-register-all".

(** A hiredis reply object. *)
Inductive reply : Type :=
| RStatus (s : string)
| RError (s : string)
| RInteger (z : Z)
| RNil
| RArray (l : list reply)
| RString (s : string).

(** [redisConnect]: NULL, a context with [err] set, or a live context. *)
Inductive rconn := RcNull | RcErr (errstr : string) | RcOk.

(** [fork], followed by [execlp] in the child: this process is the parent, or
    it is the child and [execlp] has returned. *)
Inductive forked := ForkFailed | ForkChild | ForkParent.

Inductive event : Type :=
| MysqlInit
| MysqlRealConnect (user passwd db : string)
| MysqlQuery (sql : string)
| MysqlStoreResult
| MysqlError
| MysqlClose
| RedisConnect (ip : string) (port : Z)
| RedisConnectUnix (sock_path : string)
| RedisConnectTimeout (ip : string) (port : Z) (timeout : Z)
| RedisCommand (argv : list string)
| RedisFree
| Printf (s : string)
| ReadFile (path : string)
| OpenWrite (path : string)
| WriteFile (path content : string)
| Unlink (path : string)
| Now
| Rand
| Uninit
| Malloc (size : Z)
| Pipe
| Fork (tool : string)
| RunTool (tool conf file : string)
| System (cmd : string).

Definition answer (e : event) : Type :=
  match e with
  | MysqlInit | MysqlRealConnect _ _ _ => bool
  | MysqlQuery _ => Z
  | MysqlStoreResult => option (list row)
  | MysqlError => string
  | RedisConnect _ _ | RedisConnectUnix _ | RedisConnectTimeout _ _ _ => rconn
  | RedisCommand _ => option reply
  | ReadFile _ => option string
  | OpenWrite _ | Malloc _ | Pipe => bool
  | Fork _ => forked
  | Now => string
  | Rand | Uninit => Z
  | RunTool _ _ _ => string
  | System _ => Z
  | MysqlClose | RedisFree | Printf _ | WriteFile _ _ | Unlink _ => unit
  end.

Inductive prog (X A : Type) : Type :=
| Ret (a : A)
| Goto (x : X)
| Crash
| Call (e : event) (k : answer e -> prog X A).
Arguments Ret {X A} a.
Arguments Goto {X A} x.
Arguments Crash {X A}.
Arguments Call {X A} e k.

Fixpoint bind {X A B} (m : prog X A) (f : A -> prog X B) : prog X B :=
  match m with
  | Ret a => f a
  | Goto x => Goto x
  | Crash => Crash
  | Call e k => Call e (fun a => bind (k a) f)
  end.

Notation "x <- m ;; f" := (bind m (fun x => f))
  (at level 100, m at next level, right associativity) : hfdfs_scope.
Notation "'let*' p ':=' m 'in' f" := (bind m (fun x => match x with p => f end))
  (at level 100, p pattern, m at level 200, f at level 200, right associativity) : hfdfs_scope.
Notation "m ;;; f" := (bind m (fun _ => f))
  (at level 100, right associativity) : hfdfs_scope.
Open Scope hfdfs_scope.

(** The code at the END label: reached by falling through or by a jump. *)
Fixpoint at_END {X Y A} (body : prog X X) (k : X -> prog Y A) : prog Y A :=
  match body with
  | Ret x => k x
  | Goto x => k x
  | Crash => Crash
  | Call e c => Call e (fun a => at_END (c a) k)
  end.

Definition call {X} (e : event) : prog X (answer e) := Call e Ret.

(** ** Bounded buffers *)

(** [strcpy (dst, src)] with [char dst[cap]]; the result is the new content. *)
Definition strcpy {X} (cap : Z) (src : string) : prog X string :=
  if (slen src <? cap)%Z then Ret src else Crash.

(** [strcpy (dst, item->valuestring)], where the pointer may be NULL. *)
Definition strcpy_opt {X} (cap : Z) (src : option string) : prog X string :=
  match src with Some s => strcpy cap s | None => Crash end.

(** [sprintf (dst, f, ...)] with [char dst[cap]]. *)
Definition sprintf {X} (cap : Z) (f : string) (args : list arg) : prog X string :=
  match format f args with
  | Some s => strcpy cap s
  | None => Crash
  end.

(** [printf (f, ...)]. *)
Definition printf {X} (f : string) (args : list arg) : prog X unit :=
  match format f args with
  | Some s => call (Printf s)
  | None => Crash
  end.

(** [LOG]: the message is built by [vsprintf] in a buffer of 4096 bytes
    (src/src/common/make_log.c); writing it to the log file is not observed. *)
Definition LOG_BUF : Z := 4096.
Definition LOG0 {X} (f : string) (args : list arg) : prog X unit :=
  match format f args with
  | Some s => if (slen s <? LOG_BUF)%Z then Ret tt else Crash
  | None => Crash
  end.

(** Most messages end with a newline: [LOG f] is the call with format
    [f "\n"], [LOG0 f] the call with [f] itself. *)
Definition nl : string := String LF EmptyString.
Definition LOG {X} (f : string) (args : list arg) : prog X unit := LOG0 (f +:+ nl) args.

(** ** Observable state *)

Inductive rval : Type :=
| VStr (s : string)
| VZset (z : gmap string Z)
| VHash (h : gmap string string)
| VList (l : list string).

Record obs := mkObs {
  o_tables : tables;                   (* MySQL tables *)
  o_result : option (list row);        (* result set of the last statement *)
  o_redis : gmap string rval;          (* Redis keyspace *)
  o_out : string;                      (* response sent to the web server *)
  o_files : gmap string string;        (* local files *)
  o_dfs : gmap string string;          (* files in FastDFS, by file id *)
  o_my : Z;                            (* open MySQL handles *)
  o_rd : Z }.                          (* open Redis contexts *)

Definition with_tables (t : tables) (rs : option (list row)) (o : obs) : obs :=
  mkObs t rs (o_redis o) (o_out o) (o_files o) (o_dfs o) (o_my o) (o_rd o).
Definition with_redis (r : gmap string rval) (o : obs) : obs :=
  mkObs (o_tables o) (o_result o) r (o_out o) (o_files o) (o_dfs o) (o_my o) (o_rd o).
Definition with_out (s : string) (o : obs) : obs :=
  mkObs (o_tables o) (o_result o) (o_redis o) s (o_files o) (o_dfs o) (o_my o) (o_rd o).
Definition with_files (f : gmap string string) (o : obs) : obs :=
  mkObs (o_tables o) (o_result o) (o_redis o) (o_out o) f (o_dfs o) (o_my o) (o_rd o).
Definition with_dfs (d : gmap string string) (o : obs) : obs :=
  mkObs (o_tables o) (o_result o) (o_redis o) (o_out o) (o_files o) d (o_my o) (o_rd o).
Definition add_my (n : Z) (o : obs) : obs :=
  mkObs (o_tables o) (o_result o) (o_redis o) (o_out o) (o_files o) (o_dfs o) (o_my o + n) (o_rd o).
Definition add_rd (n : Z) (o : obs) : obs :=
  mkObs (o_tables o) (o_result o) (o_redis o) (o_out o) (o_files o) (o_dfs o) (o_my o) (o_rd o + n).

(** Equality of states built from the same state. *)
Ltac obs_eq :=
  repeat match goal with o : obs |- _ => destruct o end;
  unfold add_rd, add_my, with_tables, with_redis, with_out, with_files, with_dfs;
  cbn [o_tables o_result o_redis o_out o_files o_dfs o_my o_rd]; f_equal; try done; try lia.

Lemma with_tables_id o : with_tables (o_tables o) (o_result o) o = o.
Proof. by destruct o. Qed.

Lemma add_rd_cancel o : add_rd (-1) (add_rd 1 o) = o.
Proof. obs_eq. Qed.

Lemma add_my_cancel o : add_my (-1) (add_my 1 o) = o.
Proof. obs_eq. Qed.

(** ** Contract of the Redis server

    Documented replies of the commands the CGI programs issue.  A key may
    also be missing because its TTL ran out: only the keys set by SETEX have
    one, and the reply to GET is then nil.  An error text starts with an error
    code such as ERR or WRONGTYPE, so it is not OK.  For ZLEXCOUNT the documentation
    fixes the reply only when all members have the same score. *)

Definition zset_of (r : gmap string rval) (key : string) : option (gmap string Z) :=
  match r !! key with
  | None => Some ∅
  | Some (VZset z) => Some z
  | _ => None
  end.

Definition hash_of (r : gmap string rval) (key : string) : option (gmap string string) :=
  match r !! key with
  | None => Some ∅
  | Some (VHash h) => Some h
  | _ => None
  end.

(** An empty set or hash has no key. *)
Definition put_zset (key : string) (z : gmap string Z) (r : gmap string rval) : gmap string rval :=
  if decide (z = ∅) then delete key r else <[key := VZset z]> r.
Definition put_hash (key : string) (h : gmap string string) (r : gmap string rval) : gmap string rval :=
  if decide (h = ∅) then delete key r else <[key := VHash h]> r.

Definition same_scores (z : gmap string Z) : Prop :=
  forall m1 m2 s1 s2, z !! m1 = Some s1 -> z !! m2 = Some s2 -> s1 = s2.

(** Descending rank order: by score, then by member. *)
Definition rank_ge (a b : string * Z) : Prop :=
  (snd b < snd a)%Z \/ (snd a = snd b /\ String.leb (fst b) (fst a) = true).

(** The window [start..stop] of a list, both ends included, negative indices
    counting from the end. *)
Definition range_slice {A} (l : list A) (start stop : Z) : list A :=
  let n := Z.of_nat (length l) in
  let a := Z.max 0 (if (start <? 0)%Z then n + start else start)%Z in
  let b := (if (stop <? 0)%Z then n + stop else stop)%Z in
  firstn (Z.to_nat (b - a + 1)) (skipn (Z.to_nat a) l).

Inductive redis_spec : list string -> gmap string rval -> reply -> gmap string rval -> Prop :=
| spec_get_hit r k v : r !! k = Some (VStr v) -> redis_spec ["get"; k] r (RString v) r
| spec_get_miss r k : r !! k = None -> redis_spec ["get"; k] r RNil r
| spec_get_expired r k v :
    r !! k = Some (VStr v) -> redis_spec ["get"; k] r RNil (delete k r)
| spec_get_type r k e :
    (forall v, r !! k <> Some (VStr v)) -> r !! k <> None -> redis_spec ["get"; k] r (RError e) r
| spec_setex r k t v : redis_spec ["setex"; k; t; v] r (RStatus "OK") (<[k := VStr v]> r)
| spec_setex_err r k t v e : cstr e <> "OK" -> redis_spec ["setex"; k; t; v] r (RError e) r
| spec_del_hit r k : is_Some (r !! k) -> redis_spec ["DEL"; k] r (RInteger 1) (delete k r)
| spec_del_miss r k : r !! k = None -> redis_spec ["DEL"; k] r (RInteger 0) r
| spec_zadd r k sc m z :
    zset_of r k = Some z ->
    redis_spec ["ZADD"; k; sc; m] r (RInteger (if decide (m ∈ dom z) then 0 else 1))
               (<[k := VZset (<[m := strtol sc]> z)]> r)
| spec_zadd_type r k sc m e :
    zset_of r k = None -> redis_spec ["ZADD"; k; sc; m] r (RError e) r
| spec_zrem r k m z :
    zset_of r k = Some z ->
    redis_spec ["ZREM"; k; m] r (RInteger (if decide (m ∈ dom z) then 1 else 0))
               (put_zset k (delete m z) r)
| spec_zrem_type r k m e : zset_of r k = None -> redis_spec ["ZREM"; k; m] r (RError e) r
| spec_zincrby r k m z :
    zset_of r k = Some z ->
    redis_spec ["ZINCRBY"; k; "1"; m] r (RString (dec_string (default 0%Z (z !! m) + 1)))
               (<[k := VZset (<[m := (default 0%Z (z !! m) + 1)%Z]> z)]> r)
| spec_zincrby_type r k m e :
    zset_of r k = None -> redis_spec ["ZINCRBY"; k; "1"; m] r (RError e) r
| spec_zcard r k z :
    zset_of r k = Some z -> redis_spec ["ZCARD"; k] r (RInteger (Z.of_nat (size z))) r
| spec_zcard_type r k e : zset_of r k = None -> redis_spec ["ZCARD"; k] r (RError e) r
| spec_zscore r k m z :
    zset_of r k = Some z ->
    redis_spec ["ZSCORE"; k; m] r
      (match z !! m with Some s => RString (dec_string s) | None => RNil end) r
| spec_zscore_type r k m e : zset_of r k = None -> redis_spec ["ZSCORE"; k; m] r (RError e) r
| spec_zlexcount r k m z n :
    zset_of r k = Some z -> (0 <= n)%Z ->
    (same_scores z -> n = if decide (m ∈ dom z) then 1%Z else 0%Z) ->
    redis_spec ["zlexcount"; k; "[" +:+ m; "[" +:+ m] r (RInteger n) r
| spec_zlexcount_type r k m e :
    zset_of r k = None -> redis_spec ["zlexcount"; k; "[" +:+ m; "[" +:+ m] r (RError e) r
| spec_zrevrange r k a b z l :
    zset_of r k = Some z -> Permutation l (map_to_list z) -> StronglySorted rank_ge l ->
    redis_spec ["ZREVRANGE"; k; a; b] r
      (RArray (List.map (fun p => RString (fst p)) (range_slice l (strtol a) (strtol b)))) r
| spec_zrevrange_type r k a b e :
    zset_of r k = None -> redis_spec ["ZREVRANGE"; k; a; b] r (RError e) r
| spec_hset r k f v h :
    hash_of r k = Some h ->
    redis_spec ["hset"; k; f; v] r (RInteger (if decide (f ∈ dom h) then 0 else 1))
               (<[k := VHash (<[f := v]> h)]> r)
| spec_hset_type r k f v e : hash_of r k = None -> redis_spec ["hset"; k; f; v] r (RError e) r
| spec_hget r k f h :
    hash_of r k = Some h ->
    redis_spec ["hget"; k; f] r (match h !! f with Some v => RString v | None => RNil end) r
| spec_hget_type r k f e : hash_of r k = None -> redis_spec ["hget"; k; f] r (RError e) r
| spec_hdel r k f h :
    hash_of r k = Some h ->
    redis_spec ["hdel"; k; f] r (RInteger (if decide (f ∈ dom h) then 1 else 0))
               (put_hash k (delete f h) r)
| spec_hdel_type r k f e : hash_of r k = None -> redis_spec ["hdel"; k; f] r (RError e) r.

(** ** Contract of all services

    MySQL: a statement the programs' templates describe either fails and
    changes nothing, or succeeds as [stmt_spec] says; an empty text is an error,
    the effect of any other text is left open.  Error texts are at most 512 bytes
    (MYSQL_ERRMSG_SIZE).  Redis answers every command (the connection does not
    drop) with error texts of at most 512 bytes.  A shell command is a run of
    fdfs_delete_file on plain words, which removes the file or fails (and fails
    with its usage message when the configuration file is missing); other
    command lines may do anything.  [execlp] of an installed tool does not
    return.  An allocation of more than LONG_MAX bytes fails.
    An uninitialised variable of type [int] holds some [int].  The clock's text
    is the 19 characters of %Y-%m-%d %H:%M:%S. *)

Definition MSG_MAX : Z := 512.

(** A word the shell passes on unchanged, and the command line of the delete
    tool. *)
Definition word_char (c : ascii) : bool :=
  let b := byte_of c in
  isdigit c || ((65 <=? b) && (b <=? 90))%Z || ((97 <=? b) && (b <=? 122))%Z
  || Ascii.eqb c "_" || Ascii.eqb c "." || Ascii.eqb c "/" || Ascii.eqb c "-".
Definition shell_word (s : string) : bool := negb (streq s EmptyString) && sforall word_char s.
Definition delete_cmd (conf fid : string) : string :=
  "fdfs_delete_file " +:+ conf +:+ " " +:+ fid.

(** What [ftruncate] and [write] of [c] leave in the file: [c], or, when the
    disk is full, only a first part of it followed by anything. *)
Definition disk_copy (c c' : string) : Prop :=
  c' = c \/ exists k, (k < String.length c)%nat /\ stake k c' = stake k c.

(** Where the FastDFS tools are installed. *)
Definition tool_path (tool : string) : string := "/usr/bin/" +:+ tool.
Definition installed (tool : string) (o : obs) : Prop := is_Some (o_files o !! tool_path tool).

Definition SOURCE_IP : string := "source ip address: ".

(** The address a report of fdfs_file_info names: the line after [SOURCE_IP]. *)
Definition reports_ip (out ip : string) : Prop :=
  exists i post, strstr out SOURCE_IP = Some i
    /\ sdrop (i + String.length SOURCE_IP) out = ip +:+ String LF post
    /\ (slen ip <= 15)%Z /\ sforall (fun c => isdigit c || Ascii.eqb c ".") ip = true.

(** The output of the tools.  fdfs_upload_file stores the file under a new id
    and prints the id (an id has at most 127 bytes and ends with the suffix of
    the file name, so it is a plain word when the name is), or prints nothing.
    fdfs_file_info prints the address of the storage server, or, when the query
    fails, a message without one. *)
Definition tool_spec (tool file out : string) (o o' : obs) : Prop :=
  if streq tool "fdfs_upload_file" then
    (o' = o /\ out = EmptyString)
    \/ exists fid c, o_files o !! file = Some c /\ o_dfs o !! fid = None
         /\ o' = with_dfs (<[fid := c]> (o_dfs o)) o
         /\ (slen fid <= 127)%Z /\ (sforall word_char file = true -> shell_word fid = true)
         /\ (out = fid +:+ String LF EmptyString \/ out = EmptyString)
  else if streq tool "fdfs_file_info" then
    o' = o /\ (slen out < 512)%Z /\ no_nul out = true
    /\ (strstr out SOURCE_IP = None \/ exists ip, reports_ip out ip)
  else o' = o.

Section Contract.
Context {coll : Collation}.

Definition connect_spec (o : obs) (c : rconn) (o' : obs) : Prop :=
  match c with
  | RcNull => o' = o
  | RcErr s => o' = add_rd 1 o /\ (slen s <= MSG_MAX)%Z
  | RcOk => o' = add_rd 1 o
  end.

Definition ev_spec (e : event) : obs -> answer e -> obs -> Prop :=
  match e return obs -> answer e -> obs -> Prop with
  | MysqlInit => fun o b o' => o' = if b then add_my 1 o else o
  | MysqlRealConnect _ _ _ => fun o _ o' => o' = o
  | MysqlQuery sql => fun o r o' =>
      match parse_sql sql with
      | Some (k, args) =>
          ((r <> 0)%Z /\ o' = with_tables (o_tables o) None o)
          \/ (r = 0%Z /\ exists t rs, stmt_spec k args (o_tables o) t rs
                                     /\ o' = with_tables t rs o)
      | None =>
          if streq sql EmptyString then (r <> 0)%Z /\ o' = with_tables (o_tables o) None o
          else exists t rs, o' = with_tables t rs o
      end
  | MysqlStoreResult => fun o rs o' =>
      o' = with_tables (o_tables o) None o /\ (rs = o_result o \/ rs = None)
  | MysqlError => fun o s o' => o' = o /\ (slen s <= MSG_MAX)%Z
  | MysqlClose => fun o _ o' => o' = add_my (-1) o
  | RedisConnect _ _ | RedisConnectUnix _ | RedisConnectTimeout _ _ _ => connect_spec
  | RedisCommand argv => fun o r o' =>
      exists rep rd, r = Some rep /\ redis_spec argv (o_redis o) rep rd /\ o' = with_redis rd o
        /\ match rep with RError s => (slen s <= MSG_MAX)%Z | _ => True end
  | RedisFree => fun o _ o' => o' = add_rd (-1) o
  | Printf s => fun o _ o' => o' = with_out (o_out o +:+ s) o
  | ReadFile p => fun o c o' => o' = o /\ (c = o_files o !! p \/ c = None)
  | OpenWrite p => fun o b o' =>
      o' = if b then with_files (<[p := default EmptyString (o_files o !! p)]> (o_files o)) o else o
  | WriteFile p c => fun o _ o' =>
      exists c', disk_copy c c' /\ o' = with_files (<[p := c']> (o_files o)) o
  | Unlink p => fun o _ o' => o' = o \/ o' = with_files (delete p (o_files o)) o
  | Now => fun o s o' => o' = o /\ slen s = 19%Z /\ plain s = true
  | Rand => fun o z o' => o' = o /\ (0 <= z <= INT_MAX)%Z
  | Uninit => fun o z o' => o' = o /\ is_int z
  | Malloc n => fun o b o' => o' = o /\ (b = true -> 0 <= n <= LONG_MAX)%Z
  | Pipe => fun o _ o' => o' = o
  | Fork tool => fun o a o' => o' = o /\ (a = ForkChild -> ~ installed tool o)
  | RunTool tool _ file => fun o out o' => tool_spec tool file out o o'
  | System cmd => fun o r o' =>
      is_int r /\ forall conf fid, cmd = delete_cmd conf fid -> shell_word fid = true ->
        (conf = EmptyString -> r <> 0%Z /\ o' = o)
        /\ (shell_word conf = true ->
              (r <> 0%Z /\ o' = o) \/ o' = with_dfs (delete fid (o_dfs o)) o)
  end.

(** ** Reasoning about programs *)

Fixpoint wp {X A} (p : prog X A) (Q : A -> obs -> Prop) (G : X -> obs -> Prop) (o : obs) : Prop :=
  match p with
  | Ret a => Q a o
  | Goto x => G x o
  | Crash => False
  | Call e k => forall a o', ev_spec e o a o' -> wp (k a) Q G o'
  end.

Fixpoint can {X A} (p : prog X A) (Q : A -> obs -> Prop) (G : X -> obs -> Prop) (o : obs) : Prop :=
  match p with
  | Ret a => Q a o
  | Goto x => G x o
  | Crash => False
  | Call e k => exists a o', ev_spec e o a o' /\ can (k a) Q G o'
  end.

(** The same with a condition [C] on the state in which a run may crash. *)
Fixpoint wpc {X A} (p : prog X A) (Q : A -> obs -> Prop) (G : X -> obs -> Prop)
    (C : obs -> Prop) (o : obs) : Prop :=
  match p with
  | Ret a => Q a o
  | Goto x => G x o
  | Crash => C o
  | Call e k => forall a o', ev_spec e o a o' -> wpc (k a) Q G C o'
  end.

Lemma wp_wpc {X A} (p : prog X A) Q G C o : wp p Q G o -> wpc p Q G C o.
Proof. revert o. induction p as [a|x| |e k IH]; intros o; simpl; auto. done. Qed.

Lemma wpc_bind {X A B} (m : prog X A) (f : A -> prog X B) Q G C o :
  wpc (bind m f) Q G C o <-> wpc m (fun a => wpc (f a) Q G C) G C o.
Proof.
  revert o. induction m as [a|x| |e k IH]; intros o; simpl; try done.
  split; intros H a o' Ho; apply IH; auto.
Qed.

Lemma wpc_at_END {X Y A} (body : prog X X) (k : X -> prog Y A) Q G C o :
  wpc (at_END body k) Q G C o
  <-> wpc body (fun x => wpc (k x) Q G C) (fun x => wpc (k x) Q G C) C o.
Proof.
  revert o. induction body as [a|x| |e c IH]; intros o; simpl; try done.
  split; intros H a o' Ho; apply IH; auto.
Qed.

Lemma wpc_mono {X A} (p : prog X A) (Q Q' : A -> obs -> Prop) (G G' : X -> obs -> Prop)
    (C C' : obs -> Prop) o :
  wpc p Q G C o -> (forall a o', Q a o' -> Q' a o') -> (forall x o', G x o' -> G' x o') ->
  (forall o', C o' -> C' o') -> wpc p Q' G' C' o.
Proof.
  intros H HQ HG HC. revert o H. induction p as [a|x| |e k IH]; simpl; auto.
Qed.

Lemma wp_bind {X A B} (m : prog X A) (f : A -> prog X B) Q G o :
  wp (bind m f) Q G o <-> wp m (fun a => wp (f a) Q G) G o.
Proof.
  revert o. induction m as [a|x| |e k IH]; intros o; simpl; try done.
  split; intros H a o' Ho; apply IH; auto.
Qed.

Lemma wp_at_END {X Y A} (body : prog X X) (k : X -> prog Y A) Q G o :
  wp (at_END body k) Q G o
  <-> wp body (fun x => wp (k x) Q G) (fun x => wp (k x) Q G) o.
Proof.
  revert o. induction body as [a|x| |e c IH]; intros o; simpl; try done.
  split; intros H a o' Ho; apply IH; auto.
Qed.

Lemma wp_mono {X A} (p : prog X A) (Q Q' : A -> obs -> Prop) (G G' : X -> obs -> Prop) o :
  wp p Q G o -> (forall a o', Q a o' -> Q' a o') -> (forall x o', G x o' -> G' x o') ->
  wp p Q' G' o.
Proof.
  intros H HQ HG. revert o H. induction p as [a|x| |e k IH]; simpl; auto.
Qed.

Lemma can_bind {X A B} (m : prog X A) (f : A -> prog X B) Q G o :
  can (bind m f) Q G o <-> can m (fun a => can (f a) Q G) G o.
Proof.
  revert o. induction m as [a|x| |e k IH]; intros o; simpl; try done.
  split; intros (a & o' & H1 & H2); exists a, o'; split; auto; by apply IH.
Qed.

Lemma can_at_END {X Y A} (body : prog X X) (k : X -> prog Y A) Q G o :
  can (at_END body k) Q G o <-> can body (fun x => can (k x) Q G) (fun x => can (k x) Q G) o.
Proof.
  revert o. induction body as [a|x| |e c IH]; intros o; simpl; try done.
  split; intros (a & o' & H1 & H2); exists a, o'; split; auto; by apply IH.
Qed.

Lemma can_call {X} e (Q : answer e -> obs -> Prop) (G : X -> obs -> Prop) o a o' :
  ev_spec e o a o' -> Q a o' -> can (call e) Q G o.
Proof. simpl. eauto. Qed.

Lemma wp_ret {X A} (a : A) (Q : A -> obs -> Prop) (G : X -> obs -> Prop) o :
  Q a o -> wp (Ret a) Q G o.
Proof. done. Qed.

Lemma wp_goto {X A} (x : X) (Q : A -> obs -> Prop) (G : X -> obs -> Prop) o :
  G x o -> wp (Goto x) Q G o.
Proof. done. Qed.

Lemma wp_call {X} e (Q : answer e -> obs -> Prop) (G : X -> obs -> Prop) o :
  (forall a o', ev_spec e o a o' -> Q a o') -> wp (call e) Q G o.
Proof. done. Qed.

Lemma wp_strcpy {X} cap s (Q : string -> obs -> Prop) (G : X -> obs -> Prop) o :
  (slen s < cap)%Z -> Q s o -> wp (strcpy cap s) Q G o.
Proof. intros Hs HQ. unfold strcpy. destruct (Z.ltb_spec (slen s) cap); [done|lia]. Qed.

Lemma wp_sprintf {X} cap f args s (Q : string -> obs -> Prop) (G : X -> obs -> Prop) o :
  format f args = Some s -> (slen s < cap)%Z -> Q s o -> wp (sprintf cap f args) Q G o.
Proof. intros Hf Hs HQ. unfold sprintf. rewrite Hf. by apply wp_strcpy. Qed.

(** A log message whose format fits its arguments and its buffer. *)
Lemma wp_LOG0 {X} f ps args (Q : unit -> obs -> Prop) (G : X -> obs -> Prop) o :
  pieces_of f = Some ps -> simple_fmt ps args = true -> Forall arg_ok args ->
  (lits_len ps + args_len args < LOG_BUF)%Z -> Q tt o -> wp (LOG0 f args) Q G o.
Proof.
  intros Hp Hf Ha Hl HQ. unfold LOG0.
  destruct (format_simple f ps args Hp Hf Ha) as (s & -> & Hs).
  destruct (Z.ltb_spec (slen s) LOG_BUF); [done|lia].
Qed.

Lemma wp_LOG {X} f ps args (Q : unit -> obs -> Prop) (G : X -> obs -> Prop) o :
  pieces_of (f +:+ nl) = Some ps -> simple_fmt ps args = true -> Forall arg_ok args ->
  (lits_len ps + args_len args < LOG_BUF)%Z -> Q tt o -> wp (LOG f args) Q G o.
Proof. apply wp_LOG0. Qed.

(** An SQL text built in a buffer of [cap] bytes. *)
Lemma wp_sprintf_sql {X} cap k args (Q : string -> obs -> Prop) (G : X -> obs -> Prop) o :
  sql_ok k args = true -> Forall arg_ok args ->
  (lits_len (sql_pieces k) + args_len args < cap)%Z ->
  (forall s, parse_sql s = Some (k, args) -> (slen s < cap)%Z -> Q s o) ->
  wp (sprintf cap (sql_template k) args) Q G o.
Proof.
  intros Hok Ha Hl HQ. pose proof Hok as [Hf _]%andb_prop.
  destruct (format_simple _ _ args (sql_pieces_of k) Hf Ha) as (s & Hs & Hlen).
  apply (wp_sprintf _ _ _ s); [done|lia|]. apply HQ; [|lia].
  eapply parse_render_sql; eauto.
Qed.
End Contract.
