(* ===== verification/FdfsApi.v ===== *)
(** * demo/fdfs_upload_file.c, fdfs_api.c and fdfs_main.c

    The upload tool that upload_cgi runs, the function that makes the same
    calls itself, the function that runs the tool in a child process, and the
    test program of both.  The FastDFS client library is a parameter: a class
    of the operations the sources call ([FdfsClient]) with what its
    documentation promises ([FdfsLaws]); [toy] is an instance.

    A process has a state of its own: whether the library is initialised, the
    connections to trackers that are open, its standard streams.  Using the
    library in the wrong state, a conversion without argument and a log message
    too long for its buffer are undefined: the result is [None]. *)

From S2P Require Import Prelude CLib UtilCgi Sql Tables CProg.
#[local] Close Scope hfdfs_scope.

(** ** The FastDFS client library *)

Record ConnectionInfo := mkConn { ci_sock : Z; ci_ip_addr : string; ci_port : Z }.

Section Library.
Context (W : Type).

Class FdfsClient := {
  client_init : string -> W -> Z * W;
  (** A connection, or NULL and [errno]. *)
  get_connection : W -> (ConnectionInfo + Z) * W;
  (** Result, storage server, group name, index of the store path. *)
  query_storage_store : ConnectionInfo -> W -> Z * ConnectionInfo * string * Z * W;
  (** Result and file id; the arguments are the tracker, the storage server, the
      index of the store path, the name of the local file and the group. *)
  upload_by_filename1 :
    ConnectionInfo -> ConnectionInfo -> Z -> string -> string -> W -> Z * string * W;
  strerror : Z -> string;
  local_files : W -> gmap string string;
  stored : W -> gmap string string }.

(** The file [file] is stored as [fid]: ids are new, have at most 127 bytes and
    end with the suffix of the name. *)
Definition stores `{FdfsClient} (file fid : string) (w w' : W) : Prop :=
  exists c, local_files w !! file = Some c /\ stored w !! fid = None
    /\ stored w' = <[fid := c]> (stored w)
    /\ (slen fid <= 127)%Z /\ no_nul fid = true
    /\ (sforall word_char file = true -> shell_word fid = true).

Class FdfsLaws `{FdfsClient} : Prop := {
  init_keeps conf w :
    let '(_, w') := client_init conf w in
    local_files w' = local_files w /\ stored w' = stored w;
  connection_keeps w :
    let '(_, w') := get_connection w in
    local_files w' = local_files w /\ stored w' = stored w;
  query_keeps t w :
    let '(_, _, _, _, w') := query_storage_store t w in
    local_files w' = local_files w /\ stored w' = stored w;
  (** A result other than 0 may mean that only the answer was lost. *)
  upload_stores t s i file group w :
    let '(r, fid, w') := upload_by_filename1 t s i file group w in
    local_files w' = local_files w
    /\ (r = 0%Z -> stores file fid w w')
    /\ (r <> 0%Z -> stored w' = stored w \/ exists fid', stores file fid' w w');
  results_int :
    (forall conf w, is_int (fst (client_init conf w)))
    /\ (forall t w, is_int (query_storage_store t w).1.1.1.1)
    /\ (forall t s i file group w, is_int (upload_by_filename1 t s i file group w).1.1);
  strerror_short r : (slen (strerror r) <= MSG_MAX)%Z }.
End Library.
Arguments client_init {W _}.
Arguments get_connection {W _}.
Arguments query_storage_store {W _}.
Arguments upload_by_filename1 {W _}.
Arguments strerror {W _}.
Arguments local_files {W _}.
Arguments stored {W _}.
Arguments stores {W _}.

(** ** Processes *)

Record proc (W : Type) := mkProc {
  p_world : W;       (* the files, FastDFS *)
  p_ready : bool;    (* the client library is initialised *)
  p_conns : Z;       (* open connections to trackers *)
  p_out : string;    (* standard output *)
  p_err : string }.  (* standard error *)
Arguments mkProc {W}.
Arguments p_world {W}.
Arguments p_ready {W}.
Arguments p_conns {W}.
Arguments p_out {W}.
Arguments p_err {W}.

Definition M (W A : Type) := proc W -> option (A * proc W).
Definition ret {W A} (a : A) : M W A := fun p => Some (a, p).
Definition undefined {W A} : M W A := fun _ => None.
Definition mbind {W A B} (m : M W A) (f : A -> M W B) : M W B :=
  fun p => match m p with Some (a, p') => f a p' | None => None end.

Declare Scope proc_scope.
Notation "x <- m ;; f" := (mbind m (fun x => f))
  (at level 100, m at next level, right associativity) : proc_scope.
Notation "'let*' q ':=' m 'in' f" := (mbind m (fun x => match x with q => f end))
  (at level 100, q pattern, m at level 200, f at level 200, right associativity) : proc_scope.
Notation "m ;;; f" := (mbind m (fun _ => f))
  (at level 100, right associativity) : proc_scope.
#[local] Open Scope proc_scope.

Section Programs.
Context {W : Type} `{FdfsClient W}.

Definition ECONNREFUSED : Z := 111.
Definition IP_ADDRESS_SIZE : Z := 16.

Definition printf (f : string) (args : list arg) : M W unit := fun p =>
  match format f args with
  | Some s => Some (tt, mkProc (p_world p) (p_ready p) (p_conns p) (p_out p +:+ s) (p_err p))
  | None => None
  end.

Definition eprintf (f : string) (args : list arg) : M W unit := fun p =>
  match format f args with
  | Some s => Some (tt, mkProc (p_world p) (p_ready p) (p_conns p) (p_out p) (p_err p +:+ s))
  | None => None
  end.

(** [LOG] of make_log.c. *)
Definition LOG (f : string) (args : list arg) : M W unit := fun p =>
  match format f args with
  | Some s => if (slen s <? LOG_BUF)%Z then Some (tt, p) else None
  | None => None
  end.

(** The library is used between its initialisation and its destruction. *)
Definition fdfs_client_init (conf : string) : M W Z := fun p =>
  let '(r, w) := client_init conf (p_world p) in
  Some (r, mkProc w (if (r =? 0)%Z then true else p_ready p) (p_conns p) (p_out p) (p_err p)).

Definition fdfs_client_destroy : M W unit := fun p =>
  Some (tt, mkProc (p_world p) false (p_conns p) (p_out p) (p_err p)).

Definition tracker_get_connection : M W (ConnectionInfo + Z) := fun p =>
  if p_ready p then
    let '(c, w) := get_connection (p_world p) in
    Some (c, mkProc w true (p_conns p + (if c then 1 else 0))%Z (p_out p) (p_err p))
  else None.

Definition tracker_disconnect_server_ex (t : ConnectionInfo) : M W unit := fun p =>
  if p_ready p && (0 <? p_conns p)%Z then
    Some (tt, mkProc (p_world p) true (p_conns p - 1)%Z (p_out p) (p_err p))
  else None.

Definition tracker_query_storage_store (t : ConnectionInfo) : M W (Z * ConnectionInfo * string * Z) :=
  fun p =>
  if p_ready p then
    let '(r, s, g, i, w) := query_storage_store t (p_world p) in
    Some ((r, s, g, i), mkProc w true (p_conns p) (p_out p) (p_err p))
  else None.

Definition storage_upload_by_filename1 (t s : ConnectionInfo) (i : Z) (file group : string)
  : M W (Z * string) := fun p =>
  if p_ready p then
    let '(r, fid, w) := upload_by_filename1 t s i file group (p_world p) in
    Some ((r, fid), mkProc w true (p_conns p) (p_out p) (p_err p))
  else None.

(** ** fdfs_upload_file.c *)

Definition usage (argv : list string) : M W unit :=
  match argv with
  | a0 :: _ =>
      printf ("Usage: %s <config_file> <local_filename> [storage_ip:port] [store_path_index]" +:+ nl)
        [AStr a0]
  | [] => undefined
  end.

(** The storage server named on the command line: at most 15 bytes of the text
    before the colon, and the number after it. *)
Definition storage_server (ip_and_port : string) : option ConnectionInfo :=
  match strchr ip_and_port ":" with
  | Some k =>
      Some (mkConn (-1) (stake (Z.to_nat IP_ADDRESS_SIZE - 1) (stake k ip_and_port))
              (atoi (sdrop (S k) ip_and_port)))
  | None => None
  end.

(** From the upload to the end of [main]. *)
Definition upload_tool_end (t s : ConnectionInfo) (i : Z) (file group : string) : M W Z :=
  let* (result, file_id) := storage_upload_by_filename1 t s i file group in
  (if (result =? 0)%Z then printf ("%s" +:+ nl) [AStr (cstr file_id)]
   else eprintf ("upload file fail, error no: %d, error info: %s" +:+ nl)
          [AInt result; AStr (strerror result)]) ;;;
  tracker_disconnect_server_ex t ;;;
  fdfs_client_destroy ;;;
  ret result.

Definition upload_tool (argv : list string) : M W Z :=
  match argv with
  | _ :: conf_filename :: local_filename :: more =>
      result <- fdfs_client_init conf_filename ;;
      if negb (result =? 0)%Z then ret result
      else
        conn <- tracker_get_connection ;;
        match conn with
        | inr errno =>
            fdfs_client_destroy ;;;
            ret (if negb (errno =? 0)%Z then errno else ECONNREFUSED)
        | inl t =>
            match more with
            | ip_and_port :: more' =>
                match storage_server ip_and_port with
                | None =>
                    fdfs_client_destroy ;;;
                    eprintf ("invalid storage ip address and port: %s" +:+ nl) [AStr ip_and_port] ;;;
                    usage argv ;;;
                    ret 1%Z
                | Some s =>
                    upload_tool_end t s
                      (match more' with index :: _ => atoi index | [] => (-1)%Z end)
                      local_filename EmptyString
                end
            | [] =>
                let* (result, s, group, i) := tracker_query_storage_store t in
                if negb (result =? 0)%Z then
                  fdfs_client_destroy ;;;
                  eprintf ("tracker_query_storage fail, error no: %d, error info: %s" +:+ nl)
                    [AInt result; AStr (strerror result)] ;;;
                  ret result
                else upload_tool_end t s i local_filename group
            end
        end
  | _ => usage argv ;;; ret 1%Z
  end.

(** ** fdfs_api.c *)

Definition CLIENT_CONF : string := "conf/client.conf".

Definition fdfs_upload_file (filename fileid : string) : M W (Z * string) :=
  result <- fdfs_client_init CLIENT_CONF ;;
  if negb (result =? 0)%Z then ret (result, fileid)
  else
    conn <- tracker_get_connection ;;
    match conn with
    | inr errno =>
        fdfs_client_destroy ;;;
        ret (if negb (errno =? 0)%Z then errno else ECONNREFUSED, fileid)
    | inl t =>
        let* (result, s, group, i) := tracker_query_storage_store t in
        if negb (result =? 0)%Z then
          fdfs_client_destroy ;;;
          LOG "tracker_query_storage fail, error no: %d, error info: %s"
            [AInt result; AStr (strerror result)] ;;;
          ret (result, fileid)
        else
          let* (result, fileid) := storage_upload_by_filename1 t s i filename group in
          (if (result =? 0)%Z then LOG "fileID = %s" [AStr (cstr fileid)]
           else LOG "upload file fail, error no: %d, error info: %s"
                  [AInt result; AStr (strerror result)]) ;;;
          tracker_disconnect_server_ex t ;;;
          fdfs_client_destroy ;;;
          ret (result, fileid)
    end.

(** What the operating system does: [pipe] and [fork] fail with an [errno] or
    succeed, the tool is found by [execlp] or not, and standard output is a
    terminal (every line is written at once) or not (what has been printed waits
    in a buffer of the process, which [fork] copies). *)
Record system := mkSystem {
  sys_pipe : option Z;
  sys_fork : option Z;
  sys_exec : bool;
  sys_tty : bool }.

(** [char buf[n]], as its [n] bytes; without a NUL byte it is no string. *)
Definition string_in (buf : string) : option string :=
  if no_nul buf then None else Some (cstr buf).

Definition printf_buf (f : string) (buf : string) (print : string -> list arg -> M W unit) : M W unit :=
  match string_in buf with
  | Some s => print f [AStr s]
  | None => undefined
  end.

(** [perror]. *)
Definition perror (what : string) (e : Z) : M W unit :=
  eprintf ("%s: %s" +:+ nl) [AStr what; AStr (strerror e)].

(** [read (fd, buf, size)] of a pipe from which [text] can be read. *)
Definition read_into (buf text : string) (size : nat) : string :=
  let got := stake size text in
  got +:+ sdrop (String.length got) buf.

(** The child: the tool, or, when [execlp] returns, the log message and then
    whatever the caller does next ([rest]), with the pipe as standard output.  The
    result is what it has written to the pipe when it ends. *)
Definition upload_child (sys : system) (filename fileid : string) (rest : string -> M W Z)
    (p : proc W) : option (proc W) :=
  let run (m : M W Z) (c : proc W) := option_map snd (m c) in
  if sys_exec sys then
    run (upload_tool ["fdsf_upload_file"; CLIENT_CONF; filename])
      (mkProc (p_world p) false 0 EmptyString (p_err p))
  else
    run (LOG "upload file failed, file name: %s" [AStr filename] ;;; rest fileid)
      (mkProc (p_world p) (p_ready p) (p_conns p)
         (if sys_tty sys then EmptyString else p_out p) (p_err p)).

(** The result [None] is a call of [exit (1)]. *)
Definition fdfs_upload_file1 (sys : system) (filename fileid : string) (size : nat)
    (rest : string -> M W Z) : M W (option (Z * string)) :=
  match sys_pipe sys with
  | Some e => perror "pipe error" e ;;; ret None
  | None =>
      match sys_fork sys with
      | Some e => perror "fork error" e ;;; ret None
      | None => fun p =>
          match upload_child sys filename fileid rest p with
          | None => None
          | Some c =>
              let fileid := read_into fileid (p_out c) size in
              (printf_buf "fileID = %s" fileid LOG ;;; ret (Some (0%Z, fileid)))
                (mkProc (p_world c) (p_ready p) (p_conns p) (p_out p) (p_err c))
          end
      end
  end.

(** ** fdfs_main.c *)

Fixpoint nuls (n : nat) : string :=
  match n with O => EmptyString | S n' => String NUL (nuls n') end.

Definition FILEID_SIZE : nat := 1024.

(** The end of [main], which a child whose [execlp] has failed executes too. *)
Definition main_end (buf : string) : M W Z :=
  printf_buf ("fileId = %s" +:+ nl) buf printf ;;; ret 0%Z.

(** Without an argument, [argv[1]] is NULL: undefined for the callees. *)
Definition test_main (sys : system) (argv : list string) : M W Z :=
  match argv with
  | _ :: filename :: _ =>
      let* (_, fileid) := fdfs_upload_file filename EmptyString in
      printf ("fileId = %s" +:+ nl) [AStr (cstr fileid)] ;;;
      printf ("=========================" +:+ nl) [] ;;;
      r <- fdfs_upload_file1 sys filename (nuls FILEID_SIZE) FILEID_SIZE main_end ;;
      match r with
      | Some (_, buf) => main_end buf
      | None => ret 1%Z
      end
  | _ => undefined
  end.
End Programs.

(** ** Proofs *)

(** [m] is defined in [p] and ends in [Q]. *)
Definition mwp {W A} (m : M W A) (Q : A -> proc W -> Prop) (p : proc W) : Prop :=
  match m p with Some (a, p') => Q a p' | None => False end.

Lemma mwp_bind {W A B} (m : M W A) (f : A -> M W B) Q p :
  mwp m (fun a => mwp (f a) Q) p -> mwp (mbind m f) Q p.
Proof. unfold mwp, mbind. destruct (m p) as [[a p']|]; done. Qed.

Lemma mwp_ret {W A} (a : A) (Q : A -> proc W -> Prop) p : Q a p -> mwp (ret a) Q p.
Proof. done. Qed.

Lemma mwp_mono {W A} (m : M W A) (Q Q' : A -> proc W -> Prop) p :
  mwp m Q p -> (forall a p', Q a p' -> Q' a p') -> mwp m Q' p.
Proof. unfold mwp. destruct (m p) as [[a p']|]; auto. Qed.

Section Specs.
Context {W : Type} `{FdfsClient W} `{!FdfsLaws W}.
Implicit Types (p : proc W) (w : W).

Definition print_out (s : string) p : proc W :=
  mkProc (p_world p) (p_ready p) (p_conns p) (p_out p +:+ s) (p_err p).

Lemma mwp_printf f args s Q p :
  format f args = Some s -> Q tt (print_out s p) -> mwp (printf f args) Q p.
Proof. intros Hf HQ. unfold mwp, printf. by rewrite Hf. Qed.

Lemma mwp_eprintf f args s Q p :
  format f args = Some s ->
  Q tt (mkProc (p_world p) (p_ready p) (p_conns p) (p_out p) (p_err p +:+ s)) ->
  mwp (eprintf f args) Q p.
Proof. intros Hf HQ. unfold mwp, eprintf. by rewrite Hf. Qed.

Lemma mwp_LOG f ps args Q p :
  pieces_of f = Some ps -> simple_fmt ps args = true -> Forall arg_ok args ->
  (lits_len ps + args_len args < LOG_BUF)%Z -> Q tt p -> mwp (LOG f args) Q p.
Proof.
  intros Hp Hf Ha Hl HQ. unfold mwp, LOG.
  destruct (format_simple f ps args Hp Hf Ha) as (s & -> & Hs).
  destruct (Z.ltb_spec (slen s) LOG_BUF); [done|lia].
Qed.

(** The files of [w] and what FastDFS holds are as in [w0]. *)
Definition same w0 w : Prop := local_files w = local_files w0 /\ stored w = stored w0.

Lemma same_refl w : same w w.
Proof. done. Qed.

Lemma same_stores w0 w w' file fid : same w0 w -> stores file fid w w' -> stores file fid w0 w'.
Proof. unfold same, stores. intros [-> ->]. done. Qed.

Lemma mwp_init conf Q p :
  (forall r w, is_int r -> same (p_world p) w ->
     Q r (mkProc w (if (r =? 0)%Z then true else p_ready p) (p_conns p) (p_out p) (p_err p))) ->
  mwp (fdfs_client_init conf) Q p.
Proof.
  intros HQ. unfold mwp, fdfs_client_init.
  pose proof (init_keeps _ conf (p_world p)) as Hs.
  pose proof (proj1 (results_int W)) as Hi. specialize (Hi conf (p_world p)).
  destruct (client_init conf (p_world p)) as [r w]. auto.
Qed.

Lemma mwp_connection Q p :
  p_ready p = true ->
  (forall (c : ConnectionInfo + Z) w, same (p_world p) w ->
     Q c (mkProc w true (p_conns p + (if c then 1 else 0))%Z (p_out p) (p_err p))) ->
  mwp tracker_get_connection Q p.
Proof.
  intros Hr HQ. unfold mwp, tracker_get_connection. rewrite Hr.
  pose proof (connection_keeps _ (p_world p)) as Hs.
  destruct (get_connection (p_world p)) as [c w]. auto.
Qed.

Lemma mwp_query t Q p :
  p_ready p = true ->
  (forall r s g i w, is_int r -> same (p_world p) w ->
     Q (r, s, g, i) (mkProc w true (p_conns p) (p_out p) (p_err p))) ->
  mwp (tracker_query_storage_store t) Q p.
Proof.
  intros Hr HQ. unfold mwp, tracker_query_storage_store. rewrite Hr.
  pose proof (query_keeps _ t (p_world p)) as Hs.
  pose proof (proj1 (proj2 (results_int W)) t (p_world p)) as Hi.
  destruct (query_storage_store t (p_world p)) as [[[[r s] g] i] w]. auto.
Qed.

(** What an upload with result [r] has done. *)
Definition uploaded (file : string) (r : Z) (fid : string) w w' : Prop :=
  local_files w' = local_files w
  /\ (r = 0%Z -> stores file fid w w')
  /\ (r <> 0%Z -> stored w' = stored w \/ exists fid', stores file fid' w w').

Lemma mwp_upload t s i file group Q p :
  p_ready p = true ->
  (forall r fid w, is_int r -> uploaded file r fid (p_world p) w ->
     Q (r, fid) (mkProc w true (p_conns p) (p_out p) (p_err p))) ->
  mwp (storage_upload_by_filename1 t s i file group) Q p.
Proof.
  intros Hr HQ. unfold mwp, storage_upload_by_filename1. rewrite Hr.
  pose proof (upload_stores _ t s i file group (p_world p)) as Hs.
  pose proof (proj2 (proj2 (results_int W)) t s i file group (p_world p)) as Hi.
  destruct (upload_by_filename1 t s i file group (p_world p)) as [[r fid] w]. auto.
Qed.

Lemma mwp_disconnect t Q p :
  p_ready p = true -> (0 < p_conns p)%Z ->
  Q tt (mkProc (p_world p) true (p_conns p - 1)%Z (p_out p) (p_err p)) ->
  mwp (tracker_disconnect_server_ex t) Q p.
Proof.
  intros Hr Hc HQ. unfold mwp, tracker_disconnect_server_ex. rewrite Hr.
  by destruct (Z.ltb_spec 0 (p_conns p)); [|lia].
Qed.

Lemma uploaded_same file r fid w0 w w' :
  same w0 w -> uploaded file r fid w w' -> uploaded file r fid w0 w'.
Proof.
  intros Hs (Hl & H0 & H1). pose proof Hs as [Hl' Hs'].
  split; [by rewrite Hl|]. split; [intros Hr; by eapply same_stores, H0|].
  intros Hr. destruct (H1 Hr) as [->|[fid' ?]]; [by left|right; eauto using same_stores].
Qed.

Lemma same_uploaded file r fid w0 w : same w0 w -> r <> 0%Z -> uploaded file r fid w0 w.
Proof. intros [Hl Hs] Hr. split; [done|]. split; [done|]. by left. Qed.

Lemma same_trans w0 w1 w2 : same w0 w1 -> same w1 w2 -> same w0 w2.
Proof. unfold same. intros [-> ->] [-> ->]. done. Qed.

(** Formats with an error number and its text. *)
Definition error_format (f : string) : bool :=
  match pieces_of f with
  | Some ps => simple_fmt ps [AInt 0; AStr EmptyString] && (lits_len ps <? 1000)%Z
  | None => false
  end.

Lemma error_format_ok f r :
  error_format f = true -> is_int r ->
  exists s, format f [AInt r; AStr (strerror r)] = Some s /\ (slen s < LOG_BUF)%Z.
Proof.
  unfold error_format. destruct (pieces_of f) as [ps|] eqn:Hp; [|done].
  intros [Hf Hl%Z.ltb_lt]%andb_prop Hr.
  destruct (format_simple f ps [AInt r; AStr (strerror r)] Hp) as (s & Hs & Hlen).
  - revert Hf. clear.
    induction ps as [|[c| |[|n]|n] ps IH]; simpl; auto.
    clear IH. induction ps as [|[c| |[|n]|n] ps IH]; simpl; auto.
  - repeat constructor; simpl; by apply is_int_long.
  - exists s. split; [done|]. simpl in Hlen. pose proof (strerror_short W r).
    unfold LOG_BUF, MSG_MAX in *. lia.
Qed.

Lemma mwp_eprintf_error f r Q p :
  error_format f = true -> is_int r ->
  (forall s, Q tt (mkProc (p_world p) (p_ready p) (p_conns p) (p_out p) (p_err p +:+ s))) ->
  mwp (eprintf f [AInt r; AStr (strerror r)]) Q p.
Proof.
  intros Hf Hr HQ. destruct (error_format_ok f r Hf Hr) as (s & Hs & _). by eapply mwp_eprintf.
Qed.

Lemma mwp_LOG_error f r Q p :
  error_format f = true -> is_int r -> Q tt p -> mwp (LOG f [AInt r; AStr (strerror r)]) Q p.
Proof.
  intros Hf Hr HQ. destruct (error_format_ok f r Hf Hr) as (s & Hs & Hl).
  unfold mwp, LOG. rewrite Hs. by destruct (Z.ltb_spec (slen s) LOG_BUF); [|lia].
Qed.

Lemma upload_tool_end_spec t s i file group p :
  p_ready p = true -> (0 < p_conns p)%Z ->
  mwp (upload_tool_end t s i file group)
    (fun r p' => p_ready p' = false /\ p_conns p' = (p_conns p - 1)%Z
       /\ exists fid, uploaded file r fid (p_world p) (p_world p')
       /\ p_out p' = p_out p +:+ (if (r =? 0)%Z then fid +:+ nl else EmptyString)) p.
Proof.
  intros Hr Hc. unfold upload_tool_end. apply mwp_bind, mwp_upload; [done|].
  intros r fid w Hi Hu. apply mwp_bind. destruct (Z.eqb_spec r 0) as [->|Hr0].
  - eapply mwp_printf; [reflexivity|].
    apply mwp_bind, mwp_disconnect; [done|done|]. split; [done|]. split; [done|].
    exists fid. split; [done|]. simpl. destruct Hu as (_ & (c & _ & _ & _ & _ & Hn & _) & _); [done|].
    by rewrite cstr_id.
  - apply mwp_eprintf_error; [reflexivity|done|]. intros msg.
    apply mwp_bind, mwp_disconnect; [done|done|]. split; [done|]. split; [done|].
    exists fid. split; [done|]. simpl. by rewrite (proj2 (Z.eqb_neq _ _) Hr0), string_app_nil_r.
Qed.

Definition usage_text (a0 : string) : string :=
  "Usage: " +:+ a0 +:+ " <config_file> <local_filename> [storage_ip:port] [store_path_index]" +:+ nl.

Lemma mwp_usage a0 rest Q p :
  Q tt (print_out (usage_text a0) p) -> mwp (usage (a0 :: rest)) Q p.
Proof. intros HQ. by eapply mwp_printf. Qed.

(** A finished run of the tool: the library is not left initialised; an id is
    printed exactly when the result is 0; the connection to the tracker is left
    open only in a run that fails. *)
Definition tool_run (file msg : string) p (r : Z) p' : Prop :=
  p_ready p' = false
  /\ (exists fid, uploaded file r fid (p_world p) (p_world p')
        /\ p_out p' = p_out p +:+ (if (r =? 0)%Z then fid +:+ nl else msg))
  /\ (p_conns p' = p_conns p \/ (p_conns p' = p_conns p + 1 /\ r <> 0)%Z).

Lemma tool_failed file msg p r p' :
  p_ready p' = false -> same (p_world p) (p_world p') -> r <> 0%Z ->
  p_out p' = p_out p +:+ msg -> (p_conns p' = p_conns p \/ p_conns p' = p_conns p + 1)%Z ->
  tool_run file msg p r p'.
Proof.
  intros Hr Hs Hr0 Ho Hc. split; [done|]. split.
  - exists EmptyString. split; [by apply same_uploaded|]. by rewrite (proj2 (Z.eqb_neq _ _) Hr0).
  - destruct Hc; auto.
Qed.

Lemma tool_ended t s i file group p p1 :
  p_ready p1 = true -> p_conns p1 = (p_conns p + 1)%Z -> (0 <= p_conns p)%Z ->
  same (p_world p) (p_world p1) -> p_out p1 = p_out p ->
  mwp (upload_tool_end t s i file group) (tool_run file EmptyString p) p1.
Proof.
  intros Hr Hc Hp Hs Ho. eapply mwp_mono; [apply upload_tool_end_spec; [done|lia]|].
  intros r p' (Hr' & Hc' & fid & Hu & Ho'). split; [done|]. split.
  - exists fid. split; [by eapply uploaded_same|]. by rewrite Ho', Ho.
  - left. lia.
Qed.

Lemma upload_tool_run a0 conf file more p :
  p_ready p = false -> (0 <= p_conns p)%Z ->
  mwp (upload_tool (a0 :: conf :: file :: more))
    (fun r p' => exists msg, tool_run file msg p r p'
       /\ (msg = EmptyString \/ (msg = usage_text a0 /\ more <> []))) p.
Proof.
  intros Hr Hc. simpl. apply mwp_bind, mwp_init. intros r w Hi Hs.
  destruct (Z.eqb_spec r 0) as [->|Hr0]; simpl.
  2:{ exists EmptyString. split; [|by left]. apply tool_failed; simpl; auto.
      by rewrite string_app_nil_r. }
  apply mwp_bind, mwp_connection; [done|]. simpl. intros [t|e] w' Hs'%(same_trans _ _ _ Hs).
  2:{ exists EmptyString. split; [|by left]. apply tool_failed; simpl; auto.
      - destruct (Z.eqb_spec e 0); done.
      - by rewrite string_app_nil_r.
      - left. lia. }
  destruct more as [|ipp more].
  - apply mwp_bind, mwp_query; [done|]. simpl. intros r s g i w'' Hi' Hs''%(same_trans _ _ _ Hs').
    destruct (Z.eqb_spec r 0) as [->|Hr0]; simpl.
    + eapply mwp_mono; [by apply (tool_ended t s i file g p)|]. intros r p' Ht. exists EmptyString. auto.
    + apply mwp_bind. cbv beta. unfold mwp at 1. simpl. apply mwp_bind, mwp_eprintf_error; [reflexivity|done|].
      intros msg. exists EmptyString. split; [|by left]. apply tool_failed; simpl; auto.
      by rewrite string_app_nil_r.
  - destruct (storage_server ipp) as [s|].
    + eapply mwp_mono; [by eapply (tool_ended _ _ _ file _ p)|]. intros r p' Ht. exists EmptyString. auto.
    + apply mwp_bind. unfold mwp at 1. simpl. apply mwp_bind. eapply mwp_eprintf; [reflexivity|].
      apply mwp_bind, (mwp_usage a0 (conf :: file :: ipp :: more)), mwp_ret. exists (usage_text a0). split; [|by right].
      apply tool_failed; simpl; auto.
Qed.

(** C37: The upload tool keeps the contract on which upload_cgi relies: run with a
    configuration and a file name it ends, without undefined behaviour, with the
    output and the effect on FastDFS that [tool_spec] allows.  It prints the id
    exactly when it ends with 0, and the library is not left initialised. *)
Theorem upload_tool_refines a0 conf file p o :
  p_ready p = false -> (0 <= p_conns p)%Z ->
  o_files o = local_files (p_world p) -> o_dfs o = stored (p_world p) ->
  exists r p' out o',
    upload_tool [a0; conf; file] p = Some (r, p')
    /\ p_out p' = p_out p +:+ out
    /\ tool_spec "fdfs_upload_file" file out o o'
    /\ o_dfs o' = stored (p_world p')
    /\ local_files (p_world p') = local_files (p_world p)
    /\ (r = 0%Z <-> out <> EmptyString)
    /\ p_ready p' = false.
Proof.
  intros Hr Hc Hf Hd. pose proof (upload_tool_run a0 conf file [] p Hr Hc) as Hrun.
  unfold mwp in Hrun. destruct (upload_tool _ p) as [[r p']|]; [|done].
  destruct Hrun as (msg & (Hr' & (fid & Hu & Ho) & _) & Hm).
  assert (msg = EmptyString) as -> by (by destruct Hm as [?|[_ ?]]). clear Hm.
  exists r, p'. eexists _, (with_dfs (stored (p_world p')) o).
  split; [done|]. split; [exact Ho|]. destruct Hu as (Hl & H0 & H1).
  assert (with_dfs (stored (p_world p)) o = o) as Hsame by (rewrite <- Hd; by destruct o).
  split; [|split; [done|split; [done|split; [|done]]]].
  - unfold tool_spec. simpl. destruct (Z.eqb_spec r 0) as [E|E].
    + right. destruct (H0 E) as (c & ? & ? & Hst & ? & _ & ?).
      exists fid, c. rewrite Hf, Hd, Hst. auto 10.
    + destruct (H1 E) as [->|(fid' & c & ? & ? & Hst & ? & _ & ?)]; [by left|].
      right. exists fid', c. rewrite Hf, Hd, Hst. auto 10.
  - destruct (Z.eqb_spec r 0) as [E|E]; [|done]. split; [|done].
    intros _ E0. apply (f_equal slen) in E0. unfold nl in E0. slen_lia.
Qed.

(** The function of fdfs_api.c, on all paths. *)
Lemma fdfs_upload_file_run file buf p :
  p_ready p = false -> (0 <= p_conns p)%Z ->
  mwp (fdfs_upload_file file buf)
    (fun '(r, fid) p' => p_ready p' = false /\ p_out p' = p_out p
       /\ uploaded file r fid (p_world p) (p_world p')
       /\ (p_conns p' = p_conns p \/ (p_conns p' = p_conns p + 1 /\ r <> 0)%Z)) p.
Proof.
  intros Hr Hc. unfold fdfs_upload_file. apply mwp_bind, mwp_init. intros r w Hi Hs.
  destruct (Z.eqb_spec r 0) as [->|Hr0]; simpl.
  2:{ apply mwp_ret. simpl. split; [done|]. split; [done|]. split; [by apply same_uploaded|auto]. }
  apply mwp_bind, mwp_connection; [done|]. simpl. intros [t|e] w' Hs'%(same_trans _ _ _ Hs).
  2:{ apply mwp_bind. unfold mwp at 1. simpl. apply mwp_ret. simpl.
      split; [done|]. split; [done|]. split; [|left; lia].
      apply same_uploaded; [done|]. by destruct (Z.eqb_spec e 0). }
  apply mwp_bind, mwp_query; [done|]. simpl. intros r s g i w'' Hi' Hs''%(same_trans _ _ _ Hs').
  destruct (Z.eqb_spec r 0) as [->|Hr0]; simpl.
  - apply mwp_bind, mwp_upload; [done|]. simpl.
    intros r fid w3 Hi3 Hu%(uploaded_same _ _ _ _ _ _ Hs''). apply mwp_bind.
    assert (forall p1, p_ready p1 = true -> p_conns p1 = (p_conns p + 1)%Z -> p_out p1 = p_out p ->
      p_world p1 = w3 ->
      mwp (tracker_disconnect_server_ex t ;;; fdfs_client_destroy ;;; ret (r, fid))
        (fun '(r, fid) p' => p_ready p' = false /\ p_out p' = p_out p
           /\ uploaded file r fid (p_world p) (p_world p')
           /\ (p_conns p' = p_conns p \/ (p_conns p' = p_conns p + 1 /\ r <> 0)%Z)) p1) as Hend.
    { intros p1 H1 H2 H3 H4. apply mwp_bind, mwp_disconnect; [done|lia|].
      apply mwp_bind. unfold mwp at 1. simpl. apply mwp_ret. simpl.
      split; [done|]. split; [done|]. split; [by rewrite H4|left; lia]. }
    destruct (Z.eqb_spec r 0) as [->|Hr0].
    + destruct Hu as (? & (c & Hst) & ?); [done|]. destruct Hst as (? & ? & ? & Hlen & Hn & ?).
      eapply mwp_LOG; [reflexivity|reflexivity|by repeat constructor| |by apply Hend].
      simpl. rewrite cstr_id by done. unfold LOG_BUF. lia.
    + apply mwp_LOG_error; [reflexivity|done|]. by apply Hend.
  - apply mwp_bind. unfold mwp at 1. simpl. apply mwp_bind, mwp_LOG_error; [reflexivity|done|].
    apply mwp_ret. simpl. split; [done|]. split; [done|]. split; [by apply same_uploaded|auto].
Qed.

Lemma nul_free_app a b : no_nul (a +:+ b) = no_nul a && no_nul b.
Proof. apply sforall_app. Qed.

Lemma cstr_app_nul a b : no_nul a = true -> cstr (a +:+ String NUL b) = a.
Proof.
  induction a as [|c a IH]; [done|]. rewrite string_app_cons. simpl.
  intros [Hc Ha]%andb_prop. apply negb_true_iff in Hc. rewrite Hc. by rewrite IH.
Qed.

Lemma sdrop_nuls k n : sdrop k (nuls n) = nuls (n - k).
Proof. revert n. induction k as [|k IH]; intros [|n]; simpl; auto. Qed.

(** What is read into a zeroed buffer with room for it is a string. *)
Lemma string_in_read text n :
  no_nul text = true -> (String.length text < n)%nat ->
  string_in (read_into (nuls n) text n) = Some text.
Proof.
  intros Ht Hn. unfold string_in, read_into. rewrite stake_all by lia. rewrite sdrop_nuls.
  destruct (n - String.length text)%nat as [|m] eqn:E; [lia|]. simpl.
  rewrite nul_free_app. simpl. rewrite andb_false_r. by rewrite cstr_app_nul.
Qed.

(** Running the tool in a child: with the tool installed, the buffer holds the
    line the tool has printed, newline included, or nothing; the result is 0 in
    both cases. *)
Lemma fdfs_upload_file1_run sys file rest p :
  sys_pipe sys = None -> sys_fork sys = None -> sys_exec sys = true ->
  mwp (fdfs_upload_file1 sys file (nuls FILEID_SIZE) FILEID_SIZE rest)
    (fun r p' => exists buf status fid,
       r = Some (0%Z, buf) /\ uploaded file status fid (p_world p) (p_world p')
       /\ string_in buf = Some (if (status =? 0)%Z then fid +:+ nl else EmptyString)
       /\ p_ready p' = p_ready p /\ p_conns p' = p_conns p /\ p_out p' = p_out p) p.
Proof.
  intros H1 H2 H3. unfold fdfs_upload_file1. rewrite H1, H2. unfold mwp, upload_child. rewrite H3.
  pose proof (upload_tool_run "fdsf_upload_file" CLIENT_CONF file []
    (mkProc (p_world p) false 0 EmptyString (p_err p)) eq_refl ltac:(done)) as Hrun.
  unfold mwp in Hrun. destruct (upload_tool _ _) as [[r c]|]; [|done]. cbn [option_map snd].
  destruct Hrun as (msg & (_ & (fid & Hu & Ho) & _) & [->|[_ ?]]); [|done].
  cbn [p_world p_out] in Hu, Ho. rewrite Ho, string_app_nil_l. clear Ho.
  set (text := if (r =? 0)%Z then fid +:+ nl else EmptyString).
  assert (no_nul text = true /\ (slen text <= 128)%Z) as [Hn Hl].
  { unfold text. destruct (Z.eqb_spec r 0) as [->|]; [|done].
    destruct Hu as (_ & (? & _ & _ & _ & Hlen & Hnn & _) & _); [done|].
    rewrite nul_free_app, Hnn. split; [done|]. unfold nl. slen_lia. }
  assert (string_in (read_into (nuls FILEID_SIZE) text FILEID_SIZE) = Some text) as Hb.
  { apply string_in_read; [done|]. unfold slen, FILEID_SIZE in *. lia. }
  unfold mbind, printf_buf. rewrite Hb. unfold LOG.
  destruct (format_simple "fileID = %s" _ [AStr text] eq_refl eq_refl ltac:(by repeat constructor))
    as (s & -> & Hs). simpl in Hs.
  destruct (Z.ltb_spec (slen s) LOG_BUF) as [_|Hge]; [|unfold LOG_BUF in *; lia].
  simpl. exists (read_into (nuls FILEID_SIZE) text FILEID_SIZE), r, fid. done.
Qed.
End Specs.

(** ** An instance *)

(** Files and FastDFS, and whether the tracker and the storage server answer. *)
Record toy := mkToy {
  toy_files : gmap string string;
  toy_stored : gmap string string;
  toy_tracker : bool;
  toy_storage : bool }.

Definition toy_id (w : toy) (file : string) : string :=
  "group1/M00/00/00/" +:+ dec_string (Z.of_nat (size (toy_stored w))) +:+ "_" +:+ file.

Definition toy_upload (file : string) (w : toy) : Z * string * toy :=
  let fid := toy_id w file in
  match toy_files w !! file, toy_stored w !! fid with
  | Some c, None =>
      if (slen fid <=? 127)%Z && no_nul fid && shell_word fid then
        (0%Z, fid, mkToy (toy_files w) (<[fid := c]> (toy_stored w)) (toy_tracker w) (toy_storage w))
      else (22%Z, EmptyString, w)
  | _, _ => (2%Z, EmptyString, w)
  end.

#[export] Instance toy_client : FdfsClient toy := {
  client_init conf w := (if streq conf CLIENT_CONF then 0%Z else 2%Z, w);
  get_connection w := (if toy_tracker w then inl (mkConn 3 "10.0.0.1" 22122) else inr 0%Z, w);
  query_storage_store t w :=
    (if toy_storage w then 0%Z else 2%Z, mkConn (-1) "10.0.0.2" 23000, "group1", 0%Z, w);
  upload_by_filename1 t s i file group w := toy_upload file w;
  strerror r := "No such file or directory";
  local_files := toy_files;
  stored := toy_stored }.

#[export] Instance toy_laws : FdfsLaws toy.
Proof.
  split; try done.
  - intros t s i file group w. simpl. unfold toy_upload.
    destruct (toy_files w !! file) as [c|] eqn:Ef; [|by split; [|split; [|left]]].
    destruct (toy_stored w !! toy_id w file) eqn:Es; [by split; [|split; [|left]]|].
    destruct ((slen (toy_id w file) <=? 127)%Z && no_nul (toy_id w file) && shell_word (toy_id w file))
      eqn:E;
      [|by split; [|split; [|left]]].
    apply andb_prop in E as [[El%Z.leb_le En]%andb_prop Ew].
    split; [done|]. split; [|done]. intros _. exists c. split; [done|]. split; [done|].
    split; [done|]. split; [done|]. split; [done|]. done.
  - simpl. split; [|split].
    + intros conf w. simpl. destruct (streq conf CLIENT_CONF); done.
    + intros t w. simpl. destruct (toy_storage w); done.
    + intros t s i file group w. unfold toy_upload. destruct (toy_files w !! file); [|done].
      destruct (toy_stored w !! toy_id w file); [done|].
      destruct (_ && _ && _); done.
Qed.

Definition toy_world (tracker storage : bool) : toy :=
  mkToy {["a.txt" := "hello"]} ∅ tracker storage.
Definition toy_start (tracker storage : bool) : proc toy :=
  mkProc (toy_world tracker storage) false 0 EmptyString EmptyString.

Lemma upload_tool_refines_witness :
  exists r p' out,
    upload_tool ["fdfs_upload_file"; CLIENT_CONF; "a.txt"] (toy_start true true) = Some (r, p')
    /\ out <> EmptyString /\ p_out p' = out /\ p_ready p' = false.
Proof.
  destruct (upload_tool_refines "fdfs_upload_file" CLIENT_CONF "a.txt" (toy_start true true)
    (mkObs (mkTables [] [] [] [] []) None ∅ EmptyString {["a.txt" := "hello"]} ∅ 0 0))
    as (r & p' & out & o' & Hrun & Hout & _ & _ & _ & Hr & Hready);
    [reflexivity|apply Z.le_refl|reflexivity|reflexivity|].
  exists r, p', out. split; [exact Hrun|]. split; [|split; [exact Hout|exact Hready]].
  apply Hr. vm_compute in Hrun. injection Hrun. intros _ E. symmetry. exact E.
Defined.

(** The printed line of a run of the tool. *)
Example upload_tool_prints :
  option_map (fun '(r, p) => (r, p_out p, p_conns p))
    (upload_tool ["fdfs_upload_file"; CLIENT_CONF; "a.txt"] (toy_start true true))
  = Some (0%Z, "group1/M00/00/00/0_a.txt" +:+ nl, 0%Z).
Proof. vm_compute. reflexivity. Qed.

(** Defects of the test programs, on concrete runs.  When the tracker knows no
    storage server, [fdfs_upload_file] returns with its connection to the
    tracker open, and so does the tool.  [fdfs_upload_file1] returns 0 although
    the tool has failed, and its buffer is empty.  When the tool is not
    installed, the child goes on as a copy of the caller, and what it prints is
    taken for the file id. *)
Theorem demo_upload_defects :
  let sys exec := mkSystem None None exec true in
  (exists p', fdfs_upload_file "a.txt" EmptyString (toy_start true false) = Some ((2%Z, EmptyString), p')
     /\ p_ready p' = false /\ p_conns p' = 1%Z)
  /\ (exists p', upload_tool ["fdfs_upload_file"; CLIENT_CONF; "a.txt"] (toy_start true false) = Some (2%Z, p')
     /\ p_ready p' = false /\ p_conns p' = 1%Z)
  /\ (exists buf p', fdfs_upload_file1 (sys true) "a.txt" (nuls FILEID_SIZE) FILEID_SIZE main_end
                       (toy_start false false) = Some (Some (0%Z, buf), p')
     /\ string_in buf = Some EmptyString /\ stored (p_world p') = ∅)
  /\ (exists p', test_main (sys false) ["fdfs_main"; "a.txt"] (toy_start true true) = Some (0%Z, p')
     /\ p_out p' = "fileId = group1/M00/00/00/0_a.txt" +:+ nl +:+ "=========================" +:+ nl
                   +:+ "fileId = fileId = " +:+ nl +:+ nl).
Proof.
  cbv zeta. split; [|split; [|split]].
  - eexists. split; [vm_compute; reflexivity|]. split; reflexivity.
  - eexists. split; [vm_compute; reflexivity|]. split; reflexivity.
  - eexists _, _. split; [vm_compute; reflexivity|]. split; vm_compute; reflexivity.
  - eexists. split; [vm_compute; reflexivity|]. vm_compute. reflexivity.
Qed.
