(* ===== verification/RedisDemo.v ===== *)
(** * demo/myredis.c and demo/redis_example.c

    Two test programs of the hiredis library.  The server and the library are a
    parameter: a class with the operations the sources call ([RedisServer]) and
    the documented replies of the commands they send ([redis_doc]).  A context
    has an error flag: once it is set, every command answers NULL.  Reading a
    field of a NULL reply, or printing a NULL string, is undefined. *)

From S2P Require Import Prelude CLib UtilCgi Sql Tables CProg.
#[local] Close Scope hfdfs_scope.

(** ** The server *)

Class RedisServer (W : Type) := {
  rconnect : string -> Z -> W -> rconn;
  rcommand : list string -> W -> option reply * W;
  keys : W -> gmap string rval }.

Definition list_of (r : gmap string rval) (k : string) : option (list string) :=
  match r !! k with
  | None => Some []
  | Some (VList l) => Some l
  | _ => None
  end.

(** The number in a key: a missing one counts as 0. *)
Definition counter_of (r : gmap string rval) (k : string) : option Z :=
  match r !! k with
  | None => Some 0%Z
  | Some (VStr s) => if streq (dec_string (strtol s)) s then Some (strtol s) else None
  | _ => None
  end.

(** Documented replies.  DEL also answers 0 or 1. *)
Inductive redis_doc : list string -> gmap string rval -> reply -> gmap string rval -> Prop :=
| doc_ping r cmd : cmd = "PING" \/ cmd = "ping" -> redis_doc [cmd] r (RStatus "PONG") r
| doc_set r k v : redis_doc ["SET"; k; v] r (RStatus "OK") (<[k := VStr v]> r)
| doc_get r k v : r !! k = Some (VStr v) -> redis_doc ["GET"; k] r (RString v) r
| doc_incr r k z :
    counter_of r k = Some z -> (z < LONG_MAX)%Z ->
    redis_doc ["INCR"; k] r (RInteger (z + 1)) (<[k := VStr (dec_string (z + 1))]> r)
| doc_del r k n : redis_doc ["DEL"; k] r (RInteger n) (delete k r)
| doc_lpush r k v l :
    list_of r k = Some l ->
    redis_doc ["LPUSH"; k; v] r (RInteger (1 + Z.of_nat (length l))) (<[k := VList (v :: l)]> r)
| doc_lrange r k l :
    list_of r k = Some l -> redis_doc ["LRANGE"; k; "0"; "-1"] r (RArray (List.map RString l)) r
| doc_hset r k f v h :
    hash_of r k = Some h ->
    redis_doc ["hset"; k; f; v] r (RInteger (if decide (f ∈ dom h) then 0 else 1))
      (<[k := VHash (<[f := v]> h)]> r).

(** A server that is up answers as documented whenever the command has a
    documented reply in the state of its keys. *)
Class RedisUp (W : Type) `{RedisServer W} : Prop := {
  up_connect ip port w : rconnect ip port w = RcOk;
  up_answers argv w rep0 r0 :
    redis_doc argv (keys w) rep0 r0 ->
    exists rep w', rcommand argv w = (Some rep, w') /\ redis_doc argv (keys w) rep (keys w') }.

(** ** Programs *)

Record rproc (W : Type) := mkRproc {
  rp_world : W;
  rp_ctx : option bool;   (* the open context and its error flag *)
  rp_out : string }.
Arguments mkRproc {W}.
Arguments rp_world {W}.
Arguments rp_ctx {W}.
Arguments rp_out {W}.

Definition R (W A : Type) := rproc W -> option (A * rproc W).
Definition rret {W A} (a : A) : R W A := fun p => Some (a, p).
Definition rundef {W A} : R W A := fun _ => None.
Definition rbind {W A B} (m : R W A) (f : A -> R W B) : R W B :=
  fun p => match m p with Some (a, p') => f a p' | None => None end.

Declare Scope rproc_scope.
Notation "x <- m ;; f" := (rbind m (fun x => f))
  (at level 100, m at next level, right associativity) : rproc_scope.
Notation "m ;;; f" := (rbind m (fun _ => f))
  (at level 100, right associativity) : rproc_scope.
#[local] Open Scope rproc_scope.

Section Programs.
Context {W : Type} `{RedisServer W}.

Definition rprintf (f : string) (args : list arg) : R W unit := fun p =>
  match format f args with
  | Some s => Some (tt, mkRproc (rp_world p) (rp_ctx p) (rp_out p +:+ s))
  | None => None
  end.

Definition redisConnect (ip : string) (port : Z) : R W rconn := fun p =>
  let c := rconnect ip port (rp_world p) in
  Some (c, mkRproc (rp_world p)
             (match c with RcNull => rp_ctx p | RcErr _ => Some true | RcOk => Some false end)
             (rp_out p)).

Definition redisCommand (argv : list string) : R W (option reply) := fun p =>
  match rp_ctx p with
  | None => None
  | Some true => Some (None, p)
  | Some false =>
      let '(r, w) := rcommand argv (rp_world p) in
      Some (r, mkRproc w (Some (if r then false else true)) (rp_out p))
  end.

Definition redisFree : R W unit := fun p =>
  match rp_ctx p with
  | None => None
  | Some _ => Some (tt, mkRproc (rp_world p) None (rp_out p))
  end.

(** [reply->str] as a string to print, [reply->integer], [reply->element]. *)
Definition reply_str (r : option reply) : R W string :=
  match r with
  | Some (RStatus s) | Some (RError s) | Some (RString s) => rret (cstr s)
  | _ => rundef
  end.

Definition reply_integer (r : option reply) : R W Z :=
  match r with
  | Some (RInteger z) => rret z
  | Some _ => rret 0%Z
  | None => rundef
  end.

(** *** myredis.c *)

Definition send (argv : list string) : R W unit := redisCommand argv ;;; rret tt.

Definition myredis (argv : list string) : R W Z :=
  match argv with
  | _ :: port :: _ =>
      res <- redisConnect "127.0.0.1" (atoi port) ;;
      match res with
      | RcNull => rprintf ("redis server connect fail..." +:+ nl) [] ;;; rret 1%Z
      | _ =>
          send ["ping"] ;;;
          send ["hset"; "user"; "name"; "kevin"] ;;;
          send ["hset"; "user"; "age"; "34"] ;;;
          send ["hset"; "user"; "passwd"; "123abc"] ;;;
          redisFree ;;;
          rret 0%Z
      end
  | _ => rundef (* printf ("%s port\n", argv[1]) of a NULL pointer *)
  end.

(** *** redis_example.c *)

Definition show_str (f : string) (argv : list string) : R W unit :=
  r <- redisCommand argv ;; s <- reply_str r ;; rprintf (f +:+ nl) [AStr s].

Definition show_integer (f : string) (argv : list string) : R W unit :=
  r <- redisCommand argv ;; z <- reply_integer r ;; rprintf (f +:+ nl) [AInt z].

(** [for (j = 0; j < 10; j++)], the last [n] rounds. *)
Fixpoint push_elements (n : nat) (j : Z) : R W unit :=
  match n with
  | O => rret tt
  | S n' => send ["LPUSH"; "mylist"; "element-" +:+ dec_string j] ;;; push_elements n' (j + 1)
  end.

(** [printf ("%u) %s\n", j, reply->element[j]->str)]. *)
Fixpoint show_elements (l : list reply) (j : Z) : R W unit :=
  match l with
  | [] => rret tt
  | e :: l' =>
      s <- reply_str (Some e) ;; rprintf ("%u) %s" +:+ nl) [AInt j; AStr s] ;;;
      show_elements l' (uint32 (j + 1))
  end.

Definition show_list : R W unit :=
  r <- redisCommand ["LRANGE"; "mylist"; "0"; "-1"] ;;
  match r with
  | Some (RArray l) => show_elements l 0
  | Some _ => rret tt
  | None => rundef
  end.

Definition redis_example (argv : list string) : R W Z :=
  let hostname := match argv with _ :: h :: _ => h | _ => "127.0.0.1" end in
  let port := match argv with _ :: _ :: p :: _ => atoi p | _ => 6379%Z end in
  c <- redisConnect hostname port ;;
  match c with
  | RcErr errstr =>
      rprintf ("Connection error: %s" +:+ nl) [AStr errstr] ;;; redisFree ;;; rret 1%Z
  | RcNull => rprintf ("Connection error: can't allocate redis context" +:+ nl) [] ;;; rret 1%Z
  | RcOk =>
      show_str "PING: %s" ["PING"] ;;;
      show_str "SET: %s" ["SET"; "foo"; "hello world"] ;;;
      show_str "SET (binary API): %s" ["SET"; "bar"; "hello"] ;;;
      show_str "GET foo: %s" ["GET"; "foo"] ;;;
      show_integer "INCR counter: %ld" ["INCR"; "counter"] ;;;
      show_integer "INCR counter: %ld" ["INCR"; "counter"] ;;;
      send ["DEL"; "mylist"] ;;;
      push_elements 10 0 ;;;
      show_list ;;;
      redisFree ;;;
      rret 0%Z
  end.
End Programs.

(** ** Proofs *)

Definition rwp {W A} (m : R W A) (Q : A -> rproc W -> Prop) (p : rproc W) : Prop :=
  match m p with Some (a, p') => Q a p' | None => False end.

Lemma rwp_bind {W A B} (m : R W A) (f : A -> R W B) Q p :
  rwp m (fun a => rwp (f a) Q) p -> rwp (rbind m f) Q p.
Proof. unfold rwp, rbind. destruct (m p) as [[a p']|]; done. Qed.

Lemma rwp_mono {W A} (m : R W A) (Q Q' : A -> rproc W -> Prop) p :
  rwp m Q p -> (forall a p', Q a p' -> Q' a p') -> rwp m Q' p.
Proof. unfold rwp. destruct (m p) as [[a p']|]; auto. Qed.

(** The list after the elements [j .. j + n - 1] have been pushed. *)
Fixpoint pushed (n : nat) (j : Z) (l : list string) : list string :=
  match n with
  | O => l
  | S n' => pushed n' (j + 1) (("element-" +:+ dec_string j) :: l)
  end.

Fixpoint shown (l : list string) (j : Z) : string :=
  match l with
  | [] => EmptyString
  | s :: l' => dec_string j +:+ ") " +:+ s +:+ nl +:+ shown l' (uint32 (j + 1))
  end.

Section Specs.
Context {W : Type} `{RedisServer W} `{!RedisUp W}.
Implicit Types p : rproc W.

(** A process with an open context, which has seen the keys [r] and printed [s]. *)
Definition at_state (r : gmap string rval) (s : string) p : Prop :=
  keys (rp_world p) = r /\ rp_ctx p = Some false /\ rp_out p = s.

Lemma rwp_command argv r s rep0 r0 Q p :
  at_state r s p -> redis_doc argv r rep0 r0 ->
  (forall rep r' p', redis_doc argv r rep r' -> at_state r' s p' -> Q (Some rep) p') ->
  rwp (redisCommand argv) Q p.
Proof.
  intros (Hk & Hc & Ho) Hd HQ. unfold rwp, redisCommand. rewrite Hc. rewrite <- Hk in Hd.
  destruct (up_answers argv (rp_world p) rep0 r0 Hd) as (rep & w' & -> & Hd').
  rewrite Hk in Hd'. by apply (HQ rep (keys w')).
Qed.

Lemma rwp_send argv r s rep0 r0 r1 Q p :
  at_state r s p -> redis_doc argv r rep0 r0 ->
  (forall rep r', redis_doc argv r rep r' -> r' = r1) ->
  (forall p', at_state r1 s p' -> Q tt p') ->
  rwp (send argv) Q p.
Proof.
  intros Hp Hd Hr HQ. apply rwp_bind. eapply rwp_command; [done|done|].
  intros rep r' p' Hd' Hp'. apply HQ. by rewrite <- (Hr _ _ Hd').
Qed.

Lemma rwp_printf f args s0 r s Q p :
  at_state r s p -> format f args = Some s0 ->
  (forall p', at_state r (s +:+ s0) p' -> Q tt p') -> rwp (rprintf f args) Q p.
Proof.
  intros (Hk & Hc & Ho) Hf HQ. unfold rwp, rprintf. rewrite Hf. apply HQ.
  split; [done|]. split; [done|]. simpl. by rewrite Ho.
Qed.

Lemma rwp_show_str f argv rep0 str r r1 s s0 Q p :
  at_state r s p -> redis_doc argv r rep0 r1 ->
  (forall rep r', redis_doc argv r rep r' -> r' = r1 /\ (rep = RStatus str \/ rep = RString str)) ->
  format (f +:+ nl) [AStr (cstr str)] = Some s0 ->
  (forall p', at_state r1 (s +:+ s0) p' -> Q tt p') ->
  rwp (show_str f argv) Q p.
Proof.
  intros Hp Hd Hr Hf HQ. apply rwp_bind. eapply rwp_command; [done|done|].
  intros rep r' p' Hd' Hp'. destruct (Hr _ _ Hd') as [-> Hrep].
  apply rwp_bind. replace (reply_str (Some rep)) with (@rret W _ (cstr str))
    by (by destruct Hrep as [->| ->]).
  eapply rwp_printf; done.
Qed.

Lemma rwp_show_integer f k z r s s0 Q p :
  at_state r s p -> counter_of r k = Some z -> (z < LONG_MAX)%Z ->
  format (f +:+ nl) [AInt (z + 1)] = Some s0 ->
  (forall p', at_state (<[k := VStr (dec_string (z + 1))]> r) (s +:+ s0) p' -> Q tt p') ->
  rwp (show_integer f ["INCR"; k]) Q p.
Proof.
  intros Hp Hk Hz Hf HQ. apply rwp_bind. eapply rwp_command; [done|by apply (doc_incr r k z)|].
  intros rep r' p' Hd' Hp'. inversion Hd' as [| | |? ? z' Hz'| | | |]; subst.
  assert (z' = z) as -> by congruence. apply rwp_bind. eapply rwp_printf; done.
Qed.

Lemma rwp_push n j r l s p :
  at_state r s p -> list_of r "mylist" = Some l ->
  rwp (push_elements n j)
    (fun _ p' => exists r', at_state r' s p' /\ list_of r' "mylist" = Some (pushed n j l)
       /\ delete "mylist" r' = delete "mylist" r) p.
Proof.
  revert j r l p. induction n as [|n IH]; intros j r l p Hp Hl; simpl; [by exists r|].
  apply rwp_bind. eapply rwp_send; [done|by apply doc_lpush| |].
  { intros rep r' Hd. inversion Hd as [| | | | |? ? ? l' Hl'| |]; subst.
    rewrite Hl in Hl'. injection Hl' as <-. reflexivity. }
  intros p' Hp'. eapply rwp_mono; [eapply IH; [exact Hp'|]|].
  - unfold list_of. by rewrite lookup_insert_eq.
  - intros _ p2 (r' & Ha & Hl' & Hd). exists r'. split; [done|]. split; [done|].
    by rewrite Hd, delete_insert_eq.
Qed.

Lemma rwp_show_elements l j r s p :
  at_state r s p -> Forall (fun e => no_nul e = true) l ->
  rwp (show_elements (List.map RString l) j) (fun _ => at_state r (s +:+ shown l j)) p.
Proof.
  revert j s p. induction l as [|e l IH]; intros j s p Hp Hl; simpl.
  - by rewrite string_app_nil_r.
  - inversion Hl as [|? ? He Hl']; subst. apply rwp_bind. unfold rwp at 1. simpl.
    rewrite cstr_id by done. apply rwp_bind.
    eapply rwp_printf; [done| |intros p' Hp'; eapply rwp_mono; [by apply IH|]].
    + instantiate (1 := dec_string j +:+ ") " +:+ e +:+ nl). rewrite <- !(pad_dec_0 j). reflexivity.
    + intros [] p2. by rewrite <- !string_app_assoc.
Qed.

Lemma counter_of_insert k z r :
  is_long z -> counter_of (<[k := VStr (dec_string z)]> r) k = Some z.
Proof.
  intros Hz. unfold counter_of. by rewrite lookup_insert_eq, strtol_dec_string, streq_refl.
Qed.

Lemma format_incr z : format ("INCR counter: %ld" +:+ nl) [AInt z] = Some ("INCR counter: " +:+ dec_string z +:+ nl).
Proof. rewrite <- !(pad_dec_0 z). reflexivity. Qed.

(** What the example prints when the counter was [z]. *)
Definition example_text (z : Z) : string :=
  "PING: PONG" +:+ nl +:+ "SET: OK" +:+ nl +:+ "SET (binary API): OK" +:+ nl
  +:+ "GET foo: hello world" +:+ nl
  +:+ "INCR counter: " +:+ dec_string (z + 1) +:+ nl
  +:+ "INCR counter: " +:+ dec_string (z + 2) +:+ nl
  +:+ shown (pushed 10 0 []) 0.

(** The keys it leaves, apart from the list. *)
Definition example_keys (z : Z) (r : gmap string rval) : gmap string rval :=
  <["counter" := VStr (dec_string (z + 2))]>
    (<["bar" := VStr "hello"]> (<["foo" := VStr "hello world"]> r)).

Ltac doc_inv := intros ? ? Hdoc; inversion Hdoc; subst; auto.

Ltac next q Hq := clear q Hq; intros q Hq; apply rwp_bind.

(** From the list on, in a state with any keys. *)
Definition example_end : R W Z :=
  send ["DEL"; "mylist"] ;;; push_elements 10 0 ;;; show_list ;;; redisFree ;;; rret 0%Z.

Lemma example_end_runs r s p :
  at_state r s p ->
  rwp example_end (fun a p' => a = 0%Z /\ rp_ctx p' = None
    /\ rp_out p' = s +:+ shown (pushed 10 0 []) 0
    /\ list_of (keys (rp_world p')) "mylist" = Some (pushed 10 0 [])
    /\ delete "mylist" (keys (rp_world p')) = delete "mylist" r) p.
Proof.
  intros Hp. apply rwp_bind. eapply rwp_send; [exact Hp|apply (doc_del _ _ 0)|doc_inv|].
  next p Hp. eapply rwp_mono; [eapply rwp_push; [exact Hp|]|].
  { unfold list_of. by rewrite lookup_delete_eq. }
  clear p Hp; intros _ p (r' & Hp & Hl & Hr').
  apply rwp_bind, rwp_bind. eapply rwp_command; [exact Hp|by apply doc_lrange|].
  clear p Hp; intros rep r2 p Hd Hp. inversion Hd as [| | | | | |? ? l' Hl'|]; subst.
  rewrite Hl in Hl'. injection Hl' as <-.
  eapply rwp_mono; [apply rwp_show_elements; [exact Hp|by repeat constructor]|].
  clear p Hp; intros _ p (Hk & Hc & Ho).
  apply rwp_bind. unfold rwp at 1, redisFree. rewrite Hc.
  split; [done|]. split; [done|]. cbn [rp_out rp_world]. rewrite Ho, Hk. split; [done|].
  split; [done|]. by rewrite Hr', delete_delete_eq.
Qed.

Lemma example_runs z r s p :
  at_state r s p -> counter_of r "counter" = Some z -> (0 <= z)%Z -> (z + 2 <= LONG_MAX)%Z ->
  rwp (show_str "PING: %s" ["PING"] ;;;
       show_str "SET: %s" ["SET"; "foo"; "hello world"] ;;;
       show_str "SET (binary API): %s" ["SET"; "bar"; "hello"] ;;;
       show_str "GET foo: %s" ["GET"; "foo"] ;;;
       show_integer "INCR counter: %ld" ["INCR"; "counter"] ;;;
       show_integer "INCR counter: %ld" ["INCR"; "counter"] ;;;
       example_end)
    (fun a p' => a = 0%Z /\ rp_ctx p' = None /\ rp_out p' = s +:+ example_text z
       /\ list_of (keys (rp_world p')) "mylist" = Some (pushed 10 0 [])
       /\ delete "mylist" (keys (rp_world p')) = delete "mylist" (example_keys z r)) p.
Proof.
  intros Hp Hz Hz0 Hz1.
  apply rwp_bind. eapply (rwp_show_str _ _ _ "PONG"); [exact Hp|apply doc_ping; auto|doc_inv|reflexivity|].
  next p Hp. eapply (rwp_show_str _ _ _ "OK"); [exact Hp|apply doc_set|doc_inv|reflexivity|].
  next p Hp. eapply (rwp_show_str _ _ _ "OK"); [exact Hp|apply doc_set|doc_inv|reflexivity|].
  next p Hp. eapply (rwp_show_str _ _ _ "hello world");
    [exact Hp|apply doc_get; by simplify_map_eq
    |intros ? ? Hdoc; inversion Hdoc; simplify_map_eq; auto|reflexivity|].
  next p Hp. eapply (rwp_show_integer _ _ z); [exact Hp| |lia|apply format_incr|].
  { unfold counter_of in *. by rewrite !lookup_insert_ne by done. }
  next p Hp. eapply (rwp_show_integer _ _ (z + 1)); [exact Hp| |lia|apply format_incr|].
  { apply counter_of_insert. unfold is_long, LONG_MIN in *. lia. }
  clear p Hp; intros p Hp. eapply rwp_mono; [by apply example_end_runs|].
  replace (z + 1 + 1)%Z with (z + 2)%Z by lia. rewrite insert_insert_eq.
  intros a p' (-> & Hc & Ho & Hl & Hk). split; [done|]. split; [done|]. split; [|done].
  rewrite Ho. unfold example_text. by rewrite <- !string_app_assoc.
Qed.

(** The example against a server that is up: it ends with 0 after printing the
    replies, the two numbers after the counter and the ten elements, last one
    first; the context is closed. *)
Theorem redis_example_runs argv z p :
  rp_ctx p = None -> counter_of (keys (rp_world p)) "counter" = Some z ->
  (0 <= z)%Z -> (z + 2 <= LONG_MAX)%Z ->
  exists p', redis_example argv p = Some (0%Z, p')
    /\ rp_ctx p' = None
    /\ rp_out p' = rp_out p +:+ example_text z
    /\ list_of (keys (rp_world p')) "mylist" = Some (pushed 10 0 [])
    /\ delete "mylist" (keys (rp_world p')) = delete "mylist" (example_keys z (keys (rp_world p))).
Proof.
  intros Hctx Hz Hz0 Hz1.
  pose proof (example_runs z _ _ (mkRproc (rp_world p) (Some false) (rp_out p))
    ltac:(split; [done|split; done]) Hz Hz0 Hz1) as Hrun.
  unfold redis_example, rbind at 1, redisConnect. rewrite up_connect.
  unfold rwp in Hrun. unfold example_end in Hrun.
  match type of Hrun with match ?m with _ => _ end => destruct m as [[a p']|] end; [|done].
  destruct Hrun as (-> & Hrun). by exists p'.
Qed.

Lemma rwp_hset k f v r h s Q p :
  at_state r s p -> hash_of r k = Some h ->
  (forall p', at_state (<[k := VHash (<[f := v]> h)]> r) s p' -> Q tt p') ->
  rwp (send ["hset"; k; f; v]) Q p.
Proof.
  intros Hp Hh HQ. eapply rwp_send; [exact Hp|by apply doc_hset| |exact HQ].
  intros rep r' Hd. inversion Hd as [| | | | | | |? ? ? ? h' Hh']; subst. congruence.
Qed.

Lemma hash_of_insert k h r : hash_of (<[k := VHash h]> r) k = Some h.
Proof. unfold hash_of. by rewrite lookup_insert_eq. Qed.

Lemma myredis_sends r h s p :
  at_state r s p -> hash_of r "user" = Some h ->
  rwp (send ["ping"] ;;; send ["hset"; "user"; "name"; "kevin"] ;;;
       send ["hset"; "user"; "age"; "34"] ;;; send ["hset"; "user"; "passwd"; "123abc"] ;;;
       redisFree ;;; rret 0%Z)
    (fun a p' => a = 0%Z /\ rp_ctx p' = None /\ rp_out p' = s
       /\ keys (rp_world p') = <["user" := VHash (<["passwd" := "123abc"]>
         (<["age" := "34"]> (<["name" := "kevin"]> h)))]> r) p.
Proof.
  intros Hp Hh. apply rwp_bind. eapply rwp_send; [exact Hp|apply doc_ping; auto|doc_inv|].
  next p Hp. eapply rwp_hset; [exact Hp|exact Hh|].
  next p Hp. eapply rwp_hset; [exact Hp|apply hash_of_insert|].
  next p Hp. eapply rwp_hset; [exact Hp|apply hash_of_insert|].
  next p Hp. destruct Hp as (Hk & Hc & Ho). unfold rwp at 1, redisFree. rewrite Hc.
  split; [done|]. split; [done|]. split; [done|]. simpl. rewrite Hk. by rewrite !insert_insert_eq.
Qed.

(** myredis against a server that is up: the three fields are in the hash. *)
Theorem myredis_runs a0 port more p h :
  rp_ctx p = None -> hash_of (keys (rp_world p)) "user" = Some h ->
  exists p', myredis (a0 :: port :: more) p = Some (0%Z, p')
    /\ rp_ctx p' = None /\ rp_out p' = rp_out p
    /\ keys (rp_world p') = <["user" := VHash (<["passwd" := "123abc"]>
         (<["age" := "34"]> (<["name" := "kevin"]> h)))]> (keys (rp_world p)).
Proof.
  intros Hctx Hh.
  pose proof (myredis_sends _ h (rp_out p) (mkRproc (rp_world p) (Some false) (rp_out p))
    ltac:(split; [done|split; done]) Hh) as Hrun.
  unfold myredis, rbind at 1, redisConnect. rewrite up_connect. unfold rwp in Hrun.
  match type of Hrun with match ?m with _ => _ end => destruct m as [[a p']|] end; [|done].
  destruct Hrun as (-> & Hrun). by exists p'.
Qed.
End Specs.

(** ** Servers to run against *)

(** A server that is up, on its keys alone. *)
Definition mini_command (argv : list string) (r : gmap string rval) : option reply * gmap string rval :=
  let error := (Some (RError "ERR"), r) in
  match argv with
  | [_] => (Some (RStatus "PONG"), r)
  | [c; k] =>
      if streq c "GET" then
        (Some (match r !! k with Some (VStr v) => RString v | _ => RNil end), r)
      else if streq c "INCR" then
        match counter_of r k with
        | Some z => (Some (RInteger (z + 1)), <[k := VStr (dec_string (z + 1))]> r)
        | None => error
        end
      else (Some (RInteger (if r !! k then 1 else 0)), delete k r)
  | [c; k; v] =>
      if streq c "SET" then (Some (RStatus "OK"), <[k := VStr v]> r)
      else match list_of r k with
           | Some l => (Some (RInteger (1 + Z.of_nat (length l))), <[k := VList (v :: l)]> r)
           | None => error
           end
  | [c; k; f; v] =>
      if streq c "hset" then
        match hash_of r k with
        | Some h => (Some (RInteger (if decide (f ∈ dom h) then 0 else 1)), <[k := VHash (<[f := v]> h)]> r)
        | None => error
        end
      else match list_of r k with
           | Some l => (Some (RArray (List.map RString l)), r)
           | None => error
           end
  | _ => error
  end.

#[export] Instance mini : RedisServer (gmap string rval) := {
  rconnect _ _ _ := RcOk;
  rcommand := mini_command;
  keys r := r }.

#[export] Instance mini_up : RedisUp (gmap string rval).
Proof.
  split; [done|]. intros argv r rep0 r0 Hd. simpl in *.
  destruct Hd; simpl;
    repeat match goal with Hx : _ = Some _ |- _ => rewrite Hx end;
    eexists _, _; (split; [reflexivity|]); by econstructor.
Qed.

Example redis_example_output :
  option_map (fun '(a, p) => (a, rp_out p)) (redis_example ["redis_example"] (mkRproc ∅ None EmptyString))
  = Some (0%Z, example_text 0).
Proof. vm_compute. reflexivity. Qed.

(** A server that refuses connections, and one that hangs up at once. *)
Definition refused : RedisServer unit :=
  {| rconnect _ _ _ := RcErr "Connection refused"; rcommand _ w := (None, w); keys _ := ∅ |}.
Definition hangs_up : RedisServer unit :=
  {| rconnect _ _ _ := RcOk; rcommand _ w := (None, w); keys _ := ∅ |}.

(** Defects: without an argument, myredis prints a NULL string; it does not look
    at the error flag of the context, so that it ends with 0 although nothing
    was stored; redis_example uses replies without a test, and is undefined
    when the connection is lost. *)
Theorem redis_demo_defects :
  @myredis _ refused ["myredis"] (mkRproc tt None EmptyString) = None
  /\ @myredis _ refused ["myredis"; "6379"] (mkRproc tt None EmptyString)
     = Some (0%Z, mkRproc tt None EmptyString)
  /\ @redis_example _ hangs_up ["redis_example"] (mkRproc tt None EmptyString) = None.
Proof. vm_compute. auto. Qed.
