(* ===== verification/MakeLog.v ===== *)
(** * Log files (src/src/common/make_log.c)

    [dumpmsg_to_file] builds a message, makes the directory of the month and
    appends the line to the file of the day.  The file system is its directories
    and the contents of the log files, by the components of their paths; which
    calls of the system succeed is a parameter ([sys]).  [None] is undefined
    behaviour: a message or a path that does not fit its buffer.

    The programs' [LOG] (CProg.v) leaves the file system out: [log_abstraction]
    shows that it crashes exactly when this code does. *)

From S2P Require Import Prelude CLib UtilCgi Sql Tables CProg.

(** [struct tm] as [localtime] fills it. *)
Record tm := mkTm {
  tm_year : Z; tm_mon : Z; tm_mday : Z; tm_hour : Z; tm_min : Z; tm_sec : Z }.

(** ** The file system *)

Definition path := list string.

Record fs := mkFs { fs_dirs : gset path; fs_logs : gmap path string }.

(** What the system allows: making a directory, opening a file, the number of
    bytes a [write] puts into a file. *)
Record sys := mkSys { mkdir_ok : string -> bool; open_ok : string -> bool; written : string -> nat }.

(** The components of a path: the texts between the slashes, empty ones left out. *)
Definition flush (cur : string) : path := if streq cur EmptyString then [] else [cur].
Fixpoint split_path (s cur : string) : path :=
  match s with
  | EmptyString => flush cur
  | String c s' =>
      if Ascii.eqb c "/" then flush cur ++ split_path s' EmptyString
      else split_path s' (cur +:+ String c EmptyString)
  end.
Definition components (s : string) : path := split_path s EmptyString.

Definition parent (p : path) : path := removelast p.

(** [access (p, 0) != -1]. *)
Definition access (p : string) (s : fs) : bool := bool_decide (components p ∈ fs_dirs s).

(** [mkdir (p, 0777)]: [None] for -1. *)
Definition mkdir (y : sys) (p : string) (s : fs) : option fs :=
  let c := components p in
  if mkdir_ok y p && bool_decide (parent c ∈ fs_dirs s) && negb (bool_decide (c ∈ fs_dirs s))
  then Some (mkFs ({[c]} ∪ fs_dirs s) (fs_logs s)) else None.

(** [mkdir] one after the other up to the first failure, which only writes a
    message to stderr. *)
Fixpoint mkdirs (y : sys) (ds : list string) (s : fs) : fs :=
  match ds with
  | [] => s
  | d :: ds => match mkdir y d s with Some s' => mkdirs y ds s' | None => s end
  end.

(** The first missing directory and all below it are made. *)
Fixpoint ensure (y : sys) (ds : list string) (s : fs) : fs :=
  match ds with
  | [] => s
  | d :: rest => if access d s then ensure y rest s else mkdirs y ds s
  end.

(** ** The functions *)

(** [sprintf] into a buffer of [cap] bytes, [snprintf] with size [cap]. *)
Definition sprintf_opt (cap : Z) (f : string) (args : list arg) : option string :=
  match format f args with
  | Some s => if (slen s <? cap)%Z then Some s else None
  | None => None
  end.
Definition snprintf (cap : nat) (f : string) (args : list arg) : option string :=
  option_map (stake (cap - 1)) (format f args).

(** The path of the day's file, and the directories made. *)
Definition make_path (y : sys) (now : tm) (module_name proc_name : string) (s : fs)
    : option (string * fs) :=
  let top_dir := ".." in
  let second_dir := "../logs" in
  match snprintf 1024 "../logs/%s/%04d/%02d/%s-%02d.log"
          [AStr module_name; AInt (tm_year now + 1900); AInt (tm_mon now + 1);
           AStr proc_name; AInt (tm_mday now)],
        sprintf_opt 1024 "%s/%s" [AStr second_dir; AStr module_name] with
  | Some p, Some third_dir =>
      match sprintf_opt 1024 "%s/%04d/" [AStr third_dir; AInt (tm_year now + 1900)] with
      | Some y_dir =>
          match sprintf_opt 1024 "%s/%02d/" [AStr y_dir; AInt (tm_mon now + 1)] with
          | Some m_dir => Some (p, ensure y [top_dir; second_dir; third_dir; y_dir; m_dir] s)
          | None => None
          end
      | None => None
      end
  | _, _ => None
  end.

(** [open] with O_CREAT and O_APPEND, then [write]; nothing when [open] fails. *)
Definition out_put_file (y : sys) (p buf : string) (s : fs) : fs :=
  let c := components p in
  if open_ok y p && bool_decide (parent c ∈ fs_dirs s)
  then mkFs (fs_dirs s)
         (<[c := default EmptyString (fs_logs s !! c) +:+ stake (written y p) buf]> (fs_logs s))
  else s.

(** The clock is read for the message ([now]) and again for the path ([now']). *)
Definition dumpmsg_to_file (y : sys) (now now' : tm) (module_name proc_name filename : string)
    (line : Z) (fmt : string) (args : list arg) (s : fs) : option fs :=
  match sprintf_opt 4096 fmt args with
  | None => None
  | Some mesg =>
      match snprintf 4096 "[%04d-%02d-%02d %02d:%02d:%02d]--[%s:%d]--%s"
              [AInt (tm_year now + 1900); AInt (tm_mon now + 1); AInt (tm_mday now);
               AInt (tm_hour now); AInt (tm_min now); AInt (tm_sec now);
               AStr filename; AInt line; AStr mesg] with
      | None => None
      | Some buf =>
          match make_path y now' module_name proc_name s with
          | None => None
          | Some (filepath, s') => Some (out_put_file y filepath buf s')
          end
      end
  end.

(** ** Paths *)

Definition no_slash (s : string) : bool := sforall (fun c => negb (Ascii.eqb c "/")) s.
Definition is_name (s : string) : bool := negb (streq s EmptyString) && no_slash s.

Lemma split_name w s cur : no_slash w = true -> split_path (w +:+ s) cur = split_path s (cur +:+ w).
Proof.
  revert cur. induction w as [|c w IH]; intros cur Hw; [by rewrite string_app_nil_r|].
  unfold no_slash in Hw. cbn [sforall] in Hw. apply andb_prop in Hw as [Hc Hw].
  change (String c w +:+ s) with (String c (w +:+ s)). cbn [split_path].
  destruct (Ascii.eqb c "/"); [done|]. rewrite IH by exact Hw.
  f_equal. symmetry. apply (string_app_assoc cur (String c EmptyString) w).
Qed.

Lemma flush_name w : is_name w = true -> flush w = [w].
Proof. intros [H _]%andb_prop. unfold flush. by destruct (streq w EmptyString). Qed.

Lemma is_name_slash w : is_name w = true -> no_slash w = true.
Proof. by intros [_ H]%andb_prop. Qed.

Lemma is_name_app a b : is_name a = true -> no_slash b = true -> is_name (a +:+ b) = true.
Proof.
  intros [H1 H2]%andb_prop Hb. apply andb_true_intro. split; [by destruct a|].
  unfold no_slash in *. by rewrite sforall_app, H2, Hb.
Qed.

Lemma dec_string_name z : (0 <= z)%Z -> is_name (dec_string z) = true.
Proof.
  intros Hz. unfold dec_string. destruct (Z.ltb_spec z 0); [lia|]. apply andb_true_intro. split.
  - unfold dec_fuel. destruct (dec_digits_head (Z.to_nat (Z.log2 z)) z EmptyString) as (d & s & -> & _). done.
  - eapply sforall_impl; [|by apply dec_digits_isdigit].
    intros c Hc. by destruct (Ascii.eqb_spec c "/") as [->|].
Qed.

Lemma pad_dec_name w z : (0 <= z)%Z -> is_name (pad_dec w z) = true.
Proof.
  intros Hz. unfold pad_dec. destruct (Z.ltb_spec z 0); [lia|].
  pose proof (dec_string_name z Hz) as Hn. set (k := (w - _)%nat). clearbody k.
  induction k as [|k IH]; [done|]. apply andb_prop in IH as [_ IH]. apply andb_true_intro.
  split; [done|]. exact IH.
Qed.

Lemma slen_pad_dec w z : (0 <= z)%Z -> is_long z -> (slen (pad_dec w z) <= 20 + Z.of_nat w)%Z.
Proof.
  intros Hz Hl. unfold pad_dec. destruct (Z.ltb_spec z 0); [lia|].
  rewrite slen_app, slen_zeros. pose proof (dec_string_long z Hl). lia.
Qed.

(** ** Directories *)

(** The parent of a directory is a directory; the working directory is one. *)
Definition closed_dirs (s : fs) : Prop :=
  [] ∈ fs_dirs s /\ forall p x, p ++ [x] ∈ fs_dirs s -> p ∈ fs_dirs s.

(** Every path is the one before it with one more component. *)
Fixpoint chain (p : path) (ds : list string) : Prop :=
  match ds with
  | [] => True
  | d :: ds => (exists x, components d = p ++ [x]) /\ chain (components d) ds
  end.

Definition last_dir (p : path) (ds : list string) : path :=
  fold_left (fun _ d => components d) ds p.

Definition all_ok (y : sys) : Prop := forall p, mkdir_ok y p = true /\ open_ok y p = true.

Lemma closed_add s p x :
  closed_dirs s -> p ∈ fs_dirs s -> closed_dirs (mkFs ({[p ++ [x]]} ∪ fs_dirs s) (fs_logs s)).
Proof.
  intros [Hn Hc] Hp. split; cbn [fs_dirs]; [set_solver|].
  intros q z [Hq|Hq]%elem_of_union.
  - apply elem_of_singleton, app_inj_tail in Hq as [-> _]. set_solver.
  - apply elem_of_union. right. by eapply Hc.
Qed.

(** Nothing is below a missing directory, so every [mkdir] succeeds. *)
Lemma mkdirs_chain y ds p s :
  all_ok y -> closed_dirs s -> p ∈ fs_dirs s -> chain p ds ->
  match ds with [] => True | d :: _ => components d ∉ fs_dirs s end ->
  let s' := mkdirs y ds s in
  last_dir p ds ∈ fs_dirs s' /\ closed_dirs s' /\ fs_logs s' = fs_logs s.
Proof.
  intros Hok. revert p s. induction ds as [|d ds IH]; intros p s Hc Hp Hch Hm; [done|].
  destruct Hch as [[x Hx] Hch]. cbn [mkdirs last_dir fold_left]. unfold mkdir. rewrite Hx in *.
  unfold parent. rewrite removelast_last. rewrite (proj1 (Hok d)), !bool_decide_true by done.
  rewrite bool_decide_false by done. cbn [andb negb].
  apply (IH (p ++ [x]) (mkFs ({[p ++ [x]]} ∪ fs_dirs s) (fs_logs s)));
    [by apply closed_add|cbn [fs_dirs]; by apply elem_of_union_l, elem_of_singleton|done|].
  destruct ds as [|d' ds]; [done|]. destruct Hch as [[z Hz] _]. rewrite Hz. cbn [fs_dirs].
  intros [H|H]%elem_of_union; [|by apply Hm; eapply Hc].
  apply elem_of_singleton in H. rewrite <- (app_nil_r (p ++ [x])) in H at 2.
  by apply app_inv_head in H.
Qed.

Lemma ensure_chain y ds p s :
  all_ok y -> closed_dirs s -> p ∈ fs_dirs s -> chain p ds ->
  let s' := ensure y ds s in
  last_dir p ds ∈ fs_dirs s' /\ closed_dirs s' /\ fs_logs s' = fs_logs s.
Proof.
  intros Hok. revert p. induction ds as [|d ds IH]; intros p Hc Hp Hch; [done|]. cbn [ensure].
  unfold access. case_bool_decide as Hd.
  - apply (IH (components d)); [done..|]. apply Hch.
  - by apply (mkdirs_chain y (d :: ds) p s).
Qed.

(** ** The path of the day *)

Definition tm_ok (now : tm) : Prop :=
  (0 <= tm_year now <= 8099)%Z /\ (0 <= tm_mon now <= 11)%Z /\ (1 <= tm_mday now <= 31)%Z
  /\ (0 <= tm_hour now <= 23)%Z /\ (0 <= tm_min now <= 59)%Z /\ (0 <= tm_sec now <= 60)%Z.

Definition names_short (module_name proc_name : string) : Prop :=
  is_name module_name = true /\ is_name proc_name = true
  /\ (slen module_name < 128)%Z /\ (slen proc_name < 128)%Z.

(** ../logs/MODULE/YYYY/MM/PROC-DD.log *)
Definition month_dir (now : tm) (module_name : string) : path :=
  [".."; "logs"; module_name; pad_dec 4 (tm_year now + 1900); pad_dec 2 (tm_mon now + 1)].
Definition day_file (now : tm) (module_name proc_name : string) : path :=
  month_dir now module_name ++ [proc_name +:+ "-" +:+ pad_dec 2 (tm_mday now) +:+ ".log"].

Ltac format_cbn :=
  unfold format;
  match goal with |- context [pieces_of ?f] =>
    let p := eval vm_compute in (pieces_of f) in change (pieces_of f) with p
  end; cbn [render option_map].

Lemma format_day m y mo p d :
  format "../logs/%s/%04d/%02d/%s-%02d.log" [AStr m; AInt y; AInt mo; AStr p; AInt d]
  = Some ("../logs/" +:+ m +:+ "/" +:+ pad_dec 4 y +:+ "/" +:+ pad_dec 2 mo +:+ "/"
          +:+ p +:+ "-" +:+ pad_dec 2 d +:+ ".log").
Proof. by format_cbn. Qed.

Lemma format_slash a b : format "%s/%s" [AStr a; AStr b] = Some (a +:+ "/" +:+ b).
Proof. format_cbn. by rewrite string_app_nil_r. Qed.

Lemma format_year a y : format "%s/%04d/" [AStr a; AInt y] = Some (a +:+ "/" +:+ pad_dec 4 y +:+ "/").
Proof. by format_cbn. Qed.

Lemma format_month a y : format "%s/%02d/" [AStr a; AInt y] = Some (a +:+ "/" +:+ pad_dec 2 y +:+ "/").
Proof. by format_cbn. Qed.

(** A name up to a slash, and at the end. *)
Lemma split_dir w s : is_name w = true -> split_path (w +:+ "/" +:+ s) EmptyString = w :: split_path s EmptyString.
Proof.
  intros Hw. rewrite split_name by by apply is_name_slash. rewrite string_app_nil_l.
  change ("/" +:+ s) with (String "/" s). cbn [split_path]. rewrite Ascii.eqb_refl.
  by rewrite flush_name.
Qed.

Lemma split_dir_end w : is_name w = true -> split_path (w +:+ "/") EmptyString = [w].
Proof. intros Hw. exact (split_dir w EmptyString Hw). Qed.

Lemma split_slash s : split_path ("/" +:+ s) EmptyString = split_path s EmptyString.
Proof. reflexivity. Qed.

Lemma split_last w : is_name w = true -> split_path w EmptyString = [w].
Proof.
  intros Hw. rewrite <- (string_app_nil_r w) at 1. rewrite split_name by by apply is_name_slash.
  rewrite string_app_nil_l. cbn [split_path]. by apply flush_name.
Qed.

Lemma split_logs s : split_path ("../logs/" +:+ s) EmptyString = ".." :: "logs" :: split_path s EmptyString.
Proof. reflexivity. Qed.

(** The directories of [make_path], and that they fit their buffers. *)
Definition third_dir (m : string) : string := "../logs/" +:+ m.
Definition year_dir (now : tm) (m : string) : string :=
  third_dir m +:+ "/" +:+ pad_dec 4 (tm_year now + 1900) +:+ "/".
Definition mon_dir (now : tm) (m : string) : string :=
  year_dir now m +:+ "/" +:+ pad_dec 2 (tm_mon now + 1) +:+ "/".
Definition day_path (now : tm) (m p : string) : string :=
  "../logs/" +:+ m +:+ "/" +:+ pad_dec 4 (tm_year now + 1900) +:+ "/" +:+ pad_dec 2 (tm_mon now + 1)
  +:+ "/" +:+ p +:+ "-" +:+ pad_dec 2 (tm_mday now) +:+ ".log".

Lemma make_path_eq y now m p s :
  tm_ok now -> names_short m p ->
  make_path y now m p s
  = Some (day_path now m p, ensure y [".."; "../logs"; third_dir m; year_dir now m; mon_dir now m] s).
Proof.
  intros (H1 & H2 & H3 & _) (_ & _ & Hm & Hp). unfold make_path, snprintf, sprintf_opt.
  assert (forall w z, (0 <= z <= 9999)%Z -> (slen (pad_dec w z) <= 20 + Z.of_nat w)%Z) as Hpad.
  { intros w z Hz. apply slen_pad_dec; [lia|]. unfold is_long, LONG_MIN, LONG_MAX. lia. }
  pose proof (Hpad 4%nat (tm_year now + 1900)%Z ltac:(lia)) as P1.
  pose proof (Hpad 2%nat (tm_mon now + 1)%Z ltac:(lia)) as P2.
  pose proof (Hpad 2%nat (tm_mday now)%Z ltac:(lia)) as P3.
  rewrite format_day, format_slash. cbn [option_map].
  assert (slen (day_path now m p) < 1023)%Z as Hd.
  { unfold day_path. rewrite !slen_app. change (slen "../logs/") with 8%Z. change (slen "/") with 1%Z.
    change (slen "-") with 1%Z. change (slen ".log") with 4%Z. lia. }
  change ("../logs" +:+ "/" +:+ m) with (third_dir m).
  assert (slen (third_dir m) = 8 + slen m)%Z as E3 by apply slen_app.
  destruct (Z.ltb_spec (slen (third_dir m)) 1024); [|lia]. rewrite format_year.
  fold (year_dir now m).
  assert (slen (year_dir now m) = slen (third_dir m) + 2 + slen (pad_dec 4 (tm_year now + 1900)))%Z as Ey.
  { unfold year_dir. rewrite !slen_app. change (slen "/") with 1%Z. lia. }
  destruct (Z.ltb_spec (slen (year_dir now m)) 1024); [|lia]. rewrite format_month.
  fold (mon_dir now m).
  assert (slen (mon_dir now m) = slen (year_dir now m) + 2 + slen (pad_dec 2 (tm_mon now + 1)))%Z as Em.
  { unfold mon_dir. rewrite !slen_app. change (slen "/") with 1%Z. lia. }
  destruct (Z.ltb_spec (slen (mon_dir now m)) 1024); [|lia].
  fold (day_path now m p). rewrite stake_all; [done|]. unfold slen in Hd. lia.
Qed.

Lemma path_components now m p :
  tm_ok now -> names_short m p ->
  components (third_dir m) = [".."; "logs"; m]
  /\ components (year_dir now m) = [".."; "logs"; m; pad_dec 4 (tm_year now + 1900)]
  /\ components (mon_dir now m) = month_dir now m
  /\ components (day_path now m p) = day_file now m p.
Proof.
  intros (H1 & H2 & H3 & _) (Hm & Hp & _).
  assert (is_name (pad_dec 4 (tm_year now + 1900)) = true) as N1 by (apply pad_dec_name; lia).
  assert (is_name (pad_dec 2 (tm_mon now + 1)) = true) as N2 by (apply pad_dec_name; lia).
  assert (no_slash (pad_dec 2 (tm_mday now)) = true) as N3
    by (apply is_name_slash, pad_dec_name; lia).
  unfold components, mon_dir, year_dir, third_dir, day_path, day_file, month_dir.
  rewrite <- !string_app_assoc. rewrite !split_logs. split_and!.
  - by rewrite split_last.
  - by rewrite split_dir, split_dir_end.
  - by rewrite !split_dir, split_slash, split_dir_end.
  - rewrite !split_dir by done. cbn [app]. do 5 f_equal. apply split_last.
    apply is_name_app; [done|]. unfold no_slash in *. rewrite !sforall_app, N3. done.
Qed.

(** ** Theorems *)

(** The line: time, place, message. *)
Definition log_line (now : tm) (file : string) (line : Z) (mesg : string) : string :=
  "[" +:+ pad_dec 4 (tm_year now + 1900) +:+ "-" +:+ pad_dec 2 (tm_mon now + 1) +:+ "-"
  +:+ pad_dec 2 (tm_mday now) +:+ " " +:+ pad_dec 2 (tm_hour now) +:+ ":" +:+ pad_dec 2 (tm_min now)
  +:+ ":" +:+ pad_dec 2 (tm_sec now) +:+ "]--[" +:+ file +:+ ":" +:+ dec_string line +:+ "]--" +:+ mesg.

Lemma format_line now file line mesg :
  format "[%04d-%02d-%02d %02d:%02d:%02d]--[%s:%d]--%s"
    [AInt (tm_year now + 1900); AInt (tm_mon now + 1); AInt (tm_mday now);
     AInt (tm_hour now); AInt (tm_min now); AInt (tm_sec now); AStr file; AInt line; AStr mesg]
  = Some (log_line now file line mesg).
Proof. format_cbn. by rewrite string_app_nil_r, pad_dec_0. Qed.

Lemma dumpmsg_eq y now now' m p file line fmt args s :
  tm_ok now' -> names_short m p ->
  dumpmsg_to_file y now now' m p file line fmt args s
  = match sprintf_opt 4096 fmt args with
    | None => None
    | Some mesg =>
        Some (out_put_file y (day_path now' m p) (stake 4095 (log_line now file line mesg))
          (ensure y [".."; "../logs"; third_dir m; year_dir now' m; mon_dir now' m] s))
    end.
Proof.
  intros Ht Hn. unfold dumpmsg_to_file. destruct (sprintf_opt 4096 fmt args) as [mesg|]; [|done].
  unfold snprintf. rewrite format_line. cbn [option_map]. by rewrite make_path_eq.
Qed.

(** A message reaches its file: whatever directories exist, when the calls of
    the system succeed the directories of the day are there afterwards, the line
    (cut to 4095 bytes) is at the end of the file
    ../logs/MODULE/YYYY/MM/PROC-DD.log, and no other file is changed. *)
Theorem log_appended (y : sys) (now now' : tm) (m p file : string) (line : Z)
    (fmt : string) (args : list arg) (mesg : string) (s : fs) :
  all_ok y -> (forall q, 4096 <= written y q) -> closed_dirs s -> tm_ok now' -> names_short m p ->
  format fmt args = Some mesg -> (slen mesg < 4096)%Z ->
  exists s', dumpmsg_to_file y now now' m p file line fmt args s = Some s'
    /\ closed_dirs s' /\ month_dir now' m ∈ fs_dirs s'
    /\ fs_logs s' = <[day_file now' m p :=
         default EmptyString (fs_logs s !! day_file now' m p)
           +:+ stake 4095 (log_line now file line mesg)]> (fs_logs s).
Proof.
  intros Hok Hw Hc Ht Hn Hf Hl. rewrite dumpmsg_eq by done. unfold sprintf_opt. rewrite Hf.
  destruct (Z.ltb_spec (slen mesg) 4096); [|lia].
  destruct (path_components now' m p Ht Hn) as (C3 & Cy & Cm & Cd).
  destruct (ensure_chain y [".."; "../logs"; third_dir m; year_dir now' m; mon_dir now' m] [] s)
    as (Hlast & Hc' & Hlogs); [done|done|apply Hc| |].
  { cbn [chain]. rewrite C3, Cy, Cm. change (components "../logs") with [".."; "logs"].
    split_and!; [by exists ".."|by exists "logs"|by exists m|by eexists|by eexists|done]. }
  set (s1 := ensure _ _ s) in *. unfold last_dir in Hlast. cbn [fold_left] in Hlast. rewrite Cm in Hlast.
  eexists. split; [reflexivity|]. unfold out_put_file. rewrite Cd.
  assert (parent (day_file now' m p) = month_dir now' m) as -> by apply removelast_last.
  rewrite (proj2 (Hok _)), bool_decide_true by done. cbn [andb fs_dirs fs_logs].
  split; [exact Hc'|]. split; [done|]. rewrite Hlogs. do 2 f_equal. apply stake_all.
  etrans; [|apply (Hw (day_path now' m p))]. rewrite stake_length. lia.
Qed.

(** The logging of the programs is the logging of make_log.c with the files left out:
    the call crashes exactly when the message overflows the buffer of
    [dumpmsg_to_file] or lacks an argument, whatever the file system does; every
    other call returns. *)
Theorem log_abstraction {X} (y : sys) (now now' : tm) (m p file : string) (line : Z)
    (fmt : string) (args : list arg) (s : fs) :
  tm_ok now' -> names_short m p ->
  (dumpmsg_to_file y now now' m p file line fmt args s = None <-> LOG0 (X := X) fmt args = Crash)
  /\ (is_Some (dumpmsg_to_file y now now' m p file line fmt args s) <-> LOG0 (X := X) fmt args = Ret tt).
Proof.
  intros Ht Hn. rewrite dumpmsg_eq by done. unfold LOG0, sprintf_opt, LOG_BUF.
  destruct (format fmt args) as [s0|]; [destruct (slen s0 <? 4096)%Z|]; split; split; intros H;
    try done; by destruct H.
Qed.

(** An empty installation on a working system. *)
Definition sys_works : sys := mkSys (fun _ => true) (fun _ => true) (fun _ => 4096).
Definition fresh_fs : fs := mkFs {[ []; [".."] ]} ∅.
Definition some_day : tm := mkTm 117 1 26 21 35 25.

Lemma fresh_closed : closed_dirs fresh_fs.
Proof.
  split; [set_solver|]. intros p x [H|H]%elem_of_union; apply elem_of_singleton in H.
  - by destruct p.
  - destruct p as [|z p]; [set_solver|]. by destruct p.
Qed.

Lemma some_day_ok : tm_ok some_day /\ names_short "cgi" "login".
Proof. done. Qed.

Lemma log_appended_witness :
  exists s', dumpmsg_to_file sys_works some_day some_day "cgi" "login" "login_cgi.c" 42 "user = %s" [AStr "bob"]
               fresh_fs = Some s'
    /\ closed_dirs s' /\ month_dir some_day "cgi" ∈ fs_dirs s'
    /\ fs_logs s' = {[ [".."; "logs"; "cgi"; "2017"; "02"; "login-26.log"]
         := "[2017-02-26 21:35:25]--[login_cgi.c:42]--user = bob" ]}.
Proof.
  apply (log_appended sys_works some_day some_day "cgi" "login" "login_cgi.c" 42 "user = %s" [AStr "bob"]
           "user = bob" fresh_fs).
  - done.
  - intros q. apply le_n.
  - apply fresh_closed.
  - apply some_day_ok.
  - apply some_day_ok.
  - vm_compute. reflexivity.
  - reflexivity.
Defined.

Lemma log_abstraction_witness :
  (dumpmsg_to_file sys_works some_day some_day "cgi" "login" "login_cgi.c" 42 "%s" [] fresh_fs = None
   <-> LOG0 (X := Empty_set) "%s" [] = Crash)
  /\ (is_Some (dumpmsg_to_file sys_works some_day some_day "cgi" "login" "login_cgi.c" 42 "%s" [] fresh_fs)
      <-> LOG0 (X := Empty_set) "%s" [] = Ret tt).
Proof.
  apply (log_abstraction sys_works some_day some_day "cgi" "login" "login_cgi.c" 42 "%s" [] fresh_fs).
  - apply some_day_ok.
  - apply some_day_ok.
Defined.
