(* ===== verification/Mysql.v ===== *)
(** * MySQL access (src/src/common/deal_mysql.c)

    [msql_conn], [process_result_one] and the two functions that write to the
    terminal, and the proof rules for the statements the CGI programs send. *)

From S2P Require Import Prelude CLib UtilCgi Sql Tables CProg.
From Stdlib Require Import Permutation.

Definition SQL_MAX_LEN : Z := 512.

(** [msql_conn]: [true] for a connection, [false] for NULL. *)
Definition msql_conn {X} (user_name passwd db_name : string) : prog X bool :=
  conn <- call MysqlInit ;;
  if negb conn then Ret false
  else
    ok <- call (MysqlRealConnect user_name passwd db_name) ;;
    if negb ok then call MysqlClose ;;; Ret false
    else Ret true.

Definition mysql_query {X} (sql_cmd : string) : prog X Z := call (MysqlQuery sql_cmd).
Definition mysql_close {X} : prog X unit := call MysqlClose.

(** [sprintf (sql_cmd, template, ...)] with [char sql_cmd[SQL_MAX_LEN]]. *)
Definition sql {X} (k : sql_kind) (args : list arg) : prog X string :=
  sprintf SQL_MAX_LEN (sql_template k) args.

(** [process_result_one (conn, sql_cmd, buf)].  [buf] is [None] for NULL, or
    the capacity and the content of the caller's buffer; the result is the
    return value and the new content. *)
Definition process_result_one {X} (sql_cmd : string) (buf : option (Z * string))
    : prog X (Z * string) :=
  let old := match buf with Some (_, s) => s | None => EmptyString end in
  r <- mysql_query sql_cmd ;;
  if negb (r =? 0)%Z then Ret (-1, old)%Z
  else
    res_set <- call MysqlStoreResult ;;
    match res_set with
    | None => Ret (-1, old)%Z
    | Some rows =>
        match rows with
        | [] => Ret (1, old)%Z
        | row :: _ =>
            match buf with
            | None => Ret (2, old)%Z
            | Some (cap, _) =>
                match row with
                | Some v :: _ => s <- strcpy cap v ;; Ret (0, s)%Z
                | None :: _ => Ret (0, old)%Z
                | [] => Crash
                end
            end
        end
    end.

(** [print_error (conn, title)]: the text on stderr. *)
Definition print_error (mysql_errno : Z) (mysql_error title : string) : string :=
  title +:+ ":" +:+ String LF EmptyString +:+ "Error " +:+ dec_string mysql_errno
  +:+ " (" +:+ mysql_error +:+ ")" +:+ String LF EmptyString.

(** The columns of a row, separated by tabs; NULL is printed as such. *)
Fixpoint print_columns (first : bool) (row : list (option string)) : string :=
  match row with
  | [] => String LF EmptyString
  | v :: row =>
      (if first then EmptyString else String TAB EmptyString)
      +:+ default "NULL" v +:+ print_columns false row
  end.

(** [process_result_test (conn, res_set)]: the texts on stdout and stderr. *)
Definition process_result_test (rows : list (list (option string))) (mysql_errno : Z) (mysql_error : string)
    : string * string :=
  let out := fold_right (fun row t => print_columns true row +:+ t) EmptyString rows in
  if negb (mysql_errno =? 0)%Z
  then (out, print_error mysql_errno mysql_error "mysql_fetch_row() failed")
  else (out +:+ dec_string (Z.of_nat (length rows)) +:+ " rows returned " +:+ String LF EmptyString, EmptyString).

Example process_result_test_sample :
  process_result_test [[Some "u"; None]; [Some "v"; Some "1"]] 0 EmptyString
  = ("u" +:+ String TAB "NULL" +:+ String LF "v" +:+ String TAB "1" +:+ String LF "2 rows returned "
     +:+ String LF EmptyString, EmptyString)
  /\ snd (process_result_test [] 2013 "Lost connection")
     = "mysql_fetch_row() failed:" +:+ String LF "Error 2013 (Lost connection)" +:+ String LF EmptyString.
Proof. split; reflexivity. Qed.

Section Rules.
Context {coll : Collation}.

Lemma wp_msql_conn {X} u p d (Q : bool -> obs -> Prop) (G : X -> obs -> Prop) o :
  (forall b, Q b (if b then add_my 1 o else o)) -> wp (msql_conn u p d) Q G o.
Proof.
  intros H. simpl. intros b o1 ->. destruct b; simpl; [|apply (H false)].
  intros ok o2 ->. destruct ok; simpl; [apply (H true)|].
  intros _ o3 ->. specialize (H false). simpl in H.
  by rewrite add_my_cancel.
Qed.

(** Building one of the SQL texts. *)
Lemma wp_sql {X} k args (Q : string -> obs -> Prop) (G : X -> obs -> Prop) o :
  sql_ok k args = true -> Forall arg_ok args ->
  (lits_len (sql_pieces k) + args_len args < SQL_MAX_LEN)%Z ->
  (forall s, parse_sql s = Some (k, args) -> (slen s < SQL_MAX_LEN)%Z -> Q s o) ->
  wp (sql k args) Q G o.
Proof. apply wp_sprintf_sql. Qed.

(** The same as an equation. *)
Lemma sql_returns {X} k args :
  sql_ok k args = true -> Forall arg_ok args ->
  (lits_len (sql_pieces k) + args_len args < SQL_MAX_LEN)%Z ->
  exists s, sql (X := X) k args = Ret s /\ parse_sql s = Some (k, args).
Proof.
  intros Hok Ha Hl. pose proof Hok as [Hf _]%andb_prop.
  destruct (format_simple _ _ args (sql_pieces_of k) Hf Ha) as (s & Hs & Hlen).
  exists s. split; [|eapply parse_render_sql; eauto].
  unfold sql, sprintf, strcpy. rewrite Hs. destruct (Z.ltb_spec (slen s) SQL_MAX_LEN); [done|lia].
Qed.

(** A statement that changes the tables: it fails and changes nothing, or
    does what [stmt_spec] says. *)
Lemma wp_query {X} s k args (Q : Z -> obs -> Prop) (G : X -> obs -> Prop) o :
  parse_sql s = Some (k, args) ->
  (forall r, (r <> 0)%Z -> Q r (with_tables (o_tables o) None o)) ->
  (forall t rs, stmt_spec k args (o_tables o) t rs -> Q 0%Z (with_tables t rs o)) ->
  wp (mysql_query s) Q G o.
Proof.
  intros Hp Hf Hs r o' Hev. simpl in Hev. rewrite Hp in Hev. simpl.
  destruct Hev as [[Hr ->]|[-> (t & rs & Hst & ->)]]; auto.
Qed.

Lemma parse_set_names : parse_sql "set names utf8" = Some (SetNames, []).
Proof. vm_compute. reflexivity. Qed.

Lemma wp_set_names {X} (Q : Z -> obs -> Prop) (G : X -> obs -> Prop) o :
  (forall r, Q r (with_tables (o_tables o) None o)) ->
  wp (mysql_query "set names utf8") Q G o.
Proof.
  intros H. eapply wp_query; [exact parse_set_names|auto|].
  intros t rs [-> ->]. auto.
Qed.

(** A SELECT whose rows start with a non-NULL column. *)
Lemma wp_select_one {X} s k args l buf (Q : Z * string -> obs -> Prop) (G : X -> obs -> Prop) o :
  parse_sql s = Some (k, args) ->
  (forall t rs, stmt_spec k args (o_tables o) t rs -> t = o_tables o /\ selects rs l) ->
  let o1 := with_tables (o_tables o) None o in
  let old := match buf with Some (_, c) => c | None => EmptyString end in
  Q (-1, old)%Z o1 ->
  (l = [] -> Q (1, old)%Z o1) ->
  match buf with
  | None => l <> [] -> Q (2, old)%Z o1
  | Some (cap, _) =>
      forall r, In r l -> exists v r', r = Some v :: r' /\ (slen v < cap)%Z /\ Q (0, v)%Z o1
  end ->
  wp (process_result_one s buf) Q G o.
Proof.
  intros Hp Hsel o1 old Hfail Hempty Hrows. unfold process_result_one. fold old.
  apply wp_bind. eapply wp_query; [exact Hp| |].
  - intros r Hr. destruct (Z.eqb_spec r 0); [done|]. exact Hfail.
  - intros t rs (-> & l' & -> & Hperm)%Hsel. simpl.
    intros res o2 [-> Hres]. fold o1. simpl in Hres.
    destruct Hres as [->| ->]; [|exact Hfail].
    destruct l' as [|r l'].
    + apply Permutation_nil in Hperm as ->. by apply Hempty.
    + destruct buf as [[cap c]|].
      * destruct (Hrows r) as (v & r' & -> & Hv & HQ).
        { eapply Permutation_in; [exact Hperm|]. simpl. auto. }
        simpl. apply wp_bind. by apply wp_strcpy.
      * apply Hrows. intros ->. by apply Permutation_sym, Permutation_nil in Hperm.
Qed.
End Rules.
