(* ===== verification/Redis.v ===== *)
(** * Redis access (src/src/common/redis_op.c over hiredis)

    [redis_argv] is the argument splitting of hiredis' [redisvFormatCommand];
    every [rop_*] wrapper is the program around [redisCommand].  A NULL reply
    is dereferenced by most wrappers: that is a crash.  The [str] field of an
    integer, array or nil reply is NULL, its [integer] field 0 for the other
    types (hiredis allocates replies zeroed). *)

From S2P Require Import Prelude CLib UtilCgi Sql Tables CProg.
From Stdlib Require Import Permutation Sorted.

Definition REDIS_COMMAND_SIZE : Z := 300.
Definition FIELD_ID_SIZE : Z := 100.
Definition VALUES_ID_SIZE : Z := 1024.

(** ** hiredis *)

(** The loop of [redisvFormatCommand]: blanks of the format separate
    arguments, conversions extend the current one. *)
Fixpoint redis_argv_loop (ps : list piece) (args : list arg) (curarg : string) (touched : bool)
    : option (list string) :=
  match ps with
  | [] => Some (if touched then [curarg] else [])
  | PLit c :: ps' =>
      if Ascii.eqb c " " then
        if touched then option_map (cons curarg) (redis_argv_loop ps' args EmptyString false)
        else redis_argv_loop ps' args curarg touched
      else redis_argv_loop ps' args (curarg +:+ String c EmptyString) true
  | PStr :: ps' =>
      match args with
      | AStr s :: args' => redis_argv_loop ps' args' (curarg +:+ s) true
      | _ => None
      end
  | PDec w :: ps' =>
      match args with
      | AInt z :: args' => redis_argv_loop ps' args' (curarg +:+ pad_dec w z) true
      | _ => None
      end
  | PHex w :: ps' =>
      match args with
      | AInt z :: args' => redis_argv_loop ps' args' (curarg +:+ pad_hex w z) true
      | _ => None
      end
  end.

Definition redis_argv (f : string) (args : list arg) : option (option (list string)) :=
  match pieces_of f with
  | None => Some None
  | Some ps => option_map Some (redis_argv_loop ps args EmptyString false)
  end.

(** [redisCommand (conn, f, ...)]: NULL for a malformed format, a crash for a
    conversion without its argument. *)
Definition redisCommand {X} (f : string) (args : list arg) : prog X (option reply) :=
  match redis_argv f args with
  | None => Crash
  | Some None => Ret None
  | Some (Some argv) => call (RedisCommand argv)
  end.

Definition reply_integer (r : reply) : Z := match r with RInteger z => z | _ => 0 end.
Definition reply_str (r : reply) : option string :=
  match r with RStatus s | RError s | RString s => Some s | _ => None end.
Definition is_integer (r : reply) : bool := match r with RInteger _ => true | _ => false end.
Definition is_string (r : reply) : bool := match r with RString _ => true | _ => false end.
Definition is_status (r : reply) : bool := match r with RStatus _ => true | _ => false end.

(** [reply->...] *)
Definition deref {X} (r : option reply) : prog X reply :=
  match r with Some r => Ret r | None => Crash end.

(** [strcmp (reply->str, "OK") != 0] *)
Definition str_is_not_OK {X} (r : reply) : prog X bool :=
  match reply_str r with Some s => Ret (negb (streq (cstr s) "OK")) | None => Crash end.

(** A pointer passed to a [%s] of the log ([glibc] prints NULL as "(null)"). *)
Definition log_str (s : option string) : arg :=
  AStr (match s with Some s => s | None => "(null)" end).

(** [conn->errstr] of a context without error. *)
Definition errstr : arg := AStr EmptyString.

(** ** Keys and databases *)

Definition rop_selectdatabase {X} (db_no : Z) : prog X Z :=
  reply <- redisCommand "select %d" [AInt db_no] ;;
  match reply with
  | None => LOG "[-][GMS_REDIS]Select database %d error!%s" [AInt db_no; errstr] ;;; Ret (-1)%Z
  | Some _ =>
      printf ("[+][GMS_REDIS]Select database %d SUCCESS!" +:+ nl) [AInt db_no] ;;;
      LOG "[+][GMS_REDIS]Select database %d SUCCESS!" [AInt db_no] ;;; Ret 0%Z
  end.

Definition rop_flush_database {X} : prog X Z :=
  reply <- redisCommand "FLUSHDB" [] ;;
  match reply with
  | None => LOG "[-][GMS_REDIS]Clear all data error" [] ;;; Ret (-1)%Z
  | Some _ =>
      printf ("[+][GMS_REDIS]Clear all data!!" +:+ nl) [] ;;;
      LOG "[+][GMS_REDIS]Clear all data!!" [] ;;; Ret 0%Z
  end.

Definition rop_is_key_exist {X} (key : string) : prog X Z :=
  reply <- redisCommand "EXISTS %s" [AStr key] ;;
  reply <- deref reply ;;
  if negb (is_integer reply)
  then LOG "[-][GMS_REDIS]is key exist get wrong type! %s" [errstr] ;;; Ret (-1)%Z
  else if (reply_integer reply =? 1)%Z then Ret 1%Z else Ret 0%Z.

Definition rop_del_key {X} (key : string) : prog X Z :=
  reply <- redisCommand "DEL %s" [AStr key] ;;
  reply <- deref reply ;;
  if negb (is_integer reply)
  then LOG "[-][GMS_REDIS] DEL key %s ERROR %s" [AStr key; errstr] ;;; Ret (-1)%Z
  else if (0 <? reply_integer reply)%Z then Ret 0%Z else Ret (-1)%Z.

(** The wrong-type branch falls through to the test of [integer]. *)
Definition rop_set_key_lifecycle {X} (key : string) (delete_time : Z) : prog X Z :=
  reply <- redisCommand "EXPIREAT %s %d" [AStr key; AInt (int32 delete_time)] ;;
  reply <- deref reply ;;
  (if negb (is_integer reply)
   then LOG "[-][GMS_REDIS]Set key:%s delete time ERROR! %s" [AStr key; errstr]
   else Ret tt) ;;;
  if (reply_integer reply =? 1)%Z then Ret 0%Z else Ret (-1)%Z.

Fixpoint show_elements {X} (l : list reply) : prog X unit :=
  match l with
  | [] => Ret tt
  | r :: l' => printf ("======[%s]======" +:+ nl) [log_str (reply_str r)] ;;; show_elements l'
  end.

Definition rop_show_keys {X} (pattern : string) : prog X unit :=
  reply <- redisCommand "keys %s" [AStr pattern] ;;
  reply <- deref reply ;;
  match reply with
  | RArray l => show_elements l
  | _ => LOG "[-][GMS_REDIS]show all keys and data wrong type! %s" [errstr]
  end.

(** The diagnostic dump of a reply's type. *)
Definition rop_test_reply_type {X} (r : reply) : prog X unit :=
  match r with
  | RStatus _ => LOG "[+][GMS_REDIS]=REDIS_REPLY_STATUS=[string] use reply->str to get data, reply->len get data len" []
  | RError _ => LOG "[+][GMS_REDIS]=REDIS_REPLY_ERROR=[string] use reply->str to get data, reply->len get date len" []
  | RInteger _ => LOG "[+][GMS_REDIS]=REDIS_REPLY_INTEGER=[long long] use reply->integer to get data" []
  | RNil => LOG "[+][GMS_REDIS]=REDIS_REPLY_NIL=[] data not exist" []
  | RArray _ => LOG "[+][GMS_REDIS]=REDIS_REPLY_ARRAY=[array] use reply->elements to get number of data, reply->element[index] to get (struct redisReply*) Object" []
  | RString _ => LOG "[+][GMS_REDIS]=REDIS_REPLY_string=[string] use reply->str to get data, reply->len get data len" []
  end.

(** ** Pipelines

    [redisAppendCommand] only formats; [redisGetReply] then obtains the
    replies in order.  The result is the queue of commands, or [None] when a
    format was refused. *)

Fixpoint append_all {X} (cmds : list (string * list arg)) : prog X (option (list (list string))) :=
  match cmds with
  | [] => Ret (Some [])
  | (f, args) :: cmds' =>
      match redis_argv f args with
      | None => Crash
      | Some None => Ret None
      | Some (Some argv) =>
          rest <- append_all cmds' ;; Ret (option_map (cons argv) rest)
      end
  end.

Fixpoint commit_all {X} (queue : list (list string)) : prog X Z :=
  match queue with
  | [] => Ret 0%Z
  | argv :: queue' =>
      reply <- call (RedisCommand argv) ;;
      match reply with
      | None => Ret (-1)%Z
      | Some _ => commit_all queue'
      end
  end.

Definition pipeline {X} (cmds : list (string * list arg)) : prog X Z :=
  queue <- append_all cmds ;;
  match queue with
  | None => Ret (-1)%Z
  | Some q => commit_all q
  end.

Definition rop_redis_append {X} (cmds : list string) : prog X Z :=
  pipeline (List.map (fun c => (c, [])) cmds).

Definition rop_redis_command {X} (cmd : string) : prog X Z :=
  reply <- redisCommand cmd [] ;;
  match reply with
  | None => LOG "[-][GMS_REDIS]Command : %s ERROR!%s" [AStr cmd; errstr] ;;; Ret (-1)%Z
  | Some _ => Ret 0%Z
  end.

(** ** Connections ([true]: a context, [false]: NULL) *)

(** The connection part shared by the [rop_connectdb*] functions: a context
    whose [err] is set is freed. *)
Definition connect_ctx {X} (c : rconn) (ip : string) (port : Z) : prog X bool :=
  match c with
  | RcNull =>
      LOG "[-][GMS_REDIS]Connect %s:%d Error:Can't allocate redis context!" [AStr ip; AInt port] ;;;
      Ret false
  | RcErr err =>
      LOG "[-][GMS_REDIS]Connect %s:%d Error:%s" [AStr ip; AInt port; AStr err] ;;;
      call RedisFree ;;; Ret false
  | RcOk => Ret true
  end.

Definition rop_connectdb_nopwd {X} (ip_str port_str : string) : prog X bool :=
  let port := uint16 (atoi port_str) in
  c <- call (RedisConnect ip_str port) ;;
  ok <- connect_ctx c ip_str port ;;
  if negb ok then Ret false
  else LOG "[+][GMS_REDIS]Connect %s:%d SUCCESS!" [AStr ip_str; AInt port] ;;; Ret true.

(** After a failed AUTH exchange the context is dropped without being freed. *)
Definition rop_connectdb {X} (ip_str port_str pwd : string) : prog X bool :=
  let port := uint16 (atoi port_str) in
  c <- call (RedisConnect ip_str port) ;;
  ok <- connect_ctx c ip_str port ;;
  if negb ok then Ret false
  else
    auth_cmd <- sprintf REDIS_COMMAND_SIZE "auth %s" [AStr pwd] ;;
    reply <- redisCommand auth_cmd [] ;;
    match reply with
    | None => LOG "[-][GMS_REDIS]Command : auth %s ERROR!" [AStr pwd] ;;; Ret false
    | Some _ => LOG "[+][GMS_REDIS]Connect %s:%d SUCCESS!" [AStr ip_str; AInt port] ;;; Ret true
    end.

Definition rop_connectdb_unix {X} (sock_path pwd : string) : prog X bool :=
  c <- call (RedisConnectUnix sock_path) ;;
  match c with
  | RcNull =>
      LOG "[-][GMS_REDIS]Connect domain-unix:%s Error:Can't allocate redis context!"
        [AStr sock_path] ;;; Ret false
  | RcErr err =>
      LOG "[-][GMS_REDIS]Connect domain-unix:%s Error:%s" [AStr sock_path; AStr err] ;;;
      call RedisFree ;;; Ret false
  | RcOk =>
      auth_cmd <- sprintf REDIS_COMMAND_SIZE "auth %s" [AStr pwd] ;;
      reply <- redisCommand auth_cmd [] ;;
      match reply with
      | None => LOG "[-][GMS_REDIS]Command : auth %s ERROR!" [AStr pwd] ;;; Ret false
      | Some _ => LOG "[+][GMS_REDIS]Connect domain-unix:%s SUCCESS!" [AStr sock_path] ;;; Ret true
      end
  end.

Definition rop_connectdb_timeout {X} (ip_str port_str : string) (timeout : Z) : prog X bool :=
  let port := uint16 (atoi port_str) in
  c <- call (RedisConnectTimeout ip_str port timeout) ;;
  ok <- connect_ctx c ip_str port ;;
  if negb ok then Ret false
  else LOG "[+][GMS_REDIS]Connect %s:%d SUCCESS!" [AStr ip_str; AInt port] ;;; Ret true.

Definition rop_disconnect {X} : prog X unit :=
  call RedisFree ;;; LOG "[+][GMS_REDIS]Disconnect SUCCESS!" [].

(** ** Hashes *)

(** [make_hmset_command]: the text "hmset key f1 v1 f2 v2 ..." with the key
    cut at 200 bytes and the fields and values at their sizes. *)
Fixpoint hmset_args (fields values : list string) : string :=
  match fields, values with
  | f :: fields', v :: values' =>
      " " +:+ stake (Z.to_nat FIELD_ID_SIZE) f +:+ " " +:+ stake (Z.to_nat VALUES_ID_SIZE) v
        +:+ hmset_args fields' values'
  | _, _ => EmptyString
  end.

Definition make_hmset_command (key : string) (fields values : list string) : string :=
  "hmset " +:+ stake 200 key +:+ hmset_args fields values.

Definition rop_create_or_replace_hash_table {X} (key : string) (fields values : list string)
    : prog X Z :=
  reply <- redisCommand (make_hmset_command key fields values) [] ;;
  reply <- deref reply ;;
  bad <- str_is_not_OK reply ;;
  if (bad : bool)
  then LOG "[-][GMS_REDIS]Create hash table %s Error:%s,%s"
         [AStr key; log_str (reply_str reply); errstr] ;;; Ret (-1)%Z
  else Ret 0%Z.

Definition rop_hash_set_append {X} (key : string) (fvs : list (string * string)) : prog X Z :=
  pipeline (List.map (fun fv => ("hset %s %s %s", [AStr key; AStr (fst fv); AStr (snd fv)])) fvs).

Definition rop_hash_set {X} (key field value : string) : prog X Z :=
  reply <- redisCommand "hset %s %s %s" [AStr key; AStr field; AStr value] ;;
  match reply with
  | Some (RInteger _) => Ret 0%Z
  | _ => LOG "[-][GMS_REDIS]hset %s %s %s error %s" [AStr key; AStr field; AStr value; errstr] ;;;
         Ret (-1)%Z
  end.

(** The value goes to a buffer of [cap] bytes, at most VALUES_ID_SIZE of it;
    the terminator is written at index [len]. *)
Definition rop_hash_get {X} (key field : string) (cap : Z) : prog X (Z * string) :=
  reply <- redisCommand "hget %s %s" [AStr key; AStr field] ;;
  match reply with
  | Some (RString s) =>
      let len := Z.min (slen s) VALUES_ID_SIZE in
      if (len <? cap)%Z then Ret (0%Z, cstr (stake (Z.to_nat len) s)) else Crash
  | _ => LOG "[-][GMS_REDIS]hget %s %s  error %s" [AStr key; AStr field; errstr] ;;;
         Ret ((-1)%Z, EmptyString)
  end.

(** The error message has four conversions and three arguments. *)
Definition rop_hash_del {X} (key field : string) : prog X Z :=
  reply <- redisCommand "hdel %s %s" [AStr key; AStr field] ;;
  reply <- deref reply ;;
  if negb (reply_integer reply =? 1)%Z
  then LOG "[-][GMS_REDIS]hdel %s %s %s error %s" [AStr key; AStr field; errstr] ;;; Ret (-1)%Z
  else Ret 0%Z.

Definition rop_hincrement_one_field {X} (key field : string) (num : Z) : prog X Z :=
  reply <- redisCommand "HINCRBY %s %s %d" [AStr key; AStr field; AInt num] ;;
  match reply with
  | None => LOG "[-][GMS_REDIS]increment %s %s error %s" [AStr key; AStr field; errstr] ;;;
            Ret (-1)%Z
  | Some _ => Ret 0%Z
  end.

(** ** Lists *)

Definition rop_list_push_append {X} (key : string) (values : list string) : prog X Z :=
  pipeline (List.map (fun v => ("lpush %s %s", [AStr key; AStr v])) values).

Definition rop_list_push {X} (key value : string) : prog X Z :=
  reply <- redisCommand "LPUSH %s %s" [AStr key; AStr value] ;;
  reply <- deref reply ;;
  if negb (is_integer reply)
  then LOG "[-][GMS_REDIS]LPUSH %s %s error!%s" [AStr key; AStr value; errstr] ;;; Ret (-1)%Z
  else Ret 0%Z.

Definition rop_get_list_cnt {X} (key : string) : prog X Z :=
  reply <- redisCommand "LLEN %s" [AStr key] ;;
  reply <- deref reply ;;
  if negb (is_integer reply)
  then LOG "[-][GMS_REDIS]LLEN %s error %s" [AStr key; errstr] ;;; Ret (-1)%Z
  else Ret (int32 (reply_integer reply)).

Definition rop_trim_list {X} (key : string) (begin end_ : Z) : prog X Z :=
  reply <- redisCommand "LTRIM %s %d %d" [AStr key; AInt begin; AInt end_] ;;
  reply <- deref reply ;;
  if negb (is_status reply)
  then LOG "[-][GMS_REDIS]LTRIM %s %d %d error!%s" [AStr key; AInt begin; AInt end_; errstr] ;;;
       Ret (-1)%Z
  else Ret 0%Z.

(** [(reply->elements > count) ? count : reply->elements]: the comparison is
    between [size_t] values, so a negative [count] does not cut. *)
Definition clip_count (elements count : Z) : Z :=
  if ((count mod 18446744073709551616) <? elements)%Z then count else elements.

(** The strings of the first [n] elements, each cut to VALUES_ID_SIZE - 1
    bytes; an element that is no string is a NULL source. *)
Fixpoint copy_elements {X} (n : nat) (l : list reply) : prog X (list string) :=
  match n, l with
  | O, _ => Ret []
  | S n', r :: l' =>
      match reply_str r with
      | Some s =>
          rest <- copy_elements n' l' ;;
          Ret (stake (Z.to_nat (VALUES_ID_SIZE - 1)) (cstr s) :: rest)
      | None => Crash
      end
  | S _, [] => Crash
  end.

(** [cap] is the number of rows of the caller's array. *)
Definition rop_range_list {X} (key : string) (from_pos end_pos cap : Z) : prog X (Z * list string) :=
  let count := int32 (end_pos - from_pos + 1) in
  reply <- redisCommand "LRANGE %s %d %d" [AStr key; AInt from_pos; AInt end_pos] ;;
  reply <- deref reply ;;
  match reply with
  | RArray ((_ :: _) as l) =>
      let max_count := clip_count (Z.of_nat (length l)) count in
      if (cap <? max_count)%Z then Crash
      else vs <- copy_elements (Z.to_nat max_count) l ;; Ret (0%Z, vs)
  | _ => LOG "[-][GMS_REDIS]LRANGE %s  error!%s" [AStr key; errstr] ;;; Ret ((-1)%Z, [])
  end.

(** ** Strings *)

Definition rop_set_string {X} (key value : string) : prog X Z :=
  reply <- redisCommand "set %s %s" [AStr key; AStr value] ;;
  reply <- deref reply ;;
  bad <- str_is_not_OK reply ;;
  Ret (if (bad : bool) then -1 else 0)%Z.

Definition rop_setex_string {X} (key : string) (seconds : Z) (value : string) : prog X Z :=
  reply <- redisCommand "setex %s %u %s" [AStr key; AInt (uint32 seconds); AStr value] ;;
  reply <- deref reply ;;
  bad <- str_is_not_OK reply ;;
  Ret (if (bad : bool) then -1 else 0)%Z.

(** The value goes to a buffer of [cap] bytes. *)
Definition rop_get_string {X} (key : string) (cap : Z) : prog X (Z * string) :=
  reply <- redisCommand "get %s" [AStr key] ;;
  reply <- deref reply ;;
  match reply with
  | RString s => if (slen s <? cap)%Z then Ret (0%Z, cstr s) else Crash
  | _ => Ret ((-1)%Z, EmptyString)
  end.

(** ** Sorted sets *)

Definition rop_zset_add {X} (key : string) (score : Z) (member : string) : prog X Z :=
  reply <- redisCommand "ZADD %s %ld %s" [AStr key; AInt score; AStr member] ;;
  reply <- deref reply ;;
  if negb (reply_integer reply =? 1)%Z
  then LOG "[-][GMS_REDIS]ZADD: %s,member: %s Error:%s,%s"
         [AStr key; AStr member; log_str (reply_str reply); errstr] ;;; Ret (-1)%Z
  else Ret 0%Z.

Definition rop_zset_zrem {X} (key member : string) : prog X Z :=
  reply <- redisCommand "ZREM %s %s" [AStr key; AStr member] ;;
  reply <- deref reply ;;
  if negb (reply_integer reply =? 1)%Z
  then LOG "[-][GMS_REDIS]ZREM: %s,member: %s Error:%s,%s"
         [AStr key; AStr member; log_str (reply_str reply); errstr] ;;; Ret (-1)%Z
  else Ret 0%Z.

Definition rop_zset_del_all {X} (key : string) : prog X Z :=
  reply <- redisCommand "ZREMRANGEBYRANK %s 0 -1" [AStr key] ;;
  reply <- deref reply ;;
  if negb (is_integer reply)
  then LOG "[-][GMS_REDIS]ZREMRANGEBYRANK: %s,Error:%s,%s"
         [AStr key; log_str (reply_str reply); errstr] ;;; Ret (-1)%Z
  else Ret 0%Z.

(** [cap] is the number of rows of the caller's array. *)
Definition rop_zset_zrevrange {X} (key : string) (from_pos end_pos cap : Z)
    : prog X (Z * list string) :=
  let count := int32 (end_pos - from_pos + 1) in
  reply <- redisCommand "ZREVRANGE %s %d %d" [AStr key; AInt from_pos; AInt end_pos] ;;
  reply <- deref reply ;;
  match reply with
  | RArray l =>
      let max_count := clip_count (Z.of_nat (length l)) count in
      if (cap <? max_count)%Z then Crash
      else vs <- copy_elements (Z.to_nat max_count) l ;; Ret (0%Z, vs)
  | _ => LOG "[-][GMS_REDIS]ZREVRANGE %s  error!%s" [AStr key; errstr] ;;; Ret ((-1)%Z, [])
  end.

Definition rop_zset_increment {X} (key member : string) : prog X Z :=
  reply <- redisCommand "ZINCRBY %s 1 %s" [AStr key; AStr member] ;;
  reply <- deref reply ;;
  bad <- str_is_not_OK reply ;;
  if (bad : bool)
  then LOG "[-][GMS_REDIS]Add or increment table: %s,member: %s Error:%s,%s"
         [AStr key; AStr member; log_str (reply_str reply); errstr] ;;; Ret (-1)%Z
  else Ret 0%Z.

Definition rop_zset_zcard {X} (key : string) : prog X Z :=
  reply <- redisCommand "ZCARD %s" [AStr key] ;;
  reply <- deref reply ;;
  if negb (is_integer reply)
  then LOG "[-][GMS_REDIS]ZCARD %s error %s" [AStr key; errstr] ;;; Ret (-1)%Z
  else Ret (int32 (reply_integer reply)).

Definition rop_zset_get_score {X} (key member : string) : prog X Z :=
  reply <- redisCommand "ZSCORE %s %s" [AStr key; AStr member] ;;
  reply <- deref reply ;;
  rop_test_reply_type reply ;;;
  match reply with
  | RString s => Ret (atoi s)
  | _ => LOG "[-][GMS_REDIS]ZSCORE %s %s error %s" [AStr key; AStr member; errstr] ;;; Ret (-1)%Z
  end.

Definition rop_zset_exit {X} (key member : string) : prog X Z :=
  reply <- redisCommand "zlexcount %s [%s [%s" [AStr key; AStr member; AStr member] ;;
  reply <- deref reply ;;
  if negb (is_integer reply)
  then LOG "[-][GMS_REDIS]zlexcount: %s,member: %s Error:%s,%s"
         [AStr key; AStr member; log_str (reply_str reply); errstr] ;;; Ret (-1)%Z
  else Ret (int32 (reply_integer reply)).

Definition rop_zset_increment_append {X} (key : string) (values : list string) : prog X Z :=
  pipeline (List.map (fun v => ("ZINCRBY %s 1 %s", [AStr key; AStr v])) values).

(** ** Proof rules *)

(** The side conditions of a log message: integers in range, total length. *)
Ltac solve_args :=
  repeat lazymatch goal with |- Forall _ _ => constructor end;
  unfold arg_ok, is_long, LONG_MIN, LONG_MAX, INT_MIN, INT_MAX in *; cbn beta iota; try done; try lia.
Ltac wp_binds :=
  repeat (lazymatch goal with
          | |- wp (bind _ _) _ _ _ => apply wp_bind
          | |- wp (Ret _) _ _ _ => apply wp_ret
          | |- wp (Goto _) _ _ _ => apply wp_goto
          end; cbv beta).
Ltac solve_len :=
  cbn [args_len arg_len log_str errstr app]; unfold LOG_BUF, MSG_MAX in *; slen_lia.

Lemma with_redis_id o : with_redis (o_redis o) o = o.
Proof. by destruct o. Qed.

Section LogRule.
Context {coll : Collation}.

(** Log messages: the format and its arguments fit. *)
Lemma wp_log_fits {X} f args n (Q : unit -> obs -> Prop) (G : X -> obs -> Prop) o :
  match pieces_of (f +:+ nl) with
  | Some ps => simple_fmt ps args && (lits_len ps <=? n)%Z
  | None => false
  end = true ->
  Forall arg_ok args -> (n + args_len args < LOG_BUF)%Z -> Q tt o -> wp (LOG f args) Q G o.
Proof.
  destruct (pieces_of (f +:+ nl)) as [ps|] eqn:E; [|done]. intros [Hf Hn]%andb_prop Ha Hl HQ.
  apply (wp_LOG f ps); [done..|lia|done].
Qed.

End LogRule.

Ltac wp_log :=
  wp_binds; apply (wp_log_fits _ _ 400); [vm_compute; reflexivity|solve_args|solve_len|]; wp_binds.

Section CommandRule.
Context {coll : Collation}.

Lemma wp_redisCommand {X} f args argv (Q : option reply -> obs -> Prop) (G : X -> obs -> Prop) o :
  redis_argv f args = Some (Some argv) ->
  (forall rep rd, redis_spec argv (o_redis o) rep rd ->
     match rep with RError s => (slen s <= MSG_MAX)%Z | _ => True end ->
     Q (Some rep) (with_redis rd o)) ->
  wp (redisCommand f args) Q G o.
Proof.
  intros Hargv HQ. unfold redisCommand. rewrite Hargv.
  intros a o' (rep & rd & -> & Hspec & -> & Hmsg). by apply HQ.
Qed.

End CommandRule.

(** A command: the reply is read through the contract. *)
Ltac wp_redis :=
  wp_binds; eapply wp_redisCommand; [reflexivity|]; intros rep rd Hspec Hmsg; cbv beta.
Ltac redis_inv H := inversion H; clear H; rewrite ?string_app_nil_l in *; simplify_eq.

Section Rules.
Context {coll : Collation}.

Lemma uint16_range z : (0 <= uint16 z < 65536)%Z.
Proof. unfold uint16. apply Z.mod_pos_bound. lia. Qed.

Lemma wp_connect_ctx {X} c ip port (Q : bool -> obs -> Prop) (G : X -> obs -> Prop) o o1 :
  (slen ip < 1000)%Z -> (0 <= port < 65536)%Z -> connect_spec o c o1 ->
  Q false o -> (c = RcOk -> Q true (add_rd 1 o)) ->
  wp (connect_ctx c ip port) Q G o1.
Proof.
  intros Hip Hp Hc HF HT. destruct c as [|err|]; simpl in Hc; unfold connect_ctx.
  - subst o1. wp_log. exact HF.
  - destruct Hc as [-> Hlen]. wp_log. wp_binds. apply wp_call. intros ? o2 ->.
    rewrite add_rd_cancel. exact HF.
  - subst o1. by apply HT.
Qed.

Lemma wp_connectdb_nopwd {X} ip port (Q : bool -> obs -> Prop) (G : X -> obs -> Prop) o :
  (slen ip < 1000)%Z -> (forall b, Q b (if b then add_rd 1 o else o)) ->
  wp (rop_connectdb_nopwd ip port) Q G o.
Proof.
  intros Hip HQ. pose proof (uint16_range (atoi port)) as Hp. unfold rop_connectdb_nopwd.
  wp_binds. apply wp_call. intros c o1 Hc. wp_binds. eapply wp_connect_ctx; [done..| |].
  - apply (HQ false).
  - intros ->. cbn [negb]. wp_log. apply (HQ true).
Qed.

Lemma wp_disconnect {X} (Q : unit -> obs -> Prop) (G : X -> obs -> Prop) o :
  Q tt (add_rd (-1) o) -> wp rop_disconnect Q G o.
Proof.
  intros HQ. unfold rop_disconnect. wp_binds. apply wp_call. intros ? o1 ->. wp_log. exact HQ.
Qed.

(** [rop_zset_exit] answers the ZLEXCOUNT reply, which the contract fixes only
    for equal scores. *)
Lemma wp_zset_exit {X} key member (Q : Z -> obs -> Prop) (G : X -> obs -> Prop) o :
  (slen key + slen member < 2000)%Z ->
  (zset_of (o_redis o) key = None -> Q (-1)%Z o) ->
  (forall z n, zset_of (o_redis o) key = Some z -> (0 <= n)%Z ->
     (same_scores z -> n = if decide (member ∈ dom z) then 1%Z else 0%Z) -> Q (int32 n) o) ->
  wp (rop_zset_exit key member) Q G o.
Proof.
  intros Hlen HN HS. unfold rop_zset_exit. wp_redis. redis_inv Hspec; rewrite with_redis_id;
    unfold deref, is_integer; cbn [negb bind reply_str reply_integer].
  - cbn [wp]. eauto.
  - wp_log. auto.
Qed.

Lemma wp_zset_add {X} key score member (Q : Z -> obs -> Prop) (G : X -> obs -> Prop) o :
  (slen key + slen member < 2000)%Z -> is_long score ->
  (zset_of (o_redis o) key = None -> Q (-1)%Z o) ->
  (forall z, zset_of (o_redis o) key = Some z ->
     Q (if decide (member ∈ dom z) then -1 else 0)%Z
       (with_redis (<[key := VZset (<[member := score]> z)]> (o_redis o)) o)) ->
  wp (rop_zset_add key score member) Q G o.
Proof.
  intros Hlen Hs HN HS. unfold rop_zset_add. wp_redis. redis_inv Hspec;
    unfold deref; cbn [bind reply_str reply_integer].
  - rewrite pad_dec_0, strtol_dec_string by done. specialize (HS z ltac:(done)).
    destruct (decide (member ∈ dom z)); cbn [Z.eqb negb]; [wp_log|]; exact HS.
  - rewrite with_redis_id. cbn [Z.eqb negb]. wp_log. auto.
Qed.

Lemma wp_zset_zrem {X} key member (Q : Z -> obs -> Prop) (G : X -> obs -> Prop) o :
  (slen key + slen member < 2000)%Z ->
  (zset_of (o_redis o) key = None -> Q (-1)%Z o) ->
  (forall z, zset_of (o_redis o) key = Some z ->
     Q (if decide (member ∈ dom z) then 0 else -1)%Z
       (with_redis (put_zset key (delete member z) (o_redis o)) o)) ->
  wp (rop_zset_zrem key member) Q G o.
Proof.
  intros Hlen HN HS. unfold rop_zset_zrem. wp_redis. redis_inv Hspec;
    unfold deref; cbn [bind reply_str reply_integer].
  - specialize (HS z ltac:(done)).
    destruct (decide (member ∈ dom z)); cbn [Z.eqb negb]; [|wp_log]; exact HS.
  - rewrite with_redis_id. cbn [Z.eqb negb]. wp_log. auto.
Qed.

Lemma wp_hash_set {X} key field value (Q : Z -> obs -> Prop) (G : X -> obs -> Prop) o :
  (slen key + slen field + slen value < 3000)%Z ->
  (hash_of (o_redis o) key = None -> Q (-1)%Z o) ->
  (forall h, hash_of (o_redis o) key = Some h ->
     Q 0%Z (with_redis (<[key := VHash (<[field := value]> h)]> (o_redis o)) o)) ->
  wp (rop_hash_set key field value) Q G o.
Proof.
  intros Hlen HN HS. unfold rop_hash_set. wp_redis. redis_inv Hspec.
  - by apply HS.
  - rewrite with_redis_id. wp_log. auto.
Qed.

Lemma wp_hash_get {X} key field cap (Q : Z * string -> obs -> Prop) (G : X -> obs -> Prop) o :
  (slen key + slen field < 2000)%Z -> (VALUES_ID_SIZE < cap)%Z ->
  Q (-1, EmptyString)%Z o ->
  (forall h v, hash_of (o_redis o) key = Some h -> h !! field = Some v ->
     Q (0%Z, cstr (stake (Z.to_nat (Z.min (slen v) VALUES_ID_SIZE)) v)) o) ->
  wp (rop_hash_get key field cap) Q G o.
Proof.
  intros Hlen Hcap HN HS. unfold rop_hash_get. wp_redis. redis_inv Hspec; rewrite with_redis_id.
  - destruct (h !! field) as [v|] eqn:E; [|wp_log; exact HN].
    destruct (Z.ltb_spec (Z.min (slen v) VALUES_ID_SIZE) cap); [|lia]. cbn [wp]. eauto.
  - wp_log. exact HN.
Qed.

(** Safe only when the field exists: otherwise the log call lacks an argument. *)
Lemma wp_hash_del {X} key field h (Q : Z -> obs -> Prop) (G : X -> obs -> Prop) o :
  hash_of (o_redis o) key = Some h -> field ∈ dom h ->
  Q 0%Z (with_redis (put_hash key (delete field h) (o_redis o)) o) ->
  wp (rop_hash_del key field) Q G o.
Proof.
  intros Hh Hf HQ. unfold rop_hash_del. wp_redis. redis_inv Hspec.
  unfold deref; cbn [bind reply_str reply_integer]. simplify_eq.
  destruct (decide (field ∈ dom h)); [|done]. exact HQ.
Qed.

Lemma dec_string_no_nul z : no_nul (dec_string z) = true.
Proof.
  assert (forall n a, sforall isdigit a = true -> no_nul (dec_digits (dec_fuel n) n a) = true) as H.
  { intros n a Ha. eapply sforall_impl; [|by apply dec_digits_isdigit].
    intros c Hc. destruct (Ascii.eqb_spec c NUL); [by subst|done]. }
  unfold dec_string. destruct (z <? 0)%Z; [|by apply H]. unfold no_nul. simpl. by apply H.
Qed.

(** ZINCRBY answers the new score, never "OK": the wrapper reports failure. *)
Lemma wp_zset_increment {X} key member (Q : Z -> obs -> Prop) (G : X -> obs -> Prop) o :
  (slen key + slen member < 2000)%Z ->
  (zset_of (o_redis o) key = None -> forall r, Q r o) ->
  (forall z, zset_of (o_redis o) key = Some z ->
     is_long (default 0%Z (z !! member) + 1)%Z
     /\ Q (-1)%Z (with_redis (<[key := VZset (<[member := (default 0 (z !! member) + 1)%Z]> z)]>
                               (o_redis o)) o)) ->
  wp (rop_zset_increment key member) Q G o.
Proof.
  intros Hlen HN HS. unfold rop_zset_increment. wp_redis. redis_inv Hspec;
    unfold deref, str_is_not_OK; cbn [bind reply_str].
  - destruct (HS z ltac:(done)) as [Hl HQ]. set (n := (default 0 (z !! member) + 1)%Z) in *.
    pose proof (dec_string_long n Hl). rewrite cstr_id by apply dec_string_no_nul.
    destruct (streq (dec_string n) "OK") eqn:E.
    + apply streq_true in E. pose proof (strtol_dec_string n Hl) as Hn. rewrite E in Hn.
      change (strtol "OK") with 0%Z in Hn. rewrite <- Hn in E. done.
    + cbn [negb]. wp_log. exact HQ.
  - rewrite with_redis_id. destruct (streq (cstr e) "OK"); cbn [negb]; [|wp_log]; apply HN; done.
Qed.

Lemma wp_get_string {X} key cap (Q : Z * string -> obs -> Prop) (G : X -> obs -> Prop) o :
  (forall v, o_redis o !! key = Some (VStr v) -> (slen v < cap)%Z) ->
  (o_redis o !! key <> None -> Q (-1, EmptyString)%Z (with_redis (delete key (o_redis o)) o)) ->
  Q (-1, EmptyString)%Z o ->
  (forall v, o_redis o !! key = Some (VStr v) -> Q (0%Z, cstr v) o) ->
  wp (rop_get_string key cap) Q G o.
Proof.
  intros Hcap HE HN HS. unfold rop_get_string. wp_redis. redis_inv Hspec;
    unfold deref; cbn [bind]; rewrite ?with_redis_id; try exact HN.
  - destruct (Z.ltb_spec (slen v) cap); [apply HS; done|]. specialize (Hcap v ltac:(done)). lia.
  - apply HE. congruence.
Qed.

Lemma wp_setex_string {X} key seconds value (Q : Z -> obs -> Prop) (G : X -> obs -> Prop) o :
  Q (-1)%Z o -> Q 0%Z (with_redis (<[key := VStr value]> (o_redis o)) o) ->
  wp (rop_setex_string key seconds value) Q G o.
Proof.
  intros HE HS. unfold rop_setex_string. wp_redis. redis_inv Hspec;
    unfold deref, str_is_not_OK; cbn [bind reply_str].
  - exact HS.
  - rewrite with_redis_id.
    destruct (streq (cstr e) "OK") eqn:E; [by apply streq_true in E|].
    exact HE.
Qed.
End Rules.

(** ** Rules for the ranking *)

Section RankRules.
Context {coll : Collation}.

Lemma wp_del_key {X} key (Q : Z -> obs -> Prop) (G : X -> obs -> Prop) o :
  (forall r, Q r (with_redis (delete key (o_redis o)) o)) -> wp (rop_del_key key) Q G o.
Proof.
  intros HQ. unfold rop_del_key. wp_redis. redis_inv Hspec;
    unfold deref, is_integer; cbn [negb bind reply_integer]; [apply HQ|].
  rewrite <- (delete_id _ _ ltac:(eassumption)) at 1. apply HQ.
Qed.

Lemma wp_zset_zcard {X} key (Q : Z -> obs -> Prop) (G : X -> obs -> Prop) o :
  (slen key < 2000)%Z ->
  (zset_of (o_redis o) key = None -> Q (-1)%Z o) ->
  (forall z, zset_of (o_redis o) key = Some z -> Q (int32 (Z.of_nat (size z))) o) ->
  wp (rop_zset_zcard key) Q G o.
Proof.
  intros Hlen HN HS. unfold rop_zset_zcard. wp_redis. redis_inv Hspec; rewrite with_redis_id;
    unfold deref, is_integer; cbn [negb bind reply_integer]; [by apply HS|wp_log; auto].
Qed.

(** Members of less than VALUES_ID_SIZE bytes are copied whole. *)
Lemma copy_members {X} (l : list string) n :
  Forall (fun m => (slen m < VALUES_ID_SIZE)%Z /\ no_nul m = true) l ->
  copy_elements (X := X) (Nat.min n (length l)) (List.map RString l) = Ret (firstn n l).
Proof.
  intros H. revert n. induction H as [|m l [Hm Hn] _ IH]; intros n; [by rewrite Nat.min_0_r, firstn_nil|].
  destruct n as [|n]; [done|]. cbn [Nat.min length List.map copy_elements reply_str].
  rewrite IH, cstr_id by done. cbn [bind firstn]. f_equal. f_equal.
  unfold VALUES_ID_SIZE in *. apply stake_all. unfold slen in Hm. lia.
Qed.

Lemma clip_count_nat (n : nat) count :
  (0 <= count <= INT_MAX)%Z -> clip_count (Z.of_nat n) count = Z.of_nat (Nat.min (Z.to_nat count) n).
Proof.
  unfold INT_MAX, clip_count. intros H. rewrite Z.mod_small by lia.
  destruct (Z.ltb_spec count (Z.of_nat n)); lia.
Qed.

(** The window of [count] elements from [start] as the server computes it. *)
Lemma range_slice_page {A} (l : list A) start count :
  (0 <= start)%Z -> (0 <= count)%Z ->
  firstn (Z.to_nat count) (range_slice l start (start + count - 1))
  = firstn (Z.to_nat count) (skipn (Z.to_nat start) l).
Proof.
  intros Hs Hc. unfold range_slice. destruct (Z.ltb_spec start 0); [lia|].
  rewrite (Z.max_r 0 start) by lia.
  destruct (Z.ltb_spec (start + count - 1) 0).
  - assert (count = 0)%Z as -> by lia. done.
  - replace (start + count - 1 - start + 1)%Z with count by lia.
    rewrite firstn_firstn. by rewrite Nat.min_id.
Qed.

Lemma in_window {A} (x : A) a b l : In x (firstn a (skipn b l)) -> In x l.
Proof.
  intros H. rewrite <- (firstn_skipn b l). apply in_or_app. right.
  rewrite <- (firstn_skipn a (skipn b l)). apply in_or_app. by left.
Qed.

(** A page of the members by descending rank. *)
Lemma wp_zset_zrevrange {X} key start count (Q : Z * list string -> obs -> Prop)
    (G : X -> obs -> Prop) o :
  (slen key < 2000)%Z -> (0 <= start)%Z -> (0 <= count)%Z -> (start + count <= INT_MAX)%Z ->
  (forall z m s, zset_of (o_redis o) key = Some z -> z !! m = Some s ->
     (slen m < VALUES_ID_SIZE)%Z /\ no_nul m = true) ->
  (zset_of (o_redis o) key = None -> Q ((-1)%Z, []) o) ->
  (forall z l, zset_of (o_redis o) key = Some z -> Permutation l (map_to_list z) ->
     StronglySorted rank_ge l ->
     Q (0%Z, List.map fst (firstn (Z.to_nat count) (skipn (Z.to_nat start) l))) o) ->
  wp (rop_zset_zrevrange key start (start + count - 1) count) Q G o.
Proof.
  intros Hlen Hs Hc Hmax Hmem HN HS. unfold rop_zset_zrevrange.
  replace (start + count - 1 - start + 1)%Z with count by lia.
  rewrite int32_small by (unfold is_int, INT_MIN, INT_MAX in *; lia).
  wp_redis. redis_inv Hspec; rewrite with_redis_id; unfold deref; cbn [bind]; [|wp_log; auto].
  rewrite !pad_dec_0, !strtol_dec_string
    by (unfold is_long, LONG_MIN, LONG_MAX, INT_MAX in *; lia).
  set (w := range_slice l start (start + count - 1)).
  rewrite length_map, clip_count_nat by lia. destruct (Z.ltb_spec count (Z.of_nat (Nat.min (Z.to_nat count) (length w)))); [lia|].
  rewrite Nat2Z.id, <- (length_map fst w), <- (List.map_map fst RString), copy_members.
  - cbn [bind wp]. rewrite firstn_map. unfold w. rewrite range_slice_page by done. by eapply HS.
  - apply List.Forall_forall. intros m (p & <- & Hp)%in_map_iff.
    assert (In p l) as Hin.
    { by eapply in_window. }
    destruct p as [m s]. eapply Hmem; [done|]. apply elem_of_map_to_list, list_elem_of_In.
    eapply Permutation_in; [|exact Hin]. done.
Qed.

Lemma wp_zset_get_score {X} key member (Q : Z -> obs -> Prop) (G : X -> obs -> Prop) o :
  (slen key + slen member < 2000)%Z ->
  Q (-1)%Z o ->
  (forall z s, zset_of (o_redis o) key = Some z -> z !! member = Some s ->
     is_int s /\ Q s o) ->
  wp (rop_zset_get_score key member) Q G o.
Proof.
  intros Hlen HN HS. unfold rop_zset_get_score. wp_redis. redis_inv Hspec; rewrite with_redis_id;
    unfold deref; cbn [bind].
  - destruct (z !! member) as [s|] eqn:E; unfold rop_test_reply_type.
    + destruct (HS z s) as [Hs HQ]; [done..|]. wp_log. by rewrite atoi_dec_string.
    + wp_log. wp_log. exact HN.
  - wp_log. wp_log. exact HN.
Qed.

(** A stored value of less than [cap] bytes is copied whole. *)
Lemma wp_hash_get_small {X} key field cap (Q : Z * string -> obs -> Prop) (G : X -> obs -> Prop) o :
  (slen key + slen field < 2000)%Z -> (cap <= VALUES_ID_SIZE)%Z ->
  (forall h v, hash_of (o_redis o) key = Some h -> h !! field = Some v ->
     (slen v < cap)%Z /\ no_nul v = true) ->
  Q (-1, EmptyString)%Z o ->
  (forall h v, hash_of (o_redis o) key = Some h -> h !! field = Some v -> Q (0%Z, v) o) ->
  wp (rop_hash_get key field cap) Q G o.
Proof.
  intros Hlen Hcap Hv HN HS. unfold rop_hash_get. wp_redis. redis_inv Hspec; rewrite with_redis_id.
  - destruct (h !! field) as [v|] eqn:E; [|wp_log; exact HN].
    destruct (Hv h v) as [Hl Hn]; [done..|]. rewrite Z.min_l by lia.
    destruct (Z.ltb_spec (slen v) cap); [|lia]. cbn [wp].
    rewrite stake_all by (unfold slen; lia). rewrite cstr_id by done. by eapply HS.
  - wp_log. exact HN.
Qed.
End RankRules.
