(* ===== verification/Float64.v ===== *)
(** * Doubles

    IEEE binary64 as in [SpecFloat] with the operations of math.h and printf that
    cJSON.c uses, and the facts that make integers of up to 53 bits exact:
    conversion, sum, product, comparison and truncation agree with those of the
    integers.  The texts of %f and %e have the lengths that cJSON.c allows for. *)

From S2P Require Import Prelude CLib.
From Stdlib Require Import Floats.SpecFloat.
#[local] Open Scope Z_scope.

Definition f64_mul := SFmul 53 1024.
Definition f64_add := SFadd 53 1024.
Definition f64_sub := SFsub 53 1024.
Definition f64_div := SFdiv 53 1024.
Definition f64_of_Z (z : Z) : spec_float := binary_normalize 53 1024 z 0 false.

(** [pow (10.0, k)] for an integral [k]. *)
Definition f64_pow10 (k : Z) : spec_float :=
  if (400 <? k)%Z then S754_infinity false
  else if (k <? -400)%Z then S754_zero false
  else if (0 <=? k)%Z then f64_of_Z (10 ^ k)
  else f64_div (f64_of_Z 1) (f64_of_Z (10 ^ (- k))).

(** Truncation towards zero; [None] for an infinity or a NaN. *)
Definition f64_trunc (x : spec_float) : option Z :=
  match x with
  | S754_zero _ => Some 0%Z
  | S754_finite s m e =>
      let a := Z.shiftl (Z.pos m) e in Some (if s then (- a)%Z else a)
  | _ => None
  end.

(** [(int) x]; out of range, the conversion instruction of the target gives
    INT_MIN. *)
Definition int_of_f64 (x : spec_float) : Z :=
  match f64_trunc x with
  | Some z => if ((INT_MIN <=? z) && (z <=? INT_MAX))%Z then z else INT_MIN
  | None => INT_MIN
  end.

Definition f64_abs (x : spec_float) : spec_float := SFabs x.
Definition DBL_EPSILON : spec_float := f64_div (f64_of_Z 1) (f64_of_Z (2 ^ 52)).

(** [floor (x)] *)
Definition f64_floor (x : spec_float) : spec_float :=
  match x with
  | S754_finite s m e =>
      if 0 <=? e then x
      else
        let q := Z.pos m / 2 ^ (- e) in
        f64_of_Z (if s then - (if Z.pos m mod 2 ^ (- e) =? 0 then q else q + 1) else q)
  | _ => x
  end.

(** ** printf *)

(** The magnitude of a finite double as a fraction. *)
Definition f64_ratio (m : positive) (e : Z) : Z * Z :=
  if 0 <=? e then (Z.pos m * 2 ^ e, 1) else (Z.pos m, 2 ^ (- e)).

(** [n/d] rounded to the nearest integer, ties to even. *)
Definition round_ratio (n d : Z) : Z :=
  let q := n / d in
  match (2 * (n mod d)) ?= d with
  | Lt => q
  | Gt => q + 1
  | Eq => if Z.even q then q else q + 1
  end.

Definition minus (s : bool) (t : string) : string := if s then String "-" t else t.

(** [%.<prec>f]; the sign of a NaN is not modelled. *)
Definition fmt_fixed (prec : nat) (x : spec_float) : option string :=
  let text (z : Z) :=
    dec_string (z / 10 ^ Z.of_nat prec)
    +:+ match prec with O => EmptyString | _ => String "." (pad_dec prec (z mod 10 ^ Z.of_nat prec)) end in
  match x with
  | S754_zero s => Some (minus s (text 0))
  | S754_infinity s => Some (minus s "inf")
  | S754_nan => None
  | S754_finite s m e =>
      let '(n, d) := f64_ratio m e in
      Some (minus s (text (round_ratio (n * 10 ^ Z.of_nat prec) d)))
  end.

(** The decimal exponent of [n/d]; a double has at most 324 of them on either side. *)
Fixpoint exp_up (fuel : nat) (n d k : Z) : Z :=
  match fuel with
  | O => k
  | S fuel => if n <? 10 ^ (k + 1) * d then k else exp_up fuel n d (k + 1)
  end.
Fixpoint exp_down (fuel : nat) (n d k : Z) : Z :=
  match fuel with
  | O => k
  | S fuel => if d <=? n * 10 ^ (- k) then k else exp_down fuel n d (k - 1)
  end.

Definition exp10 (n d : Z) : Z := if d <=? n then exp_up 400 n d 0 else exp_down 400 n d (-1).

(** The six digits after the point and the exponent, of two digits at least. *)
Definition exp_text (z k : Z) : string :=
  dec_string (z / 10 ^ 6) +:+ String "." (pad_dec 6 (z mod 10 ^ 6))
  +:+ String "e" (String (if (k <? 0)%Z then "-"%char else "+"%char) (pad_dec 2 (Z.abs k))).

Definition exp_significand (n d k : Z) : Z :=
  if k <=? 6 then round_ratio (n * 10 ^ (6 - k)) d else round_ratio n (d * 10 ^ (k - 6)).

(** [%e] *)
Definition fmt_exp (x : spec_float) : option string :=
  match x with
  | S754_zero s => Some (minus s (exp_text 0 0))
  | S754_infinity s => Some (minus s "inf")
  | S754_nan => None
  | S754_finite s m e =>
      let '(n, d) := f64_ratio m e in
      let k := exp10 n d in
      let z := exp_significand n d k in
      Some (minus s (if z =? 10 ^ 7 then exp_text (10 ^ 6) (k + 1) else exp_text z k))
  end.

Example fmt_samples :
  let half := f64_div (f64_of_Z 1) (f64_of_Z 2) in let third := f64_div (f64_of_Z 1) (f64_of_Z 3) in
  fmt_fixed 6 third = Some "0.333333" /\ fmt_fixed 0 half = Some "0"
  /\ fmt_fixed 6 (f64_div (f64_of_Z (-5)) (f64_of_Z 2)) = Some "-2.500000"
  /\ fmt_exp third = Some "3.333333e-01" /\ fmt_exp (f64_of_Z 123456789012) = Some "1.234568e+11".
Proof. vm_compute. auto. Qed.

(** ** Integers are exact *)

Definition digits (k : Z) : Z := Z.log2 k + 1.

Lemma digits2_pos_log2 p : Z.pos (digits2_pos p) = digits (Z.pos p).
Proof.
  unfold digits. induction p as [p IH|p IH|]; [| |done]; cbn [digits2_pos]; rewrite Pos2Z.inj_succ, IH.
  - rewrite Pos2Z.inj_xI, Z.log2_succ_double; lia.
  - rewrite Pos2Z.inj_xO, Z.log2_double; lia.
Qed.

Lemma digits_pow2 k j : 0 < k -> 0 <= j -> digits (k * 2 ^ j) = digits k + j.
Proof. intros Hk Hj. unfold digits. rewrite Z.log2_mul_pow2; lia. Qed.

Lemma digits_bound k n : 0 < k < 2 ^ n -> 0 <= n -> 1 <= digits k <= n.
Proof.
  intros [Hk Hn] H0. unfold digits. pose proof (Z.log2_nonneg k).
  assert (Z.log2 k < n); [|lia]. apply Z.log2_lt_pow2; lia.
Qed.

(** The representation of an integer: 53 bits. *)
Definition mant (k : Z) : positive := Z.to_pos (k * 2 ^ (53 - digits k)).
Definition canon (s : bool) (k : Z) : spec_float := S754_finite s (mant k) (digits k - 53).

Lemma mant_val k : 0 < k < 2 ^ 53 -> Z.pos (mant k) = k * 2 ^ (53 - digits k).
Proof.
  intros Hk. pose proof (digits_bound k 53 Hk). unfold mant. rewrite Z2Pos.id; [done|].
  apply Z.mul_pos_pos; [lia|]. apply Z.pow_pos_nonneg; lia.
Qed.

Lemma iter_pos_nat {A} (f : A -> A) p x : iter_pos f p x = Nat.iter (Pos.to_nat p) f x.
Proof.
  revert x. induction p as [p IH|p IH|]; intros x; cbn [iter_pos]; [| |done]; rewrite !IH.
  - rewrite Pos2Nat.inj_xI, Nat.iter_succ_r, <- Nat.iter_add. f_equal. lia.
  - rewrite Pos2Nat.inj_xO, <- Nat.iter_add. f_equal. lia.
Qed.

Lemma shr_exact m n e :
  0 < m -> 0 <= n -> shr {| shr_m := m * 2 ^ n; shr_r := false; shr_s := false |} e n
    = ({| shr_m := m; shr_r := false; shr_s := false |}, e + n).
Proof.
  intros Hm Hn. unfold shr. destruct n as [|p|p]; [|f_equal|lia].
  - rewrite Z.mul_1_r, Z.add_0_r. done.
  - rewrite iter_pos_nat, <- (positive_nat_Z p). generalize (Pos.to_nat p) as n. clear Hn p.
    induction n as [|n IH]; [by rewrite Z.mul_1_r|]. rewrite Nat.iter_succ_r, Nat2Z.inj_succ, Z.pow_succ_r by lia.
    assert (exists p, m * 2 ^ Z.of_nat n = Z.pos p) as [p Hp].
    { exists (Z.to_pos (m * 2 ^ Z.of_nat n)). rewrite Z2Pos.id; [done|]. 
      apply Z.mul_pos_pos; [lia|]. apply Z.pow_pos_nonneg; lia. }
    replace (m * (2 * 2 ^ Z.of_nat n)) with (2 * (m * 2 ^ Z.of_nat n)) by lia.
    rewrite Hp in *. exact IH.
Qed.

Lemma fexp_digits d : 1 <= d -> fexp 53 1024 d = d - 53.
Proof. intros Hd. unfold fexp, emin. lia. Qed.

Lemma round_aux_exact s k j :
  0 < k < 2 ^ 53 -> 53 - digits k <= j -> 0 <= j ->
  binary_round_aux 53 1024 s (k * 2 ^ j) (- j) loc_Exact = canon s k.
Proof.
  intros Hk Hj Hj0. pose proof (digits_bound k 53 Hk) as Hd. unfold binary_round_aux, shr_fexp.
  assert (Zdigits2 (k * 2 ^ j) = digits k + j) as ->.
  { assert (0 < k * 2 ^ j) as Hpos by (apply Z.mul_pos_pos; [lia|]; apply Z.pow_pos_nonneg; lia).
    rewrite <- digits_pow2 by lia. destruct (k * 2 ^ j) as [|p|p]; [lia| |lia]. cbn [Zdigits2].
    apply digits2_pos_log2. }
  replace (digits k + j + - j) with (digits k) by lia. rewrite fexp_digits by lia.
  cbn [shr_record_of_loc].
  replace (k * 2 ^ j) with (k * 2 ^ (53 - digits k) * 2 ^ (digits k - 53 - - j)).
  2:{ rewrite <- Z.mul_assoc, <- Z.pow_add_r by lia. f_equal. f_equal. lia. }
  pose proof (mant_val k Hk) as Hm. rewrite <- Hm.
  rewrite shr_exact by lia. cbn [shr_m loc_of_shr_record round_nearest_even].
  replace (- j + (digits k - 53 - - j)) with (digits k - 53) by lia.
  cbn [Zdigits2]. rewrite digits2_pos_log2.
  assert (digits (Z.pos (mant k)) + (digits k - 53) = digits k) as ->
    by (rewrite Hm, digits_pow2 by lia; lia).
  rewrite fexp_digits by lia. rewrite Z.sub_diag. cbn [shr shr_m].
  destruct (Z.leb_spec (digits k - 53) (1024 - 53)); [done|lia].
Qed.

Lemma iter_xO p d : Z.pos (Pos.iter xO p d) = Z.pos p * 2 ^ Z.pos d.
Proof.
  rewrite <- Z.shiftl_mul_pow2 by lia. cbn [Z.shiftl].
  by apply (Pos.iter_swap_gen _ _ Z.pos xO (Z.mul 2)).
Qed.

(** [shl_align] keeps the value. *)
Lemma shl_align_val m e e' :
  e' <= e -> Z.pos (fst (shl_align m e e')) = Z.pos m * 2 ^ (e - e') /\ snd (shl_align m e e') = e'.
Proof.
  intros He. unfold shl_align. destruct (e' - e) as [|p|p] eqn:E; [|lia|]; cbn [fst snd].
  - replace (e - e') with 0 by lia. split; lia.
  - rewrite iter_xO. replace (e - e') with (Z.pos p) by lia. done.
Qed.

Lemma round_exact s k j :
  0 < k < 2 ^ 53 -> 0 <= j -> binary_round 53 1024 s (Z.to_pos (k * 2 ^ j)) (- j) = canon s k.
Proof.
  intros Hk Hj. pose proof (digits_bound k 53 Hk) as Hd. unfold binary_round.
  assert (0 < k * 2 ^ j) as Hpos by (apply Z.mul_pos_pos; [lia|]; apply Z.pow_pos_nonneg; lia).
  rewrite digits2_pos_log2, Z2Pos.id, digits_pow2 by lia.
  replace (digits k + j + - j) with (digits k) by lia. rewrite fexp_digits by lia.
  destruct (Z.le_gt_cases (digits k - 53) (- j)) as [Hle|Hgt].
  - pose proof (shl_align_val (Z.to_pos (k * 2 ^ j)) (- j) (digits k - 53) Hle) as [H1 H2].
    destruct (shl_align _ _ _) as [m e]. cbn [fst snd] in *. subst e. rewrite H1, Z2Pos.id by lia.
    rewrite <- Z.mul_assoc, <- Z.pow_add_r by lia.
    replace (digits k - 53) with (- (j + (- j - (digits k - 53)))) at 2 by lia.
    apply round_aux_exact; lia.
  - unfold shl_align. destruct (digits k - 53 - - j) as [|p|p] eqn:E; [| |lia].
    all: rewrite Z2Pos.id by lia; apply round_aux_exact; lia.
Qed.

Definition fits53 (z : Z) : Prop := - 2 ^ 53 < z < 2 ^ 53.

Lemma normalize_exact z j :
  fits53 z -> 0 <= j -> binary_normalize 53 1024 (z * 2 ^ j) (- j) false = f64_of_Z z.
Proof.
  intros Hz Hj. unfold f64_of_Z.
  assert (forall i, 0 <= i -> binary_normalize 53 1024 (z * 2 ^ i) (- i) false
    = match z with Z0 => S754_zero false | Z.pos k => canon false (Z.pos k) | Z.neg k => canon true (Z.pos k) end)
    as Hn.
  { intros i Hi. assert (0 < 2 ^ i) by (apply Z.pow_pos_nonneg; lia). unfold fits53 in Hz.
    destruct z as [|k|k]; [done| |].
    - rewrite <- (round_exact false (Z.pos k) i) by lia.
      destruct (Z.pos k * 2 ^ i) as [|p|p] eqn:E; [lia|done|lia].
    - rewrite <- (round_exact true (Z.pos k) i) by lia.
      replace (Z.neg k * 2 ^ i) with (- (Z.pos k * 2 ^ i)) by lia.
      destruct (Z.pos k * 2 ^ i) as [|p|p] eqn:E; [lia|done|lia]. }
  rewrite (Hn j Hj). specialize (Hn 0 ltac:(lia)). rewrite Z.mul_1_r in Hn.
  change (- 0) with 0 in Hn. by rewrite Hn.
Qed.

Lemma f64_of_Z_eq z :
  fits53 z ->
  f64_of_Z z = match z with
               | Z0 => S754_zero false
               | Z.pos k => canon false (Z.pos k)
               | Z.neg k => canon true (Z.pos k)
               end.
Proof.
  unfold fits53. intros Hz. unfold f64_of_Z. destruct z as [|k|k]; [done| |]; cbn [binary_normalize].
  - rewrite <- (round_exact false (Z.pos k) 0) by lia. by rewrite Z.mul_1_r.
  - rewrite <- (round_exact true (Z.pos k) 0) by lia. by rewrite Z.mul_1_r.
Qed.

(** The mantissa of an integer, aligned to a smaller exponent. *)
Lemma align_val k e :
  0 < k < 2 ^ 53 -> e <= digits k - 53 ->
  Z.pos (fst (shl_align (mant k) (digits k - 53) e)) = k * 2 ^ (- e).
Proof.
  intros Hk He. pose proof (digits_bound k 53 Hk).
  destruct (shl_align_val (mant k) (digits k - 53) e He) as [-> _].
  rewrite mant_val, <- Z.mul_assoc, <- Z.pow_add_r by lia. f_equal. f_equal. lia.
Qed.

Lemma f64_add_exact a b :
  fits53 a -> fits53 b -> fits53 (a + b) -> f64_add (f64_of_Z a) (f64_of_Z b) = f64_of_Z (a + b).
Proof.
  intros Ha Hb Hab. unfold f64_add. rewrite (f64_of_Z_eq a Ha), (f64_of_Z_eq b Hb).
  unfold fits53 in *.
  destruct a as [|ka|ka], b as [|kb|kb]; try done;
    try (by rewrite ?Z.add_0_r, ?Z.add_0_l, f64_of_Z_eq by (unfold fits53; lia)).
  all: unfold canon; cbn [SFadd];
    pose proof (digits_bound (Z.pos ka) 53 ltac:(lia)); pose proof (digits_bound (Z.pos kb) 53 ltac:(lia));
    set (ez := Z.min _ _); assert (ez <= 0) by lia;
    rewrite !align_val by lia; cbn [cond_Zopp];
    rewrite <- ?Z.mul_opp_l, <- Z.mul_add_distr_r; cbn [Z.opp];
    rewrite <- (normalize_exact _ (- ez)) by (unfold fits53; lia); f_equal; lia.
Qed.

Lemma f64_sub_same z : fits53 z -> f64_sub (f64_of_Z z) (f64_of_Z z) = S754_zero false.
Proof.
  intros Hz. unfold f64_sub. rewrite (f64_of_Z_eq z Hz).
  destruct z; [done| |]; unfold canon; cbn [SFsub]; rewrite Z.min_id, Z.sub_diag; done.
Qed.

Lemma f64_mul_exact a b :
  fits53 a -> fits53 b -> fits53 (a * b) -> (a <> 0 /\ b <> 0) \/ (0 <= a /\ 0 <= b) ->
  f64_mul (f64_of_Z a) (f64_of_Z b) = f64_of_Z (a * b).
Proof.
  intros Ha Hb Hab Hs. unfold f64_mul. rewrite (f64_of_Z_eq a Ha), (f64_of_Z_eq b Hb).
  unfold fits53 in *.
  assert (forall s ka kb, 0 < ka < 2 ^ 53 -> 0 < kb < 2 ^ 53 -> ka * kb < 2 ^ 53 ->
    binary_round_aux 53 1024 s (Z.pos (mant ka * mant kb)) (digits ka - 53 + (digits kb - 53)) loc_Exact
    = canon s (ka * kb)) as Hround.
  { intros s ka kb Hka Hkb Hk. pose proof (digits_bound ka 53 Hka). pose proof (digits_bound kb 53 Hkb).
    rewrite Pos2Z.inj_mul, !mant_val by lia.
    replace (ka * 2 ^ (53 - digits ka) * (kb * 2 ^ (53 - digits kb)))
      with (ka * kb * 2 ^ (53 - digits ka + (53 - digits kb))) by (rewrite Z.pow_add_r by lia; lia).
    replace (digits ka - 53 + (digits kb - 53)) with (- (53 - digits ka + (53 - digits kb))) by lia.
    assert (digits ka + digits kb - 1 <= digits (ka * kb)).
    { unfold digits. pose proof (Z.log2_mul_below ka kb). lia. }
    apply round_aux_exact; lia. }
  destruct a as [|ka|ka], b as [|kb|kb]; try lia; try done.
  all: unfold canon; cbn [SFmul xorb]; rewrite Hround by lia;
    rewrite f64_of_Z_eq by (unfold fits53; lia); done.
Qed.

Lemma f64_compare a b :
  fits53 a -> fits53 b -> SFcompare (f64_of_Z a) (f64_of_Z b) = Some (a ?= b).
Proof.
  intros Ha Hb. rewrite (f64_of_Z_eq a Ha), (f64_of_Z_eq b Hb). unfold fits53 in *.
  assert (forall ka kb, 0 < ka < 2 ^ 53 -> 0 < kb < 2 ^ 53 ->
    match (digits ka - 53) ?= (digits kb - 53) with
    | Lt => Lt | Gt => Gt | Eq => Pos.compare_cont Eq (mant ka) (mant kb)
    end = (ka ?= kb)) as Hpos.
  { intros ka kb Hka Hkb. pose proof (mant_val ka Hka) as Hma. pose proof (mant_val kb Hkb) as Hmb.
    pose proof (digits_bound ka 53 Hka). pose proof (digits_bound kb 53 Hkb).
    destruct (Z.compare_spec (digits ka - 53) (digits kb - 53)) as [He|Hl|Hg].
    - change (Pos.compare_cont Eq (mant ka) (mant kb)) with (mant ka ?= mant kb)%positive.
      change (mant ka ?= mant kb)%positive with (Z.pos (mant ka) ?= Z.pos (mant kb)).
      rewrite Hma, Hmb. replace (digits ka) with (digits kb) by lia.
      assert (0 < 2 ^ (53 - digits kb)) by (apply Z.pow_pos_nonneg; lia).
      by rewrite <- Zmult_compare_compat_r by lia.
    - symmetry. apply Z.compare_lt_iff. apply Z.log2_lt_cancel. unfold digits in Hl. lia.
    - symmetry. apply Z.compare_gt_iff. apply Z.log2_lt_cancel. unfold digits in Hg. lia. }
  destruct a as [|ka|ka], b as [|kb|kb]; try done; unfold canon; cbn [SFcompare]; f_equal.
  - apply (Hpos (Z.pos ka) (Z.pos kb)); lia.
  - specialize (Hpos (Z.pos ka) (Z.pos kb) ltac:(lia) ltac:(lia)).
    change (Z.neg ka ?= Z.neg kb) with (CompOpp (Z.pos ka ?= Z.pos kb)). rewrite <- Hpos.
    by destruct (_ ?= _).
Qed.

Lemma f64_trunc_of_Z z : fits53 z -> f64_trunc (f64_of_Z z) = Some z.
Proof.
  intros Hf. rewrite (f64_of_Z_eq z Hf). unfold fits53 in Hf.
  assert (forall k, 0 < k < 2 ^ 53 -> Z.shiftl (Z.pos (mant k)) (digits k - 53) = k) as Hs.
  { intros k Hk. pose proof (digits_bound k 53 Hk). rewrite mant_val by lia.
    rewrite <- Z.shiftr_opp_r, Z.shiftr_div_pow2 by lia.
    replace (- (digits k - 53)) with (53 - digits k) by lia. apply Z.div_mul.
    apply Z.pow_nonzero; lia. }
  destruct z as [|k|k]; [done| |]; unfold canon; cbn [f64_trunc]; rewrite Hs by lia; done.
Qed.

Lemma int_of_f64_of_Z z : is_int z -> int_of_f64 (f64_of_Z z) = z.
Proof.
  intros Hz. unfold int_of_f64. rewrite f64_trunc_of_Z by (unfold is_int, INT_MIN, INT_MAX, fits53 in *; lia).
  unfold is_int in Hz. destruct (Z.leb_spec INT_MIN z), (Z.leb_spec z INT_MAX); simpl; lia.
Qed.

(** ** Whole numbers as text *)

(** A whole number as a fraction. *)
Lemma canon_ratio k :
  0 < k < 2 ^ 53 ->
  exists d, 0 < d /\ f64_ratio (mant k) (digits k - 53) = (k * d, d).
Proof.
  intros Hk. pose proof (digits_bound k 53 Hk). unfold f64_ratio. rewrite mant_val by lia.
  destruct (Z.leb_spec 0 (digits k - 53)).
  - exists 1. replace (digits k) with 53 by lia. split; [lia|]. f_equal. simpl. lia.
  - exists (2 ^ (- (digits k - 53))). split; [apply Z.pow_pos_nonneg; lia|]. do 2 f_equal. f_equal. lia.
Qed.

Lemma round_ratio_whole k d : 0 < d -> round_ratio (k * d) d = k.
Proof.
  intros Hd. unfold round_ratio. rewrite Z.mod_mul, Z.div_mul by lia.
  destruct (Z.compare_spec (2 * 0) d); lia.
Qed.

Lemma f64_floor_whole z : fits53 z -> f64_floor (f64_of_Z z) = f64_of_Z z.
Proof.
  intros Hf. rewrite (f64_of_Z_eq z Hf). pose proof Hf as Hf'. unfold fits53 in Hf'.
  assert (forall s k, 0 < k < 2 ^ 53 -> f64_floor (canon s k) = f64_of_Z (if s then - k else k)) as Hfl.
  { intros s k Hk. pose proof (digits_bound k 53 Hk). unfold canon. cbn [f64_floor].
    destruct (Z.leb_spec 0 (digits k - 53)).
    - rewrite f64_of_Z_eq by (unfold fits53; destruct s; lia). destruct s, k; try lia; done.
    - rewrite mant_val by lia. replace (- (digits k - 53)) with (53 - digits k) by lia.
      assert (0 < 2 ^ (53 - digits k)) by (apply Z.pow_pos_nonneg; lia).
      rewrite Z.mod_mul, Z.div_mul by lia. by destruct s. }
  destruct z as [|k|k]; [done| |]; rewrite Hfl by lia; by rewrite f64_of_Z_eq.
Qed.

Lemma fmt_fixed_whole z : fits53 z -> z <> 0 -> fmt_fixed 0 (f64_of_Z z) = Some (dec_string z).
Proof.
  intros Hf Hz. rewrite (f64_of_Z_eq z Hf). unfold fits53 in Hf.
  assert (forall s k, 0 < k < 2 ^ 53 -> fmt_fixed 0 (canon s k) = Some (minus s (dec_string k))) as Hp.
  { intros s k Hk. destruct (canon_ratio k Hk) as (d & Hd & Hr). unfold canon. cbn [fmt_fixed]. rewrite Hr.
    change (10 ^ Z.of_nat 0) with 1. rewrite Z.mul_1_r, round_ratio_whole, Z.div_1_r by done.
    by rewrite string_app_nil_r. }
  destruct z as [|k|k]; [done| |]; rewrite Hp by lia; [done|]. reflexivity.
Qed.

Lemma f64_whole_small z m e : fits53 z -> 0 < e -> SFltb (f64_abs (f64_of_Z z)) (S754_finite false m e) = true.
Proof.
  intros Hf He. rewrite (f64_of_Z_eq z Hf). unfold fits53 in Hf. unfold SFltb.
  destruct z as [|k|k]; [done| |]; unfold canon; cbn [f64_abs SFabs SFcompare];
    pose proof (digits_bound (Z.pos k) 53 ltac:(lia));
    destruct (Z.compare_spec (digits (Z.pos k) - 53) e); lia || done.
Qed.

(** ** The length of printed numbers *)

(** A double as the machine has them: 53 bits and 11 bits of exponent. *)
Definition f64_valid (x : spec_float) : bool := valid_binary 53 1024 x.

Lemma f64_valid_bounds s m e :
  f64_valid (S754_finite s m e) = true -> Z.pos m < 2 ^ 53 /\ -1074 <= e <= 971.
Proof.
  unfold f64_valid, valid_binary, bounded, canonical_mantissa, fexp, emin. intros H.
  apply andb_true_iff in H as [Hc He]. apply Z.leb_le in He. apply Z.eqb_eq in Hc.
  split; [|lia]. rewrite digits2_pos_log2 in Hc. unfold digits in Hc.
  apply Z.log2_lt_pow2; lia.
Qed.

Lemma round_ratio_le n d b : 0 <= n <= b * d -> 0 < d -> 0 <= round_ratio n d <= b.
Proof.
  intros Hn Hd. unfold round_ratio. pose proof (Z.div_mod n d ltac:(lia)) as Hdm.
  pose proof (Z.mod_pos_bound n d Hd) as Hm. pose proof (Z.div_pos n d ltac:(lia) Hd).
  assert (n / d <= b) by (apply Z.div_le_upper_bound; lia).
  assert (n mod d <> 0 -> n / d + 1 <= b) as Hup.
  { intros Hne. assert (n / d < b); [|lia]. destruct (Z.le_gt_cases b (n / d)); [|lia]. nia. }
  destruct (Z.compare_spec (2 * (n mod d)) d); [destruct (Z.even _)| |]; try lia.
Qed.

Lemma f64_ratio_bound m e n d k :
  f64_ratio m e = (n, d) -> Z.pos m < 2 ^ 53 -> e <= k - 53 -> 0 <= k -> 0 < d /\ 0 < n <= 2 ^ k * d.
Proof.
  unfold f64_ratio. intros H Hm He Hk. destruct (Z.leb_spec 0 e); injection H as <- <-.
  - split; [lia|]. pose proof (Z.pow_pos_nonneg 2 e). split; [lia|]. rewrite Z.mul_1_r.
    replace k with (53 + (k - 53)) by lia. rewrite Z.pow_add_r by lia.
    pose proof (Z.pow_le_mono_r 2 e (k - 53)). nia.
  - pose proof (Z.pow_pos_nonneg 2 (- e)). repeat split; try lia. rewrite <- Z.pow_add_r by lia.
    pose proof (Z.pow_le_mono_r 2 53 (k + - e)). lia.
Qed.

Lemma slen_minus s t : slen (minus s t) <= 1 + slen t.
Proof. destruct s; cbn [minus]; [rewrite slen_cons|]; lia. Qed.

Lemma slen_dec_nonneg z k : 0 <= z < 10 ^ Z.of_nat k -> (0 < k)%nat -> slen (dec_string z) <= Z.of_nat k.
Proof.
  intros Hz Hk. unfold dec_string. destruct (Z.ltb_spec z 0); [lia|].
  pose proof (dec_digits_length (dec_fuel z) z EmptyString k Hz Hk). rewrite slen_nil in *. lia.
Qed.

Lemma pad_dec_length w k z : 0 <= z < 10 ^ Z.of_nat k -> (0 < w <= k)%nat -> slen (pad_dec w z) <= Z.of_nat k.
Proof.
  intros Hz Hw. unfold pad_dec. destruct (Z.ltb_spec z 0); [lia|].
  pose proof (slen_dec_nonneg z k Hz ltac:(lia)). rewrite slen_app, slen_zeros. unfold slen in *. lia.
Qed.

(** [%.0f] below 2^200 and [%f] below 2^30. *)
Lemma fmt_fixed_length prec s m e t k w :
  fmt_fixed prec (S754_finite s m e) = Some t -> Z.pos m < 2 ^ 53 -> e <= k - 53 -> 0 <= k ->
  2 ^ k < 10 ^ Z.of_nat w -> (0 < w)%nat -> slen t <= 2 + Z.of_nat w + Z.of_nat prec.
Proof.
  cbn [fmt_fixed]. destruct (f64_ratio m e) as [n d] eqn:Er. intros [= <-] Hm He Hk Hw Hw0.
  destruct (f64_ratio_bound m e n d k Er Hm He Hk) as [Hd Hn].
  assert (0 < 10 ^ Z.of_nat prec) as Hp by (apply Z.pow_pos_nonneg; lia).
  destruct (round_ratio_le (n * 10 ^ Z.of_nat prec) d (2 ^ k * 10 ^ Z.of_nat prec)) as [Hz0 Hz]; [nia|lia|].
  set (z := round_ratio _ _) in *. etrans; [apply slen_minus|]. rewrite slen_app.
  pose proof (slen_dec_nonneg (z / 10 ^ Z.of_nat prec) w) as Hi.
  assert (z / 10 ^ Z.of_nat prec <= 2 ^ k) by (apply Z.div_le_upper_bound; lia).
  pose proof (Z.div_pos z (10 ^ Z.of_nat prec) ltac:(lia) Hp).
  destruct prec as [|prec]; [rewrite slen_nil; lia|]. rewrite slen_cons.
  pose proof (pad_dec_length (S prec) (S prec) (z mod 10 ^ Z.of_nat (S prec))
    (Z.mod_pos_bound _ _ Hp) ltac:(lia)). lia.
Qed.

Lemma exp_up_bound fuel n d k :
  0 <= k -> 0 < d -> n < 10 ^ (k + Z.of_nat fuel) * d ->
  k <= exp_up fuel n d k <= k + Z.of_nat fuel /\ n < 10 ^ (exp_up fuel n d k + 1) * d.
Proof.
  revert k. induction fuel as [|fuel IH]; intros k Hk Hd Hn; cbn [exp_up].
  - rewrite Z.add_0_r in *. split; [lia|]. rewrite Z.pow_add_r by lia. lia.
  - destruct (Z.ltb_spec n (10 ^ (k + 1) * d)); [split; lia|].
    destruct (IH (k + 1)) as [H1 H2]; [lia|lia| |split; lia].
    replace (k + 1 + Z.of_nat fuel) with (k + Z.of_nat (S fuel)) by lia. done.
Qed.

Lemma exp_down_bound fuel n d k :
  k < 0 -> n * 10 ^ (- k - 1) < d ->
  k - Z.of_nat fuel <= exp_down fuel n d k <= k /\ n * 10 ^ (- exp_down fuel n d k - 1) < d.
Proof.
  revert k. induction fuel as [|fuel IH]; intros k Hk Hn; cbn [exp_down]; [split; [lia|done]|].
  destruct (Z.leb_spec d (n * 10 ^ (- k))); [split; [lia|done]|].
  destruct (IH (k - 1)) as [H1 H2]; [lia| |split; [lia|done]].
  replace (- (k - 1) - 1) with (- k) by lia. done.
Qed.

(** The mantissa of [%e] has one digit before the point. *)
Lemma exp_mantissa n d k :
  0 < n -> 0 < d -> (0 <= k -> n < 10 ^ (k + 1) * d) -> (k < 0 -> n * 10 ^ (- k - 1) < d) ->
  0 <= exp_significand n d k <= 10 ^ 7.
Proof.
  unfold exp_significand. intros Hn Hd Hup Hdown. destruct (Z.leb_spec k 6) as [Hk|Hk].
  - apply round_ratio_le; [|done]. pose proof (Z.pow_pos_nonneg 10 (6 - k)). split; [nia|].
    destruct (Z.lt_ge_cases k 0) as [Hs|Hs].
    + specialize (Hdown Hs). replace (6 - k) with (- k - 1 + 7) by lia. rewrite Z.pow_add_r by lia. lia.
    + specialize (Hup Hs). replace (10 ^ 7) with (10 ^ (k + 1) * 10 ^ (6 - k)) by (rewrite <- Z.pow_add_r by lia; f_equal; lia). nia.
  - specialize (Hup ltac:(lia)). pose proof (Z.pow_pos_nonneg 10 (k - 6)).
    apply round_ratio_le; [|nia]. split; [lia|].
    replace (10 ^ 7 * (d * 10 ^ (k - 6))) with (10 ^ (k + 1) * d); [lia|].
    replace (k + 1) with (7 + (k - 6)) by lia. rewrite Z.pow_add_r by lia. lia.
Qed.

Lemma exp10_bound n d :
  0 < d -> n < 10 ^ 400 * d ->
  -401 <= exp10 n d <= 400 /\ (0 <= exp10 n d -> n < 10 ^ (exp10 n d + 1) * d)
  /\ (exp10 n d < 0 -> n * 10 ^ (- exp10 n d - 1) < d).
Proof.
  intros Hd Hn. unfold exp10. destruct (Z.leb_spec d n) as [Hc|Hc].
  - destruct (exp_up_bound 400 n d 0) as [? ?]; [lia|lia|exact Hn|repeat split; lia].
  - destruct (exp_down_bound 400 n d (-1)) as [? ?]; [lia|simpl; lia|]. repeat split; [lia..|done].
Qed.

Lemma exp_text_length z k : 0 <= z < 10 ^ 7 -> Z.abs k <= 401 -> slen (exp_text z k) <= 13.
Proof.
  intros Hz Hk. unfold exp_text. rewrite !slen_app, slen_cons, slen_cons, slen_cons.
  pose proof (slen_dec_nonneg (z / 10 ^ 6) 1) as H1.
  pose proof (pad_dec_length 6 6 (z mod 10 ^ 6)) as H2. pose proof (pad_dec_length 2 3 (Z.abs k)) as H3.
  pose proof (Z.mod_pos_bound z (10 ^ 6)). pose proof (Z.div_pos z (10 ^ 6)).
  pose proof (Z.div_lt_upper_bound z (10 ^ 6) 10). simpl Z.of_nat in *. lia.
Qed.

Lemma fmt_exp_length x t : fmt_exp x = Some t -> f64_valid x = true -> slen t <= 14.
Proof.
  destruct x as [s|s| |s m e]; cbn [fmt_exp]; [by destruct s; intros [= <-]..|done|].
  destruct (f64_ratio m e) as [n d] eqn:Er. intros Ht [Hm He]%f64_valid_bounds.
  destruct (f64_ratio_bound m e n d 1024 Er Hm ltac:(lia) ltac:(lia)) as [Hd Hn].
  destruct (exp10_bound n d Hd) as (Hk & Hup & Hdn).
  { assert (2 ^ 1024 < 10 ^ 400) by (apply Z.ltb_lt; vm_compute; reflexivity).
    eapply Z.le_lt_trans; [apply Hn|]. by apply Z.mul_lt_mono_pos_r. }
  revert Ht Hk Hup Hdn. generalize (exp10 n d) as k. intros k Ht Hk Hup Hdn.
  pose proof (exp_mantissa n d k ltac:(lia) Hd Hup Hdn) as Hz.
  injection Ht as <-. etrans; [apply slen_minus|]. destruct (Z.eqb_spec (exp_significand n d k) (10 ^ 7)).
  - pose proof (exp_text_length (10 ^ 6) (k + 1)). lia.
  - pose proof (exp_text_length (exp_significand n d k) k). lia.
Qed.
