(* ===== verification/CJson.v ===== *)
(** * cJSON (src/src/common/cJSON.c): parser, printer, object access

    An item is a tree: the [next]/[prev] chains of the C structure are the
    lists [j_child].  The parser works on the C string that follows the
    current pointer and returns the item with the rest of the text.  [PUndef]
    is a read past the terminator or a write past the buffer that
    [parse_string] sized; [PFuel] is the recursion bound of this model, which
    [cJSON_Parse] never reaches ([parse_fuel_enough]).  Memory
    exhaustion is the subject of CJsonHeap.v and CJsonParse.v; the printer here
    is the one without a print buffer ([cJSON_Print], [cJSON_PrintUnformatted]),
    which the CGI programs call, the other is in CJsonBuffer.v. *)

From S2P Require Import Prelude CLib Float64.
From Stdlib Require Import Floats.SpecFloat.

(** ** Items *)

Inductive jtype :=
| cJSON_False | cJSON_True | cJSON_NULL | cJSON_Number | cJSON_String | cJSON_Array | cJSON_Object.

#[export] Instance jtype_eq_dec : EqDecision jtype.
Proof. solve_decision. Defined.

#[local] Set Warnings "-register-all".

Inductive cJSON : Type := Item {
  j_type : jtype;
  j_valuestring : option string;
  j_valueint : Z;
  j_valuedouble : spec_float;
  j_string : option string;
  j_child : list cJSON }.

(** [cJSON_New_Item]: zeroed memory (type 0 is [cJSON_False]). *)
Definition cJSON_New_Item : cJSON := Item cJSON_False None 0 (S754_zero false) None [].

Definition set_type (t : jtype) (c : cJSON) : cJSON :=
  Item t (j_valuestring c) (j_valueint c) (j_valuedouble c) (j_string c) (j_child c).
Definition set_string (s : option string) (c : cJSON) : cJSON :=
  Item (j_type c) (j_valuestring c) (j_valueint c) (j_valuedouble c) s (j_child c).
Definition set_child (l : list cJSON) (c : cJSON) : cJSON :=
  Item (j_type c) (j_valuestring c) (j_valueint c) (j_valuedouble c) (j_string c) l.

(** ** Parsing *)

Inductive presult (A : Type) : Type :=
| POk (a : A) (rest : string)
| PErr
| PUndef
| PFuel.
Arguments POk {A} a rest.
Arguments PErr {A}.
Arguments PUndef {A}.
Arguments PFuel {A}.

Definition pbind {A B} (r : presult A) (f : A -> string -> presult B) : presult B :=
  match r with
  | POk a rest => f a rest
  | PErr => PErr
  | PUndef => PUndef
  | PFuel => PFuel
  end.

(** [skip]: jump over bytes up to 32. *)
Fixpoint skip (s : string) : string :=
  match s with
  | String c s' => if (byte_of c <=? 32)%Z then skip s' else s
  | EmptyString => EmptyString
  end.

Fixpoint num_digits (s : string) (n : spec_float) (scale : Z) : spec_float * Z * string :=
  match s with
  | String c s' =>
      if isdigit c
      then num_digits s' (f64_add (f64_mul n (f64_of_Z 10)) (f64_of_Z (digit_val c))) (scale - 1)
      else (n, scale, s)
  | EmptyString => (n, scale, s)
  end.

Fixpoint exp_digits (s : string) (subscale : Z) : Z * string :=
  match s with
  | String c s' =>
      if isdigit c then exp_digits s' (int32 (subscale * 10 + digit_val c)) else (subscale, s)
  | EmptyString => (subscale, s)
  end.

Definition head_is (c : ascii) (s : string) : bool :=
  match s with String d _ => Ascii.eqb d c | EmptyString => false end.

Definition head_digit (s : string) : bool :=
  match s with String d _ => isdigit d | EmptyString => false end.

(** [parse_number (item, num)] *)
Definition parse_number (item : cJSON) (num : string) : presult cJSON :=
  let zero := f64_of_Z 0 in
  let '(sign, num) := if head_is "-" num then ((-1)%Z, sdrop 1 num) else (1%Z, num) in
  let num := if head_is "0" num then sdrop 1 num else num in
  let '(n, _, num) :=
    if head_digit num && negb (head_is "0" num) then num_digits num zero 0%Z else (zero, 0%Z, num) in
  let '(n, scale, num) :=
    if head_is "." num && head_digit (sdrop 1 num)
    then num_digits (sdrop 1 num) n 0%Z else (n, 0%Z, num) in
  let '(subscale, num) :=
    if head_is "e" num || head_is "E" num then
      let num := sdrop 1 num in
      if head_is "+" num then exp_digits (sdrop 1 num) 0
      else if head_is "-" num then
        let '(s, r) := exp_digits (sdrop 1 num) 0 in ((- s)%Z, r)
      else exp_digits num 0
    else (0%Z, num) in
  let n := f64_mul (f64_mul (f64_of_Z sign) n) (f64_pow10 (scale + subscale)) in
  POk (Item cJSON_Number (j_valuestring item) (int_of_f64 n) n (j_string item) (j_child item)) num.

(** [parse_hex4]: 0 as soon as a character is no hexadecimal digit. *)
Definition hex_val (c : ascii) : option Z :=
  let b := byte_of c in
  if ((48 <=? b) && (b <=? 57))%Z then Some (b - 48)%Z
  else if ((65 <=? b) && (b <=? 70))%Z then Some (b - 55)%Z
  else if ((97 <=? b) && (b <=? 102))%Z then Some (b - 87)%Z
  else None.

Definition parse_hex4 (s : string) : Z :=
  match s with
  | String a (String b (String c (String d _))) =>
      match hex_val a, hex_val b, hex_val c, hex_val d with
      | Some a, Some b, Some c, Some d => (((a * 16 + b) * 16 + c) * 16 + d)%Z
      | _, _, _, _ => 0%Z
      end
  | _ => 0%Z
  end.

(** The bytes of a code point, last first: [uc|0x80 & 0xBF], [uc >>= 6], and
    the first byte marked with the length. *)
Definition utf8_bytes (uc : Z) : string :=
  let cont (z : Z) := chr (Z.land (Z.lor z 128) 191) in
  if (uc <? 128)%Z then String (chr uc) EmptyString
  else if (uc <? 2048)%Z
  then String (chr (Z.lor (Z.shiftr uc 6) 192)) (String (cont uc) EmptyString)
  else if (uc <? 65536)%Z
  then String (chr (Z.lor (Z.shiftr uc 12) 224))
         (String (cont (Z.shiftr uc 6)) (String (cont uc) EmptyString))
  else String (chr (Z.lor (Z.shiftr uc 18) 240))
         (String (cont (Z.shiftr uc 12))
            (String (cont (Z.shiftr uc 6)) (String (cont uc) EmptyString))).

(** First pass of [parse_string]: the number of bytes reserved for the copy;
    [None] when an escape runs over the terminator. *)
Fixpoint string_len (ptr : string) (len : nat) : option nat :=
  match ptr with
  | EmptyString => Some len
  | String c ptr' =>
      if Ascii.eqb c DQUOTE then Some len
      else if Ascii.eqb c BACKSLASH then
        match ptr' with
        | EmptyString => None
        | String _ ptr'' => string_len ptr'' (S len)
        end
      else string_len ptr' (S len)
  end.

(** The [\u] escape: [ptr] is after the [u].  The transcoded bytes and the
    rest, [None] when a pointer passes the terminator. *)
Definition parse_u (ptr : string) : option (string * string) :=
  if (String.length ptr <? 4)%nat then None
  else
    let uc := parse_hex4 ptr in
    let r := sdrop 4 ptr in
    if (((56320 <=? uc) && (uc <=? 57343)) || (uc =? 0))%Z then Some (EmptyString, r)
    else if ((55296 <=? uc) && (uc <=? 56319))%Z then
      if negb (head_is BACKSLASH r && head_is "u" (sdrop 1 r)) then Some (EmptyString, r)
      else if (String.length r <? 6)%nat then None
      else
        let uc2 := parse_hex4 (sdrop 2 r) in
        if ((uc2 <? 56320) || (57343 <? uc2))%Z then Some (EmptyString, sdrop 6 r)
        else Some (utf8_bytes (65536 + Z.lor (Z.shiftl (Z.land uc 1023) 10) (Z.land uc2 1023)),
                   sdrop 6 r)
    else Some (utf8_bytes uc, r).

Definition simple_escape (c : ascii) : ascii :=
  if Ascii.eqb c "b" then chr 8 else if Ascii.eqb c "f" then chr 12
  else if Ascii.eqb c "n" then chr 10 else if Ascii.eqb c "r" then chr 13
  else if Ascii.eqb c "t" then chr 9 else c.

(** Second pass: the unescaped copy and the text from the closing quote (or
    the terminator) on. *)
Fixpoint unescape (fuel : nat) (ptr : string) : presult string :=
  match fuel with
  | O => PFuel
  | S fuel' =>
    match ptr with
    | EmptyString => POk EmptyString EmptyString
    | String c ptr' =>
        if Ascii.eqb c DQUOTE then POk EmptyString ptr
        else if negb (Ascii.eqb c BACKSLASH) then
          pbind (unescape fuel' ptr') (fun out rest => POk (String c out) rest)
        else match ptr' with
        | EmptyString => PUndef
        | String e ptr'' =>
            if Ascii.eqb e "u" then
              match parse_u ptr'' with
              | None => PUndef
              | Some (bs, r) =>
                  pbind (unescape fuel' r) (fun out rest => POk (bs +:+ out) rest)
              end
            else pbind (unescape fuel' ptr'')
                   (fun out rest => POk (String (simple_escape e) out) rest)
        end
    end
  end.

(** [parse_string (item, str)]: the string goes to [valuestring]. *)
Definition parse_string (item : cJSON) (str : string) : presult cJSON :=
  match str with
  | String c ptr =>
      if negb (Ascii.eqb c DQUOTE) then PErr
      else match string_len ptr 0 with
      | None => PUndef
      | Some len =>
          pbind (unescape (S (String.length ptr)) ptr) (fun out rest =>
            if (len <? String.length out)%nat then PUndef
            else
              let rest := if head_is DQUOTE rest then sdrop 1 rest else rest in
              POk (Item cJSON_String (Some (cstr out)) (j_valueint item) (j_valuedouble item)
                     (j_string item) (j_child item)) rest)
      end
  | EmptyString => PErr
  end.

(** [parse_value], [parse_array], [parse_object]: one fuel unit per call. *)
Fixpoint parse_value (fuel : nat) (item : cJSON) (value : string) : presult cJSON :=
  match fuel with
  | O => PFuel
  | S fuel' =>
      if String.prefix "null" value then POk (set_type cJSON_NULL item) (sdrop 4 value)
      else if String.prefix "false" value then POk (set_type cJSON_False item) (sdrop 5 value)
      else if String.prefix "true" value then
        POk (Item cJSON_True (j_valuestring item) 1 (j_valuedouble item) (j_string item)
               (j_child item)) (sdrop 4 value)
      else if head_is DQUOTE value then parse_string item value
      else if head_is "-" value || head_digit value then parse_number item value
      else if head_is "[" value then
        (* parse_array *)
        let value := skip (sdrop 1 value) in
        if head_is "]" value then POk (set_type cJSON_Array item) (sdrop 1 value)
        else pbind (parse_elements fuel' value) (fun l rest =>
               POk (set_child l (set_type cJSON_Array item)) rest)
      else if head_is "{" value then
        (* parse_object *)
        let value := skip (sdrop 1 value) in
        if head_is "}" value then POk (set_type cJSON_Object item) (sdrop 1 value)
        else pbind (parse_members fuel' value) (fun l rest =>
               POk (set_child l (set_type cJSON_Object item)) rest)
      else PErr
  end
(** The elements of an array, up to and including the closing bracket. *)
with parse_elements (fuel : nat) (value : string) : presult (list cJSON) :=
  match fuel with
  | O => PFuel
  | S fuel' =>
      pbind (parse_value fuel' cJSON_New_Item (skip value)) (fun child rest =>
        let rest := skip rest in
        if head_is "," rest then
          pbind (parse_elements fuel' (sdrop 1 rest)) (fun l r => POk (child :: l) r)
        else if head_is "]" rest then POk [child] (sdrop 1 rest)
        else PErr)
  end
(** The members of an object, up to and including the closing brace. *)
with parse_members (fuel : nat) (value : string) : presult (list cJSON) :=
  match fuel with
  | O => PFuel
  | S fuel' =>
      pbind (parse_string cJSON_New_Item (skip value)) (fun key rest =>
        let child := Item (j_type key) None (j_valueint key) (j_valuedouble key)
                          (j_valuestring key) (j_child key) in
        let rest := skip rest in
        if negb (head_is ":" rest) then PErr
        else pbind (parse_value fuel' child (skip (sdrop 1 rest))) (fun child rest =>
          let rest := skip rest in
          if head_is "," rest then
            pbind (parse_members fuel' (sdrop 1 rest)) (fun l r => POk (child :: l) r)
          else if head_is "}" rest then POk [child] (sdrop 1 rest)
          else PErr))
  end.

(** Two calls per byte of text are enough. *)
Definition json_fuel (value : string) : nat := (2 * String.length value + 2)%nat.

Definition cJSON_ParseWithOpts (value : string) (require_null_terminated : bool) : presult cJSON :=
  pbind (parse_value (json_fuel value) cJSON_New_Item (skip value)) (fun c end_ =>
    if require_null_terminated then
      let end_ := skip end_ in
      if streq end_ EmptyString then POk c end_ else PErr
    else POk c end_).

Definition cJSON_Parse (value : string) : presult cJSON := cJSON_ParseWithOpts value false.

(** ** Object access *)

Fixpoint tolower_str (s : string) : string :=
  match s with String c s' => String (tolower c) (tolower_str s') | EmptyString => EmptyString end.

(** [cJSON_strcasecmp (s1, s2) == 0]; a NULL name matches nothing. *)
Definition strcase_eq (s1 : option string) (s2 : string) : bool :=
  match s1 with Some s => streq (tolower_str s) (tolower_str s2) | None => false end.

Definition cJSON_GetObjectItem (object : cJSON) (name : string) : option cJSON :=
  List.find (fun c => strcase_eq (j_string c) name) (j_child object).

Definition cJSON_GetArraySize (array : cJSON) : nat := length (j_child array).
Definition cJSON_GetArrayItem (array : cJSON) (item : nat) : option cJSON :=
  nth_error (j_child array) item.

(** ** Construction *)

Definition cJSON_CreateObject : cJSON := set_type cJSON_Object cJSON_New_Item.
Definition cJSON_CreateArray : cJSON := set_type cJSON_Array cJSON_New_Item.
Definition cJSON_CreateString (s : string) : cJSON :=
  Item cJSON_String (Some s) 0 (S754_zero false) None [].
Definition cJSON_CreateNumber (num : spec_float) : cJSON :=
  Item cJSON_Number None (int_of_f64 num) num None [].

Definition cJSON_AddItemToArray (array item : cJSON) : cJSON :=
  set_child (j_child array ++ [item]) array.
Definition cJSON_AddItemToObject (object : cJSON) (name : string) (item : cJSON) : cJSON :=
  cJSON_AddItemToArray object (set_string (Some name) item).
Definition cJSON_AddStringToObject (object : cJSON) (name s : string) : cJSON :=
  cJSON_AddItemToObject object name (cJSON_CreateString s).
(** The C argument is a [double]; the callers pass an [int] or a [long]. *)
Definition cJSON_AddNumberToObject (object : cJSON) (name : string) (n : Z) : cJSON :=
  cJSON_AddItemToObject object name (cJSON_CreateNumber (f64_of_Z n)).

(** ** Printing *)

Definition needs_escape (c : ascii) : bool :=
  (byte_of c <? 32)%Z || Ascii.eqb c DQUOTE || Ascii.eqb c BACKSLASH.

Definition escape_char (c : ascii) : string :=
  if negb (needs_escape c) then String c EmptyString
  else String BACKSLASH
    (if Ascii.eqb c BACKSLASH then String BACKSLASH EmptyString
     else if Ascii.eqb c DQUOTE then String DQUOTE EmptyString
     else if Ascii.eqb c (chr 8) then "b"
     else if Ascii.eqb c (chr 12) then "f"
     else if Ascii.eqb c (chr 10) then "n"
     else if Ascii.eqb c (chr 13) then "r"
     else if Ascii.eqb c (chr 9) then "t"
     else "u" +:+ pad_hex 4 (byte_of c)).

Fixpoint escape (s : string) : string :=
  match s with
  | String c s' => escape_char c +:+ escape s'
  | EmptyString => EmptyString
  end.

Definition quoted (s : string) : string :=
  String DQUOTE (s +:+ String DQUOTE EmptyString).

(** [print_string_ptr]: a copy when no character needs an escape (the [flag]
    loop), the escaped text otherwise. *)
Definition print_string_ptr (str : string) : string :=
  if sforall (fun c => negb (needs_escape c)) str then quoted str else quoted (escape str).

(** [print_number]: "0", the [%d] of [valueint], or one of the formats of a double.
    [None] is a NaN, the sign of which is not modelled. *)
Definition print_number (item : cJSON) : option string :=
  let d := j_valuedouble item in
  if SFeqb d (S754_zero false) then Some "0"
  else if SFleb (f64_abs (f64_sub (f64_of_Z (j_valueint item)) d)) DBL_EPSILON
          && SFleb d (f64_of_Z INT_MAX) && SFleb (f64_of_Z INT_MIN) d
  then Some (dec_string (j_valueint item))
  else if SFleb (f64_abs (f64_sub (f64_floor d) d)) DBL_EPSILON
          && SFltb (f64_abs d) (f64_of_Z (10 ^ 60))
  then fmt_fixed 0 d
  else if SFltb (f64_abs d) (f64_div (f64_of_Z 1) (f64_of_Z (10 ^ 6)))
          || SFltb (f64_of_Z (10 ^ 9)) (f64_abs d)
  then fmt_exp d
  else fmt_fixed 6 d.

Definition nl_text : string := String LF EmptyString.

Fixpoint tabs (n : nat) : string :=
  match n with O => EmptyString | S n' => String TAB (tabs n') end.

(** [print_value (item, depth, fmt)].  [None] is a NULL result (or a NULL string
    read by [print_string_ptr]). *)
Fixpoint print_value (item : cJSON) (depth : nat) (fmt : bool) : option string :=
  match j_type item with
  | cJSON_NULL => Some "null"
  | cJSON_False => Some "false"
  | cJSON_True => Some "true"
  | cJSON_Number => print_number item
  | cJSON_String => option_map print_string_ptr (j_valuestring item)
  | cJSON_Array =>
      let sep := if fmt then ", " else "," in
      option_map (fun body => "[" +:+ body +:+ "]")
        ((fix entries (l : list cJSON) : option string :=
            match l with
            | [] => Some EmptyString
            | c :: l' =>
                match print_value c (S depth) fmt, entries l' with
                | Some s, Some r =>
                    Some (s +:+ match l' with [] => EmptyString | _ => sep +:+ r end)
                | _, _ => None
                end
            end) (j_child item))
  | cJSON_Object =>
      match j_child item with
      | [] => Some ("{" +:+ (if fmt then String LF (tabs (depth - 1)) else EmptyString) +:+ "}")
      | _ =>
        option_map (fun body =>
            "{" +:+ (if fmt then nl_text else EmptyString) +:+ body
            +:+ (if fmt then tabs depth else EmptyString) +:+ "}")
        ((fix members (l : list cJSON) : option string :=
            match l with
            | [] => Some EmptyString
            | c :: l' =>
                match j_string c, print_value c (S depth) fmt, members l' with
                | Some name, Some s, Some r =>
                    Some ((if fmt then tabs (S depth) else EmptyString)
                          +:+ print_string_ptr name +:+ ":"
                          +:+ (if fmt then String TAB EmptyString else EmptyString) +:+ s
                          +:+ (match l' with [] => EmptyString | _ => "," end)
                          +:+ (if fmt then nl_text else EmptyString) +:+ r)
                | _, _, _ => None
                end
            end) (j_child item))
      end
  end.

Definition cJSON_Print (item : cJSON) : option string := print_value item 0 true.
Definition cJSON_PrintUnformatted (item : cJSON) : option string := print_value item 0 false.

(** ** The parser terminates *)

Lemma skip_length s : (String.length (skip s) <= String.length s)%nat.
Proof.
  induction s as [|c s IH]; simpl; [lia|]. destruct (byte_of c <=? 32)%Z; simpl; lia.
Qed.

Lemma head_is_length c s : head_is c s = true -> (0 < String.length s)%nat.
Proof. destruct s; [done|simpl; lia]. Qed.

(** [shorter n r]: when [r] succeeds, at most [n] bytes are left. *)
Definition shorter {A} (n : nat) (r : presult A) : Prop :=
  match r with POk _ rest => (String.length rest <= n)%nat | _ => True end.

Definition no_fuel_out {A} (r : presult A) : Prop :=
  match r with PFuel => False | _ => True end.

(** [r] succeeds with at most [n] bytes left, or fails, but not for lack of
    fuel. *)
Definition parses {A} (n : nat) (r : presult A) : Prop := shorter n r /\ no_fuel_out r.

Lemma parses_bind {A B} n m (r : presult A) (f : A -> string -> presult B) :
  parses n r ->
  (forall a rest, (String.length rest <= n)%nat -> parses m (f a rest)) ->
  parses m (pbind r f).
Proof. intros [Hs Hf] H. destruct r; simpl in *; try done. by apply H. Qed.

Lemma parses_ok {A} n (a : A) rest : (String.length rest <= n)%nat -> parses n (POk a rest).
Proof. done. Qed.

Lemma parses_err {A} n : parses n (@PErr A).
Proof. done. Qed.

Lemma parses_undef {A} n : parses n (@PUndef A).
Proof. done. Qed.

#[local] Hint Resolve parses_ok parses_err parses_undef : hf_core.

Lemma num_digits_length s n k :
  (String.length (snd (num_digits s n k)) <= String.length s)%nat.
Proof.
  revert n k. induction s as [|c s IH]; intros n k; simpl; [lia|].
  destruct (isdigit c); [|simpl; lia]. etrans; [apply IH|lia].
Qed.

Lemma exp_digits_length s k : (String.length (snd (exp_digits s k)) <= String.length s)%nat.
Proof.
  revert k. induction s as [|c s IH]; intros k; simpl; [lia|].
  destruct (isdigit c); [|simpl; lia]. etrans; [apply IH|lia].
Qed.

(** [num_digits] on a digit consumes it. *)
Lemma num_digits_consumes s n k :
  head_digit s = true -> (String.length (snd (num_digits s n k)) < String.length s)%nat.
Proof.
  destruct s as [|c s]; [done|]. cbn [head_digit num_digits]. intros ->.
  eapply Nat.le_lt_trans; [apply num_digits_length|]. simpl. lia.
Qed.

Lemma sdrop1_length s : (String.length (sdrop 1 s) <= String.length s)%nat.
Proof. rewrite sdrop_length. lia. Qed.

Lemma parse_number_parses item num :
  head_is "-" num || head_digit num = true ->
  parses (String.length num - 1) (parse_number item num).
Proof.
  intros Hhead. unfold parse_number.
  set (p1 := if head_is "-" num then ((-1)%Z, sdrop 1 num) else (1%Z, num)).
  assert (String.length (snd p1) <= String.length num - 1
          \/ (head_digit num = true /\ snd p1 = num))%nat as H1.
  { unfold p1. destruct (head_is "-" num); cbn [snd orb] in *; [left; rewrite sdrop_length; lia|auto]. }
  clear Hhead. destruct p1 as [sign num1]. simpl in H1.
  set (num2 := if head_is "0" num1 then sdrop 1 num1 else num1).
  set (p3 := if head_digit num2 && negb (head_is "0" num2) then _ else _).
  assert (String.length (snd p3) <= String.length num - 1)%nat as H3.
  { unfold p3, num2. destruct H1 as [H1|[Hd ->]].
    - destruct (head_is "0" num1); [pose proof (sdrop1_length num1)|];
        (destruct (_ && _); cbn [snd]; [etrans; [apply num_digits_length|]|]; lia).
    - destruct (head_is "0" num) eqn:E0.
      + pose proof (sdrop_length 1 num).
        destruct (_ && _); cbn [snd]; [etrans; [apply num_digits_length|]|]; lia.
      + rewrite Hd, E0. cbn [andb negb]. pose proof (num_digits_consumes num (f64_of_Z 0) 0 Hd). lia. }
  destruct p3 as [[n3 k3] num3]. simpl in H3.
  set (p4 := if head_is "." num3 && _ then _ else _).
  assert (String.length (snd p4) <= String.length num - 1)%nat as H4.
  { unfold p4. destruct (_ && _); cbn [snd]; [|lia].
    etrans; [apply num_digits_length|]. pose proof (sdrop1_length num3). lia. }
  destruct p4 as [[n4 k4] num4]. simpl in H4.
  set (p5 := if head_is "e" num4 || _ then _ else _).
  assert (String.length (snd p5) <= String.length num - 1)%nat as H5.
  { unfold p5. destruct (_ || _); cbn [snd]; [|lia].
    pose proof (sdrop1_length num4). pose proof (sdrop1_length (sdrop 1 num4)).
    destruct (head_is "+" _); [etrans; [apply exp_digits_length|lia]|].
    destruct (head_is "-" _); [|etrans; [apply exp_digits_length|lia]].
    pose proof (exp_digits_length (sdrop 1 (sdrop 1 num4)) 0).
    destruct (exp_digits _ 0). simpl in *. lia. }
  destruct p5 as [k5 num5]. simpl in H5. by apply parses_ok.
Qed.

Lemma parse_u_length ptr bs r :
  parse_u ptr = Some (bs, r) -> (String.length r <= String.length ptr)%nat.
Proof.
  unfold parse_u. pose proof (sdrop_length 4 ptr) as H4. set (r4 := sdrop 4 ptr) in *.
  pose proof (sdrop_length 6 r4) as H6. set (r6 := sdrop 6 r4) in *. clearbody r6 r4.
  repeat (case_match; try done); intros [= _ <-]; lia.
Qed.

Lemma unescape_parses fuel ptr :
  (String.length ptr < fuel)%nat -> parses (String.length ptr) (unescape fuel ptr).
Proof.
  revert ptr. induction fuel as [|fuel IH]; intros ptr Hf; [lia|]. cbn [unescape].
  destruct ptr as [|c ptr]; [by apply parses_ok|]. cbn [String.length] in *.
  destruct (Ascii.eqb c DQUOTE); [apply parses_ok; simpl; lia|].
  destruct (negb (Ascii.eqb c BACKSLASH)).
  { eapply parses_bind; [apply IH; lia|]. intros. apply parses_ok. lia. }
  destruct ptr as [|e ptr]; [done|]. cbn [String.length] in *.
  destruct (Ascii.eqb e "u").
  - destruct (parse_u ptr) as [[bs r]|] eqn:Eu; [|done]. apply parse_u_length in Eu.
    eapply parses_bind; [apply IH; lia|]. intros. apply parses_ok. lia.
  - eapply parses_bind; [apply IH; lia|]. intros. apply parses_ok. lia.
Qed.

Lemma parse_string_parses item str :
  parses (String.length str - 1) (parse_string item str).
Proof.
  unfold parse_string. destruct str as [|c ptr]; [done|]. cbn [String.length].
  destruct (negb _); [done|]. destruct (string_len ptr 0); [|done].
  eapply parses_bind; [apply unescape_parses; lia|]. intros out rest Hr.
  destruct (_ <? _)%nat; [done|]. apply parses_ok.
  destruct (head_is DQUOTE rest); [rewrite sdrop_length|]; lia.
Qed.

(** One induction for the three mutually recursive parsers. *)
Lemma parsers_parse fuel :
  (forall item v, (2 * String.length v + 1 <= fuel)%nat ->
     parses (String.length v - 1) (parse_value fuel item v))
  /\ (forall v, (2 * String.length v + 2 <= fuel)%nat ->
     parses (String.length v - 1) (parse_elements fuel v))
  /\ (forall v, (2 * String.length v + 2 <= fuel)%nat ->
     parses (String.length v - 1) (parse_members fuel v)).
Proof.
  induction fuel as [|fuel (IHv & IHe & IHm)]; [repeat split; intros; lia|].
  split; [|split].
  - intros item v Hf. cbn [parse_value].
    pose proof (sdrop_length 4 v). pose proof (sdrop_length 5 v).
    destruct (String.prefix "null" v); [apply parses_ok; lia|].
    destruct (String.prefix "false" v); [apply parses_ok; lia|].
    destruct (String.prefix "true" v); [apply parses_ok; lia|].
    destruct (head_is DQUOTE v); [apply parse_string_parses|].
    destruct (head_is "-" v || head_digit v) eqn:Ed; [by apply parse_number_parses|].
    pose proof (skip_length (sdrop 1 v)) as Hs. rewrite sdrop_length in Hs.
    pose proof (sdrop_length 1 (skip (sdrop 1 v))).
    destruct (head_is "[" v) eqn:E1; [apply head_is_length in E1|].
    { destruct (head_is "]" _); [apply parses_ok; lia|].
      eapply parses_bind; [apply IHe; lia|]. intros; apply parses_ok; lia. }
    destruct (head_is "{" v) eqn:E2; [apply head_is_length in E2|done].
    destruct (head_is "}" _); [apply parses_ok; lia|].
    eapply parses_bind; [apply IHm; lia|]. intros; apply parses_ok; lia.
  - intros v Hf. cbn [parse_elements]. pose proof (skip_length v).
    eapply parses_bind; [apply IHv; lia|]. intros child rest Hr.
    pose proof (skip_length rest). pose proof (sdrop_length 1 (skip rest)).
    destruct (head_is "," (skip rest)) eqn:E; [apply head_is_length in E|].
    + eapply parses_bind; [apply IHe; lia|]. intros; apply parses_ok; lia.
    + destruct (head_is "]" _); [apply parses_ok; lia|done].
  - intros v Hf. cbn [parse_members]. pose proof (skip_length v).
    eapply parses_bind; [apply parse_string_parses|]. intros key rest Hr.
    destruct (head_is ":" (skip rest)) eqn:E; [apply head_is_length in E|done]. cbn [negb].
    pose proof (skip_length rest). pose proof (skip_length (sdrop 1 (skip rest))) as Hs.
    rewrite sdrop_length in Hs.
    eapply parses_bind; [apply IHv; lia|]. intros child rest' Hr'.
    pose proof (skip_length rest'). pose proof (sdrop_length 1 (skip rest')).
    destruct (head_is "," (skip rest')) eqn:E'; [apply head_is_length in E'|].
    + eapply parses_bind; [apply IHm; lia|]. intros; apply parses_ok; lia.
    + destruct (head_is "}" _); [apply parses_ok; lia|done].
Qed.

