(* ===== verification/CJsonRound.v ===== *)
(** * Printing and parsing back

    The round trip of cJSON.c: what the printer writes for a tree of objects,
    arrays, strings, constants and whole numbers of up to 53 bits, the parser
    reads back to the same tree.  Numbers go through doubles, which are exact on
    integers of up to 53 bits (Float64.v). *)

From S2P Require Import Prelude CLib Float64 CJson.
From Stdlib Require Import Floats.SpecFloat.

(** ** Strings *)

(** The three shapes of an escaped character, checked for all 256 bytes. *)
Definition escape_check (c : ascii) : bool :=
  Ascii.eqb c NUL ||
  match escape_char c with
  | String x EmptyString =>
      Ascii.eqb x c && negb (Ascii.eqb x DQUOTE) && negb (Ascii.eqb x BACKSLASH)
  | String b (String e EmptyString) =>
      Ascii.eqb b BACKSLASH && negb (Ascii.eqb e "u") && Ascii.eqb (simple_escape e) c
  | String b (String e (String h1 (String h2 (String h3 (String h4 EmptyString))))) =>
      Ascii.eqb b BACKSLASH && Ascii.eqb e "u"
      && forallb (fun h => negb (Ascii.eqb h DQUOTE || Ascii.eqb h BACKSLASH)) [h1; h2; h3; h4]
      && match hex_val h1, hex_val h2, hex_val h3, hex_val h4 with
         | Some a, Some b, Some c', Some d =>
             let uc := (((a * 16 + b) * 16 + c') * 16 + d)%Z in
             (0 <? uc)%Z && (uc <? 128)%Z && Ascii.eqb (chr uc) c
         | _, _, _, _ => false
         end
  | _ => false
  end.

Lemma escape_check_all c : escape_check c = true.
Proof. destruct c as [[] [] [] [] [] [] [] []]; vm_compute; reflexivity. Qed.

Lemma unescape_escape_char f c t :
  Ascii.eqb c NUL = false ->
  unescape (S f) (escape_char c +:+ t)
  = pbind (unescape f t) (fun out rest => POk (String c out) rest).
Proof.
  intros Hc. pose proof (escape_check_all c) as H. unfold escape_check in H. rewrite Hc in H.
  simpl orb in H.
  destruct (escape_char c) as [|x [|e [|h1 [|h2 [|h3 [|h4 [|]]]]]]] eqn:E; try done;
    rewrite !string_app_cons, ?string_app_nil_l; cbn [unescape].
  - apply andb_prop in H as [[->%Ascii.eqb_eq H1%negb_true_iff]%andb_prop H%negb_true_iff].
    rewrite H1, H. done.
  - apply andb_prop in H as [[->%Ascii.eqb_eq H1%negb_true_iff]%andb_prop H%Ascii.eqb_eq].
    change (Ascii.eqb BACKSLASH DQUOTE) with false. change (Ascii.eqb BACKSLASH BACKSLASH) with true.
    cbn [negb]. by rewrite H1, H.
  - apply andb_prop in H as [[[->%Ascii.eqb_eq ->%Ascii.eqb_eq]%andb_prop _]%andb_prop H].
    change (Ascii.eqb BACKSLASH DQUOTE) with false. change (Ascii.eqb BACKSLASH BACKSLASH) with true.
    change (Ascii.eqb "u" "u") with true. cbn [negb].
    unfold parse_u. cbn [String.length Nat.ltb Nat.leb sdrop parse_hex4].
    destruct (hex_val h1) as [a|], (hex_val h2) as [b|], (hex_val h3) as [c'|],
      (hex_val h4) as [d|]; try done.
    set (uc := (((a * 16 + b) * 16 + c') * 16 + d)%Z) in *.
    apply andb_prop in H as [[Hlo Hhi]%andb_prop H%Ascii.eqb_eq].
    destruct (((56320 <=? uc) && (uc <=? 57343)) || (uc =? 0))%Z eqn:E1; [lia|].
    destruct ((55296 <=? uc) && (uc <=? 56319))%Z eqn:E2; [lia|].
    unfold utf8_bytes. destruct (uc <? 128)%Z eqn:E3; [|lia]. by rewrite H.
Qed.

Lemma string_len_escape_char c t n :
  Ascii.eqb c NUL = false ->
  exists k, (1 <= k)%nat /\ string_len (escape_char c +:+ t) n = string_len t (n + k).
Proof.
  intros Hc. pose proof (escape_check_all c) as H. unfold escape_check in H. rewrite Hc in H.
  simpl orb in H.
  destruct (escape_char c) as [|x [|e [|h1 [|h2 [|h3 [|h4 [|]]]]]]] eqn:E; try done;
    rewrite !string_app_cons, ?string_app_nil_l; cbn [string_len].
  - apply andb_prop in H as [[_ H1%negb_true_iff]%andb_prop H%negb_true_iff].
    rewrite H1, H. exists 1%nat. split; [lia|]. f_equal. lia.
  - apply andb_prop in H as [[->%Ascii.eqb_eq _]%andb_prop _]. exists 1%nat. split; [lia|].
    change (Ascii.eqb BACKSLASH DQUOTE) with false. change (Ascii.eqb BACKSLASH BACKSLASH) with true.
    f_equal. lia.
  - apply andb_prop in H as [[[->%Ascii.eqb_eq _]%andb_prop H2]%andb_prop _].
    simpl in H2. split_andb.
    repeat match goal with
    | Hn : negb (_ || _) = true |- _ =>
        apply negb_true_iff, orb_false_iff in Hn; destruct Hn as [? ?]
    end.
    exists 5%nat. split; [lia|].
    change (Ascii.eqb BACKSLASH DQUOTE) with false. change (Ascii.eqb BACKSLASH BACKSLASH) with true.
    cbn iota. repeat match goal with Hn : Ascii.eqb _ _ = false |- _ => rewrite !Hn; clear Hn end.
    f_equal. lia.
Qed.

Lemma no_nul_cons c s : no_nul (String c s) = true -> Ascii.eqb c NUL = false /\ no_nul s = true.
Proof. unfold no_nul. simpl. intros [H1 H2]%andb_prop. by apply negb_true_iff in H1. Qed.

Lemma unescape_escape s rest f :
  no_nul s = true -> (String.length s < f)%nat ->
  unescape f (escape s +:+ String DQUOTE rest) = POk s (String DQUOTE rest).
Proof.
  revert f. induction s as [|c s IH]; intros f Hs Hf; (destruct f as [|f]; [simpl in Hf; lia|]).
  - done.
  - apply no_nul_cons in Hs as [Hc Hs]. cbn [escape]. rewrite <- string_app_assoc.
    rewrite unescape_escape_char, IH by (done || simpl in Hf; lia). done.
Qed.

Lemma string_len_escape s rest n :
  no_nul s = true ->
  exists k, (String.length s <= k)%nat
    /\ string_len (escape s +:+ String DQUOTE rest) n = Some (n + k)%nat.
Proof.
  revert n. induction s as [|c s IH]; intros n Hs.
  - exists 0%nat. split; [done|]. cbn [escape]. rewrite string_app_nil_l. cbn [string_len].
    rewrite Ascii.eqb_refl. f_equal. lia.
  - apply no_nul_cons in Hs as [Hc Hs]. cbn [escape]. rewrite <- string_app_assoc.
    destruct (string_len_escape_char c (escape s +:+ String DQUOTE rest) n Hc) as (k & Hk & ->).
    destruct (IH (n + k)%nat Hs) as (k' & Hk' & ->). exists (k + k')%nat.
    split; [simpl; lia|]. f_equal. lia.
Qed.

Lemma escape_plain s : sforall (fun c => negb (needs_escape c)) s = true -> escape s = s.
Proof.
  induction s as [|c s IH]; [done|]. simpl. intros [Hc Hs]%andb_prop. rewrite IH by done.
  unfold escape_char. rewrite Hc. done.
Qed.

(** The copying fast path prints what the escaping loop would. *)
Lemma print_string_ptr_escape s : print_string_ptr s = quoted (escape s).
Proof.
  unfold print_string_ptr. destruct (sforall _ s) eqn:E; [|done]. by rewrite escape_plain.
Qed.

Lemma parse_print_string item s rest :
  no_nul s = true ->
  parse_string item (print_string_ptr s +:+ rest)
  = POk (Item cJSON_String (Some s) (j_valueint item) (j_valuedouble item) (j_string item)
           (j_child item)) rest.
Proof.
  intros Hs. rewrite print_string_ptr_escape. unfold quoted.
  rewrite string_app_cons, <- string_app_assoc, string_app_cons, string_app_nil_l.
  unfold parse_string. rewrite Ascii.eqb_refl. cbn [negb].
  destruct (string_len_escape s rest 0 Hs) as (k & Hk & ->).
  rewrite unescape_escape; [|done|].
  - cbn [pbind]. destruct (Nat.ltb_spec (0 + k) (String.length s)); [lia|].
    cbn [head_is]. rewrite Ascii.eqb_refl, cstr_id by done. done.
  - rewrite string_length_app.
    assert (String.length s <= String.length (escape s))%nat; [|simpl; lia].
    clear. induction s as [|c s IH]; [done|]. cbn [escape]. rewrite string_length_app.
    assert (1 <= String.length (escape_char c))%nat; [|simpl; lia].
    unfold escape_char. destruct (negb _); simpl; lia.
Qed.

(** ** Numbers *)

(** A text that does not continue a number. *)
Definition number_end (rest : string) : bool :=
  match rest with
  | String c _ => negb (isdigit c || Ascii.eqb c "." || Ascii.eqb c "e" || Ascii.eqb c "E")
  | EmptyString => true
  end.

Lemma dec_digits_app fuel n acc t : dec_digits fuel n acc +:+ t = dec_digits fuel n (acc +:+ t).
Proof.
  revert n acc. induction fuel as [|fuel IH]; intros n acc; [done|]. cbn [dec_digits].
  destruct (n <? 10)%Z; [done|]. by rewrite IH.
Qed.

(** The digit loop computes the integer, as long as it fits a double. *)
Lemma num_digits_dec fuel n acc sc :
  (0 <= n < 10 ^ Z.of_nat fuel)%Z -> (n < 2 ^ 53)%Z ->
  exists k, num_digits (dec_digits fuel n acc) (f64_of_Z 0) sc = num_digits acc (f64_of_Z n) k.
Proof.
  revert n acc. induction fuel as [|fuel IH]; intros n acc Hn Hmax.
  - exists sc. simpl in Hn. by assert (n = 0%Z) as -> by lia.
  - cbn [dec_digits]. pose proof (Z.mod_pos_bound n 10 ltac:(lia)) as Hm.
    destruct (Z.ltb_spec n 10) as [Hl|Hge].
    + exists (sc - 1)%Z. cbn [num_digits].
      rewrite isdigit_digit_chr, digit_val_digit_chr, Z.mod_small by lia.
      rewrite f64_mul_exact, f64_add_exact by (unfold fits53; lia). done.
    + rewrite Nat2Z.inj_succ, Z.pow_succ_r in Hn by lia.
      assert (n / 10 <= n)%Z by (apply Z.div_le_upper_bound; lia).
      destruct (IH (n / 10)%Z (String (digit_chr (n mod 10)) acc)) as [k ->].
      { split; [apply Z.div_pos; lia|]. apply Z.div_lt_upper_bound; lia. }
      { lia. }
      exists (k - 1)%Z. cbn [num_digits]. rewrite isdigit_digit_chr, digit_val_digit_chr by lia.
      pose proof (Z_div_mod_eq_full n 10). assert (0 <= n / 10)%Z by (apply Z.div_pos; lia).
      rewrite f64_mul_exact, f64_add_exact by (unfold fits53; lia). do 2 f_equal. lia.
Qed.

(** The first digit of a positive number is not 0. *)
Lemma dec_digits_head_pos fuel n acc :
  (0 < n < 10 ^ Z.of_nat fuel)%Z ->
  exists d s, dec_digits fuel n acc = String (digit_chr d) s /\ (1 <= d < 10)%Z.
Proof.
  revert n acc. induction fuel as [|fuel IH]; intros n acc Hn; [simpl in Hn; lia|]. cbn [dec_digits].
  destruct (Z.ltb_spec n 10) as [Hl|Hge].
  - exists n, acc. rewrite Z.mod_small by lia. split; [done|lia].
  - rewrite Nat2Z.inj_succ, Z.pow_succ_r in Hn by lia. apply IH.
    assert (0 < n / 10)%Z by (apply Z.div_str_pos; lia).
    split; [done|]. apply Z.div_lt_upper_bound; lia.
Qed.

Lemma digit_chr_facts d :
  (0 <= d < 10)%Z ->
  Ascii.eqb (digit_chr d) "-" = false /\ Ascii.eqb (digit_chr d) "0" = (d =? 0)%Z.
Proof.
  intros Hd. unfold digit_chr.
  assert (d = 0 \/ d = 1 \/ d = 2 \/ d = 3 \/ d = 4 \/ d = 5 \/ d = 6 \/ d = 7 \/ d = 8 \/ d = 9)%Z as H by lia.
  repeat destruct H as [->|H]; try (by split; vm_compute). subst d. by split; vm_compute.
Qed.

Lemma number_end_stops rest n k :
  number_end rest = true ->
  num_digits rest n k = (n, k, rest) /\ head_digit rest = false /\ head_is "." rest = false
  /\ head_is "e" rest = false /\ head_is "E" rest = false.
Proof.
  destruct rest as [|c rest]; [done|]. cbn [number_end num_digits head_digit head_is].
  intros H%negb_true_iff. repeat apply orb_false_iff in H as [H ?]. rewrite H. done.
Qed.

(** The text of a number below 2^53 without sign. *)
Lemma parse_magnitude n rest :
  (0 <= n < 2 ^ 53)%Z -> number_end rest = true ->
  let text := dec_digits (dec_fuel n) n EmptyString +:+ rest in
  let num := if head_is "0" text then sdrop 1 text else text in
  head_is "-" text = false
  /\ exists k, (if head_digit num && negb (head_is "0" num) then num_digits num (f64_of_Z 0) 0%Z
      else (f64_of_Z 0, 0%Z, num)) = (f64_of_Z n, k, rest).
Proof.
  intros Hn Hend text num. subst text num. rewrite dec_digits_app, string_app_nil_l.
  destruct (number_end_stops rest (f64_of_Z 0) 0 Hend) as (_ & Hd & _).
  destruct (Z.eq_dec n 0%Z) as [->|Hne].
  - split; [done|]. exists 0%Z. change (dec_digits (dec_fuel 0) 0 rest) with (String "0" rest).
    cbn [head_is]. rewrite Ascii.eqb_refl. cbn [sdrop]. by rewrite Hd.
  - pose proof (dec_fuel_enough n ltac:(lia)) as Hf.
    destruct (num_digits_dec (dec_fuel n) n rest 0 ltac:(lia) ltac:(lia)) as [k Hk].
    destruct (dec_digits_head_pos (dec_fuel n) n rest ltac:(lia)) as (d & s & Hs & Hdr). rewrite Hs in *.
    destruct (digit_chr_facts d ltac:(lia)) as [H1 H2]. cbn [head_is]. rewrite H1, H2.
    split; [done|]. destruct (Z.eqb_spec d 0); [lia|]. cbn [head_digit head_is]. rewrite H2, isdigit_digit_chr by lia.
    destruct (Z.eqb_spec d 0); [lia|]. cbn [andb negb]. rewrite Hk. exists k.
    by destruct (number_end_stops rest (f64_of_Z n) k Hend) as (-> & _).
Qed.

(** The text of a whole number is read back as its double; [valueint] is the
    conversion of that. *)
Lemma parse_whole item z rest :
  fits53 z -> number_end rest = true ->
  parse_number item (dec_string z +:+ rest)
  = POk (Item cJSON_Number (j_valuestring item) (int_of_f64 (f64_of_Z z)) (f64_of_Z z) (j_string item) (j_child item)) rest.
Proof.
  intros Hz Hend. pose proof Hz as Hz'. unfold fits53 in Hz'.
  destruct (number_end_stops rest (f64_of_Z 0) 0 Hend) as (_ & _ & Hdot & He & HE).
  unfold parse_number, dec_string. destruct (Z.ltb_spec z 0) as [Hneg|Hpos].
  - rewrite string_app_cons. change (head_is "-" (String (chr 45) ?x)) with true. cbv beta iota zeta.
    change (sdrop 1 (String (chr 45) ?x)) with x.
    destruct (parse_magnitude (- z) rest ltac:(lia) Hend) as (_ & k & Hk). cbv beta iota zeta in Hk. rewrite Hk.
    cbv beta iota. rewrite Hdot. cbn [andb]. cbv beta iota. rewrite He, HE. cbn [orb]. cbv beta iota zeta.
    change (f64_pow10 (0 + 0)) with (f64_of_Z 1).
    rewrite !f64_mul_exact by (unfold fits53; lia). by replace (-1 * - z * 1)%Z with z by lia.
  - destruct (parse_magnitude z rest ltac:(lia) Hend) as (-> & k & Hk). cbv beta iota zeta in *. rewrite Hk.
    cbv beta iota. rewrite Hdot. cbn [andb]. cbv beta iota. rewrite He, HE. cbn [orb]. cbv beta iota zeta.
    change (f64_pow10 (0 + 0)) with (f64_of_Z 1).
    rewrite !f64_mul_exact by (unfold fits53; lia). by replace (1 * z * 1)%Z with z by lia.
Qed.

(** Numbers of type [int] are printed by [%d], larger ones by [%.0f]. *)
Lemma print_whole nm z :
  fits53 z ->
  print_number (Item cJSON_Number None (int_of_f64 (f64_of_Z z)) (f64_of_Z z) nm []) = Some (dec_string z).
Proof.
  intros Hf. pose proof Hf as Hf'. unfold fits53 in Hf'. unfold print_number. cbn [j_valuedouble j_valueint].
  change (S754_zero false) with (f64_of_Z 0) at 1. unfold SFeqb. rewrite f64_compare by (done || unfold fits53; lia).
  destruct (Z.compare_spec z 0) as [->|Hne|Hne]; [done| |]; unfold SFleb;
    rewrite !f64_compare by (done || unfold fits53, INT_MIN, INT_MAX; lia).
  all: destruct (Z.compare_spec z INT_MAX), (Z.compare_spec INT_MIN z); unfold INT_MIN, INT_MAX in *; try lia;
    rewrite ?andb_false_r; cbn [andb];
    try (rewrite int_of_f64_of_Z, f64_sub_same by (done || unfold is_int, INT_MIN, INT_MAX; lia); reflexivity).
  all: rewrite f64_floor_whole, f64_sub_same by done;
    change (SFcompare (f64_abs (S754_zero false)) DBL_EPSILON) with (Some Lt); cbn [andb];
    change (f64_of_Z (10 ^ 60)) with (S754_finite false 5605193857299268 147);
    rewrite f64_whole_small by (done || lia); apply fmt_fixed_whole; [done|lia].
Qed.

(** Induction over items and their children. *)
Section CJsonInd.
Variable P : cJSON -> Prop.
Hypothesis Hitem : forall ty vs vi vd nm ch, Forall P ch -> P (Item ty vs vi vd nm ch).
Fixpoint cJSON_tree_ind (c : cJSON) : P c :=
  match c with
  | Item ty vs vi vd nm ch =>
      Hitem ty vs vi vd nm ch
        ((fix all (l : list cJSON) : Forall P l :=
            match l with
            | [] => @Forall_nil _ P
            | x :: l' => @Forall_cons _ P x l' (cJSON_tree_ind x) (all l')
            end) ch)
  end.
End CJsonInd.

Definition fresh_fields (vs : option string) (vi : Z) (vd : spec_float) : Prop :=
  vs = None /\ vi = 0%Z /\ vd = S754_zero false.

(** Trees in the form the parser builds: unused fields are zero, numbers are
    whole, elements of arrays have no name, members of objects have one. *)
Inductive text_tree : cJSON -> Prop :=
| text_null nm : text_tree (Item cJSON_NULL None 0 (S754_zero false) nm [])
| text_false nm : text_tree (Item cJSON_False None 0 (S754_zero false) nm [])
| text_true nm : text_tree (Item cJSON_True None 1 (S754_zero false) nm [])
| text_string s nm :
    no_nul s = true -> text_tree (Item cJSON_String (Some s) 0 (S754_zero false) nm [])
| text_number z nm :
    fits53 z -> text_tree (Item cJSON_Number None (int_of_f64 (f64_of_Z z)) (f64_of_Z z) nm [])
| text_array nm ch :
    Forall text_tree ch -> Forall (fun c => j_string c = None) ch ->
    text_tree (Item cJSON_Array None 0 (S754_zero false) nm ch)
| text_object nm ch :
    Forall text_tree ch ->
    Forall (fun c => exists n, j_string c = Some n /\ no_nul n = true) ch ->
    text_tree (Item cJSON_Object None 0 (S754_zero false) nm ch).

Fixpoint tree_size (c : cJSON) : nat :=
  match c with
  | Item _ _ _ _ _ ch =>
      S ((fix sum (l : list cJSON) : nat :=
            match l with [] => 1 | x :: l' => S (tree_size x + sum l') end) ch)
  end.

Fixpoint sizes (l : list cJSON) : nat :=
  match l with [] => 1 | x :: l' => S (tree_size x + sizes l') end.

(** A text that starts with a character that [skip] keeps and that is no
    closing bracket. *)
Definition solid (s : string) : Prop :=
  match s with
  | String c _ => (32 < byte_of c)%Z /\ Ascii.eqb c "]" = false
  | EmptyString => False
  end.

Lemma skip_solid s : solid s -> skip s = s.
Proof. destruct s as [|c s]; [done|]. simpl. intros [H _]. destruct (Z.leb_spec (byte_of c) 32); [lia|done]. Qed.

Lemma solid_no_close s : solid s -> head_is "]" s = false.
Proof. destruct s; [done|]. by intros [_ ?]. Qed.

Lemma solid_app s t : solid s -> solid (s +:+ t).
Proof. by destruct s. Qed.

Lemma skip_tabs n s : skip (tabs n +:+ s) = skip s.
Proof. induction n as [|n IH]; [done|]. cbn [tabs]. rewrite string_app_cons. exact IH. Qed.

(** The text of the elements and of the members, as functions. *)
Fixpoint print_entries (d : nat) (f : bool) (l : list cJSON) : option string :=
  match l with
  | [] => Some EmptyString
  | c :: l' =>
      match print_value c (S d) f, print_entries d f l' with
      | Some s, Some r =>
          Some (s +:+ match l' with [] => EmptyString | _ => (if f then ", " else ",") +:+ r end)
      | _, _ => None
      end
  end.

Fixpoint print_members (d : nat) (f : bool) (l : list cJSON) : option string :=
  match l with
  | [] => Some EmptyString
  | c :: l' =>
      match j_string c, print_value c (S d) f, print_members d f l' with
      | Some name, Some s, Some r =>
          Some ((if f then tabs (S d) else EmptyString)
                +:+ print_string_ptr name +:+ ":"
                +:+ (if f then String TAB EmptyString else EmptyString) +:+ s
                +:+ (match l' with [] => EmptyString | _ => "," end)
                +:+ (if f then nl_text else EmptyString) +:+ r)
      | _, _, _ => None
      end
  end.

Lemma print_array_eq vs vi vd nm ch d f :
  print_value (Item cJSON_Array vs vi vd nm ch) d f
  = option_map (fun body => "[" +:+ body +:+ "]") (print_entries d f ch).
Proof.
  cbn [print_value j_type j_child]. f_equal. induction ch as [|c ch IH]; [done|].
  cbn [print_entries]. rewrite <- IH. reflexivity.
Qed.

Lemma print_object_eq vs vi vd nm c ch d f :
  print_value (Item cJSON_Object vs vi vd nm (c :: ch)) d f
  = option_map (fun body => "{" +:+ (if f then nl_text else EmptyString) +:+ body
       +:+ (if f then tabs d else EmptyString) +:+ "}") (print_members d f (c :: ch)).
Proof.
  cbn [print_value print_members j_type j_child]. f_equal.
  match goal with |- context [?g ch] =>
    match g with context [tabs] =>
      assert (forall l, g l = print_members d f l) as ->; [|done] end
  end.
  induction l as [|x l IH]; [done|]. cbn [print_members]. rewrite <- IH. reflexivity.
Qed.

Lemma number_head_facts c :
  isdigit c || Ascii.eqb c (chr 45) = true ->
  (32 < byte_of c)%Z /\ Ascii.eqb c "]" = false /\ Ascii.eqb c DQUOTE = false
  /\ forall s, String.prefix "null" (String c s) = false /\ String.prefix "false" (String c s) = false
     /\ String.prefix "true" (String c s) = false.
Proof.
  destruct c as [[] [] [] [] [] [] [] []]; intros H; try (vm_compute in H; discriminate H);
    (split; [by vm_compute|]); repeat split; reflexivity.
Qed.

(** A number starts with a digit or a minus sign. *)
Lemma dec_string_head z :
  exists c s, dec_string z = String c s /\ isdigit c || Ascii.eqb c (chr 45) = true.
Proof.
  unfold dec_string. destruct (z <? 0)%Z; [by eexists _, _|].
  destruct (dec_digits_head (Z.to_nat (Z.log2 z)) z EmptyString) as (d & s & Hs & Hd).
  exists (digit_chr d), s. unfold dec_fuel. split; [done|]. by rewrite isdigit_digit_chr.
Qed.

(** What a printed value looks like from the left. *)
Lemma print_value_solid c d f s : text_tree c -> print_value c d f = Some s -> solid s.
Proof.
  intros Ht. destruct Ht as [| | |s' nm Hs|z nm Hz|nm ch|nm ch].
  1-3: by intros [= <-].
  - cbn. intros [= <-]. unfold print_string_ptr. by destruct (sforall _ _).
  - cbn [print_value j_type]. rewrite print_whole by done. intros [= <-].
    destruct (dec_string_head z) as (c & t & -> & Hc). by destruct (number_head_facts c Hc) as (? & ? & _).
  - rewrite print_array_eq. destruct (print_entries d f ch); [|done]. by intros [= <-].
  - destruct ch as [|c ch]; [by intros [= <-]|].
    rewrite print_object_eq. destruct (print_members d f (c :: ch)); [|done]. by intros [= <-].
Qed.

Lemma json_size_eq ty vs vi vd nm ch : tree_size (Item ty vs vi vd nm ch) = S (sizes ch).
Proof. reflexivity. Qed.

(** The statement of the round trip for one item. *)
Definition reparses (c : cJSON) : Prop :=
  forall d f s item rest fuel,
    print_value c d f = Some s -> (j_type c = cJSON_Number -> number_end rest = true) ->
    fresh_fields (j_valuestring item) (j_valueint item) (j_valuedouble item) ->
    j_child item = [] -> (tree_size c <= fuel)%nat ->
    parse_value fuel item (s +:+ rest) = POk (set_string (j_string item) c) rest.

Lemma reparse_entries ch d f s rest fuel :
  Forall text_tree ch -> Forall (fun c => j_string c = None) ch -> Forall reparses ch ->
  ch <> [] -> print_entries d f ch = Some s -> (sizes ch <= fuel)%nat ->
  parse_elements fuel (s +:+ String "]" rest) = POk ch rest.
Proof.
  intros Ht. revert s fuel. induction Ht as [|c ch Hc Ht IH]; intros s fuel Hn Hr Hne Hp Hf; [done|].
  inversion Hn as [|? ? Hnc Hns]; subst. inversion Hr as [|? ? Hrc Hrs]; subst.
  cbn [print_entries] in Hp. destruct (print_value c (S d) f) as [sc|] eqn:Ec; [|done].
  destruct (print_entries d f ch) as [r|] eqn:Er; [|done]. injection Hp as <-.
  destruct fuel as [|fuel]; [simpl in Hf; lia|]. cbn [sizes] in Hf. cbn [parse_elements].
  rewrite <- string_app_assoc.
  rewrite skip_solid by (apply solid_app; eapply print_value_solid; eauto).
  rewrite (Hrc (S d) f sc) by (done || lia || by destruct ch, f). cbn [pbind].
  assert (set_string (j_string cJSON_New_Item) c = c) as ->.
  { destruct c. simpl in *. by subst. }
  destruct ch as [|c' ch].
  - rewrite string_app_nil_l. reflexivity.
  - specialize (IH r fuel Hns Hrs ltac:(done) eq_refl ltac:(lia)).
    assert (solid r) as Hsolid.
    { cbn [print_entries] in Er. inversion Ht; subst.
      destruct (print_value c' (S d) f) eqn:Ec'; [|done]. destruct (print_entries d f ch); [|done].
      injection Er as <-. apply solid_app. eapply print_value_solid; eauto. }
    assert (parse_elements fuel (sdrop 1 ((if f then ", " else ",") +:+ r +:+ String "]" rest))
            = POk (c' :: ch) rest) as Hel.
    { destruct f; [|exact IH]. rewrite <- IH. destruct fuel; [done|]. cbn [parse_elements].
      change (sdrop 1 (", " +:+ r +:+ String "]" rest)) with (String " " (r +:+ String "]" rest)).
      done. }
    rewrite <- string_app_assoc.
    assert (skip ((if f then ", " else ",") +:+ r +:+ String "]" rest)
            = (if f then ", " else ",") +:+ r +:+ String "]" rest) as -> by (by destruct f).
    assert (head_is "," ((if f then ", " else ",") +:+ r +:+ String "]" rest) = true) as ->
      by (by destruct f).
    rewrite Hel. done.
Qed.

Lemma reparse_members ch d f s rest fuel :
  Forall text_tree ch -> Forall (fun c => exists n, j_string c = Some n /\ no_nul n = true) ch ->
  Forall reparses ch ->
  ch <> [] -> print_members d f ch = Some s -> (sizes ch <= fuel)%nat ->
  parse_members fuel (s +:+ (if f then tabs d else EmptyString) +:+ String "}" rest) = POk ch rest.
Proof.
  intros Ht. revert s fuel. induction Ht as [|c ch Hc Ht IH]; intros s fuel Hn Hr Hne Hp Hf; [done|].
  inversion Hn as [|? ? (name & Hname & Hnn) Hns]; subst. inversion Hr as [|? ? Hrc Hrs]; subst.
  cbn [print_members] in Hp. rewrite Hname in Hp.
  destruct (print_value c (S d) f) as [sc|] eqn:Ec; [|done].
  destruct (print_members d f ch) as [r|] eqn:Er; [|done]. injection Hp as <-.
  destruct fuel as [|fuel]; [simpl in Hf; lia|]. cbn [sizes] in Hf. cbn [parse_members].
  set (tail := (if f then tabs d else EmptyString) +:+ String "}" rest) in *.
  rewrite <- !string_app_assoc.
  assert (forall t, skip ((if f then tabs (S d) else EmptyString) +:+ t) = skip t) as Hskt.
  { intros t. destruct f; [apply skip_tabs|done]. }
  rewrite Hskt, skip_solid.
  2:{ apply solid_app. unfold print_string_ptr. by destruct (sforall _ name). }
  rewrite parse_print_string by done. cbn [pbind j_type j_valuestring j_valueint j_valuedouble j_child].
  rewrite !string_app_cons, !string_app_nil_l.
  rewrite (skip_solid (String ":" _)) by done. cbn [head_is]. rewrite Ascii.eqb_refl. cbn [negb sdrop].
  assert (skip ((if f then String TAB EmptyString else EmptyString) +:+ sc
                +:+ match ch with [] => EmptyString | _ :: _ => "," end
                +:+ (if f then nl_text else EmptyString) +:+ r +:+ tail)
          = sc +:+ match ch with [] => EmptyString | _ :: _ => "," end
                +:+ (if f then nl_text else EmptyString) +:+ r +:+ tail) as ->.
  { assert (solid sc) by (eapply print_value_solid; eauto).
    destruct f; [change (skip (String TAB EmptyString +:+ ?x)) with (skip x)|];
      rewrite ?string_app_nil_l; by apply skip_solid, solid_app. }
  rewrite (Hrc (S d) f sc); [|done| |done|done|lia].
  2:{ intros _. destruct ch; [|done]. injection Er as <-. subst tail. destruct f; [done|]. by destruct d. }
  cbn [pbind j_string].
  assert (set_string (Some name) c = c) as ->.
  { destruct c. simpl in *. by subst. }
  assert (forall t, skip ((if f then nl_text else EmptyString) +:+ t) = skip t) as Hnl.
  { intros t. by destruct f. }
  destruct ch as [|c' ch].
  - rewrite string_app_nil_l, Hnl. injection Er as <-. rewrite string_app_nil_l.
    unfold tail. assert (skip ((if f then tabs d else EmptyString) +:+ String "}" rest)
                         = String "}" rest) as ->.
    { destruct f; [rewrite skip_tabs|rewrite string_app_nil_l]; by apply skip_solid. }
    reflexivity.
  - specialize (IH r fuel Hns Hrs ltac:(done) eq_refl ltac:(lia)).
    rewrite string_app_cons, string_app_nil_l, (skip_solid (String "," _)) by done.
    cbn [head_is]. rewrite Ascii.eqb_refl. cbn [sdrop].
    assert (parse_members fuel ((if f then nl_text else EmptyString) +:+ r +:+ tail)
            = POk (c' :: ch) rest) as ->; [|done].
    rewrite <- IH. destruct fuel; [done|]. cbn [parse_members]. by rewrite Hnl.
Qed.

Lemma set_string_same c : set_string (j_string c) c = c.
Proof. by destruct c. Qed.

Lemma print_entries_solid c ch d f s :
  text_tree c -> print_entries d f (c :: ch) = Some s -> solid s.
Proof.
  cbn [print_entries]. intros Hc. destruct (print_value c (S d) f) eqn:Ec; [|done].
  destruct (print_entries d f ch); [|done]. intros [= <-].
  apply solid_app. eapply print_value_solid; eauto.
Qed.

Lemma forall_reparses ch :
  Forall (fun c => text_tree c -> reparses c) ch -> Forall text_tree ch -> Forall reparses ch.
Proof. rewrite !Forall_forall. auto. Qed.

Lemma reparse_array nm ch d f s ity inm rest fuel :
  Forall (fun c => text_tree c -> reparses c) ch ->
  Forall text_tree ch -> Forall (fun c => j_string c = None) ch ->
  print_value (Item cJSON_Array None 0 (S754_zero false) nm ch) d f = Some s ->
  (sizes ch <= fuel)%nat ->
  parse_value (S fuel) (Item ity None 0 (S754_zero false) inm []) (s +:+ rest)
  = POk (Item cJSON_Array None 0 (S754_zero false) inm ch) rest.
Proof.
  intros IH Ht Hn Hp Hf. rewrite print_array_eq in Hp.
  destruct (print_entries d f ch) as [b|] eqn:Eb; [|done]. injection Hp as <-.
  destruct ch as [|c ch]; [injection Eb as <-; by destruct rest|].
  pose proof (forall_reparses _ IH Ht) as Hr. inversion Ht; subst.
  pose proof (print_entries_solid c ch d f b ltac:(done) Eb) as Hb.
  pose proof (reparse_entries (c :: ch) d f b rest fuel Ht Hn Hr ltac:(done) Eb Hf) as He.
  rewrite <- !string_app_assoc. cbn [parse_value].
  assert (skip (sdrop 1 ("[" +:+ b +:+ "]" +:+ rest)) = b +:+ String "]" rest) as ->.
  { change (skip (b +:+ String "]" rest) = b +:+ String "]" rest). by apply skip_solid, solid_app. }
  rewrite solid_no_close by (by apply solid_app). rewrite He. reflexivity.
Qed.

Lemma parse_members_skip fuel v : parse_members fuel (skip v) = parse_members fuel v.
Proof.
  destruct fuel; [done|]. cbn [parse_members].
  assert (skip (skip v) = skip v) as ->; [|done].
  induction v as [|c v IH]; [done|]. cbn [skip]. destruct (byte_of c <=? 32)%Z eqn:E; [done|].
  cbn [skip]. by rewrite E.
Qed.

Lemma print_members_skip c ch d f s t :
  print_members d f (c :: ch) = Some s -> exists t', skip (s +:+ t) = String DQUOTE t'.
Proof.
  cbn [print_members]. destruct (j_string c) as [name|]; [|done].
  destruct (print_value c (S d) f); [|done]. destruct (print_members d f ch); [|done].
  intros [= <-]. rewrite <- !string_app_assoc.
  assert (forall x, skip ((if f then tabs (S d) else EmptyString) +:+ x) = skip x) as ->.
  { intros x. destruct f; [apply skip_tabs|done]. }
  unfold print_string_ptr. destruct (sforall _ name); eexists; reflexivity.
Qed.

Lemma reparse_object nm ch d f s ity inm rest fuel :
  Forall (fun c => text_tree c -> reparses c) ch ->
  Forall text_tree ch -> Forall (fun c => exists n, j_string c = Some n /\ no_nul n = true) ch ->
  print_value (Item cJSON_Object None 0 (S754_zero false) nm ch) d f = Some s ->
  (sizes ch <= fuel)%nat ->
  parse_value (S fuel) (Item ity None 0 (S754_zero false) inm []) (s +:+ rest)
  = POk (Item cJSON_Object None 0 (S754_zero false) inm ch) rest.
Proof.
  intros IH Ht Hn Hp Hf. destruct ch as [|c ch].
  { cbn in Hp. injection Hp as <-. destruct f; [|by destruct rest].
    rewrite !string_app_cons, string_app_nil_l, string_app_cons, <- string_app_assoc.
    cbn [parse_value]. cbn. rewrite skip_tabs. by destruct rest. }
  rewrite print_object_eq in Hp. destruct (print_members d f (c :: ch)) as [b|] eqn:Eb; [|done].
  injection Hp as <-. pose proof (forall_reparses _ IH Ht) as Hr.
  pose proof (reparse_members (c :: ch) d f b rest fuel Ht Hn Hr ltac:(done) Eb Hf) as He.
  rewrite <- parse_members_skip in He.
  destruct (print_members_skip c ch d f b
              ((if f then tabs d else EmptyString) +:+ String "}" rest) Eb) as [t' Et].
  rewrite Et in He. rewrite <- !string_app_assoc. cbn [parse_value].
  match goal with |- context [head_is "}" ?x] =>
    assert (x = String DQUOTE t') as -> by (rewrite <- Et; by destruct f) end.
  cbn [head_is]. rewrite He. reflexivity.
Qed.

(** Every tree of text values is read back from its print-out. *)
Lemma text_tree_reparses c : text_tree c -> reparses c.
Proof.
  induction c as [ty vs vi vd nm ch IH] using cJSON_tree_ind. intros Ht d f s item rest fuel Hp
    Hend (Hvs & Hvi & Hvd) Hch Hfuel.
  rewrite json_size_eq in Hfuel. destruct fuel as [|fuel]; [lia|].
  destruct item as [ity ivs ivi ivd inm ich]. simpl in Hvs, Hvi, Hvd, Hch. subst.
  inversion Ht as [| | |? ? Hs|z ? Hz|? ? Hall Hn|? ? Hall Hn]; subst.
  1-3: injection Hp as <-; by destruct rest.
  - cbn in Hp. injection Hp as <-.
    assert (exists t, print_string_ptr s0 +:+ rest = String DQUOTE t) as [t Et].
    { unfold print_string_ptr. destruct (sforall _ _); eexists; reflexivity. }
    pose proof (parse_print_string (Item ity None 0 (S754_zero false) inm []) s0 rest Hs) as Hps.
    rewrite Et in *. exact Hps.
  - cbn [print_value j_type] in Hp. rewrite print_whole in Hp by done. injection Hp as <-.
    pose proof (parse_whole (Item ity None 0 (S754_zero false) inm []) z rest Hz (Hend eq_refl)) as Hpi.
    destruct (dec_string_head z) as (c & t & Et & Hc). rewrite Et in *. rewrite string_app_cons in *.
    destruct (number_head_facts c Hc) as (_ & _ & Hq & Hpre). destruct (Hpre (t +:+ rest)) as (H1 & H2 & H3).
    cbn [parse_value]. rewrite H1, H2, H3. cbn [head_is head_digit]. rewrite Hq.
    rewrite orb_comm. change (Ascii.eqb c "-") with (Ascii.eqb c (chr 45)). rewrite Hc. exact Hpi.
  - apply (reparse_array nm ch d f); [done..|lia].
  - apply (reparse_object nm ch d f); [done..|lia].
Qed.

(** The fuel of [cJSON_Parse] covers the size of a printed tree. *)
Definition size_bounded (c : cJSON) : Prop :=
  forall d f s, print_value c d f = Some s -> (tree_size c <= 2 * String.length s)%nat.

Lemma entries_size ch d f s :
  Forall size_bounded ch -> ch <> [] -> print_entries d f ch = Some s ->
  (sizes ch <= 2 * String.length s + 2)%nat.
Proof.
  intros Hb. revert s. induction Hb as [|c ch Hc Hb IH]; intros s Hne Hp; [done|].
  cbn [print_entries] in Hp. destruct (print_value c (S d) f) as [sc|] eqn:Ec; [|done].
  destruct (print_entries d f ch) as [r|] eqn:Er; [|done]. injection Hp as <-.
  specialize (Hc _ _ _ Ec). cbn [sizes]. rewrite string_length_app.
  destruct ch as [|c' ch]; [simpl; lia|].
  specialize (IH r ltac:(done) eq_refl). rewrite string_length_app.
  assert (1 <= String.length (if f then ", " else ","))%nat by (destruct f; simpl; lia). lia.
Qed.

Lemma members_size ch d f s :
  Forall size_bounded ch -> ch <> [] -> print_members d f ch = Some s ->
  (sizes ch <= 2 * String.length s + 2)%nat.
Proof.
  intros Hb. revert s. induction Hb as [|c ch Hc Hb IH]; intros s Hne Hp; [done|].
  cbn [print_members] in Hp. destruct (j_string c); [|done].
  destruct (print_value c (S d) f) as [sc|] eqn:Ec; [|done].
  destruct (print_members d f ch) as [r|] eqn:Er; [|done]. injection Hp as <-.
  specialize (Hc _ _ _ Ec). cbn [sizes]. rewrite !string_length_app.
  change (String.length ":") with 1%nat.
  destruct ch as [|c' ch]; [simpl; lia|].
  specialize (IH r ltac:(done) eq_refl). lia.
Qed.

Lemma text_tree_size c : text_tree c -> size_bounded c.
Proof.
  induction c as [ty vs vi vd nm ch IH] using cJSON_tree_ind. intros Ht d f s Hp.
  rewrite json_size_eq.
  inversion Ht as [| | |? ? Hs|z ? Hz|? ? Hall Hn|? ? Hall Hn]; subst.
  1-3: injection Hp as <-; simpl; lia.
  - cbn in Hp. injection Hp as <-. rewrite print_string_ptr_escape. unfold quoted. simpl.
    rewrite string_length_app. simpl. lia.
  - cbn [print_value j_type] in Hp. rewrite print_whole in Hp by done. injection Hp as <-.
    destruct (dec_string_head z) as (c & t & -> & _). simpl. lia.
  - rewrite print_array_eq in Hp. destruct (print_entries d f ch) as [b|] eqn:Eb; [|done].
    injection Hp as <-. rewrite !string_length_app. destruct ch as [|c ch]; [simpl; lia|].
    assert (Forall size_bounded (c :: ch)) as Hb by (rewrite !Forall_forall in *; auto).
    pose proof (entries_size _ d f b Hb ltac:(done) Eb). simpl String.length. lia.
  - destruct ch as [|c ch]; [cbn in Hp; injection Hp as <-; simpl;
      rewrite string_length_app; simpl; lia|].
    rewrite print_object_eq in Hp. destruct (print_members d f (c :: ch)) as [b|] eqn:Eb; [|done].
    injection Hp as <-. rewrite !string_length_app.
    assert (Forall size_bounded (c :: ch)) as Hb by (rewrite !Forall_forall in *; auto).
    pose proof (members_size _ d f b Hb ltac:(done) Eb). simpl String.length. lia.
Qed.

Lemma parse_printed (c : cJSON) (fmt : bool) (s rest : string) :
  text_tree c -> j_string c = None -> print_value c 0 fmt = Some s ->
  (j_type c = cJSON_Number -> number_end rest = true) ->
  cJSON_Parse (s +:+ rest) = POk c rest.
Proof.
  intros Ht Hn Hp Hend. unfold cJSON_Parse, cJSON_ParseWithOpts.
  rewrite skip_solid by (eapply solid_app, print_value_solid; eauto).
  rewrite (text_tree_reparses c Ht 0 fmt s cJSON_New_Item rest) by
    (done || (pose proof (text_tree_size c Ht _ _ _ Hp); unfold json_fuel;
              rewrite string_length_app; lia)).
  cbn [pbind j_string cJSON_New_Item]. rewrite <- Hn. by rewrite set_string_same.
Qed.

(** C20: what [cJSON_Print] or [cJSON_PrintUnformatted] writes for a tree of
    objects, arrays, strings, constants and whole numbers of up to 53 bits,
    [cJSON_Parse] reads back to the same tree, whatever bytes follow the text
    (when the tree is a lone number, bytes that do not continue it): names and strings survive the
    escape sequences, numbers survive the way through decimal text and doubles,
    the nesting survives the separators and the indentation, and the parser
    stops at the end of the text. *)
Theorem json_print_parse (c : cJSON) (fmt : bool) (s rest : string) :
  text_tree c -> j_string c = None -> print_value c 0 fmt = Some s ->
  (j_type c = cJSON_Number -> number_end rest = true) ->
  cJSON_Parse (s +:+ rest) = POk c rest.
Proof. apply parse_printed. Qed.

(** A status object with a string that needs an escape and a number. *)
Definition sample_json : cJSON :=
  cJSON_AddItemToObject
    (cJSON_AddStringToObject cJSON_CreateObject "code"
       ("0" +:+ String DQUOTE (String LF (String BACKSLASH "1"))))
    "files" (cJSON_AddItemToArray (cJSON_AddItemToArray cJSON_CreateArray (cJSON_CreateString "a"))
               (cJSON_CreateNumber (f64_of_Z (-2147483648)))).

Lemma json_print_parse_witness :
  exists s, cJSON_Print sample_json = Some s /\ cJSON_Parse (s +:+ ";") = POk sample_json ";".
Proof.
  eexists. split; [vm_compute; reflexivity|].
  apply (json_print_parse sample_json true).
  - repeat constructor; try discriminate; eexists; split; reflexivity.
  - reflexivity.
  - vm_compute. reflexivity.
  - discriminate.
Defined.
