(* ===== verification/CJsonBuffer.v ===== *)
(** * The buffered printer of cJSON (src/src/common/cJSON.c)

    [cJSON_PrintBuffered] prints into one buffer that grows: [ensure] makes
    room, the text is written in place, [update] finds its end with [strlen].
    The buffer is a list of bytes, those not yet written being undefined; a
    write outside of it, or a [strlen] that leaves the written part, is undefined
    behaviour.  [malloc] may fail, which makes the buffer NULL.

    The main theorem says that for every tree and every first size the result
    is the text of the printer without buffer ([CJson.print_value]), or NULL
    when memory ran out, and that all accesses stay inside the buffer.  The
    allocations of the printer without buffer are checked as well: the lengths
    it adds up are enough for what it writes. *)

From S2P Require Import Prelude CLib Float64 CJson CJsonRound.
From S2P Require Import Bits.
From Stdlib Require Import Floats.SpecFloat.
From Stdlib Require String.
#[local] Open Scope Z_scope.

(** ** The buffer *)

Record printbuffer := PB {
  p_buffer : option (list (option ascii)); p_length : Z; p_offset : Z;
  p_answers : list bool (* of the coming calls of malloc *) }.

Definition bprog (A : Type) : Type := printbuffer -> option (A * printbuffer).
Definition bret {A} (a : A) : bprog A := fun p => Some (a, p).
Definition bbind {A B} (m : bprog A) (f : A -> bprog B) : bprog B :=
  fun p => match m p with Some (a, p') => f a p' | None => None end.
Definition bundef {A} : bprog A := fun _ => None.

Declare Scope buf_scope.
Delimit Scope buf_scope with buf.
Notation "x <- m ;; f" := (bbind m (fun x => f))
  (at level 100, m at next level, right associativity) : buf_scope.
Notation "m ;;; f" := (bbind m (fun _ => f))
  (at level 100, right associativity) : buf_scope.
#[local] Open Scope buf_scope.

Definition pow2gt (x : Z) : Z :=
  let x := int32 (x - 1) in
  let x := Z.lor x (Z.shiftr x 1) in
  let x := Z.lor x (Z.shiftr x 2) in
  let x := Z.lor x (Z.shiftr x 4) in
  let x := Z.lor x (Z.shiftr x 8) in
  let x := Z.lor x (Z.shiftr x 16) in
  int32 (x + 1).

(** [malloc (size)]: a negative [int] is a size that no system has. *)
Definition buf_malloc (size : Z) : bprog (option (list (option ascii))) := fun p =>
  let p' := PB (p_buffer p) (p_length p) (p_offset p) (tail (p_answers p)) in
  match p_answers p with
  | false :: _ => Some (None, p')
  | _ => Some (if size <? 0 then None else Some (repeat None (Z.to_nat size)), p')
  end.

(** The pointer returned is an index into the buffer. *)
Definition ensure (needed : Z) : bprog (option Z) := fun p =>
  match p_buffer p with
  | None => Some (None, p)
  | Some b =>
      let needed := int32 (needed + p_offset p) in
      if needed <=? p_length p then Some (Some (p_offset p), p)
      else
        let newsize := pow2gt needed in
        match buf_malloc newsize p with
        | Some (Some nb, p') =>
            if Z.of_nat (length nb) <? p_length p then None
            else Some (Some (p_offset p),
                       PB (Some (b ++ skipn (length b) nb)) newsize (p_offset p) (p_answers p'))
        | Some (None, p') => Some (None, PB None 0 (p_offset p) (p_answers p'))
        | None => None
        end
  end.

(** [*ptr++ = ...] for the bytes of [s], from index [i] on. *)
Definition put (i : Z) (s : list ascii) : bprog unit := fun p =>
  match p_buffer p with
  | Some b =>
      if (0 <=? i) && (i + Z.of_nat (length s) <=? Z.of_nat (length b)) then
        Some (tt, PB (Some (firstn (Z.to_nat i) b ++ map Some s ++ skipn (Z.to_nat i + length s) b))
                     (p_length p) (p_offset p) (p_answers p))
      else None
  | None => None
  end.

(** [strlen] of a part of the buffer; [None] when it runs into bytes not written. *)
Fixpoint buf_strlen (b : list (option ascii)) : option Z :=
  match b with
  | Some c :: b => if Ascii.eqb c NUL then Some 0 else option_map (Z.add 1) (buf_strlen b)
  | _ => None
  end.

Definition update : bprog Z := fun p =>
  match p_buffer p with
  | None => Some (0, p)
  | Some b =>
      match buf_strlen (skipn (Z.to_nat (p_offset p)) b) with
      | Some n => if 0 <=? p_offset p then Some (int32 (p_offset p + n), p) else None
      | None => None
      end
  end.

Definition set_offset (n : Z) : bprog unit := fun p =>
  Some (tt, PB (p_buffer p) (p_length p) n (p_answers p)).
Definition get_offset : bprog Z := fun p => Some (p_offset p, p).
(** [p->offset += len] *)
Definition advance (len : Z) : bprog unit := o <- get_offset ;; set_offset (int32 (o + len)).

(** ** Printing into the buffer *)

Definition chars (s : string) : list ascii := String.list_ascii_of_string s.
Definition cstring (s : string) : list ascii := chars s ++ [NUL].

(** [ptr = ensure (p, needed); if (ptr) ...]: the text and its terminator. *)
Definition emit (needed : Z) (s : string) : bprog (option Z) :=
  ptr <- ensure needed ;;
  match ptr with
  | Some i => put i (cstring s) ;;; bret (Some i)
  | None => bret None
  end.

Definition number_room (item : cJSON) : Z :=
  let d := j_valuedouble item in
  if SFeqb d (S754_zero false) then 2
  else if SFleb (f64_abs (f64_sub (f64_of_Z (j_valueint item)) d)) DBL_EPSILON
          && SFleb d (f64_of_Z INT_MAX) && SFleb (f64_of_Z INT_MIN) d
  then 21 else 64.

Definition print_number_buf (item : cJSON) : bprog (option Z) :=
  match print_number item with
  | Some s => emit (number_room item) s
  | None => bundef
  end.

(** The length the first pass of [print_string_ptr] computes. *)
Definition escape_room (c : ascii) : Z :=
  if Ascii.eqb c DQUOTE || Ascii.eqb c BACKSLASH || Ascii.eqb c (chr 8) || Ascii.eqb c (chr 12)
     || Ascii.eqb c (chr 10) || Ascii.eqb c (chr 13) || Ascii.eqb c (chr 9) then 2
  else if byte_of c <? 32 then 6 else 1.
Fixpoint escape_len (s : string) : Z :=
  match s with String c s => escape_room c + escape_len s | EmptyString => 0 end.

Definition print_string_buf (str : option string) : bprog (option Z) :=
  match str with
  | None => bundef
  | Some str =>
      if sforall (fun c => negb (needs_escape c)) str
      then emit (slen str + 3) (quoted str)
      else emit (escape_len str + 3) (quoted (escape str))
  end.

(** [ptr = ensure (p, needed); if (!ptr) return 0; ...write s...; p->offset += len;] *)
Definition piece (needed : Z) (s : list ascii) (len : Z) (k : bprog (option Z)) : bprog (option Z) :=
  ptr <- ensure needed ;;
  match ptr with
  | None => bret None
  | Some i => put i s ;;; advance len ;;; k
  end.

Definition fmt_len (fmt : bool) : Z := if fmt then 2 else 1.

(** The loop of [print_array] over the children and the closing bracket; [i] is
    the offset of the opening one. *)
Definition elements_buf (pv : cJSON -> bprog (option Z)) (fmt : bool) (i : Z)
    : list cJSON -> bprog (option Z) :=
  fix elements (l : list cJSON) : bprog (option Z) :=
    match l with
    | [] =>
        ptr <- ensure 2 ;;
        match ptr with
        | None => bret None
        | Some j => put j (cstring "]") ;;; bret (Some i)
        end
    | c :: l =>
        pv c ;;;
        o <- update ;; set_offset o ;;;
        match l with
        | [] => elements l
        | _ => piece (fmt_len fmt + 1) (cstring (if fmt then ", " else ",")) (fmt_len fmt) (elements l)
        end
    end.

(** The loop of [print_object]; [depth] is that of the children. *)
Definition members_buf (pv : cJSON -> bprog (option Z)) (depth : nat) (fmt : bool) (i : Z)
    : list cJSON -> bprog (option Z) :=
  fix members (l : list cJSON) : bprog (option Z) :=
    match l with
    | [] =>
        ptr <- ensure (if fmt then Z.of_nat depth + 1 else 2) ;;
        match ptr with
        | None => bret None
        | Some j =>
            put j (cstring ((if fmt then tabs (depth - 1) else EmptyString) +:+ "}")) ;;;
            bret (Some i)
        end
    | c :: l =>
        let rest :=
          print_string_buf (j_string c) ;;;
          o <- update ;; set_offset o ;;;
          piece (fmt_len fmt) (chars (":" +:+ (if fmt then String TAB EmptyString else EmptyString))) (fmt_len fmt)
            (pv c ;;;
             o <- update ;; set_offset o ;;;
             let sep := (match l with [] => EmptyString | _ => "," end)
                        +:+ (if fmt then nl_text else EmptyString) in
             piece (slen sep + 1) (cstring sep) (slen sep) (members l)) in
        if fmt
        then piece (Z.of_nat depth) (chars (tabs depth)) (Z.of_nat depth) rest
        else rest
    end.

Fixpoint print_value_buf (item : cJSON) (depth : nat) (fmt : bool) : bprog (option Z) :=
  match j_type item with
  | cJSON_NULL => emit 5 "null"
  | cJSON_False => emit 6 "false"
  | cJSON_True => emit 5 "true"
  | cJSON_Number => print_number_buf item
  | cJSON_String => print_string_buf (j_valuestring item)
  | cJSON_Array =>
      match j_child item with
      | [] => emit 3 "[]"
      | _ =>
          i <- get_offset ;;
          piece 1 ["["%char] 1
            (elements_buf (fun c => print_value_buf c (S depth) fmt) fmt i (j_child item))
      end
  | cJSON_Object =>
      match j_child item with
      | [] =>
          emit (if fmt then Z.of_nat depth + 4 else 3)
               ("{" +:+ (if fmt then String LF (tabs (depth - 1)) else EmptyString) +:+ "}")
      | _ =>
          i <- get_offset ;;
          piece (fmt_len fmt + 1) (cstring ("{" +:+ (if fmt then nl_text else EmptyString))) (fmt_len fmt)
            (members_buf (fun c => print_value_buf c (S depth) fmt) (S depth) fmt i (j_child item))
      end
  end.

(** The text from the pointer that [print_value] returned on. *)
Fixpoint buf_text (b : list (option ascii)) : option string :=
  match b with
  | Some c :: b => if Ascii.eqb c NUL then Some EmptyString else option_map (String c) (buf_text b)
  | _ => None
  end.

(** [None] is undefined behaviour, [Some None] a NULL result. *)
Definition cJSON_PrintBuffered (item : cJSON) (prebuffer : Z) (fmt : bool) (answers : list bool)
    : option (option string) :=
  match buf_malloc prebuffer (PB None 0 0 answers) with
  | Some (b, p) =>
      match print_value_buf item 0 fmt (PB b prebuffer 0 (p_answers p)) with
      | Some (Some i, p') =>
          match p_buffer p' with
          | Some b' => option_map Some (buf_text (skipn (Z.to_nat i) b'))
          | None => None
          end
      | Some (None, _) => Some None
      | None => None
      end
  | None => None
  end.

(** ** Rooms are large enough *)

Lemma f64_lt_exp s m e m' e' :
  SFltb (f64_abs (S754_finite s m e)) (S754_finite false m' e') = true -> e <= e'.
Proof. unfold SFltb. cbn [f64_abs SFabs SFcompare]. destruct (Z.compare_spec e e'); [lia|lia|done]. Qed.

Lemma f64_not_lt_exp s m e m' e' :
  SFltb (S754_finite false m' e') (f64_abs (S754_finite s m e)) = false -> e <= e'.
Proof. unfold SFltb. cbn [f64_abs SFabs SFcompare]. destruct (Z.compare_spec e' e); [lia|done|lia]. Qed.

Lemma number_room_enough item s :
  print_number item = Some s -> f64_valid (j_valuedouble item) = true -> is_int (j_valueint item) ->
  slen s + 1 <= number_room item <= slen s + 64.
Proof.
  unfold print_number, number_room. intros Hs Hv Hi. pose proof (slen_nonneg s) as H0. split; [|repeat case_match; lia].
  destruct (SFeqb _ _); [by injection Hs as <-|].
  destruct (_ && _); [injection Hs as <-; pose proof (dec_string_int _ Hi); lia|].
  destruct (_ && _) eqn:E1.
  { apply andb_true_iff in E1 as [_ E1]. destruct (j_valuedouble item) as [sg|sg| |sg m e];
      [by destruct sg; injection Hs as <-..|done|].
    destruct (f64_valid_bounds _ _ _ Hv) as [Hm _].
    assert (e <= 147).
    { revert E1. change (f64_of_Z (10 ^ 60)) with (S754_finite false 5605193857299268 147). apply f64_lt_exp. }
    pose proof (fmt_fixed_length 0 sg m e s 200 61 Hs Hm ltac:(lia) ltac:(lia)) as Hl.
    assert (2 ^ 200 < 10 ^ Z.of_nat 61) by (apply Z.ltb_lt; vm_compute; reflexivity).
    specialize (Hl ltac:(done) ltac:(lia)). lia. }
  destruct (_ || _) eqn:E2; [pose proof (fmt_exp_length _ _ Hs Hv); lia|].
  apply orb_false_iff in E2 as [_ E2]. destruct (j_valuedouble item) as [sg|sg| |sg m e];
    [by destruct sg; injection Hs as <-..|done|].
  destruct (f64_valid_bounds _ _ _ Hv) as [Hm _].
  assert (e <= -23).
  { revert E2. change (f64_of_Z (10 ^ 9)) with (S754_finite false 8388608000000000 (-23)). apply f64_not_lt_exp. }
  pose proof (fmt_fixed_length 6 sg m e s 30 10 Hs Hm ltac:(lia) ltac:(lia)) as Hl.
  specialize (Hl ltac:(vm_compute; reflexivity) ltac:(lia)). simpl Z.of_nat in Hl. lia.
Qed.

Lemma escape_char_room c : slen (escape_char c) <= escape_room c <= slen (escape_char c).
Proof. destruct c as [[] [] [] [] [] [] [] []]; vm_compute; split; congruence. Qed.

Lemma escape_len_slen s : escape_len s = slen (escape s).
Proof.
  induction s as [|c s IH]; [done|]. cbn [escape_len escape]. rewrite slen_app, IH.
  pose proof (escape_char_room c). lia.
Qed.

Lemma slen_quoted s : slen (quoted s) = slen s + 2.
Proof. unfold quoted. rewrite slen_cons, slen_app, slen_cons, slen_nil. lia. Qed.

(** ** Growth of the buffer *)

Lemma lor_ge y z : 0 <= y -> 0 <= z -> y <= Z.lor y z.
Proof.
  intros Hy Hz. assert (Z.lor y z - y = Z.ldiff (Z.lor y z) y) as He.
  { apply Z.sub_nocarry_ldiff. apply Z.bits_inj'. intros i Hi.
    rewrite Z.ldiff_spec, Z.lor_spec, Z.bits_0. by destruct (Z.testbit y i). }
  assert (0 <= Z.ldiff (Z.lor y z) y) by (apply Z.ldiff_nonneg; left; by apply Z.lor_nonneg). lia.
Qed.

Lemma pow2gt_bounds x : 1 <= x <= 2 ^ 30 -> x <= pow2gt x <= 2 ^ 30.
Proof.
  intros Hx. unfold pow2gt. rewrite (int32_small (x - 1)) by (unfold is_int, INT_MIN, INT_MAX; lia).
  assert (forall y k, 0 <= k -> is_word 30 y -> is_word 30 (Z.lor y (Z.shiftr y k)) /\ y <= Z.lor y (Z.shiftr y k))
    as Hstep.
  { intros y k Hk Hy. split; [apply word_lor; [lia|done|by apply word_shiftr]|].
    destruct Hy. apply lor_ge; [done|by apply Z.shiftr_nonneg]. }
  assert (is_word 30 (x - 1)) as H0 by (unfold is_word; lia).
  destruct (Hstep _ 1 ltac:(lia) H0) as [H1 L1]. destruct (Hstep _ 2 ltac:(lia) H1) as [H2 L2].
  destruct (Hstep _ 4 ltac:(lia) H2) as [H3 L3]. destruct (Hstep _ 8 ltac:(lia) H3) as [H4 L4].
  destruct (Hstep _ 16 ltac:(lia) H4) as [H5 L5]. unfold is_word in H5.
  rewrite int32_small; [lia|]. unfold is_int, INT_MIN, INT_MAX. lia.
Qed.

Lemma chars_app a b : chars (a +:+ b) = chars a ++ chars b.
Proof. unfold chars. induction a as [|c a IH]; [done|]. simpl. by rewrite IH. Qed.

Definition zlen {A} (l : list A) : Z := Z.of_nat (length l).

Lemma zlen_app {A} (l1 l2 : list A) : zlen (l1 ++ l2) = zlen l1 + zlen l2.
Proof. unfold zlen. rewrite length_app. lia. Qed.

Lemma zlen_map {A B} (f : A -> B) l : zlen (map f l) = zlen l.
Proof. unfold zlen. by rewrite length_map. Qed.

Lemma zlen_nonneg {A} (l : list A) : 0 <= zlen l.
Proof. unfold zlen. lia. Qed.

Lemma zlen_chars s : zlen (chars s) = slen s.
Proof.
  unfold zlen, slen, chars. f_equal. induction s as [|c s IH]; [done|]. simpl. by rewrite IH.
Qed.

Lemma zlen_cstring s : zlen (cstring s) = slen s + 1.
Proof. unfold cstring. rewrite zlen_app, zlen_chars. reflexivity. Qed.

Definition bspec {A} (m : bprog A) (p : printbuffer) (Q : A -> printbuffer -> Prop) : Prop :=
  match m p with Some (a, p') => Q a p' | None => False end.

Lemma bspec_bind {A B} (m : bprog A) (f : A -> bprog B) p Q :
  bspec m p (fun a p' => bspec (f a) p' Q) -> bspec (bbind m f) p Q.
Proof. unfold bspec, bbind. destruct (m p) as [[a p']|]; done. Qed.

Lemma bspec_mono {A} (m : bprog A) p (Q Q' : A -> printbuffer -> Prop) :
  bspec m p Q -> (forall a p', Q a p' -> Q' a p') -> bspec m p Q'.
Proof. unfold bspec. destruct (m p) as [[a p']|]; auto. Qed.

Section States.
Context (ans0 : list bool).

(** The answers of [malloc] still to come are the end of [ans0]. *)
Definition coming (p : printbuffer) : Prop := exists u, ans0 = u ++ p_answers p.

(** The buffer is gone, because [malloc] failed. *)
Definition dead (p : printbuffer) : Prop := p_buffer p = None /\ In false ans0.

(** The buffer holds [pre] up to the offset, and at least [n] bytes after it. *)
Definition alive (pre : list ascii) (n : Z) (p : printbuffer) : Prop :=
  exists rest, p_buffer p = Some (map Some pre ++ rest) /\ p_length p = zlen pre + zlen rest
    /\ p_offset p = zlen pre /\ n <= zlen rest /\ coming p.

(** The buffer holds [pre], then [t]; the offset is somewhere in [t]. *)
Definition placed (pre t : list ascii) (p : printbuffer) : Prop :=
  exists rest, p_buffer p = Some (map Some (pre ++ t) ++ rest)
    /\ p_length p = zlen pre + zlen t + zlen rest
    /\ zlen pre <= p_offset p <= zlen pre + zlen t - 1 /\ coming p.

(** What a printer that starts behind [pre] returns and leaves. *)
Definition outcome (pre t : list ascii) (r : option Z) (p : printbuffer) : Prop :=
  (r = Some (zlen pre) /\ placed pre (t ++ [NUL]) p) \/ (r = None /\ dead p).

Lemma alive_mono pre n n' p : alive pre n p -> n' <= n -> alive pre n' p.
Proof. intros (rest & ? & ? & ? & ? & ?) ?. exists rest. repeat split; [done..|lia|done]. Qed.

Lemma ensure_spec pre needed p :
  alive pre 0 p -> 1 <= needed -> zlen pre + needed <= 2 ^ 30 ->
  bspec (ensure needed) p (fun r p' => (r = Some (zlen pre) /\ alive pre needed p') \/ (r = None /\ dead p')).
Proof.
  intros (rest & Hb & Hl & Ho & Hn & Hc) Hneed Hmax. unfold bspec, ensure. rewrite Hb.
  pose proof (zlen_nonneg pre). rewrite Ho.
  rewrite int32_small by (unfold is_int, INT_MIN, INT_MAX; lia).
  destruct (Z.leb_spec (needed + zlen pre) (p_length p)).
  { left. split; [done|]. exists rest. repeat split; [done..|lia|done]. }
  pose proof (pow2gt_bounds (needed + zlen pre) ltac:(lia)) as Hp. set (ns := pow2gt _) in *. clearbody ns.
  destruct Hc as [u Hu].
  assert (forall a', bspec (fun p => Some (Some (zlen pre), PB (Some ((map Some pre ++ rest) ++
      skipn (length (map Some pre ++ rest)) (repeat None (Z.to_nat ns)))) ns (zlen pre) a')) p
      (fun r p' => ans0 = u ++ p_answers p -> (exists x, p_answers p = x ++ a') ->
         (r = Some (zlen pre) /\ alive pre needed p') \/ (r = None /\ dead p'))) as Hgrown.
  { intros a'. unfold bspec. intros Hu' [x Hx]. left. split; [done|]. eexists. repeat split; cbn.
    - by rewrite <- app_assoc.
    - unfold zlen in *. rewrite length_app, length_skipn, repeat_length, length_app, length_map. lia.
    - unfold zlen in *. rewrite length_app, length_skipn, repeat_length, length_app, length_map. lia.
    - exists (u ++ x). by rewrite Hu', Hx, app_assoc. }
  unfold bspec in Hgrown. unfold buf_malloc.
  destruct (p_answers p) as [|[] a] eqn:Ea.
  3:{ right. split; [done|]. split; [done|]. rewrite Hu. apply in_or_app. right. by left. }
  all: destruct (Z.ltb_spec ns 0); [lia|]; rewrite repeat_length.
  all: destruct (Z.ltb_spec (Z.of_nat (Z.to_nat ns)) (p_length p)); [lia|].
  all: apply Hgrown; [done|]; cbn [p_answers tail].
  - by exists [].
  - by exists [true].
Qed.

Lemma put_spec pre n s p :
  alive pre n p -> 1 <= zlen s <= n -> bspec (put (zlen pre) s) p (fun _ p' => placed pre s p' /\ p_offset p' = zlen pre).
Proof.
  intros (rest & Hb & Hl & Ho & Hn & Hc) Hs. unfold bspec, put. rewrite Hb. pose proof (zlen_nonneg pre).
  assert (length (map Some pre ++ rest) = (length pre + length rest)%nat) as El by (by rewrite length_app, length_map).
  rewrite El. unfold zlen in *. destruct (Z.leb_spec 0 (Z.of_nat (length pre))); [|lia].
  destruct (Z.leb_spec (Z.of_nat (length pre) + Z.of_nat (length s)) (Z.of_nat (length pre + length rest))); [|lia].
  cbn [andb]. split; [|done]. exists (skipn (length s) rest). cbn [p_buffer p_length p_offset]. repeat split; [|..|done].
  - rewrite Nat2Z.id, firstn_app, firstn_all2, skipn_app, skipn_all2 by (rewrite length_map; lia).
    rewrite length_map, Nat.sub_diag, firstn_O, app_nil_r, map_app, <- app_assoc.
    by replace (length pre + length s - length pre)%nat with (length s) by lia.
  - rewrite Hl. unfold zlen. rewrite length_skipn. lia.
  - rewrite Ho. unfold zlen. lia.
  - rewrite Ho. unfold zlen. lia.
Qed.

Lemma emit_spec pre needed s p :
  alive pre 0 p -> slen s + 1 <= needed -> zlen pre + needed <= 2 ^ 30 ->
  bspec (emit needed s) p (outcome pre (chars s)).
Proof.
  intros Ha Hs Hmax. pose proof (slen_nonneg s). apply bspec_bind.
  eapply bspec_mono; [apply (ensure_spec pre); [done|lia|lia]|]. intros r p' [[-> Ha']|[-> Hd]].
  - apply bspec_bind. eapply bspec_mono; [apply (put_spec pre needed); [done|rewrite zlen_cstring; lia]|].
    intros _ p'' [Hp _]. left. done.
  - right. done.
Qed.

Lemma piece_dead needed s len k p (Q : option Z -> printbuffer -> Prop) :
  dead p -> Q None p -> bspec (piece needed s len k) p Q.
Proof. intros [Hb Hin] HQ. unfold piece, bspec, bbind, ensure. by rewrite Hb. Qed.

Lemma piece_spec pre needed t x k p (Q : option Z -> printbuffer -> Prop) len :
  alive pre 0 p -> len = zlen t -> 1 <= zlen t + zlen x -> zlen t + zlen x <= needed -> zlen pre + needed <= 2 ^ 30 ->
  (forall p', alive (pre ++ t) 0 p' -> bspec k p' Q) -> (forall p', dead p' -> Q None p') ->
  bspec (piece needed (t ++ x) len k) p Q.
Proof.
  intros Ha -> Ht Hx Hmax Hk HQ. pose proof (zlen_nonneg x). pose proof (zlen_nonneg t). apply bspec_bind.
  eapply bspec_mono; [apply (ensure_spec pre); [done|lia|lia]|]. intros r p' [[-> Ha']|[-> Hd]]; [|by apply HQ].
  apply bspec_bind. eapply bspec_mono; [apply (put_spec pre needed); [done|rewrite zlen_app; lia]|].
  intros _ p'' [(rest & Hb & Hl & Ho & Hc) Ho']. unfold advance, bspec, bbind, get_offset, set_offset.
  apply Hk. pose proof (zlen_nonneg pre). rewrite Ho', int32_small by (unfold is_int, INT_MIN, INT_MAX; lia).
  exists (map Some x ++ rest). cbn [p_buffer p_length p_offset]. rewrite zlen_app in Hl.
  rewrite !zlen_app, zlen_map. pose proof (zlen_nonneg rest). repeat split; [|lia|lia|done].
  rewrite Hb. f_equal. by rewrite !map_app, <- !app_assoc.
Qed.

Lemma buf_strlen_text t rest :
  Forall (fun c => c <> NUL) t -> buf_strlen (map Some t ++ Some NUL :: rest) = Some (zlen t).
Proof.
  induction 1 as [|c t Hc Ht IH]; [done|]. cbn [map app buf_strlen].
  destruct (Ascii.eqb_spec c NUL); [done|]. rewrite IH. cbn. f_equal. unfold zlen. cbn [length]. lia.
Qed.

Lemma update_spec pre t p k (Q : option Z -> printbuffer -> Prop) :
  placed pre (t ++ [NUL]) p -> Forall (fun c => c <> NUL) t -> zlen pre + zlen t <= 2 ^ 30 ->
  (forall p', alive (pre ++ t) 0 p' -> bspec k p' Q) ->
  bspec (o <- update ;; set_offset o ;;; k) p Q.
Proof.
  intros (rest & Hb & Hl & Ho & Hc) Ht Hmax Hk. pose proof (zlen_nonneg pre). rewrite zlen_app in *.
  change (zlen [NUL]) with 1 in *. pose proof (zlen_nonneg rest).
  set (j := (Z.to_nat (p_offset p) - length pre)%nat). assert (j <= length t)%nat as Hj by (unfold zlen, j in *; lia).
  assert (skipn (Z.to_nat (p_offset p)) (map Some (pre ++ t ++ [NUL]) ++ rest)
    = map Some (skipn j t) ++ Some NUL :: rest) as Hskip.
  { replace (Z.to_nat (p_offset p)) with (length pre + j)%nat by (unfold zlen, j in *; lia).
    rewrite !map_app, <- !app_assoc, skipn_app, skipn_all2 by (rewrite length_map; lia). cbn [app].
    replace (length pre + j - length (map Some pre))%nat with j by (rewrite length_map; lia).
    rewrite skipn_app, length_map. replace (j - length t)%nat with 0%nat by lia. by rewrite skipn_map. }
  unfold bspec, bbind, update. rewrite Hb, Hskip, buf_strlen_text by (by apply Forall_drop).
  destruct (Z.leb_spec 0 (p_offset p)); [|lia]. unfold set_offset. apply Hk. exists (Some NUL :: rest).
  cbn [p_buffer p_length p_offset]. repeat split; [| | |unfold zlen; lia|done].
  - rewrite Hb. f_equal. by rewrite !map_app, <- !app_assoc.
  - rewrite zlen_app, Hl. unfold zlen. cbn [length]. lia.
  - assert (p_offset p + zlen (skipn j t) = zlen pre + zlen t) as ->.
    { unfold zlen, j in *. rewrite length_skipn. lia. }
    rewrite int32_small, zlen_app by (unfold is_int, INT_MIN, INT_MAX; lia). done.
Qed.

(** A printer, then [update]: the way the loops print names and values. *)
Lemma print_then_update pre t (m : bprog (option Z)) k p (Q : option Z -> printbuffer -> Prop) :
  bspec m p (outcome pre t) -> Forall (fun c => c <> NUL) t -> zlen pre + zlen t <= 2 ^ 30 ->
  (forall p', alive (pre ++ t) 0 p' -> bspec k p' Q) -> (forall p', dead p' -> bspec k p' Q) ->
  bspec (m ;;; o <- update ;; set_offset o ;;; k) p Q.
Proof.
  intros Hm Ht Hmax Hk Hdead. apply bspec_bind. eapply bspec_mono; [exact Hm|].
  intros r p' [[-> Hp]|[-> [Hb Hin]]]; [by apply (update_spec pre t)|].
  unfold bspec, bbind, update. rewrite Hb. apply Hdead. done.
Qed.

Lemma outcome_widen pre t0 t1 r p :
  (r = Some (zlen pre) /\ placed (pre ++ t0) (t1 ++ [NUL]) p) \/ (r = None /\ dead p) ->
  outcome pre (t0 ++ t1) r p.
Proof.
  intros [[-> (rest & Hb & Hl & Ho & Hc)]|?]; [left|by right]. split; [done|]. exists rest.
  rewrite !zlen_app in *. pose proof (zlen_nonneg t0). repeat split; [|lia|lia|lia|done].
  rewrite Hb. f_equal. f_equal. by rewrite <- !app_assoc.
Qed.

(** ** The printers *)

Lemma no_nul_chars s : no_nul s = true -> Forall (fun c => c <> NUL) (chars s).
Proof.
  unfold no_nul, chars. induction s as [|c s IH]; [constructor|]. simpl. intros [Hc Hs]%andb_true_iff.
  constructor; [|by apply IH]. intros ->. done.
Qed.

Lemma no_nul_app a b : no_nul (a +:+ b) = true <-> no_nul a = true /\ no_nul b = true.
Proof. unfold no_nul. rewrite sforall_app. apply andb_true_iff. Qed.

Lemma print_string_spec str pre p :
  alive pre 0 p -> zlen pre + slen (print_string_ptr str) + 64 <= 2 ^ 30 ->
  bspec (print_string_buf (Some str)) p (outcome pre (chars (print_string_ptr str))).
Proof.
  intros Ha Hmax. unfold print_string_buf, print_string_ptr in *.
  destruct (sforall _ str); rewrite slen_quoted in Hmax.
  - apply emit_spec; [done|rewrite slen_quoted; lia|lia].
  - rewrite escape_len_slen. apply emit_spec; [done|rewrite slen_quoted; lia|lia].
Qed.

(** The closing bracket of an array or object that starts behind [base]. *)
Definition close_buf (n : Z) (t : string) (i : Z) : bprog (option Z) :=
  ptr <- ensure n ;;
  match ptr with
  | None => bret None
  | Some j => put j (cstring t) ;;; bret (Some i)
  end.

Lemma close_spec base dn n t p :
  alive (base ++ dn) 0 p -> slen t + 1 <= n -> zlen base + zlen dn + n <= 2 ^ 30 ->
  bspec (close_buf n t (zlen base)) p (outcome base (dn ++ chars t)).
Proof.
  intros Ha Ht Hmax. pose proof (slen_nonneg t). apply bspec_bind.
  eapply bspec_mono; [apply (ensure_spec (base ++ dn)); [done|lia|rewrite zlen_app; lia]|].
  intros r p' [[-> Ha']|[-> Hd]]; [|by right].
  apply bspec_bind. eapply bspec_mono; [apply (put_spec _ n); [done|rewrite zlen_cstring; lia]|].
  intros _ p'' [Hp _]. apply outcome_widen. left. done.
Qed.

Lemma close_dead n t i p (Q : option Z -> printbuffer -> Prop) :
  dead p -> Q None p -> bspec (close_buf n t i) p Q.
Proof. intros [Hb Hin] HQ. unfold close_buf, bspec, bbind, ensure. by rewrite Hb. Qed.

Lemma outcome_dead pre t p : dead p -> outcome pre t None p.
Proof. by right. Qed.

(** What is proved of every tree. *)
Definition prints (c : cJSON) : Prop :=
  forall d f s pre p,
    print_value c d f = Some s -> no_nul s = true -> zlen pre + slen s + 64 <= 2 ^ 30 -> alive pre 0 p ->
    bspec (print_value_buf c d f) p (outcome pre (chars s)).

Lemma elements_spec d f ch :
  Forall prints ch -> forall s base dn p,
  ch <> [] -> print_entries d f ch = Some s -> no_nul s = true ->
  zlen base + zlen dn + slen s + 65 <= 2 ^ 30 -> alive (base ++ dn) 0 p ->
  bspec (elements_buf (fun c => print_value_buf c (S d) f) f (zlen base) ch) p
    (outcome base (dn ++ chars (s +:+ "]"))).
Proof.
  induction 1 as [|c ch Hc Hch IH]; intros s base dn p Hne Hs Hnul Hmax Ha; [done|].
  cbn [print_entries] in Hs. destruct (print_value c (S d) f) as [sc|] eqn:Ec; [|done].
  destruct (print_entries d f ch) as [r|] eqn:Er; [|done]. injection Hs as <-.
  apply no_nul_app in Hnul as [Hnc Hnr]. rewrite slen_app in Hmax.
  set (tl := match ch with [] => _ | _ => _ end) in *. pose proof (slen_nonneg tl).
  cbn [elements_buf]. rewrite !chars_app, <- app_assoc, (app_assoc dn).
  apply (print_then_update (base ++ dn) (chars sc)).
  - apply Hc; [done|done|rewrite zlen_app; lia|done].
  - by apply no_nul_chars.
  - rewrite zlen_app, zlen_chars. lia.
  - intros p' Ha'. rewrite <- app_assoc in Ha'. destruct ch as [|c' ch].
    + subst tl. cbn [app]. apply close_spec; [done|vm_compute; congruence|rewrite zlen_app, zlen_chars; lia].
    + subst tl. apply no_nul_app in Hnr as [Hnsep Hnr]. rewrite slen_app in Hmax.
      set (sep := if f then ", " else ",") in *. pose proof (slen_nonneg r).
      assert (slen sep = fmt_len f) as Hsep by (subst sep; by destruct f).
      assert (1 <= fmt_len f <= 2) by (by destruct f).
      apply (piece_spec (base ++ dn ++ chars sc) _ (chars sep) [NUL]);
        [done|by rewrite zlen_chars|rewrite zlen_chars; change (zlen [NUL]) with 1; lia|rewrite zlen_chars; change (zlen [NUL]) with 1; lia
        |rewrite !zlen_app, zlen_chars; lia| |apply outcome_dead].
      intros p2 Ha2. rewrite chars_app, <- (app_assoc (chars sep)), <- chars_app, (app_assoc (dn ++ chars sc)).
      apply IH; [done|done|done|rewrite !zlen_app, !zlen_chars; lia|]. by rewrite app_assoc.
  - intros p' Hd. destruct ch as [|c' ch]; [by apply close_dead, outcome_dead|by apply piece_dead, outcome_dead].
Qed.

Lemma slen_tabs n : slen (tabs n) = Z.of_nat n.
Proof. induction n as [|n IH]; [done|]. cbn [tabs]. rewrite slen_cons, IH. lia. Qed.

Lemma chars_piece s : chars s = chars s ++ [].
Proof. by rewrite app_nil_r. Qed.

Definition opt_text (b : bool) (s : string) : string := if b then s else EmptyString.

(** One member: name, colon, value and separator. *)
Lemma member_spec d f c name sc sep k base dn p (Q : option Z -> printbuffer -> Prop) :
  prints c -> j_string c = Some name -> print_value c (S d) f = Some sc ->
  let text := print_string_ptr name +:+ (":" +:+ opt_text f (String TAB EmptyString)) +:+ sc +:+ sep in
  no_nul text = true -> zlen base + zlen dn + slen text + 64 <= 2 ^ 30 ->
  alive (base ++ dn) 0 p ->
  (forall p', alive (base ++ dn ++ chars text) 0 p' -> bspec k p' Q) ->
  (forall p', dead p' -> Q None p') ->
  bspec (print_string_buf (j_string c) ;;;
         o <- update ;; set_offset o ;;;
         piece (fmt_len f) (chars (":" +:+ opt_text f (String TAB EmptyString))) (fmt_len f)
           (print_value_buf c (S d) f ;;;
            o <- update ;; set_offset o ;;;
            piece (slen sep + 1) (cstring sep) (slen sep) k)) p Q.
Proof.
  intros Hc Hname Hsc text Hnul Hmax Ha Hk HQ. subst text. rewrite Hname.
  set (nm := print_string_ptr name) in *. set (col := ":" +:+ _) in *.
  apply no_nul_app in Hnul as [Hn1 [Hn2 [Hn3 Hn4]%no_nul_app]%no_nul_app]. rewrite !slen_app in Hmax.
  pose proof (slen_nonneg nm). pose proof (slen_nonneg sc). pose proof (slen_nonneg sep).
  assert (slen col = fmt_len f) as Hcol by (subst col; by destruct f).
  assert (1 <= fmt_len f) by (by destruct f).
  apply (print_then_update (base ++ dn) (chars nm));
    [apply print_string_spec; [done|rewrite zlen_app; unfold nm in *; lia]|by apply no_nul_chars
    |rewrite zlen_app, zlen_chars; lia| |intros p' Hd; apply piece_dead; auto].
  intros p1 Ha1. rewrite (chars_piece col).
  apply (piece_spec ((base ++ dn) ++ chars nm)); [done|by rewrite zlen_chars| | | | |done];
    try (rewrite ?zlen_app, !zlen_chars; change (zlen (@nil ascii)) with 0; lia).
  intros p2 Ha2. set (pre2 := ((base ++ dn) ++ chars nm) ++ chars col) in *.
  assert (zlen pre2 = zlen base + zlen dn + slen nm + slen col) as Hpre2
    by (unfold pre2; rewrite !zlen_app, !zlen_chars; lia).
  apply (print_then_update pre2 (chars sc)); [apply Hc; [done|done|lia|done]|by apply no_nul_chars
    |rewrite zlen_chars; lia| |intros p' Hd; apply piece_dead; auto].
  intros p3 Ha3. apply (piece_spec (pre2 ++ chars sc) _ (chars sep) [NUL]); [done|by rewrite zlen_chars| | | | |done];
    try (rewrite ?zlen_app, ?zlen_chars, ?Hpre2; change (zlen [NUL]) with 1; lia).
  intros p4 Ha4. apply Hk. rewrite !chars_app. unfold pre2 in Ha4. by rewrite <- !app_assoc in *.
Qed.

Lemma members_spec d f ch :
  Forall prints ch -> forall s base dn p,
  print_members d f ch = Some s -> no_nul s = true ->
  zlen base + zlen dn + slen s + slen (opt_text f (tabs d)) + 65 <= 2 ^ 30 -> alive (base ++ dn) 0 p ->
  bspec (members_buf (fun c => print_value_buf c (S d) f) (S d) f (zlen base) ch) p
    (outcome base (dn ++ chars (s +:+ opt_text f (tabs d) +:+ "}"))).
Proof.
  induction 1 as [|c ch Hc Hch IH]; intros s base dn p Hs Hnul Hmax Ha.
  { injection Hs as <-. rewrite slen_nil in Hmax. change (EmptyString +:+ ?x) with x.
    cbn [members_buf]. rewrite Nat.sub_succ, Nat.sub_0_r.
    apply close_spec; [done|destruct f; rewrite slen_app; cbn [opt_text]; rewrite ?slen_tabs, ?slen_nil, slen_cons, slen_nil; lia
      |destruct f; cbn [opt_text] in Hmax; rewrite ?slen_tabs, ?slen_nil in Hmax; lia]. }
  cbn [print_members] in Hs. destruct (j_string c) as [name|] eqn:En; [|done].
  destruct (print_value c (S d) f) as [sc|] eqn:Ec; [|done].
  destruct (print_members d f ch) as [r|] eqn:Er; [|done]. injection Hs as <-.
  set (ind := if f then tabs (S d) else EmptyString) in *.
  set (sep := (match ch with [] => EmptyString | _ => "," end) +:+ (if f then nl_text else EmptyString)).
  set (text := print_string_ptr name +:+ (":" +:+ opt_text f (String TAB EmptyString)) +:+ sc +:+ sep).
  match goal with |- bspec _ _ (outcome _ (_ ++ chars (?s +:+ _))) =>
    assert (s = ind +:+ text +:+ r) as Es end.
  { subst text sep. unfold opt_text. by rewrite <- !string_app_assoc. }
  rewrite Es in *. clear Es. apply no_nul_app in Hnul as [Hn1 [Hn2 Hn3]%no_nul_app]. rewrite !slen_app in Hmax.
  pose proof (slen_nonneg (opt_text f (tabs d))). pose proof (slen_nonneg ind). pose proof (slen_nonneg text). pose proof (slen_nonneg r).
  assert (forall p', alive (base ++ (dn ++ chars ind)) 0 p' ->
    bspec (print_string_buf (j_string c) ;;;
         o <- update ;; set_offset o ;;;
         piece (fmt_len f) (chars (":" +:+ opt_text f (String TAB EmptyString))) (fmt_len f)
           (print_value_buf c (S d) f ;;;
            o <- update ;; set_offset o ;;;
            piece (slen sep + 1) (cstring sep) (slen sep)
              (members_buf (fun c => print_value_buf c (S d) f) (S d) f (zlen base) ch))) p'
      (outcome base (dn ++ chars ((ind +:+ text +:+ r) +:+ opt_text f (tabs d) +:+ "}")))) as Hrest.
  { intros p' Ha'. apply (member_spec d f c name sc sep _ base (dn ++ chars ind)); [done..| |done| |apply outcome_dead].
    - rewrite zlen_app, zlen_chars. fold text. lia.
    - intros p2 Ha2. fold text in Ha2. rewrite <- !string_app_assoc, !(chars_app ind), !(chars_app text), app_assoc, app_assoc.
      apply IH; [done|done|rewrite !zlen_app, !zlen_chars; lia|]. done. }
  cbn [members_buf]. rewrite En in *. destruct f; [|apply Hrest; by rewrite app_nil_r].
  assert (slen ind = Z.of_nat (S d)) by apply slen_tabs. rewrite (chars_piece (tabs (S d))).
  apply (piece_spec (base ++ dn)); [done| | | | | |apply outcome_dead];
    try (rewrite ?zlen_app, zlen_chars, slen_tabs; change (zlen (@nil ascii)) with 0; lia).
  - rewrite zlen_app. lia.
  - intros p' Ha'. apply Hrest. by rewrite app_assoc.
Qed.

(** What the printer without buffer relies on as well: the numbers of the tree are
    doubles and ints of the machine. *)
Fixpoint numbers_valid (c : cJSON) : bool :=
  match c with
  | Item _ _ vi vd _ ch =>
      f64_valid vd && (INT_MIN <=? vi) && (vi <=? INT_MAX) && forallb numbers_valid ch
  end.

Lemma array_buf_eq vs vi vd nm c ch d f :
  print_value_buf (Item cJSON_Array vs vi vd nm (c :: ch)) d f
  = (i <- get_offset ;;
     piece 1 ["["%char] 1 (elements_buf (fun c => print_value_buf c (S d) f) f i (c :: ch))).
Proof. reflexivity. Qed.

Lemma object_buf_eq vs vi vd nm c ch d f :
  print_value_buf (Item cJSON_Object vs vi vd nm (c :: ch)) d f
  = (i <- get_offset ;;
     piece (fmt_len f + 1) (cstring ("{" +:+ opt_text f nl_text)) (fmt_len f)
       (members_buf (fun c => print_value_buf c (S d) f) (S d) f i (c :: ch))).
Proof. reflexivity. Qed.

Lemma at_offset pre p (k : Z -> bprog (option Z)) Q :
  alive pre 0 p -> bspec (k (zlen pre)) p Q -> bspec (i <- get_offset ;; k i) p Q.
Proof. intros (? & ? & ? & Ho & ?). unfold bspec, bbind, get_offset. by rewrite Ho. Qed.

Lemma prints_array vs vi vd nm ch : Forall prints ch -> prints (Item cJSON_Array vs vi vd nm ch).
Proof.
  intros Hch d f s pre p Hs Hnul Hmax Ha. rewrite print_array_eq in Hs.
  destruct (print_entries d f ch) as [b|] eqn:Eb; [|done]. injection Hs as <-.
  destruct ch as [|c ch].
  { injection Eb as <-. change ("[" +:+ EmptyString +:+ "]") with "[]" in *. change (slen "[]") with 2 in Hmax.
    apply emit_spec; [done|change (slen "[]") with 2; lia|lia]. }
  apply no_nul_app in Hnul as [_ [Hnul _]%no_nul_app]. rewrite !slen_app in Hmax.
  change (slen "[") with 1 in *. change (slen "]") with 1 in *. pose proof (slen_nonneg b).
  rewrite array_buf_eq. apply (at_offset pre); [done|].
  rewrite chars_app. change ["["%char] with (chars "[" ++ []).
  apply (piece_spec pre); [done|done|change (zlen (chars "[")) with 1; change (zlen (@nil ascii)) with 0; lia..| |apply outcome_dead].
  intros p' Ha'. apply elements_spec; [done..|change (zlen (chars "[")) with 1; lia|done].
Qed.

Lemma prints_object vs vi vd nm ch : Forall prints ch -> prints (Item cJSON_Object vs vi vd nm ch).
Proof.
  intros Hch d f s pre p Hs Hnul Hmax Ha. destruct ch as [|c ch].
  { injection Hs as <-. pose proof (zlen_nonneg pre). apply emit_spec; [done| |].
    all: destruct f; rewrite !slen_app, ?slen_cons, ?slen_tabs, ?slen_nil in *; lia. }
  rewrite print_object_eq in Hs.
  destruct (print_members d f (c :: ch)) as [b|] eqn:Eb; [|done]. injection Hs as <-.
  set (open := "{" +:+ opt_text f nl_text).
  match goal with |- bspec _ _ (outcome _ (chars ?s)) =>
    assert (s = open +:+ b +:+ opt_text f (tabs d) +:+ "}") as Es end.
  { subst open. unfold opt_text. by rewrite <- !string_app_assoc. }
  rewrite Es in *. clear Es. apply no_nul_app in Hnul as [_ [Hnul _]%no_nul_app]. rewrite !slen_app in Hmax.
  change (slen "}") with 1 in *. pose proof (slen_nonneg b). pose proof (slen_nonneg (opt_text f (tabs d))).
  assert (slen open = fmt_len f) as Hopen by (subst open; by destruct f).
  assert (1 <= fmt_len f <= 2) by (by destruct f).
  rewrite object_buf_eq. apply (at_offset pre); [done|].
  rewrite chars_app. apply (piece_spec pre _ (chars open) [NUL]); [done|by rewrite zlen_chars| | | | |apply outcome_dead];
    try (rewrite ?zlen_chars; change (zlen [NUL]) with 1; lia).
  intros p' Ha'. apply members_spec; [done..|rewrite zlen_chars; lia|done].
Qed.

Lemma prints_all c : numbers_valid c = true -> prints c.
Proof.
  induction c as [ty vs vi vd nm ch IH] using cJSON_tree_ind. intros Hv. cbn [numbers_valid] in Hv.
  apply andb_true_iff in Hv as [[[Hvd Hlo]%andb_true_iff Hhi]%andb_true_iff Hv].
  assert (Forall prints ch) as Hch.
  { rewrite Forall_forall in IH |- *. rewrite forallb_forall in Hv.
    intros x Hx. apply IH; [done|]. apply Hv. done. }
  destruct ty; [..|by apply prints_array|by apply prints_object].
  all: intros d f s pre p Hs Hnul Hmax Ha; cbn [print_value j_type] in Hs; cbn [print_value_buf j_type j_valuestring].
  1-3: pose proof (slen_nonneg s); injection Hs as <-; apply emit_spec; [done|change (slen ?x) with (Z.of_nat (String.length x)); cbn [String.length]; lia|lia].
  - unfold print_number_buf. rewrite Hs. pose proof (number_room_enough _ _ Hs Hvd) as Hroom.
    apply Z.leb_le in Hlo, Hhi. specialize (Hroom ltac:(split; done)). apply emit_spec; [done|lia|lia].
  - cbn [j_valuestring] in Hs. destruct vs as [str|]; [|done]. injection Hs as <-. by apply print_string_spec.
Qed.

Lemma emit_dead needed s pre t p : dead p -> bspec (emit needed s) p (outcome pre t).
Proof. intros [Hb Hin]. unfold emit, bspec, bbind, ensure. rewrite Hb. by right. Qed.

Lemma prints_dead c d f s t p :
  print_value c d f = Some s -> dead p -> bspec (print_value_buf c d f) p (outcome [] t).
Proof.
  intros Hs Hd. destruct c as [ty vs vi vd nm ch]. destruct ty; cbn [print_value j_type] in Hs;
    cbn [print_value_buf j_type j_valuestring j_child]; try by apply emit_dead.
  - unfold print_number_buf. rewrite Hs. by apply emit_dead.
  - cbn [j_valuestring] in Hs. destruct vs; [|done]. unfold print_string_buf. destruct (sforall _ _); by apply emit_dead.
  - destruct ch; [by apply emit_dead|]. by apply piece_dead, outcome_dead.
  - destruct ch; [by apply emit_dead|]. by apply piece_dead, outcome_dead.
Qed.

Lemma first_buffer prebuffer (p : printbuffer) b :
  0 <= prebuffer -> buf_malloc prebuffer (PB None 0 0 ans0) = Some (b, p) ->
  let st := PB b prebuffer 0 (p_answers p) in alive [] 0 st \/ dead st.
Proof.
  intros Hpre Hm st. subst st. unfold buf_malloc in Hm. cbn [p_answers p_buffer p_length p_offset] in Hm.
  assert (forall a, (exists u, ans0 = u ++ a) -> alive [] 0 (PB (Some (repeat None (Z.to_nat prebuffer))) prebuffer 0 a)) as Hok.
  { intros a Ha. exists (repeat None (Z.to_nat prebuffer)). unfold zlen. rewrite repeat_length.
    cbn [p_buffer p_length p_offset length map app]. repeat split; [lia|lia|done]. }
  revert Hm. unfold dead. destruct (Z.ltb_spec prebuffer 0); [lia|].
  destruct ans0 as [|[] a] eqn:Ea; intros [= <- <-]; cbn [p_answers tail p_buffer].
  - left. apply Hok. by exists [].
  - left. apply Hok. by exists [true].
  - right. split; [done|]. by left.
Qed.

End States.

Lemma buf_text_chars s rest :
  no_nul s = true -> buf_text (map Some (chars s) ++ Some NUL :: rest) = Some s.
Proof.
  unfold no_nul, chars. induction s as [|c s IH]; [done|]. simpl. intros [Hc Hs]%andb_true_iff.
  destruct (Ascii.eqb c NUL); [done|]. by rewrite IH.
Qed.

(** ** The lengths the printer without buffer allocates *)

(** [strlen (ret) + 2 + (fmt ? 1 : 0)], summed over the elements. *)
Fixpoint entries_len (d : nat) (fmt : bool) (l : list cJSON) : option Z :=
  match l with
  | [] => Some 0
  | c :: l =>
      match print_value c (S d) fmt, entries_len d fmt l with
      | Some ret, Some n => Some (slen ret + 2 + (if fmt then 1 else 0) + n)
      | _, _ => None
      end
  end.

(** [strlen (ret) + strlen (str) + 2 + (fmt ? 2 + depth : 0)], summed over the members. *)
Fixpoint members_len (d : nat) (fmt : bool) (l : list cJSON) : option Z :=
  match l with
  | [] => Some 0
  | c :: l =>
      match j_string c, print_value c (S d) fmt, members_len d fmt l with
      | Some name, Some ret, Some n =>
          Some (slen ret + slen (print_string_ptr name) + 2 + (if fmt then 2 + Z.of_nat (S d) else 0) + n)
      | _, _, _ => None
      end
  end.

(** The argument of the [malloc] that makes the text of [item]. *)
Definition print_alloc (item : cJSON) (depth : nat) (fmt : bool) : option Z :=
  match j_type item with
  | cJSON_NULL => Some (slen "null" + 1)
  | cJSON_False => Some (slen "false" + 1)
  | cJSON_True => Some (slen "true" + 1)
  | cJSON_Number => Some (number_room item)
  | cJSON_String =>
      option_map (fun str =>
        (if sforall (fun c => negb (needs_escape c)) str then slen str else escape_len str) + 3)
        (j_valuestring item)
  | cJSON_Array =>
      match j_child item with
      | [] => Some 3
      | _ => option_map (Z.add 5) (entries_len depth fmt (j_child item))
      end
  | cJSON_Object =>
      match j_child item with
      | [] => Some (if fmt then Z.of_nat depth + 4 else 3)
      | _ => option_map (Z.add (7 + (if fmt then Z.of_nat (S depth) else 0))) (members_len depth fmt (j_child item))
      end
  end.

Lemma entries_len_enough d f l s :
  print_entries d f l = Some s -> exists n, entries_len d f l = Some n /\ slen s <= n.
Proof.
  revert s. induction l as [|c l IH]; intros s Hs; [injection Hs as <-; by exists 0|].
  cbn [print_entries entries_len] in *. destruct (print_value c (S d) f) as [sc|]; [|done].
  destruct (print_entries d f l) as [r|]; [|done]. injection Hs as <-. destruct (IH r eq_refl) as (n & -> & Hn).
  eexists. split; [done|]. rewrite slen_app. pose proof (slen_nonneg r).
  destruct l; [rewrite slen_nil; destruct f; lia|]. rewrite slen_app. destruct f.
  - change (slen ", ") with 2. lia.
  - change (slen ",") with 1. lia.
Qed.

Lemma members_len_enough d f l s :
  print_members d f l = Some s -> exists n, members_len d f l = Some n /\ slen s <= n.
Proof.
  revert s. induction l as [|c l IH]; intros s Hs; [injection Hs as <-; by exists 0|].
  cbn [print_members members_len] in *. destruct (j_string c) as [name|]; [|done].
  destruct (print_value c (S d) f) as [sc|]; [|done].
  destruct (print_members d f l) as [r|]; [|done]. injection Hs as <-. destruct (IH r eq_refl) as (n & -> & Hn).
  eexists. split; [done|]. rewrite !slen_app. change (slen ":") with 1.
  assert (slen (match l with [] => EmptyString | _ => "," end) <= 1) by (by destruct l).
  destruct f; cbv iota.
  - rewrite !slen_cons, slen_tabs, slen_nil. change (slen nl_text) with 1. lia.
  - rewrite !slen_nil. lia.
Qed.

(** C26: [cJSON_PrintBuffered] writes what the printer without buffer writes.
    For every tree of machine numbers, every first size and every pattern of
    failing allocations the result is the text of [print_value], or NULL when
    a call of [malloc] failed; [ensure] always makes enough room (no write
    leaves the buffer) and [update] always finds the end of the text. *)
Theorem print_buffered (c : cJSON) (prebuffer : Z) (fmt : bool) (answers : list bool) (s : string) :
  print_value c 0 fmt = Some s -> numbers_valid c = true -> no_nul s = true ->
  slen s + 64 <= 2 ^ 30 -> 0 <= prebuffer ->
  cJSON_PrintBuffered c prebuffer fmt answers = Some (Some s)
  \/ (In false answers /\ cJSON_PrintBuffered c prebuffer fmt answers = Some None).
Proof.
  intros Hs Hv Hnul Hmax Hpre. unfold cJSON_PrintBuffered.
  destruct (buf_malloc prebuffer (PB None 0 0 answers)) as [[b p]|] eqn:Em.
  2:{ unfold buf_malloc in Em. by destruct answers as [|[]]. }
  assert (bspec (print_value_buf c 0 fmt) (PB b prebuffer 0 (p_answers p)) (outcome answers [] (chars s))) as Hout.
  { destruct (first_buffer answers prebuffer p b Hpre Em) as [Ha|Hd].
    - apply prints_all; [done..|change (zlen (@nil ascii)) with 0; lia|done].
    - by apply (prints_dead answers c 0 fmt s). }
  unfold bspec in Hout. destruct (print_value_buf _ _ _ _) as [[r p']|]; [|done].
  destruct Hout as [[-> (rest & Hb & _)]|[-> [_ Hin]]]; [left|by right].
  rewrite Hb. change (Z.to_nat (zlen (@nil ascii))) with 0%nat. rewrite app_nil_l, skipn_O, map_app, <- app_assoc.
  change (map Some [NUL] ++ rest) with (Some NUL :: rest). by rewrite (buf_text_chars s rest Hnul).
Qed.

(** Two growths of the buffer, then the same with the third allocation failing. *)
Lemma print_buffered_witness :
  cJSON_PrintBuffered sample_json 1 true [] = option_map Some (cJSON_Print sample_json)
  /\ cJSON_PrintBuffered sample_json 1 true [true; true; false] = Some None.
Proof.
  assert (option_map (fun s => no_nul s && (slen s <? 1000)) (cJSON_Print sample_json) = Some true) as H
    by (vm_compute; reflexivity).
  assert (numbers_valid sample_json = true) as Hv by (vm_compute; reflexivity).
  unfold cJSON_Print in *. destruct (print_value sample_json 0 true) as [s|] eqn:Hs; [|done].
  injection H as [Hn Hl%Z.ltb_lt]%andb_true_iff. split.
  - destruct (print_buffered sample_json 1 true [] s Hs Hv Hn) as [->|[[] _]]; [lia|lia|done].
  - destruct (print_buffered sample_json 1 true [true; true; false] s Hs Hv Hn) as [H|[_ H]]; [lia|lia| |exact H].
    exfalso. revert H. vm_compute. congruence.
Defined.

(** The lengths that the printer without buffer adds up before it writes
    (the worst case of each number format, twice or six times each escaped
    character, five or seven bytes and the separators of arrays and objects)
    are enough for the text and its terminator. *)
Theorem print_alloc_enough (c : cJSON) (depth : nat) (fmt : bool) (s : string) :
  print_value c depth fmt = Some s -> numbers_valid c = true ->
  exists n, print_alloc c depth fmt = Some n /\ slen s + 1 <= n.
Proof.
  destruct c as [ty vs vi vd nm ch]. intros Hs Hv. unfold print_alloc. destruct ty; cbn [j_type j_child j_valuestring].
  1-3: injection Hs as <-; eexists; split; [done|lia].
  - cbn [numbers_valid] in Hv. apply andb_true_iff in Hv as [[[Hvd Hlo]%andb_true_iff Hhi]%andb_true_iff _].
    apply Z.leb_le in Hlo, Hhi. eexists. split; [done|].
    by apply number_room_enough.
  - cbn [print_value j_type j_valuestring] in Hs. destruct vs as [str|]; [|done]. injection Hs as <-.
    eexists. split; [done|]. unfold print_string_ptr. rewrite escape_len_slen.
    destruct (sforall _ str); rewrite slen_quoted; lia.
  - rewrite print_array_eq in Hs. destruct (print_entries depth fmt ch) as [b|] eqn:Eb; [|done]. injection Hs as <-.
    rewrite !slen_app. change (slen "[") with 1. change (slen "]") with 1.
    destruct ch as [|c ch]; [injection Eb as <-; exists 3; split; [done|rewrite slen_nil; lia]|].
    destruct (entries_len_enough _ _ _ _ Eb) as (n & -> & Hn). eexists. split; [done|lia].
  - destruct ch as [|c ch].
    { injection Hs as <-. eexists. split; [done|]. destruct fmt; rewrite !slen_app, ?slen_cons, ?slen_tabs, ?slen_nil; lia. }
    rewrite print_object_eq in Hs. destruct (print_members depth fmt (c :: ch)) as [b|] eqn:Eb; [|done]. injection Hs as <-.
    destruct (members_len_enough _ _ _ _ Eb) as (n & -> & Hn). eexists. split; [done|].
    rewrite !slen_app. change (slen "{") with 1. change (slen "}") with 1.
    destruct fmt; cbv iota; rewrite ?slen_tabs, ?slen_nil; [change (slen nl_text) with 1|]; lia.
Qed.

Lemma print_alloc_enough_witness :
  exists s n, cJSON_Print sample_json = Some s /\ print_alloc sample_json 0 true = Some n /\ slen s + 1 <= n.
Proof.
  assert (cJSON_Print sample_json <> None) as H by (vm_compute; congruence).
  unfold cJSON_Print in *. destruct (print_value sample_json 0 true) as [s|] eqn:Hs; [|done]. clear H.
  destruct (print_alloc_enough sample_json 0 true s Hs) as (n & Hn & Hl); [vm_compute; reflexivity|].
  by exists s, n.
Defined.
