(* ===== verification/CJsonMinify.v ===== *)
(** * Removing white space and comments in place: [cJSON_Minify]
    (src/src/common/cJSON.c)

    The function reads a C string through the pointer [json] and writes back into
    the same bytes through [into].  Here the bytes are a list (the terminator
    included), the pointers are indices, and an access outside of the list is
    undefined behaviour.  The reference is a pure function on the text, which has
    no result for a text that ends inside a comment or a string.

    The function never overtakes its reader, refines the reference, and runs past
    the terminator exactly when the reference has no result; a formatted print-out
    becomes the unformatted one. *)

From S2P Require Import Prelude CLib Float64 CJson CJsonRound CJsonBuffer.
From Stdlib Require Import Floats.SpecFloat.

(** ** The function *)

Inductive mres (A : Type) := MUndef | MFuel | MOk (a : A).
Arguments MUndef {A}.
Arguments MFuel {A}.
Arguments MOk {A} a.

Definition mbind {A B} (m : mres A) (f : A -> mres B) : mres B :=
  match m with MUndef => MUndef | MFuel => MFuel | MOk a => f a end.

Declare Scope min_scope.
Notation "x <- m ;; f" := (mbind m (fun x => f))
  (at level 100, m at next level, right associativity) : min_scope.
#[local] Open Scope min_scope.

Definition rd (mem : list ascii) (i : nat) : mres ascii :=
  match nth_error mem i with Some c => MOk c | None => MUndef end.

Definition wr (mem : list ascii) (i : nat) (c : ascii) : mres (list ascii) :=
  if (i <? length mem)%nat then MOk (firstn i mem ++ c :: skipn (S i) mem) else MUndef.

(** [*into++ = *json++], without the increments *)
Definition copy1 (mem : list ascii) (json into : nat) : mres (list ascii) :=
  c <- rd mem json ;; wr mem into c.

(** The loop over a line comment, up to the line feed or the terminator. *)
Fixpoint skip_line (fuel : nat) (mem : list ascii) (json : nat) : mres nat :=
  match fuel with
  | O => MFuel
  | S fuel =>
      c <- rd mem json ;;
      if Ascii.eqb c NUL || Ascii.eqb c LF then MOk json else skip_line fuel mem (S json)
  end.

(** The loop over a block comment: up to a star that a slash follows. *)
Fixpoint skip_block (fuel : nat) (mem : list ascii) (json : nat) : mres nat :=
  match fuel with
  | O => MFuel
  | S fuel =>
      c <- rd mem json ;;
      if Ascii.eqb c NUL then MOk json
      else if Ascii.eqb c "*" then
        c' <- rd mem (S json) ;;
        if Ascii.eqb c' "/" then MOk json else skip_block fuel mem (S json)
      else skip_block fuel mem (S json)
  end.

(** The loop over the characters of a string literal. *)
Fixpoint copy_string (fuel : nat) (mem : list ascii) (json into : nat) : mres (list ascii * nat * nat) :=
  match fuel with
  | O => MFuel
  | S fuel =>
      c <- rd mem json ;;
      if Ascii.eqb c NUL || Ascii.eqb c DQUOTE then MOk (mem, json, into)
      else if Ascii.eqb c BACKSLASH then
        mem <- copy1 mem json into ;;
        mem <- copy1 mem (S json) (S into) ;;
        copy_string fuel mem (S (S json)) (S (S into))
      else
        mem <- copy1 mem json into ;;
        copy_string fuel mem (S json) (S into)
  end.

Definition is_space (c : ascii) : bool :=
  Ascii.eqb c " " || Ascii.eqb c TAB || Ascii.eqb c CR || Ascii.eqb c LF.

Fixpoint minify_loop (fuel : nat) (mem : list ascii) (json into : nat) : mres (list ascii) :=
  match fuel with
  | O => MFuel
  | S fuel' =>
      c <- rd mem json ;;
      if Ascii.eqb c NUL then wr mem into NUL
      else if is_space c then minify_loop fuel' mem (S json) into
      else
        let other :=
          if Ascii.eqb c DQUOTE then
            mem <- copy1 mem json into ;;
            r <- copy_string fuel mem (S json) (S into) ;;
            let '(mem, json, into) := r in
            mem <- copy1 mem json into ;;
            minify_loop fuel' mem (S json) (S into)
          else
            mem <- copy1 mem json into ;;
            minify_loop fuel' mem (S json) (S into) in
        if Ascii.eqb c "/" then
          c' <- rd mem (S json) ;;
          if Ascii.eqb c' "/" then
            json <- skip_line fuel mem json ;; minify_loop fuel' mem json into
          else if Ascii.eqb c' "*" then
            json <- skip_block fuel mem json ;; minify_loop fuel' mem (json + 2) into
          else other
        else other
  end.

(** The fuel is one more than the number of bytes: every round moves [json]. *)
Definition cJSON_Minify (mem : list ascii) : mres (list ascii) :=
  minify_loop (S (length mem)) mem 0 0.

(** ** The reference: what is kept of a text *)

Fixpoint min_out (s : string) : option string :=
  match s with
  | EmptyString => Some EmptyString
  | String c s' =>
      if is_space c then min_out s'
      else if Ascii.eqb c DQUOTE then option_map (String c) (min_str s')
      else
        let other := option_map (String c) (min_out s') in
        if Ascii.eqb c "/" then
          match s' with
          | String d _ =>
              if Ascii.eqb d "/" then min_line s' else if Ascii.eqb d "*" then min_block s' else other
          | EmptyString => other
          end
        else other
  end
with min_line (s : string) : option string :=
  match s with
  | EmptyString => Some EmptyString
  | String c s' => if Ascii.eqb c LF then min_out s' else min_line s'
  end
with min_block (s : string) : option string :=
  match s with
  | EmptyString => None
  | String c s' =>
      if Ascii.eqb c "*" then
        match s' with
        | String d s'' => if Ascii.eqb d "/" then min_out s'' else min_block s'
        | EmptyString => min_block s'
        end
      else min_block s'
  end
with min_str (s : string) : option string :=
  match s with
  | EmptyString => None
  | String c s' =>
      if Ascii.eqb c DQUOTE then option_map (String c) (min_out s')
      else if Ascii.eqb c BACKSLASH then
        match s' with
        | String d s'' => option_map (fun t => String c (String d t)) (min_str s'')
        | EmptyString => None
        end
      else option_map (String c) (min_str s')
  end.

(** ** Reading and copying at the pointers *)

Lemma rd_at (a : list ascii) c u : rd (a ++ c :: u) (length a) = MOk c.
Proof. unfold rd. by rewrite nth_error_app2, Nat.sub_diag. Qed.

Lemma rd_next (a : list ascii) c d u : rd (a ++ c :: d :: u) (S (length a)) = MOk d.
Proof. unfold rd. by rewrite nth_error_app2, Nat.sub_succ_l, Nat.sub_diag by lia. Qed.

Lemma rd_past (a : list ascii) i : (length a <= i)%nat -> rd a i = MUndef.
Proof. intros Hi. unfold rd. by rewrite (proj2 (nth_error_None a i) Hi). Qed.

(** One character moves from the reader to the writer; the gap between them keeps
    its length. *)
Lemma copy1_spec (w g : list ascii) c u :
  exists g', copy1 (w ++ g ++ c :: u) (length w + length g) (length w) = MOk ((w ++ [c]) ++ g' ++ u)
    /\ length g' = length g.
Proof.
  unfold copy1. rewrite app_assoc, <- length_app, rd_at, <- app_assoc. cbn [mbind]. unfold wr.
  rewrite !length_app. cbn [length]. destruct (Nat.ltb_spec (length w) (length w + (length g + S (length u)))); [|lia].
  rewrite firstn_app, Nat.sub_diag, firstn_O, firstn_all, app_nil_r.
  destruct g as [|x g].
  - exists []. split; [|done]. cbn [app]. rewrite skipn_app, skipn_all2 by lia.
    replace (S (length w) - length w)%nat with 1%nat by lia. by rewrite <- app_assoc.
  - exists (g ++ [c]). split; [|rewrite length_app; simpl; lia].
    rewrite skipn_app, skipn_all2 by lia. replace (S (length w) - length w)%nat with 1%nat by lia.
    cbn [app skipn]. by rewrite <- !app_assoc.
Qed.

Lemma cstring_cons c s : cstring (String c s) = c :: cstring s.
Proof. done. Qed.

Lemma cstring_nil : cstring EmptyString = [NUL].
Proof. done. Qed.

(** ** The loops *)

Lemma skip_line_spec fuel a s :
  no_nul s = true -> (String.length s < fuel)%nat ->
  exists x s', s = x +:+ s' /\ skip_line fuel (a ++ cstring s) (length a) = MOk (length a + String.length x)%nat
    /\ min_line s = min_out s'.
Proof.
  revert a s. induction fuel as [|fuel IH]; intros a s Hn Hf; [lia|]. cbn [skip_line]. destruct s as [|c s].
  - exists EmptyString, EmptyString. rewrite cstring_nil, rd_at. cbn. by rewrite Nat.add_0_r.
  - rewrite cstring_cons, rd_at. cbn [mbind]. destruct (no_nul_cons c s Hn) as [-> Hn']. cbn [orb].
    cbn [min_line]. destruct (Ascii.eqb_spec c LF) as [->|Hc].
    + exists EmptyString, (String LF s). cbn. by rewrite Nat.add_0_r.
    + destruct (IH (a ++ [c]) s Hn') as (x & s' & -> & Hs & Hm); [simpl in Hf; lia|].
      exists (String c x), s'. split; [done|]. rewrite <- app_assoc, length_app in Hs. cbn [app length] in Hs.
      rewrite Nat.add_1_r in Hs. rewrite Hs. split; [|done]. cbn [String.length]. f_equal. lia.
Qed.

Lemma skip_block_spec fuel a s :
  no_nul s = true -> (String.length s < fuel)%nat ->
  exists x s', s = x +:+ s' /\ skip_block fuel (a ++ cstring s) (length a) = MOk (length a + String.length x)%nat
    /\ ((s' = EmptyString /\ min_block s = None)
        \/ exists s'', s' = String "*" (String "/" s'') /\ min_block s = min_out s'').
Proof.
  revert a s. induction fuel as [|fuel IH]; intros a s Hn Hf; [lia|]. cbn [skip_block]. destruct s as [|c s].
  - exists EmptyString, EmptyString. rewrite cstring_nil, rd_at. cbn. rewrite Nat.add_0_r. auto.
  - rewrite cstring_cons, rd_at. cbn [mbind]. destruct (no_nul_cons c s Hn) as [-> Hn']. cbn [min_block].
    assert (exists x s', String c s = x +:+ s'
      /\ skip_block fuel (a ++ c :: cstring s) (S (length a)) = MOk (length a + String.length x)%nat
      /\ ((s' = EmptyString /\ min_block s = None)
        \/ exists s'', s' = String "*" (String "/" s'') /\ min_block s = min_out s'')) as Hrec.
    { destruct (IH (a ++ [c]) s Hn') as (x & s' & -> & Hs & Hm); [simpl in Hf; lia|].
      exists (String c x), s'. split; [done|]. rewrite <- app_assoc, length_app in Hs. cbn [app length] in Hs.
      rewrite Nat.add_1_r in Hs. rewrite Hs. split; [|done]. cbn [String.length]. f_equal. lia. }
    destruct (Ascii.eqb_spec c "*") as [->|Hc]; [|done].
    destruct s as [|d s].
    + rewrite cstring_nil in *. rewrite rd_next. done.
    + rewrite cstring_cons in *. rewrite rd_next.
      cbn [mbind]. destruct (Ascii.eqb_spec d "/") as [->|Hd]; [|done].
      exists EmptyString, (String "*" (String "/" s)). split; [done|]. cbn [String.length]. rewrite Nat.add_0_r.
      split; [done|]. right. by exists s.
Qed.

(** What the loop over a string does: it stops at the closing quote, or at the
    terminator, or has left the text. *)
Definition string_copied (w g : list ascii) (s : string) (r : mres (list ascii * nat * nat)) : Prop :=
  (exists x g' s', r = MOk ((w ++ chars x) ++ g' ++ cstring (String DQUOTE s'),
                            (length (w ++ chars x) + length g')%nat, length (w ++ chars x))
     /\ length g' = length g /\ no_nul s' = true /\ (String.length s' < String.length s)%nat
     /\ min_str s = option_map (fun t => x +:+ String DQUOTE t) (min_out s'))
  \/ (exists w' g', r = MOk (w' ++ g' ++ [NUL], (length w' + length g')%nat, length w') /\ min_str s = None)
  \/ (r = MUndef /\ min_str s = None).

Lemma string_copied_cons w g g' s s1 y r :
  string_copied (w ++ chars y) g' s r -> length g' = length g -> (String.length s < String.length s1)%nat ->
  min_str s1 = option_map (fun t => y +:+ t) (min_str s) -> string_copied w g s1 r.
Proof.
  intros Hr Hg Hs Hm. destruct Hr as [(x & g2 & s' & -> & Hg2 & Hn & Hl & Hx)|[(w' & g2 & -> & Hx)|[-> Hx]]].
  - left. exists (y +:+ x), g2, s'. rewrite chars_app, !app_assoc. repeat split; [congruence|done|lia|].
    rewrite Hm, Hx. destruct (min_out s'); [|done]. cbn. by rewrite string_app_assoc.
  - right; left. exists w', g2. by rewrite Hm, Hx.
  - right; right. by rewrite Hm, Hx.
Qed.

Lemma copy_string_spec fuel w g s :
  no_nul s = true -> (String.length s < fuel)%nat ->
  string_copied w g s (copy_string fuel (w ++ g ++ cstring s) (length w + length g) (length w)).
Proof.
  revert w g s. induction fuel as [|fuel IH]; intros w g s Hn Hf; [lia|]. cbn [copy_string].
  rewrite (app_assoc w), <- length_app. destruct s as [|c s].
  { rewrite cstring_nil, rd_at. right; left. exists w, g. by rewrite length_app, <- app_assoc. }
  rewrite cstring_cons, rd_at. cbn [mbind]. destruct (no_nul_cons c s Hn) as [-> Hn']. cbn [orb].
  destruct (Ascii.eqb_spec c DQUOTE) as [->|Hc].
  { left. exists EmptyString, g, s. cbn [chars String.list_ascii_of_string]. rewrite app_nil_r, length_app, <- app_assoc.
    split; [done|split; [done|split; [done|split; [simpl; lia|]]]]. cbn. by destruct (min_out s). }
  destruct (copy1_spec w g c (cstring s)) as (g1 & Hc1 & Hg1). rewrite length_app, <- app_assoc, Hc1. cbn [mbind].
  assert (S (length w) = length (w ++ [c])) as Hw by (rewrite length_app; simpl; lia).
  assert (Ascii.eqb c DQUOTE = false) as Eq by (by destruct (Ascii.eqb_spec c DQUOTE)).
  destruct (Ascii.eqb_spec c BACKSLASH) as [->|Hb].
  - destruct s as [|d s].
    + rewrite cstring_nil. destruct (copy1_spec (w ++ [BACKSLASH]) g1 NUL []) as (g2 & Hc2 & Hg2).
      rewrite cstring_nil in *. rewrite Hw.
      replace (S (length w + length g)) with (length (w ++ [BACKSLASH]) + length g1)%nat by lia. rewrite Hc2.
      cbn [mbind]. destruct fuel as [|fuel]; [simpl in Hf; lia|]. cbn [copy_string].
      right; right. rewrite rd_past; [done|]. rewrite app_nil_r, !length_app. cbn [length]. lia.
    + rewrite cstring_cons in *. destruct (copy1_spec (w ++ [BACKSLASH]) g1 d (cstring s)) as (g2 & Hc2 & Hg2).
      rewrite Hw. replace (S (length w + length g)) with (length (w ++ [BACKSLASH]) + length g1)%nat by lia. rewrite Hc2.
      cbn [mbind]. destruct (no_nul_cons d s Hn') as [_ Hn2].
      pose proof (IH ((w ++ [BACKSLASH]) ++ [d]) g2 s Hn2 ltac:(simpl in Hf; lia)) as HI.
      rewrite !length_app in *. cbn [length] in *.
      replace (S (length w + 1 + length g1)) with (length w + 1 + 1 + length g2)%nat by lia.
      replace (S (length w + 1)) with (length w + 1 + 1)%nat by lia.
      eapply (string_copied_cons w g g2 s (String BACKSLASH (String d s)) (String BACKSLASH (String d EmptyString)));
        [|congruence|simpl; lia|done].
      change (chars (String BACKSLASH (String d EmptyString))) with ([BACKSLASH] ++ [d]). rewrite (app_assoc w). exact HI.
  - pose proof (IH (w ++ [c]) g1 s Hn' ltac:(simpl in Hf; lia)) as HI. rewrite !length_app in HI. cbn [length] in HI.
    replace (S (length w + length g)) with (length w + 1 + length g1)%nat by lia.
    replace (S (length w)) with (length w + 1)%nat by lia.
    eapply (string_copied_cons w g g1 s (String c s) (String c EmptyString)); [done|done|simpl; lia|].
    cbn [min_str]. rewrite Eq. destruct (Ascii.eqb_spec c BACKSLASH); [done|]. done.
Qed.

(** The result that the reference [o] prescribes, behind the bytes [w]. *)
Definition minified (w : list ascii) (o : option string) (r : mres (list ascii)) : Prop :=
  match o with
  | Some t => exists g, r = MOk (w ++ cstring t ++ g)
  | None => r = MUndef
  end.

Lemma minified_cons w x o r :
  minified (w ++ chars x) o r -> minified w (option_map (fun t => x +:+ t) o) r.
Proof.
  destruct o as [t|]; [|done]. intros [g ->]. exists g. unfold cstring. rewrite chars_app. by rewrite <- !app_assoc.
Qed.

Lemma loop_past fuel mem i o : (length mem <= i)%nat -> (0 < fuel)%nat -> minify_loop fuel mem i o = MUndef.
Proof. intros Hi Hf. destruct fuel; [lia|]. cbn [minify_loop]. by rewrite rd_past. Qed.

Lemma skip_line_slash fuel a u :
  skip_line (S fuel) (a ++ "/"%char :: u) (length a) = skip_line fuel (a ++ "/"%char :: u) (S (length a)).
Proof. cbn [skip_line]. by rewrite rd_at. Qed.

Lemma skip_block_slash fuel a u :
  skip_block (S fuel) (a ++ "/"%char :: u) (length a) = skip_block fuel (a ++ "/"%char :: u) (S (length a)).
Proof. cbn [skip_block]. by rewrite rd_at. Qed.

Lemma length_cstring s : length (cstring s) = S (String.length s).
Proof. pose proof (zlen_cstring s). unfold zlen, slen in *. lia. Qed.

Section Round.
Context (fuel : nat) (w g : list ascii) (c : ascii) (s : string).
Context (IH : forall w g s, no_nul s = true -> (String.length s < fuel)%nat ->
  minified w (min_out s) (minify_loop fuel (w ++ g ++ cstring s) (length w + length g) (length w))).
Context (Hn : no_nul s = true) (Hf : (String.length s < fuel)%nat).

(** [json] moves, [into] stays. *)
Lemma round_skip x s' :
  s = x +:+ s' ->
  minified w (min_out s') (minify_loop fuel (w ++ g ++ c :: cstring s) (length w + length g + S (String.length x)) (length w)).
Proof using IH Hn Hf.
  intros Es. subst s. assert (cstring (x +:+ s') = chars x ++ cstring s') as ->.
  { unfold cstring. by rewrite chars_app, <- app_assoc. }
  change (c :: chars x ++ cstring s') with ((c :: chars x) ++ cstring s').
  rewrite (app_assoc g).
  replace (length w + length g + S (String.length x))%nat with (length w + length (g ++ c :: chars x))%nat.
  - apply IH; [by apply no_nul_app in Hn as [_ ?]|]. rewrite string_length_app in Hf. lia.
  - rewrite length_app. cbn [length]. pose proof (zlen_chars x) as Hz. unfold zlen, slen in Hz. lia.
Qed.

Lemma round_copy :
  minified w (option_map (String c) (min_out s))
    (mem <- copy1 (w ++ g ++ c :: cstring s) (length w + length g) (length w) ;;
     minify_loop fuel mem (S (length w + length g)) (S (length w))).
Proof using IH Hn Hf.
  destruct (copy1_spec w g c (cstring s)) as (g1 & -> & Hg). cbn [mbind].
  apply (minified_cons w (String c EmptyString)). change (chars (String c EmptyString)) with [c].
  pose proof (IH (w ++ [c]) g1 s Hn Hf) as H. rewrite length_app in H. cbn [length] in H.
  replace (S (length w + length g)) with (length w + 1 + length g1)%nat by lia.
  by replace (S (length w)) with (length w + 1)%nat by lia.
Qed.

Lemma round_string :
  minified w (option_map (String c) (min_str s))
    (mem <- copy1 (w ++ g ++ c :: cstring s) (length w + length g) (length w) ;;
     r <- copy_string (S fuel) mem (S (length w + length g)) (S (length w)) ;;
     let '(mem, json, into) := r in
     mem <- copy1 mem json into ;;
     minify_loop fuel mem (S json) (S into)).
Proof using IH Hn Hf.
  destruct (copy1_spec w g c (cstring s)) as (g1 & -> & Hg). cbn [mbind].
  apply (minified_cons w (String c EmptyString)). change (chars (String c EmptyString)) with [c].
  replace (S (length w + length g)) with (length (w ++ [c]) + length g1)%nat by (rewrite length_app; simpl; lia).
  replace (S (length w)) with (length (w ++ [c])) by (rewrite length_app; simpl; lia).
  destruct (copy_string_spec (S fuel) (w ++ [c]) g1 s Hn ltac:(lia))
    as [(x & g2 & s' & -> & Hg2 & Hn2 & Hl & ->)|[(w' & g2 & -> & ->)|[-> ->]]]; cbn [mbind]; [| |done].
  - destruct (copy1_spec ((w ++ [c]) ++ chars x) g2 DQUOTE (cstring s')) as (g3 & Hc3 & Hg3).
    rewrite cstring_cons, Hc3. cbn [mbind].
    pose proof (IH (((w ++ [c]) ++ chars x) ++ [DQUOTE]) g3 s' Hn2 ltac:(lia)) as H.
    rewrite (length_app _ [DQUOTE]) in H. cbn [length] in H.
    replace (S (length ((w ++ [c]) ++ chars x) + length g2))
      with (length ((w ++ [c]) ++ chars x) + 1 + length g3)%nat by lia.
    replace (S (length ((w ++ [c]) ++ chars x))) with (length ((w ++ [c]) ++ chars x) + 1)%nat by lia.
    apply (minified_cons _ (String DQUOTE EmptyString)) in H. apply minified_cons in H.
    by destruct (min_out s').
  - destruct (copy1_spec w' g2 NUL []) as (g3 & -> & Hg3). cbn [mbind option_map minified].
    apply loop_past; [|lia]. rewrite app_nil_r, !length_app. cbn [length]. lia.
Qed.
End Round.

Lemma loop_spec fuel w g s :
  no_nul s = true -> (String.length s < fuel)%nat ->
  minified w (min_out s) (minify_loop fuel (w ++ g ++ cstring s) (length w + length g) (length w)).
Proof.
  revert w g s. induction fuel as [|fuel IH]; intros w g s Hn Hf; [lia|]. cbn [minify_loop].
  rewrite (app_assoc w), <- length_app. destruct s as [|c s].
  { rewrite cstring_nil, rd_at. cbn [mbind minified min_out]. change (Ascii.eqb NUL NUL) with true. cbv iota. unfold wr.
    rewrite !length_app. cbn [length]. destruct (Nat.ltb_spec (length w) (length w + length g + 1)); [|lia].
    eexists. rewrite <- app_assoc, firstn_app, Nat.sub_diag, firstn_O, firstn_all, app_nil_r, cstring_nil. reflexivity. }
  rewrite cstring_cons, rd_at. cbn [mbind]. destruct (no_nul_cons c s Hn) as [-> Hn']. cbn [String.length] in Hf.
  rewrite length_app, <- app_assoc. cbn [min_out]. destruct (is_space c) eqn:Esp.
  { pose proof (round_skip fuel w g c s IH Hn' ltac:(lia) EmptyString s eq_refl) as H. cbn [String.length] in H.
    by rewrite Nat.add_1_r in H. }
  set (other := if Ascii.eqb c DQUOTE then mbind _ _ else mbind _ _).
  assert (minified w (if Ascii.eqb c DQUOTE then option_map (String c) (min_str s) else option_map (String c) (min_out s)) other)
    as Hother.
  { subst other. destruct (Ascii.eqb c DQUOTE); [apply round_string|apply round_copy]; solve [done|lia]. }
  clearbody other. destruct (Ascii.eqb_spec c "/") as [->|Hslash]; [|by destruct (Ascii.eqb c DQUOTE)].
  change (Ascii.eqb "/" DQUOTE) with false in *. cbv iota in Hother |- *.
  rewrite (app_assoc w), <- length_app. destruct s as [|d s]; [by rewrite cstring_nil, rd_next|].
  rewrite cstring_cons at 1. rewrite rd_next. cbn [mbind]. set (s1 := String d s) in *.
  destruct (Ascii.eqb d "/"); [|destruct (Ascii.eqb d "*"); [|done]].
  - destruct (skip_line_spec fuel ((w ++ g) ++ ["/"%char]) s1) as (x & s' & Es & Hsk & Hm); [done|lia|].
    rewrite skip_line_slash. rewrite <- app_assoc, length_app, Nat.add_1_r in Hsk. cbn [app] in Hsk.
    rewrite Hsk, Hm. cbn [mbind].
    pose proof (round_skip fuel w g "/"%char s1 IH Hn' ltac:(lia) x s' Es) as H.
    rewrite length_app, <- app_assoc. by rewrite Nat.add_succ_comm.
  - destruct (skip_block_spec fuel ((w ++ g) ++ ["/"%char]) s1) as (x & s' & Es & Hsk & Hm); [done|lia|].
    rewrite skip_block_slash. rewrite <- app_assoc, length_app, Nat.add_1_r in Hsk. cbn [app] in Hsk.
    rewrite Hsk. cbn [mbind]. destruct Hm as [[-> ->]|(s'' & -> & ->)].
    + apply loop_past; [|lia]. rewrite string_app_nil_r in Es. rewrite !length_app. cbn [length]. rewrite length_cstring, Es. lia.
    + pose proof (round_skip fuel w g "/"%char s1 IH Hn' ltac:(lia) (x +:+ "*/") s'') as H.
      rewrite <- string_app_assoc in H. specialize (H Es). rewrite string_length_app in H. cbn [String.length] in H.
      rewrite length_app, <- app_assoc.
      by replace (S (length w + length g) + String.length x + 2)%nat
        with (length w + length g + S (String.length x + 2))%nat by lia.
Qed.

(** ** Print-outs *)

(** Of [s] the function keeps [t], whatever follows. *)
Definition keeps (s t : string) : Prop :=
  forall r, min_out (s +:+ r) = option_map (fun u => t +:+ u) (min_out r).

Lemma keeps_app s1 t1 s2 t2 : keeps s1 t1 -> keeps s2 t2 -> keeps (s1 +:+ s2) (t1 +:+ t2).
Proof.
  intros H1 H2 r. rewrite <- string_app_assoc, H1, H2. destruct (min_out r) as [u|]; [|done].
  cbn. by rewrite string_app_assoc.
Qed.

Lemma keeps_nil : keeps EmptyString EmptyString.
Proof. intros r. rewrite string_app_nil_l. by destruct (min_out r). Qed.

Lemma keeps_space s t c : is_space c = true -> keeps s t -> keeps (String c s) t.
Proof. intros Hc Hs r. rewrite string_app_cons. cbn [min_out]. by rewrite Hc. Qed.

Definition plain (c : ascii) : bool := negb (is_space c || Ascii.eqb c DQUOTE || Ascii.eqb c "/" || Ascii.eqb c NUL).

Lemma keeps_plain s : sforall plain s = true -> keeps s s.
Proof.
  induction s as [|c s IH]; [intros _; apply keeps_nil|]. cbn [sforall]. unfold plain at 1.
  intros [[[[Hsp Hq]%orb_false_iff Hsl]%orb_false_iff _]%negb_true_iff%orb_false_iff Hs]%andb_true_iff r.
  rewrite string_app_cons. cbn [min_out]. rewrite Hsp, Hq, Hsl, (IH Hs r). by destruct (min_out r).
Qed.

Lemma keeps_tabs n : keeps (tabs n) EmptyString.
Proof. induction n as [|n IH]; [apply keeps_nil|]. cbn [tabs]. by apply keeps_space. Qed.

(** Inside a string: characters that are copied one by one. *)
Definition inner (c : ascii) : bool := negb (Ascii.eqb c DQUOTE || Ascii.eqb c BACKSLASH).

Lemma min_str_inner s r :
  sforall inner s = true -> min_str (s +:+ r) = option_map (fun u => s +:+ u) (min_str r).
Proof.
  induction s as [|c s IH]; cbn [sforall]; [intros _; rewrite string_app_nil_l; by destruct (min_str r)|]. unfold inner at 1.
  intros [[Hq Hb]%negb_true_iff%orb_false_iff Hs]%andb_true_iff.
  rewrite string_app_cons. cbn [min_str]. rewrite Hq, Hb, (IH Hs). by destruct (min_str r).
Qed.

Definition escape_shape (c : ascii) : bool :=
  match escape_char c with
  | String b (String _ t) => Ascii.eqb b BACKSLASH && sforall inner t
  | t => sforall inner t
  end.

Lemma escape_shape_all c : escape_shape c = true.
Proof. destruct c as [[] [] [] [] [] [] [] []]; vm_compute; reflexivity. Qed.

Lemma min_str_escape_char c r :
  min_str (escape_char c +:+ r) = option_map (fun u => escape_char c +:+ u) (min_str r).
Proof.
  pose proof (escape_shape_all c) as H. unfold escape_shape in H.
  destruct (escape_char c) as [|b [|d t]]; [by apply min_str_inner..|].
  apply andb_true_iff in H as [->%Ascii.eqb_eq Ht]. rewrite !string_app_cons.
  change (min_str (String BACKSLASH (String d (t +:+ r))))
    with (option_map (fun u => String BACKSLASH (String d u)) (min_str (t +:+ r))).
  rewrite (min_str_inner t r Ht). by destruct (min_str r).
Qed.

Lemma keeps_string s : keeps (print_string_ptr s) (print_string_ptr s).
Proof.
  rewrite print_string_ptr_escape. unfold quoted. intros r. rewrite string_app_cons.
  change (min_out (String DQUOTE ?x)) with (option_map (String DQUOTE) (min_str x)).
  rewrite <- string_app_assoc.
  assert (min_str (escape s +:+ (String DQUOTE EmptyString +:+ r))
    = option_map (fun u => escape s +:+ String DQUOTE u) (min_out r)) as ->.
  { induction s as [|c s IH]; [done|]. cbn [escape]. rewrite <- string_app_assoc, min_str_escape_char, IH.
    destruct (min_out r); [|done]. cbn [option_map]. by rewrite string_app_assoc. }
  destruct (min_out r); [|done]. cbn [option_map]. by rewrite string_app_cons, <- string_app_assoc.
Qed.

(** The characters of numbers. *)
Lemma digit_plain d : plain (digit_chr (d mod 10)) = true.
Proof.
  assert (0 <= d mod 10 < 10)%Z as Hd by (apply Z.mod_pos_bound; lia). revert Hd. generalize (d mod 10)%Z as x.
  intros x Hx. assert (x = 0 \/ x = 1 \/ x = 2 \/ x = 3 \/ x = 4 \/ x = 5 \/ x = 6 \/ x = 7 \/ x = 8 \/ x = 9)%Z as H by lia.
  repeat destruct H as [->|H]; [reflexivity..|by subst].
Qed.

Lemma dec_digits_plain fuel n acc : sforall plain acc = true -> sforall plain (dec_digits fuel n acc) = true.
Proof.
  revert n acc. induction fuel as [|fuel IH]; intros n acc H; [done|]. cbn [dec_digits].
  assert (sforall plain (String (digit_chr (n mod 10)) acc) = true) as H' by (cbn [sforall]; by rewrite digit_plain).
  destruct (n <? 10)%Z; [done|]. by apply IH.
Qed.

Lemma dec_string_plain z : sforall plain (dec_string z) = true.
Proof. unfold dec_string. destruct (z <? 0)%Z; [cbn [sforall]; change (plain (chr 45)) with true|]; by rewrite dec_digits_plain. Qed.

Lemma zeros_plain n : sforall plain (zeros n) = true.
Proof. by induction n. Qed.

Lemma pad_dec_plain k z : (0 <= z)%Z -> sforall plain (pad_dec k z) = true.
Proof.
  intros Hz. unfold pad_dec. destruct (Z.ltb_spec z 0); [lia|]. by rewrite sforall_app, zeros_plain, dec_string_plain.
Qed.

Lemma minus_plain s t : sforall plain t = true -> sforall plain (minus s t) = true.
Proof. by destruct s. Qed.

Lemma fmt_fixed_plain prec x t : fmt_fixed prec x = Some t -> sforall plain t = true.
Proof.
  assert (forall z, sforall plain (dec_string (z / 10 ^ Z.of_nat prec)
    +:+ match prec with O => EmptyString | _ => String "." (pad_dec prec (z mod 10 ^ Z.of_nat prec)) end) = true) as Ht.
  { intros z. rewrite sforall_app, dec_string_plain. destruct prec; [done|]. cbn [sforall andb].
    change (plain ".") with true. rewrite pad_dec_plain; [done|]. apply Z.mod_pos_bound, Z.pow_pos_nonneg; lia. }
  destruct x as [s|s| |s m e]; cbn [fmt_fixed]; [| |done|destruct (f64_ratio m e)]; intros [= <-];
    apply minus_plain; [apply Ht|done|apply Ht].
Qed.

Lemma fmt_exp_plain x t : fmt_exp x = Some t -> sforall plain t = true.
Proof.
  assert (forall z k, sforall plain (exp_text z k) = true) as Ht.
  { intros z k. unfold exp_text. rewrite !sforall_app, dec_string_plain. cbn [sforall andb].
    rewrite !pad_dec_plain; [by destruct (k <? 0)%Z|lia|apply Z.mod_pos_bound; lia]. }
  destruct x as [s|s| |s m e]; cbn [fmt_exp]; [| |done|destruct (f64_ratio m e)]; intros H; injection H as <-;
    apply minus_plain; [apply Ht|done|destruct (_ =? _)%Z; apply Ht].
Qed.

Lemma number_plain item s : print_number item = Some s -> sforall plain s = true.
Proof.
  unfold print_number. repeat (case_match; try (intros [= <-]; by rewrite ?dec_string_plain)).
  - apply fmt_fixed_plain.
  - apply fmt_exp_plain.
  - apply fmt_fixed_plain.
Qed.

Definition minifies (c : cJSON) : Prop :=
  forall d d' s, print_value c d true = Some s -> exists s', print_value c d' false = Some s' /\ keeps s s'.

Lemma entries_minify d d' ch s :
  Forall minifies ch -> print_entries d true ch = Some s ->
  exists s', print_entries d' false ch = Some s' /\ keeps s s'.
Proof.
  intros Hch. revert s. induction Hch as [|c ch Hc Hch IH]; intros s Hs.
  { injection Hs as <-. exists EmptyString. split; [done|apply keeps_nil]. }
  cbn [print_entries] in *. destruct (print_value c (S d) true) as [sc|] eqn:Ec; [|done].
  destruct (print_entries d true ch) as [r|] eqn:Er; [|done]. injection Hs as <-.
  destruct (Hc _ (S d') _ Ec) as (sc' & -> & Hk). destruct (IH _ eq_refl) as (r' & -> & Hr).
  eexists. split; [done|]. apply keeps_app; [done|]. destruct ch; [apply keeps_nil|].
  apply keeps_app; [|done]. intros u. change ("," +:+ ?x) with (String "," x).
  change (min_out (", " +:+ u)) with (option_map (String ",") (min_out u)). by destruct (min_out u).
Qed.

Lemma members_minify d d' ch s :
  Forall minifies ch -> print_members d true ch = Some s ->
  exists s', print_members d' false ch = Some s' /\ keeps s s'.
Proof.
  intros Hch. revert s. induction Hch as [|c ch Hc Hch IH]; intros s Hs.
  { injection Hs as <-. exists EmptyString. split; [done|apply keeps_nil]. }
  cbn [print_members] in *. destruct (j_string c) as [name|]; [|done].
  destruct (print_value c (S d) true) as [sc|] eqn:Ec; [|done].
  destruct (print_members d true ch) as [r|] eqn:Er; [|done]. injection Hs as <-.
  destruct (Hc _ (S d') _ Ec) as (sc' & -> & Hk). destruct (IH _ eq_refl) as (r' & -> & Hr).
  eexists. split; [done|]. apply keeps_app; [apply (keeps_tabs (S d))|]. apply keeps_app; [apply keeps_string|].
  apply keeps_app; [by apply keeps_plain|]. apply keeps_app; [by apply keeps_space; [|apply keeps_nil]|].
  apply keeps_app; [done|]. apply keeps_app; [by destruct ch; apply keeps_plain|].
  apply keeps_app; [by apply keeps_space; [|apply keeps_nil]|done].
Qed.

Lemma minifies_all c : minifies c.
Proof.
  induction c as [ty vs vi vd nm ch IH] using cJSON_tree_ind. intros d d' s Hs. destruct ty.
  1-3: injection Hs as <-; eexists; split; [done|by apply keeps_plain].
  - cbn [print_value j_type] in *. exists s. split; [done|]. by apply keeps_plain, (number_plain _ _ Hs).
  - cbn [print_value j_type j_valuestring] in *. destruct vs; [|done]. injection Hs as <-.
    eexists. split; [done|]. apply keeps_string.
  - rewrite print_array_eq in *. destruct (print_entries d true ch) as [b|] eqn:Eb; [|done]. injection Hs as <-.
    destruct (entries_minify d d' ch b IH Eb) as (b' & -> & Hb). eexists. split; [done|].
    apply keeps_app; [by apply keeps_plain|]. by apply keeps_app; [|apply keeps_plain].
  - destruct ch as [|c ch].
    { injection Hs as <-. eexists. split; [done|]. apply keeps_app; [by apply keeps_plain|].
      apply keeps_app; [|by apply keeps_plain]. apply keeps_space; [done|]. apply keeps_tabs. }
    rewrite print_object_eq in *. destruct (print_members d true (c :: ch)) as [b|] eqn:Eb; [|done]. injection Hs as <-.
    destruct (members_minify d d' (c :: ch) b IH Eb) as (b' & -> & Hb). eexists. split; [done|].
    apply keeps_app; [by apply keeps_plain|]. apply keeps_app; [by apply keeps_space; [|apply keeps_nil]|].
    apply keeps_app; [done|]. by apply keeps_app; [apply keeps_tabs|apply keeps_plain].
Qed.

(** C29: [cJSON_Minify] works in place as the reference [min_out] says: on
    every C string it ends, with the kept text and a terminator at the front of
    the same bytes, when the text closes its comments and strings; when it does
    not, the function reads past the terminator. *)
Theorem minify_refines (s : string) :
  no_nul s = true ->
  match min_out s with
  | Some t => exists g, cJSON_Minify (cstring s) = MOk (cstring t ++ g)
  | None => cJSON_Minify (cstring s) = MUndef
  end.
Proof.
  intros Hn. apply (loop_spec (S (length (cstring s))) [] [] s Hn). rewrite length_cstring. lia.
Qed.

Lemma minify_refines_witness :
  (exists g, cJSON_Minify (cstring "[ 1, /* two */ 2 ] // end") = MOk (cstring "[1,2]" ++ g))
  /\ cJSON_Minify (cstring "[ 1 /* two") = MUndef.
Proof.
  split.
  - exact (minify_refines "[ 1, /* two */ 2 ] // end" eq_refl).
  - exact (minify_refines "[ 1 /* two" eq_refl).
Defined.

(** C30: the formatted print-out of a tree, minified in place, is its unformatted
    print-out: the two printers differ in white space only, and [cJSON_Minify]
    leaves names, strings, numbers and separators alone. *)
Theorem minify_formatted (c : cJSON) (s : string) :
  cJSON_Print c = Some s -> no_nul s = true ->
  exists t g, cJSON_PrintUnformatted c = Some t /\ cJSON_Minify (cstring s) = MOk (cstring t ++ g).
Proof.
  intros Hs Hn. destruct (minifies_all c 0%nat 0%nat s Hs) as (t & Ht & Hk).
  assert (min_out s = Some t) as Hm.
  { specialize (Hk EmptyString). rewrite string_app_nil_r in Hk. rewrite Hk. cbn. by rewrite string_app_nil_r. }
  pose proof (loop_spec (S (length (cstring s))) [] [] s Hn) as H. rewrite Hm in H.
  destruct H as [g Hg]; [rewrite length_cstring; lia|]. by exists t, g.
Qed.

Lemma minify_formatted_witness :
  exists s t g, cJSON_Print sample_json = Some s /\ cJSON_PrintUnformatted sample_json = Some t
    /\ cJSON_Minify (cstring s) = MOk (cstring t ++ g).
Proof.
  assert (option_map no_nul (cJSON_Print sample_json) = Some true) as H by (vm_compute; reflexivity).
  destruct (cJSON_Print sample_json) as [s|] eqn:Hs; [|done]. injection H as Hn.
  destruct (minify_formatted sample_json s Hs Hn) as (t & g & H). by exists s, t, g.
Defined.

(** A string or a comment that the text does not close, and a comment that is
    closed by its own star. *)
Example minify_overruns :
  Forall (fun s => cJSON_Minify (cstring s) = MUndef)
    ["/*"; "[1] /* x"; String DQUOTE "abc"; String DQUOTE (String BACKSLASH EmptyString)]
  /\ min_out "/*/ 1" = Some "1".
Proof. split; [repeat constructor|done]. Qed.
