(* ===== verification/CJsonTyped.v ===== *)
(** * The shape of parsed trees (src/src/common/cJSON.c)

    What a client may rely on after [cJSON_Parse]: every item of the tree has the
    fields its type promises, names and strings are C strings, and the printers
    accept the tree, up to numbers that have become NaN. *)

From S2P Require Import Prelude CLib Float64 CJson CJsonRound CJsonBuffer CJsonMinify.
From Stdlib Require Import Floats.SpecFloat.
#[local] Open Scope Z_scope.

(** The fields of each type: a constant has no other field, [valueint] is the
    truncation of [valuedouble], a string has its text, elements of an array have
    no name, members of an object have one. *)
Inductive parsed_tree : cJSON -> Prop :=
| parsed_null nm : parsed_tree (Item cJSON_NULL None 0 (S754_zero false) nm [])
| parsed_false nm : parsed_tree (Item cJSON_False None 0 (S754_zero false) nm [])
| parsed_true nm : parsed_tree (Item cJSON_True None 1 (S754_zero false) nm [])
| parsed_string s nm :
    no_nul s = true -> parsed_tree (Item cJSON_String (Some s) 0 (S754_zero false) nm [])
| parsed_number x nm : parsed_tree (Item cJSON_Number None (int_of_f64 x) x nm [])
| parsed_array nm ch :
    Forall (fun c => parsed_tree c /\ j_string c = None) ch ->
    parsed_tree (Item cJSON_Array None 0 (S754_zero false) nm ch)
| parsed_object nm ch :
    Forall (fun c => parsed_tree c /\ exists n, j_string c = Some n /\ no_nul n = true) ch ->
    parsed_tree (Item cJSON_Object None 0 (S754_zero false) nm ch).

Definition is_nan (x : spec_float) : bool := match x with S754_nan => true | _ => false end.

Fixpoint has_nan (c : cJSON) : bool :=
  match c with
  | Item ty _ _ vd _ ch =>
      match ty with cJSON_Number => is_nan vd | _ => false end || existsb has_nan ch
  end.

(** ** The parser builds such trees *)

Definition yields {A} (P : A -> Prop) (r : presult A) : Prop :=
  match r with POk a _ => P a | _ => True end.

Lemma yields_bind {A B} P Q (r : presult A) (f : A -> string -> presult B) :
  yields P r -> (forall a rest, P a -> yields Q (f a rest)) -> yields Q (pbind r f).
Proof. destruct r; simpl; auto. Qed.

(** An item before its value is parsed. *)
Definition unset (ty : jtype) (nm : option string) : cJSON := Item ty None 0 (S754_zero false) nm [].

Definition value_of (nm : option string) (c : cJSON) : Prop := parsed_tree c /\ j_string c = nm.

Lemma parse_number_typed ty nm num : yields (value_of nm) (parse_number (unset ty nm) num).
Proof. unfold parse_number. repeat case_match; simpl; split; done || constructor. Qed.

Lemma parse_string_typed ty nm str : yields (value_of nm) (parse_string (unset ty nm) str).
Proof.
  unfold parse_string. destruct str as [|c ptr]; [done|]. destruct (negb _); [done|].
  destruct (string_len ptr 0); [|done]. eapply (yields_bind (fun _ => True)); [by destruct (unescape _ _)|].
  intros out rest _. destruct (_ <? _)%nat; [done|]. split; [|done]. constructor. apply cstr_no_nul.
Qed.

Lemma parse_string_key str :
  yields (fun key => exists n, key = Item cJSON_String (Some n) 0 (S754_zero false) None [] /\ no_nul n = true)
    (parse_string cJSON_New_Item str).
Proof.
  pose proof (parse_string_typed cJSON_False None str) as H. change (unset cJSON_False None) with cJSON_New_Item in H.
  unfold parse_string in *. destruct str as [|c ptr]; [done|]. destruct (negb _); [done|].
  destruct (string_len ptr 0); [|done]. destruct (unescape _ _) as [out rest| | |]; [|done..]. cbn [pbind yields] in *.
  destruct (_ <? _)%nat; [done|]. exists (cstr out). split; [done|apply cstr_no_nul].
Qed.

Lemma parsers_typed fuel :
  (forall ty nm v, yields (value_of nm) (parse_value fuel (unset ty nm) v))
  /\ (forall v, yields (Forall (value_of None)) (parse_elements fuel v))
  /\ (forall v, yields (Forall (fun c => parsed_tree c /\ exists n, j_string c = Some n /\ no_nul n = true))
       (parse_members fuel v)).
Proof.
  induction fuel as [|fuel (IHv & IHe & IHm)]; [done|]. split; [|split].
  - intros ty nm v. cbn [parse_value].
    destruct (String.prefix "null" v); [split; [constructor|done]|].
    destruct (String.prefix "false" v); [split; [constructor|done]|].
    destruct (String.prefix "true" v); [split; [constructor|done]|].
    destruct (head_is DQUOTE v); [apply parse_string_typed|].
    destruct (head_is "-" v || head_digit v); [apply parse_number_typed|].
    destruct (head_is "[" v).
    { destruct (head_is "]" _); [split; [by repeat constructor|done]|].
      eapply yields_bind; [apply IHe|]. intros l rest Hl. split; [by constructor|done]. }
    destruct (head_is "{" v); [|done].
    destruct (head_is "}" _); [split; [by repeat constructor|done]|].
    eapply yields_bind; [apply IHm|]. intros l rest Hl. split; [by constructor|done].
  - intros v. cbn [parse_elements]. eapply yields_bind; [apply (IHv cJSON_False None)|]. intros child rest Hc.
    destruct (head_is "," _); [eapply yields_bind; [apply IHe|]; intros; by apply Forall_cons|].
    destruct (head_is "]" _); [|done]. by apply Forall_singleton.
  - intros v. cbn [parse_members]. eapply yields_bind; [apply (parse_string_key (skip v))|].
    intros key rest (n & -> & Hn). destruct (negb _); [done|].
    eapply yields_bind; [apply (IHv cJSON_String (Some n))|]. intros child rest' [Hc Hname].
    destruct (head_is "," _); [eapply yields_bind; [apply IHm|]; intros; apply Forall_cons; eauto|].
    destruct (head_is "}" _); [|done]. apply Forall_singleton. eauto.
Qed.

(** ** Such trees can be printed *)

Lemma plain_no_nul s : sforall plain s = true -> no_nul s = true.
Proof.
  apply sforall_impl. intros c. unfold plain. intros H%negb_true_iff.
  apply orb_false_iff in H as [_ ->]. done.
Qed.

Lemma escape_char_no_nul c : Ascii.eqb c NUL = false -> no_nul (escape_char c) = true.
Proof. destruct c as [[] [] [] [] [] [] [] []]; vm_compute; congruence. Qed.

Lemma print_string_no_nul s : no_nul s = true -> no_nul (print_string_ptr s) = true.
Proof.
  intros H. rewrite print_string_ptr_escape.
  assert (no_nul (escape s) = true) as He.
  { induction s as [|c s IH]; [done|]. destruct (no_nul_cons c s H) as [Hc Hs].
    apply no_nul_app. split; [by apply escape_char_no_nul|by apply IH]. }
  apply (no_nul_app (String DQUOTE EmptyString)). split; [done|]. by apply no_nul_app.
Qed.

Lemma print_number_some item :
  is_nan (j_valuedouble item) = false -> exists s, print_number item = Some s /\ no_nul s = true.
Proof.
  intros Hn. assert (exists s, print_number item = Some s) as [s Hs].
  { unfold print_number. destruct (j_valuedouble item) as [sg|sg| |sg m e]; [| |done|].
    all: repeat (case_match; [eauto|]); cbn [fmt_fixed fmt_exp]; try destruct (f64_ratio m e); eauto. }
  exists s. split; [done|]. apply plain_no_nul. by apply (number_plain item).
Qed.

Definition printable (d : nat) (f : bool) (c : cJSON) : Prop :=
  exists s, print_value c d f = Some s /\ no_nul s = true.

Lemma entries_printable d f ch :
  Forall (printable (S d) f) ch -> exists s, print_entries d f ch = Some s /\ no_nul s = true.
Proof.
  induction 1 as [|c ch (sc & Hc & Hn) Hch (r & Hr & Hnr)]; [by exists EmptyString|]. cbn [print_entries].
  rewrite Hc, Hr. eexists. split; [done|]. apply no_nul_app. split; [done|].
  destruct ch; [done|]. apply no_nul_app. split; [by destruct f|done].
Qed.

Lemma members_printable d f ch :
  Forall (fun c => printable (S d) f c /\ exists n, j_string c = Some n /\ no_nul n = true) ch ->
  exists s, print_members d f ch = Some s /\ no_nul s = true.
Proof.
  assert (forall n, no_nul (tabs n) = true) as Htabs by (by induction n).
  induction 1 as [|c ch ((sc & Hc & Hn) & n & Hnm & Hnn) Hch (r & Hr & Hnr)]; [by exists EmptyString|].
  cbn [print_members]. rewrite Hnm, Hc, Hr. eexists. split; [done|].
  repeat (apply no_nul_app; split); try done; try (by apply print_string_no_nul); try (destruct f; [apply Htabs|done]);
    try (by destruct f); by destruct ch.
Qed.

Lemma parsed_printable c d f : parsed_tree c -> has_nan c = false -> printable d f c.
Proof.
  revert d f. induction c as [ty vs vi vd nm ch IH] using cJSON_tree_ind. intros d f Ht Hnan.
  assert (forall n, no_nul (tabs n) = true) as Htabs by (by induction n).
  cbn [has_nan] in Hnan. apply orb_false_iff in Hnan as [Hx Hnan].
  assert (Forall (fun c => parsed_tree c -> printable (S d) f c) ch) as Hch.
  { rewrite Forall_forall in IH |- *. intros c Hin Hc. apply IH; [done|done|].
    destruct (has_nan c) eqn:E; [|done]. rewrite <- Hnan. symmetry. apply existsb_exists. eauto. }
  inversion Ht as [| | |? ? Hs| |? ? Hall|? ? Hall]; subst.
  1-3: by eexists.
  - eexists. split; [done|]. by apply print_string_no_nul.
  - by apply (print_number_some (Item cJSON_Number None _ vd nm [])).
  - unfold printable. rewrite print_array_eq. destruct (entries_printable d f ch) as (s & -> & Hs).
    { rewrite Forall_forall in *. intros c Hin. apply Hch; [done|]. by apply Hall. }
    eexists. split; [done|]. by repeat (apply no_nul_app; split).
  - unfold printable. destruct ch as [|c ch].
    { eexists. split; [done|]. repeat (apply no_nul_app; split); [done| |done]. destruct f; [|done].
      apply (no_nul_app (String LF EmptyString)). split; [done|apply Htabs]. }
    rewrite print_object_eq. destruct (members_printable d f (c :: ch)) as (s & -> & Hs).
    { rewrite Forall_forall in *. intros x Hin. split; [|by apply Hall]. apply Hch; [done|]. by apply Hall. }
    eexists. split; [done|]. repeat (apply no_nul_app; split); try done; by destruct f.
Qed.

(** C28: every tree that [cJSON_Parse] returns is well formed: constants,
    strings, numbers, arrays and objects have exactly the fields of their type,
    [valueint] is the truncated [valuedouble], elements of arrays are nameless,
    members of objects have C strings as names, the root has no name; and unless
    a number is NaN the tree can be printed, with or without format, as a C
    string. *)
Theorem parse_typed (value : string) (c : cJSON) (rest : string) :
  cJSON_Parse value = POk c rest ->
  parsed_tree c /\ j_string c = None
  /\ (has_nan c = false -> forall fmt, exists s, print_value c 0 fmt = Some s /\ no_nul s = true).
Proof.
  unfold cJSON_Parse, cJSON_ParseWithOpts. intros H.
  pose proof (proj1 (parsers_typed (json_fuel value)) cJSON_False None (skip value)) as Ht.
  change (unset cJSON_False None) with cJSON_New_Item in Ht.
  destruct (parse_value _ _ _) as [c' r| | |]; [|done..]. injection H as <- <-. destruct Ht as [Ht Hnm].
  repeat split; [done..|]. intros Hnan fmt. by apply parsed_printable.
Qed.

Definition typed_sample : string :=
  "{ " +:+ quoted "a" +:+ " : [1, -2.5e3, " +:+ quoted "x\u00e9" +:+ "], " +:+ quoted "b"
  +:+ " : {}, " +:+ quoted "c" +:+ " : null } tail".

Lemma parse_typed_witness :
  exists c, cJSON_Parse typed_sample = POk c " tail" /\ parsed_tree c
    /\ exists s, cJSON_PrintUnformatted c = Some s.
Proof.
  assert (exists c, cJSON_Parse typed_sample = POk c " tail") as [c Hc] by (eexists; vm_compute; reflexivity).
  destruct (parse_typed typed_sample c " tail" Hc) as (Ht & _ & Hp). exists c. repeat split; [done..|].
  destruct (Hp ltac:(revert Hc; vm_compute; intros [= <-]; reflexivity) false) as (s & Hs & _). by exists s.
Defined.

(** A number that overflows its scale: zero times infinity. *)
Example parse_nan :
  exists c, cJSON_Parse "0e999" = POk c EmptyString /\ j_valuedouble c = S754_nan
    /\ j_valueint c = INT_MIN /\ cJSON_Print c = None.
Proof. eexists. split; [vm_compute; reflexivity|]. vm_compute. auto. Qed.
