(* ===== verification/CHeap.v ===== *)
(** * Programs on allocated memory

    The memory of a C program as a finite map from addresses to cells, with
    [malloc], [free], loads and stores; [None] is undefined behaviour (a NULL
    or dangling pointer, a double free).  [malloc] may fail: the memory carries
    the answers of the coming calls.

    Assertions on memories form a separation logic in which nothing may be
    dropped, so that a specification accounts for every cell: a function that
    leaks has no specification that ends in [emp].  [wp] is total correctness
    with the frame built in. *)

From S2P Require Import Prelude.
From iris.bi Require Import interface.
From iris.proofmode Require Import proofmode.

Definition loc : Type := positive.
(** A pointer, [None] being NULL. *)
Definition ptr : Type := option loc.

(** ** Assertions *)

Section Assertions.
Context {cell : Type}.
#[local] Abbreviation heap := (gmap loc cell).

Record hProp := HProp { hProp_at : heap -> Prop }.
Implicit Types P Q : hProp.

(** A record, so that the proof mode does not look inside. *)
Record hProp_entails P Q : Prop := entails_intro { entails_at : forall h, hProp_at P h -> hProp_at Q h }.
#[local] Arguments entails_at {P Q} _ {h} _.
Definition hProp_emp : hProp := HProp (fun h => h = ∅).
Definition hProp_pure (φ : Prop) : hProp := HProp (fun _ => φ).
Definition hProp_and P Q : hProp := HProp (fun h => hProp_at P h /\ hProp_at Q h).
Definition hProp_or P Q : hProp := HProp (fun h => hProp_at P h \/ hProp_at Q h).
Definition hProp_impl P Q : hProp := HProp (fun h => hProp_at P h -> hProp_at Q h).
Definition hProp_forall {A} (Ψ : A -> hProp) : hProp := HProp (fun h => forall a, hProp_at (Ψ a) h).
Definition hProp_exist {A} (Ψ : A -> hProp) : hProp := HProp (fun h => exists a, hProp_at (Ψ a) h).
Definition hProp_sep P Q : hProp :=
  HProp (fun h => exists h1 h2, h = h1 ∪ h2 /\ h1 ##ₘ h2 /\ hProp_at P h1 /\ hProp_at Q h2).
Definition hProp_wand P Q : hProp :=
  HProp (fun h => forall h', h ##ₘ h' -> hProp_at P h' -> hProp_at Q (h ∪ h')).
Definition hProp_persistently P : hProp := hProp_pure (hProp_entails hProp_emp P).
Definition hProp_later P : hProp := P.

Record hProp_same P Q : Prop := same_intro { same_at : forall h, hProp_at P h <-> hProp_at Q h }.
#[export] Instance hProp_equiv : Equiv hProp := hProp_same.
#[export] Instance hProp_equivalence : Equivalence (≡@{hProp}).
Proof.
  split; [by split|intros P Q [H]; split; by symmetry|].
  intros P Q R [H1] [H2]. split. intros h. by rewrite (H1 h) (H2 h).
Qed.
Canonical Structure hPropO := discreteO hProp.

Lemma hProp_bi_mixin :
  BiMixin hProp_entails hProp_emp hProp_pure hProp_and hProp_or hProp_impl
    (@hProp_forall) (@hProp_exist) hProp_sep hProp_wand.
Proof.
  split.
  - split; [by split|]. intros P Q R [H1] [H2]. split. auto.
  - intros P Q. split; [intros [H]; split; split; intros h HP; by apply (H h)|].
    intros [[H1] [H2]]. split. intros h. split; [apply H1|apply H2].
  - intros n φ ψ H. split. intros h. exact H.
  - intros n P P' [HP] Q Q' [HQ]. split. intros h. simpl. by rewrite (HP h) (HQ h).
  - intros n P P' [HP] Q Q' [HQ]. split. intros h. simpl. by rewrite (HP h) (HQ h).
  - intros n P P' [HP] Q Q' [HQ]. split. intros h. simpl. by rewrite (HP h) (HQ h).
  - intros A n Φ Ψ H. split. intros h. split; intros Hx a; apply (same_at _ _ (H a)), Hx.
  - intros A n Φ Ψ H. split. intros h. split; intros [a Hx]; exists a; apply (same_at _ _ (H a)), Hx.
  - intros n P P' [HP] Q Q' [HQ]. split. intros h. simpl. by setoid_rewrite (HP _); setoid_rewrite (HQ _).
  - intros n P P' [HP] Q Q' [HQ]. split. intros h. simpl. by setoid_rewrite (HP _); setoid_rewrite (HQ _).
  - intros φ P Hφ. by split.
  - intros φ P H. split. intros h Hφ. by apply (entails_at (H Hφ)).
  - intros P Q. split. by intros h [HP _].
  - intros P Q. split. by intros h [_ HQ].
  - intros P Q R [H1] [H2]. split. intros h HP. split; [by apply H1|by apply H2].
  - intros P Q. split. intros h HP. by left.
  - intros P Q. split. intros h HQ. by right.
  - intros P Q R [H1] [H2]. split. intros h [HP|HQ]; [by apply H1|by apply H2].
  - intros P Q R [H]. split. intros h HP HQ. by apply H.
  - intros P Q R [H]. split. intros h [HP HQ]. by apply H.
  - intros A P Ψ H. split. intros h HP a. by apply (entails_at (H a)).
  - intros A Ψ a. split. intros h H. apply H.
  - intros A Ψ a. split. intros h H. by exists a.
  - intros A Φ Q H. split. intros h [a Ha]. by apply (entails_at (H a)).
  - intros P P' Q Q' [HP] [HQ]. split. intros h (h1 & h2 & -> & Hd & H1 & H2).
    exists h1, h2. repeat split; [done|by apply HP|by apply HQ].
  - intros P. split. intros h HP. exists ∅, h. rewrite map_empty_union. split; [done|].
    split; [apply map_disjoint_empty_l|done].
  - intros P. split. intros h (h1 & h2 & -> & _ & -> & H). by rewrite map_empty_union.
  - intros P Q. split. intros h (h1 & h2 & -> & Hd & H1 & H2).
    exists h2, h1. by rewrite map_union_comm.
  - intros P Q R. split. intros h (h12 & h3 & -> & Hd & (h1 & h2 & -> & Hd' & H1 & H2) & H3).
    apply map_disjoint_union_l in Hd as [Hd1 Hd2].
    exists h1, (h2 ∪ h3). rewrite -map_union_assoc. split; [done|].
    split; [by apply map_disjoint_union_r_2|]. split; [done|]. by exists h2, h3.
  - intros P Q R [H]. split. intros h HP h' Hd HQ. apply H. by exists h, h'.
  - intros P Q R [H]. split. intros h (h1 & h2 & -> & Hd & H1 & H2). by apply H.
Qed.

Lemma hProp_bi_persistently_mixin :
  BiPersistentlyMixin hProp_entails hProp_emp hProp_and (@hProp_exist) hProp_sep hProp_persistently.
Proof.
  eapply bi_persistently_mixin_discrete, hProp_bi_mixin; [done| |done].
  intros A Φ [H]. destruct (H ∅ eq_refl) as [a Ha]. exists a. split. by intros h ->.
Qed.

Lemma hProp_bi_later_mixin :
  BiLaterMixin hProp_entails hProp_pure hProp_or hProp_impl (@hProp_forall) (@hProp_exist)
    hProp_sep hProp_persistently hProp_later.
Proof. eapply bi_later_mixin_id, hProp_bi_mixin. done. Qed.

Canonical Structure hPropI : bi :=
  {| bi_ofe_mixin := ofe_mixin_of hProp; bi_cofe_aux := _ : Cofe hPropO;
     bi_bi_mixin := hProp_bi_mixin;
     bi_bi_persistently_mixin := hProp_bi_persistently_mixin;
     bi_bi_later_mixin := hProp_bi_later_mixin |}.

#[export] Instance hProp_pure_forall : BiPureForall hPropI.
Proof. intros A φ. split. intros h Hx. exact Hx. Qed.
End Assertions.
Arguments hProp : clear implicits.

(** ** Programs *)

(** The allocated cells, and whether the coming calls of [malloc] succeed
    (beyond the list they do). *)
Record mem (cell : Type) := Mem { m_heap : gmap loc cell; m_answers : list bool }.
Arguments Mem {cell} _ _.
Arguments m_heap {cell} _.
Arguments m_answers {cell} _.

Definition comp (cell A : Type) : Type := mem cell -> option (A * mem cell).

Definition cret {cell A} (a : A) : comp cell A := fun m => Some (a, m).
Definition cbind {cell A B} (x : comp cell A) (f : A -> comp cell B) : comp cell B :=
  fun m => match x m with Some (a, m') => f a m' | None => None end.
(** Undefined behaviour. *)
Definition cundef {cell A} : comp cell A := fun _ => None.

Declare Scope cheap_scope.
Delimit Scope cheap_scope with cheap.
Notation "x <- m ;; f" := (cbind m (fun x => f))
  (at level 100, m at next level, right associativity) : cheap_scope.
Notation "m ;;; f" := (cbind m (fun _ => f))
  (at level 100, right associativity) : cheap_scope.
Open Scope cheap_scope.

Definition malloc {cell} (c : cell) : comp cell ptr := fun m =>
  match m_answers m with
  | false :: rest => Some (None, Mem (m_heap m) rest)
  | _ =>
      let p := fresh (dom (m_heap m)) in
      Some (Some p, Mem (<[p := c]> (m_heap m)) (tail (m_answers m)))
  end.

Definition load {cell} (p : ptr) : comp cell cell := fun m =>
  match p with
  | Some l => match m_heap m !! l with Some c => Some (c, m) | None => None end
  | None => None
  end.

Definition store {cell} (p : ptr) (c : cell) : comp cell unit := fun m =>
  match p with
  | Some l =>
      match m_heap m !! l with
      | Some _ => Some (tt, Mem (<[l := c]> (m_heap m)) (m_answers m))
      | None => None
      end
  | None => None
  end.

(** [free] of NULL does nothing. *)
Definition free {cell} (p : ptr) : comp cell unit := fun m =>
  match p with
  | Some l =>
      match m_heap m !! l with
      | Some _ => Some (tt, Mem (delete l (m_heap m)) (m_answers m))
      | None => None
      end
  | None => Some (tt, m)
  end.

(** ** Weakest preconditions *)

Section Wp.
Context {cell : Type}.

Definition points_to (l : loc) (c : cell) : hProp cell := HProp (fun h => h = {[ l := c ]}).

(** With [full], memory never runs out. *)
Definition answers_ok (full : bool) (ans : list bool) : Prop := full = true -> ans = [].

Definition wp (full : bool) {A} (x : comp cell A) (Φ : A -> hProp cell) : hProp cell :=
  HProp (fun h => forall hf ans, h ##ₘ hf -> answers_ok full ans ->
    exists a h' ans', x (Mem (h ∪ hf) ans) = Some (a, Mem (h' ∪ hf) ans')
      /\ h' ##ₘ hf /\ answers_ok full ans' /\ hProp_at (Φ a) h').
End Wp.

Notation "l ↦ c" := (points_to l c) (at level 20, format "l  ↦  c") : bi_scope.

Section Rules.
Context {cell : Type}.
Implicit Types (c : cell).

Lemma hwp_ret full {A} (a : A) (Φ : A -> hProp cell) : Φ a ⊢ wp full (cret a) Φ.
Proof. split. intros h HΦ hf ans Hd Ha. by exists a, h, ans. Qed.

Lemma hwp_bind full {A B} (x : comp cell A) (f : A -> comp cell B) (Φ : B -> hProp cell) :
  wp full x (fun a => wp full (f a) Φ) ⊢ wp full (cbind x f) Φ.
Proof.
  split. intros h H hf ans Hd Ha. destruct (H hf ans Hd Ha) as (a & h1 & ans1 & Hx & Hd1 & Ha1 & H1).
  destruct (H1 hf ans1 Hd1 Ha1) as (b & h2 & ans2 & Hf & Hd2 & Ha2 & H2).
  exists b, h2, ans2. unfold cbind. by rewrite Hx.
Qed.

Lemma wp_wand full {A} (x : comp cell A) (Φ Ψ : A -> hProp cell) :
  wp full x Φ -∗ (∀ a, Φ a -∗ Ψ a) -∗ wp full x Ψ.
Proof.
  apply bi.entails_wand, bi.wand_intro_r. split. intros h (h1 & h2 & -> & Hd12 & H & HΨ) hf ans Hd Ha.
  apply map_disjoint_union_l in Hd as [Hd1 Hd2].
  destruct (H (h2 ∪ hf) ans) as (a & h' & ans' & Hx & Hd' & Ha' & H'); [by apply map_disjoint_union_r_2|done|].
  apply map_disjoint_union_r in Hd' as [Hd'2 Hd'f].
  exists a, (h' ∪ h2), ans'. rewrite -!map_union_assoc. split; [done|].
  split; [by apply map_disjoint_union_l_2|]. split; [done|].
  rewrite map_union_comm; [|done]. by apply (HΨ a).
Qed.

Lemma wp_malloc (full : bool) c (Φ : ptr -> hProp cell) :
  (∀ l, l ↦ c -∗ Φ (Some l)) ∧ (if full then True else Φ None) ⊢ wp full (malloc c) Φ.
Proof.
  split. intros h [Hs Hf] hf ans Hd Ha. unfold malloc. cbn [m_answers m_heap].
  assert (exists a h' , Some (Some (fresh (dom (h ∪ hf))),
            Mem (<[fresh (dom (h ∪ hf)) := c]> (h ∪ hf)) (tail ans))
          = Some (a, Mem (h' ∪ hf) (tail ans)) /\ h' ##ₘ hf /\ hProp_at (Φ a) h') as (a & h' & Heq & Hd' & HΦ).
  { set (l := fresh _). assert ((h ∪ hf) !! l = None) as Hl by apply not_elem_of_dom, is_fresh.
    apply lookup_union_None in Hl as [Hl1 Hl2].
    exists (Some l), (h ∪ {[ l := c ]}). split.
    - do 3 f_equal. rewrite (map_union_comm h {[ l := c ]}); [|by apply map_disjoint_singleton_r].
      by rewrite -map_union_assoc -insert_union_singleton_l.
    - split; [by apply map_disjoint_union_l_2, map_disjoint_singleton_l|].
      apply (Hs l); [by apply map_disjoint_singleton_r|done]. }
  destruct ans as [|[] ans].
  - by exists a, h', [].
  - exists a, h', ans. split; [done|]. split; [done|]. split; [|done]. intros Hfull. by specialize (Ha Hfull).
  - destruct full; [by specialize (Ha eq_refl)|]. by exists None, h, ans.
Qed.

Lemma wp_load full l c (Φ : cell -> hProp cell) :
  l ↦ c -∗ (l ↦ c -∗ Φ c) -∗ wp full (load (Some l)) Φ.
Proof.
  apply bi.entails_wand, bi.wand_intro_r. split. intros h (h1 & h2 & -> & Hd12 & -> & HΦ) hf ans Hd Ha.
  unfold load. cbn [m_heap]. rewrite -map_union_assoc lookup_union_l' ?lookup_singleton_eq; [|done].
  exists c, ({[l := c]} ∪ h2), ans. rewrite -map_union_assoc. repeat split; [done..|].
  rewrite map_union_comm; [|done]. by apply HΦ.
Qed.

Lemma wp_store full l c c' (Φ : unit -> hProp cell) :
  l ↦ c -∗ (l ↦ c' -∗ Φ tt) -∗ wp full (store (Some l) c') Φ.
Proof.
  apply bi.entails_wand, bi.wand_intro_r. split. intros h (h1 & h2 & -> & Hd12 & -> & HΦ) hf ans Hd Ha.
  apply map_disjoint_union_l in Hd as [Hd1 Hd2].
  apply map_disjoint_singleton_l in Hd12 as Hl, Hd1 as Hlf.
  unfold store. cbn [m_heap m_answers].
  rewrite -map_union_assoc lookup_union_l' ?lookup_singleton_eq; [|done].
  exists tt, ({[l := c']} ∪ h2), ans. split.
  - do 3 f_equal. rewrite -map_union_assoc insert_union_l. by rewrite insert_singleton_eq.
  - split; [by apply map_disjoint_union_l_2; [apply map_disjoint_singleton_l|]|]. split; [done|].
    rewrite map_union_comm; [|by apply map_disjoint_singleton_l].
    apply HΦ; [by apply map_disjoint_singleton_r|done].
Qed.

Lemma wp_free full l c (Φ : unit -> hProp cell) :
  l ↦ c -∗ Φ tt -∗ wp full (free (Some l)) Φ.
Proof.
  apply bi.entails_wand, bi.wand_intro_r. split. intros h (h1 & h2 & -> & Hd12 & -> & HΦ) hf ans Hd Ha.
  apply map_disjoint_union_l in Hd as [Hd1 Hd2].
  apply map_disjoint_singleton_l in Hd12 as Hl, Hd1 as Hlf.
  unfold free. cbn [m_heap m_answers].
  rewrite -map_union_assoc lookup_union_l' ?lookup_singleton_eq; [|done].
  exists tt, h2, ans. split; [|done]. do 3 f_equal.
  rewrite -insert_union_singleton_l delete_insert_id //. by apply lookup_union_None.
Qed.

Lemma wp_free_null full (Φ : unit -> hProp cell) : Φ tt ⊢ wp full (free None) Φ.
Proof. split. intros h HΦ hf ans Hd Ha. by exists tt, h, ans. Qed.

(** What a specification says of a run from the empty memory, whatever [malloc]
    answers: it is defined, and the memory after it is what [Φ] owns. *)
Lemma hwp_run full {A} (x : comp cell A) Φ h ans :
  hProp_at (wp full x Φ) h -> answers_ok full ans ->
  exists a h' ans', x (Mem h ans) = Some (a, Mem h' ans') /\ hProp_at (Φ a) h'.
Proof.
  intros H Hans. destruct (H ∅ ans) as (a & h' & ans' & Hx & _ & _ & HΦ);
    [apply map_disjoint_empty_r|done|].
  exists a, h', ans'. by rewrite !map_union_empty in Hx.
Qed.

Lemma hwp_run_empty full {A} (x : comp cell A) Φ ans :
  (⊢ wp full x Φ) -> answers_ok full ans ->
  exists a h' ans', x (Mem ∅ ans) = Some (a, Mem h' ans') /\ hProp_at (Φ a) h'.
Proof. intros [H]. apply hwp_run. by apply H. Qed.
End Rules.
