(* ===== verification/CJsonHeap.v ===== *)
(** * cJSON in memory (src/src/common/cJSON.c): nodes, links, ownership

    CJson.v works on trees; here are the nodes that make them up: structures
    linked by [next], [prev] and [child], strings of their own, names that are
    literals, and references that share the children of another node.  The
    functions that build, search, change, copy and delete these structures are
    programs of CHeap.v, with [malloc] failing at any point.

    [item t l prev next] says that the node at [l] is the tree [t] and owns
    its strings and children.  The theorems state what every function does to
    the trees; as nothing can be dropped, they also say that nothing leaks and
    nothing is freed twice.  Walks along the links take the number of allocated
    cells as fuel: a structure has no more nodes than that. *)

From S2P Require Import Prelude CLib Float64 CJson CHeap.
From iris.proofmode Require Import proofmode.
From Stdlib Require Import Floats.SpecFloat.
#[local] Open Scope Z_scope.

(** ** Data *)

(** A pointer to characters: NULL, an allocated string, or a literal. *)
Inductive sptr := SNull | SHeap (l : loc) | SStatic (s : string).

Definition sptr_set (s : sptr) : bool := match s with SNull => false | _ => true end.

(** [struct cJSON] *)
Record node := Node {
  n_next : ptr; n_prev : ptr; n_child : ptr;
  n_type : Z;
  n_valuestring : sptr; n_valueint : Z; n_valuedouble : spec_float;
  n_string : sptr }.

(** An allocated block: a node, a string, or an array of strings. *)
Inductive cell := CNode (n : node) | CStr (s : string) | CPtrs (l : list sptr).

Definition cJSON_IsReference : Z := 256.
Definition cJSON_StringIsConst : Z := 512.

Definition tag (t : jtype) : Z :=
  match t with
  | cJSON_False => 0 | cJSON_True => 1 | cJSON_NULL => 2 | cJSON_Number => 3
  | cJSON_String => 4 | cJSON_Array => 5 | cJSON_Object => 6
  end.

Definition is_reference (n : node) : bool := negb (Z.land (n_type n) cJSON_IsReference =? 0).
Definition is_const (n : node) : bool := negb (Z.land (n_type n) cJSON_StringIsConst =? 0).

Definition set_next (q : ptr) (n : node) : node :=
  Node q (n_prev n) (n_child n) (n_type n) (n_valuestring n) (n_valueint n) (n_valuedouble n) (n_string n).
Definition set_prev (q : ptr) (n : node) : node :=
  Node (n_next n) q (n_child n) (n_type n) (n_valuestring n) (n_valueint n) (n_valuedouble n) (n_string n).
Definition set_child (q : ptr) (n : node) : node :=
  Node (n_next n) (n_prev n) q (n_type n) (n_valuestring n) (n_valueint n) (n_valuedouble n) (n_string n).
Definition set_type (t : Z) (n : node) : node :=
  Node (n_next n) (n_prev n) (n_child n) t (n_valuestring n) (n_valueint n) (n_valuedouble n) (n_string n).
Definition set_valuestring (s : sptr) (n : node) : node :=
  Node (n_next n) (n_prev n) (n_child n) (n_type n) s (n_valueint n) (n_valuedouble n) (n_string n).
Definition set_number (i : Z) (d : spec_float) (n : node) : node :=
  Node (n_next n) (n_prev n) (n_child n) (n_type n) (n_valuestring n) i d (n_string n).
Definition set_string (s : sptr) (n : node) : node :=
  Node (n_next n) (n_prev n) (n_child n) (n_type n) (n_valuestring n) (n_valueint n) (n_valuedouble n) s.

Definition cprog (A : Type) : Type := comp cell A.

Definition load_node (p : ptr) : cprog node :=
  c <- load p ;; match c with CNode n => cret n | _ => cundef end.
(** [p->field = ...] *)
Definition update (p : ptr) (f : node -> node) : cprog unit :=
  n <- load_node p ;; store p (CNode (f n)).

Definition read_str (s : sptr) : cprog string :=
  match s with
  | SNull => cundef
  | SStatic s => cret s
  | SHeap l => c <- load (Some l) ;; match c with CStr s => cret s | _ => cundef end
  end.
(** [cJSON_free] of a string; a literal cannot be freed. *)
Definition free_str (s : sptr) : cprog unit :=
  match s with SNull => cret tt | SHeap l => free (Some l) | SStatic _ => cundef end.

(** The number of allocated cells, the fuel of the loops. *)
Definition heap_size : cprog nat := fun m => Some (size (m_heap m), m).

(** ** Construction *)

Definition cJSON_strdup (str : string) : cprog sptr :=
  p <- malloc (CStr str) ;; cret (match p with Some l => SHeap l | None => SNull end).

(** The allocator the library calls: the two functions given, or those of the C
    library. *)
Record cJSON_Hooks (M F : Type) := Hooks { malloc_fn : option M; free_fn : option F }.
Arguments malloc_fn {M F} _.
Arguments free_fn {M F} _.

Definition cJSON_InitHooks {M F : Type} (malloc : M) (free : F) (hooks : option (cJSON_Hooks M F)) : M * F :=
  match hooks with
  | None => (malloc, free)
  | Some h => (default malloc (malloc_fn h), default free (free_fn h))
  end.

Definition zero_node : node := Node None None None 0 SNull 0 (S754_zero false) SNull.
Definition cJSON_New_Item : cprog ptr := malloc (CNode zero_node).

Definition create (f : node -> node) : cprog ptr :=
  item <- cJSON_New_Item ;;
  match item with
  | Some _ => update item f ;;; cret item
  | None => cret None
  end.
Definition cJSON_CreateNull : cprog ptr := create (set_type (tag cJSON_NULL)).
Definition cJSON_CreateTrue : cprog ptr := create (set_type (tag cJSON_True)).
Definition cJSON_CreateFalse : cprog ptr := create (set_type (tag cJSON_False)).
Definition cJSON_CreateBool (b : bool) : cprog ptr :=
  create (set_type (tag (if b then cJSON_True else cJSON_False))).
Definition cJSON_CreateNumber (num : spec_float) : cprog ptr :=
  create (fun n => set_number (int_of_f64 num) num (set_type (tag cJSON_Number) n)).
Definition cJSON_CreateArray : cprog ptr := create (set_type (tag cJSON_Array)).
Definition cJSON_CreateObject : cprog ptr := create (set_type (tag cJSON_Object)).
Definition cJSON_CreateString (string : string) : cprog ptr :=
  item <- cJSON_New_Item ;;
  match item with
  | Some _ =>
      update item (set_type (tag cJSON_String)) ;;;
      s <- cJSON_strdup string ;;
      update item (set_valuestring s) ;;; cret item
  | None => cret None
  end.

(** ** Deletion *)

Fixpoint delete_loop (fuel : nat) (c : ptr) : cprog unit :=
  match fuel, c with
  | _, None => cret tt
  | O, Some _ => cundef
  | S fuel, Some _ =>
      n <- load_node c ;;
      (if negb (is_reference n) && (if n_child n then true else false)
       then delete_loop fuel (n_child n) else cret tt) ;;;
      (if negb (is_reference n) && sptr_set (n_valuestring n)
       then free_str (n_valuestring n) else cret tt) ;;;
      (if negb (is_const n) && sptr_set (n_string n) then free_str (n_string n) else cret tt) ;;;
      free c ;;; delete_loop fuel (n_next n)
  end.
Definition cJSON_Delete (c : ptr) : cprog unit := fuel <- heap_size ;; delete_loop fuel c.

(** ** Lookup *)

(** [while (c && which > 0) c = c->next, which--;] *)
Fixpoint walk (which : nat) (c : ptr) : cprog ptr :=
  match which, c with
  | S which, Some _ => n <- load_node c ;; walk which (n_next n)
  | _, _ => cret c
  end.
Definition cJSON_GetArrayItem (array : ptr) (item : Z) : cprog ptr :=
  a <- load_node array ;; walk (Z.to_nat item) (n_child a).

Fixpoint size_loop (fuel : nat) (c : ptr) (i : Z) : cprog Z :=
  match fuel, c with
  | _, None => cret i
  | O, Some _ => cundef
  | S fuel, Some _ => n <- load_node c ;; size_loop fuel (n_next n) (int32 (i + 1))
  end.
Definition cJSON_GetArraySize (array : ptr) : cprog Z :=
  a <- load_node array ;; fuel <- heap_size ;; size_loop fuel (n_child a) 0.

(** [cJSON_strcasecmp (s1, s2) == 0] for the name of a node. *)
Definition name_matches (s1 : sptr) (s2 : string) : cprog bool :=
  match s1 with
  | SNull => cret false
  | _ => s <- read_str s1 ;; cret (strcase_eq (Some s) s2)
  end.

(** [while (c && cJSON_strcasecmp (c->string, string)) i++, c = c->next;] *)
Fixpoint find_loop (fuel : nat) (c : ptr) (string : string) (i : Z) : cprog (ptr * Z) :=
  match fuel, c with
  | _, None => cret (None, i)
  | O, Some _ => cundef
  | S fuel, Some _ =>
      n <- load_node c ;;
      b <- name_matches (n_string n) string ;;
      if b then cret (c, i) else find_loop fuel (n_next n) string (int32 (i + 1))
  end.
Definition cJSON_GetObjectItem (object : ptr) (string : string) : cprog ptr :=
  o <- load_node object ;; fuel <- heap_size ;;
  r <- find_loop fuel (n_child o) string 0 ;; cret (fst r).

(** ** Adding *)

Definition suffix_object (prev item : ptr) : cprog unit :=
  update prev (set_next item) ;;; update item (set_prev prev).

Definition create_reference (item : ptr) : cprog ptr :=
  ref <- cJSON_New_Item ;;
  match ref with
  | None => cret None
  | Some _ =>
      n <- load_node item ;;
      store ref (CNode n) ;;;
      update ref (set_string SNull) ;;;
      update ref (fun n => set_type (Z.lor (n_type n) cJSON_IsReference) n) ;;;
      update ref (fun n => set_next None (set_prev None n)) ;;;
      cret ref
  end.

(** [while (c && c->next) c = c->next;] *)
Fixpoint last_loop (fuel : nat) (c : ptr) : cprog ptr :=
  match fuel with
  | O => cundef
  | S fuel =>
      n <- load_node c ;;
      match n_next n with None => cret c | next => last_loop fuel next end
  end.

Definition cJSON_AddItemToArray (array item : ptr) : cprog unit :=
  a <- load_node array ;;
  match item with
  | None => cret tt
  | Some _ =>
      match n_child a with
      | None => update array (set_child item)
      | c => fuel <- heap_size ;; c <- last_loop fuel c ;; suffix_object c item
      end
  end.

Definition cJSON_AddItemToObject (object : ptr) (string : string) (item : ptr) : cprog unit :=
  match item with
  | None => cret tt
  | Some _ =>
      n <- load_node item ;;
      (if sptr_set (n_string n) then free_str (n_string n) else cret tt) ;;;
      s <- cJSON_strdup string ;;
      update item (set_string s) ;;;
      cJSON_AddItemToArray object item
  end.

(** [string] is a literal. *)
Definition cJSON_AddItemToObjectCS (object : ptr) (string : string) (item : ptr) : cprog unit :=
  match item with
  | None => cret tt
  | Some _ =>
      n <- load_node item ;;
      (if negb (is_const n) && sptr_set (n_string n) then free_str (n_string n) else cret tt) ;;;
      update item (set_string (SStatic string)) ;;;
      update item (fun n => set_type (Z.lor (n_type n) cJSON_StringIsConst) n) ;;;
      cJSON_AddItemToArray object item
  end.

Definition cJSON_AddItemReferenceToArray (array item : ptr) : cprog unit :=
  ref <- create_reference item ;; cJSON_AddItemToArray array ref.
Definition cJSON_AddItemReferenceToObject (object : ptr) (string : string) (item : ptr) : cprog unit :=
  ref <- create_reference item ;; cJSON_AddItemToObject object string ref.

(** ** Detaching, inserting, replacing *)

Definition ptr_eqb (p q : ptr) : bool := bool_decide (p = q).

Definition cJSON_DetachItemFromArray (array : ptr) (which : Z) : cprog ptr :=
  a <- load_node array ;;
  c <- walk (Z.to_nat which) (n_child a) ;;
  match c with
  | None => cret None
  | Some _ =>
      n <- load_node c ;;
      (if n_prev n then update (n_prev n) (set_next (n_next n)) else cret tt) ;;;
      (if n_next n then update (n_next n) (set_prev (n_prev n)) else cret tt) ;;;
      a <- load_node array ;;
      (if ptr_eqb c (n_child a) then update array (set_child (n_next n)) else cret tt) ;;;
      update c (fun n => set_next None (set_prev None n)) ;;;
      cret c
  end.
Definition cJSON_DeleteItemFromArray (array : ptr) (which : Z) : cprog unit :=
  c <- cJSON_DetachItemFromArray array which ;; cJSON_Delete c.

Definition cJSON_DetachItemFromObject (object : ptr) (string : string) : cprog ptr :=
  o <- load_node object ;; fuel <- heap_size ;;
  r <- find_loop fuel (n_child o) string 0 ;;
  match fst r with
  | Some _ => cJSON_DetachItemFromArray object (snd r)
  | None => cret None
  end.
Definition cJSON_DeleteItemFromObject (object : ptr) (string : string) : cprog unit :=
  c <- cJSON_DetachItemFromObject object string ;; cJSON_Delete c.

Definition cJSON_InsertItemInArray (array : ptr) (which : Z) (newitem : ptr) : cprog unit :=
  a <- load_node array ;;
  c <- walk (Z.to_nat which) (n_child a) ;;
  match c with
  | None => cJSON_AddItemToArray array newitem
  | Some _ =>
      update newitem (set_next c) ;;;
      n <- load_node c ;;
      update newitem (set_prev (n_prev n)) ;;;
      update c (set_prev newitem) ;;;
      a <- load_node array ;;
      if ptr_eqb c (n_child a) then update array (set_child newitem)
      else
        n <- load_node newitem ;;
        update (n_prev n) (set_next newitem)
  end.

Definition cJSON_ReplaceItemInArray (array : ptr) (which : Z) (newitem : ptr) : cprog unit :=
  a <- load_node array ;;
  c <- walk (Z.to_nat which) (n_child a) ;;
  match c with
  | None => cret tt
  | Some _ =>
      n <- load_node c ;;
      update newitem (set_next (n_next n)) ;;;
      update newitem (set_prev (n_prev n)) ;;;
      (if n_next n then update (n_next n) (set_prev newitem) else cret tt) ;;;
      a <- load_node array ;;
      (if ptr_eqb c (n_child a) then update array (set_child newitem)
       else
         n <- load_node newitem ;;
         update (n_prev n) (set_next newitem)) ;;;
      update c (fun n => set_next None (set_prev None n)) ;;;
      cJSON_Delete c
  end.

Definition cJSON_ReplaceItemInObject (object : ptr) (string : string) (newitem : ptr) : cprog unit :=
  o <- load_node object ;; fuel <- heap_size ;;
  r <- find_loop fuel (n_child o) string 0 ;;
  match fst r with
  | Some _ =>
      s <- cJSON_strdup string ;;
      update newitem (set_string s) ;;;
      cJSON_ReplaceItemInArray object (snd r) newitem
  | None => cret tt
  end.

(** ** Arrays of values *)

(** The loop of the [cJSON_Create...Array] functions: [p] is the item before. *)
Fixpoint create_loop {A} (mk : A -> cprog ptr) (xs : list A) (a p : ptr) (first : bool) : cprog unit :=
  match xs with
  | [] => cret tt
  | x :: xs =>
      n <- mk x ;;
      (if first then update a (set_child n) else suffix_object p n) ;;;
      create_loop mk xs a n false
  end.
Definition create_array {A} (mk : A -> cprog ptr) (xs : list A) : cprog ptr :=
  a <- cJSON_CreateArray ;;
  match a with
  | Some _ => create_loop mk xs a None true ;;; cret a
  | None => cret None
  end.
Definition cJSON_CreateIntArray (numbers : list Z) : cprog ptr :=
  create_array (fun z => cJSON_CreateNumber (f64_of_Z z)) numbers.
(** A [float] is a [double]. *)
Definition cJSON_CreateFloatArray (numbers : list spec_float) : cprog ptr :=
  create_array cJSON_CreateNumber numbers.
Definition cJSON_CreateDoubleArray (numbers : list spec_float) : cprog ptr :=
  create_array cJSON_CreateNumber numbers.
Definition cJSON_CreateStringArray (strings : list string) : cprog ptr :=
  create_array cJSON_CreateString strings.

(** ** Duplication *)

(** [newitem->f = cJSON_strdup (s)], when [s] is set; false when there is no
    memory. *)
Definition dup_string (newitem : ptr) (s : sptr) (set : sptr -> node -> node) : cprog bool :=
  match s with
  | SNull => cret true
  | _ =>
      str <- read_str s ;; copy <- cJSON_strdup str ;;
      update newitem (set copy) ;;; cret (sptr_set copy)
  end.

Fixpoint duplicate (fuel : nat) (item : ptr) (recurse : bool) : cprog ptr :=
  match fuel, item with
  | _, None => cret None
  | O, Some _ => cundef
  | S fuel, Some _ =>
      newitem <- cJSON_New_Item ;;
      match newitem with
      | None => cret None
      | Some _ =>
          n <- load_node item ;;
          update newitem (fun m => set_number (n_valueint n) (n_valuedouble n)
            (set_type (Z.land (n_type n) (Z.lnot cJSON_IsReference)) m)) ;;;
          ok <- dup_string newitem (n_valuestring n) set_valuestring ;;
          if negb ok then cJSON_Delete newitem ;;; cret None else
          ok <- dup_string newitem (n_string n) set_string ;;
          if negb ok then cJSON_Delete newitem ;;; cret None else
          if negb recurse then cret newitem else
          ok <- dup_children fuel newitem (n_child n) None ;;
          if negb ok then cJSON_Delete newitem ;;; cret None else
          cret newitem
      end
  end
(** The children from [cptr] on; [nptr] is the copy before. *)
with dup_children (fuel : nat) (newitem cptr nptr : ptr) : cprog bool :=
  match fuel, cptr with
  | _, None => cret true
  | O, Some _ => cundef
  | S fuel, Some _ =>
      newchild <- duplicate fuel cptr true ;;
      match newchild with
      | None => cret false
      | Some _ =>
          (match nptr with
           | Some _ => update nptr (set_next newchild) ;;; update newchild (set_prev nptr)
           | None => update newitem (set_child newchild)
           end) ;;;
          n <- load_node cptr ;;
          dup_children fuel newitem (n_next n) newchild
      end
  end.
Definition cJSON_Duplicate (item : ptr) (recurse : bool) : cprog ptr :=
  fuel <- heap_size ;; duplicate (2 * fuel) item recurse.

(** ** Trees and their nodes *)

(** What a node says of itself.  A literal name is marked [d_const]; of a
    reference, [d_ref] has the child and string pointers it shares. *)
Record data := Data {
  d_type : jtype; d_vs : option string; d_vi : Z; d_vd : spec_float;
  d_name : option string; d_const : bool; d_ref : option (ptr * sptr) }.

#[local] Set Warnings "-register-all".
Inductive tree := Tree (d : data) (kids : list tree).

Definition t_data (t : tree) : data := let 'Tree d _ := t in d.
Definition t_kids (t : tree) : list tree := let 'Tree _ kids := t in kids.

Definition type_bits (d : data) : Z :=
  tag (d_type d) + (if d_ref d then 256 else 0) + (if d_const d then 512 else 0).

Fixpoint tree_size (t : tree) : nat :=
  let 'Tree _ kids := t in
  S ((fix sizes (ts : list tree) : nat :=
        match ts with [] => O | t :: ts => (tree_size t + sizes ts)%nat end) kids).
Definition trees_size (ts : list tree) : nat := list_sum (tree_size <$> ts).

Lemma tree_size_eq d kids : tree_size (Tree d kids) = S (trees_size kids).
Proof.
  cbn [tree_size]. f_equal. induction kids as [|t ts IH]; [done|].
  change (trees_size (t :: ts)) with (tree_size t + trees_size ts)%nat. by rewrite -IH.
Qed.

Lemma trees_size_cons t ts : trees_size (t :: ts) = (tree_size t + trees_size ts)%nat.
Proof. done. Qed.

Lemma trees_size_app ts1 ts2 : trees_size (ts1 ++ ts2) = (trees_size ts1 + trees_size ts2)%nat.
Proof. induction ts1 as [|t ts1 IH]; [done|]. cbn [app]. rewrite !trees_size_cons IH. lia. Qed.

Lemma tree_size_pos t : (0 < tree_size t)%nat.
Proof. destruct t. rewrite tree_size_eq. lia. Qed.

Lemma length_trees_size ts : (length ts <= trees_size ts)%nat.
Proof.
  induction ts as [|t ts IH]; [done|]. rewrite trees_size_cons. simpl.
  pose proof (tree_size_pos t). lia.
Qed.

Notation iprop := (hProp cell).

(** An owned string or a literal. *)
Definition name_at (const : bool) (s : sptr) (o : option string) : iprop :=
  match o with
  | None => <affine> ⌜s = SNull⌝
  | Some str =>
      if const then <affine> ⌜s = SStatic str⌝
      else ∃ l, <affine> ⌜s = SHeap l⌝ ∗ l ↦ CStr str
  end%I.
Abbreviation str_at := (name_at false).

Section Kids.
Variable item : tree -> loc -> ptr -> ptr -> iprop.

(** A chain of items that ends with NULL. *)
Fixpoint kids_at (ts : list tree) (prev first : ptr) : iprop :=
  match ts with
  | [] => <affine> ⌜first = None⌝
  | t :: ts => ∃ l next, <affine> ⌜first = Some l⌝ ∗ item t l prev next ∗ kids_at ts (Some l) next
  end%I.
End Kids.

Fixpoint item (t : tree) (l : loc) (prev next : ptr) : iprop :=
  let 'Tree d kids := t in
  (∃ child vs name,
    l ↦ CNode (Node next prev child (type_bits d) vs (d_vi d) (d_vd d) name)
    ∗ name_at (d_const d) name (d_name d)
    ∗ match d_ref d with
      | Some (c, v) => <affine> ⌜child = c /\ vs = v /\ kids = [] /\ d_vs d = None⌝
      | None => str_at vs (d_vs d) ∗ kids_at item kids None child
      end)%I.

(** The items of a chain from [first] (whose predecessor is [prev]) to [last]
    (whose successor is [next]). *)
Fixpoint seg (ts : list tree) (prev first last next : ptr) : iprop :=
  match ts with
  | [] => <affine> ⌜first = next /\ prev = last⌝
  | t :: ts => ∃ l nx, <affine> ⌜first = Some l⌝ ∗ item t l prev nx ∗ seg ts (Some l) nx last next
  end%I.

(** A whole chain of children. *)
Definition children (ts : list tree) (first : ptr) : iprop := (∃ last, seg ts None first last None)%I.

Definition node_of (d : data) (prev next child : ptr) (vs name : sptr) : node :=
  Node next prev child (type_bits d) vs (d_vi d) (d_vd d) name.

Lemma kids_at_seg ts prev first :
  kids_at item ts prev first ⊣⊢ ∃ last, seg ts prev first last None.
Proof.
  revert prev first. induction ts as [|t ts IH]; intros prev first; cbn [seg kids_at].
  - iSplit; [iIntros "->"; by iExists prev|]. iIntros "(%last & %H)". by destruct H as [-> _].
  - setoid_rewrite IH. iSplit.
    + iIntros "(%l0 & %nx & -> & Ht & %last & Hk)". iExists last, l0, nx. by iFrame.
    + iIntros "(%last & %l0 & %nx & -> & Ht & Hk)". iExists l0, nx. by iFrame.
Qed.

(** What a node owns besides itself and its name. *)
Definition parts (d : data) (kids : list tree) (child : ptr) (vs : sptr) : iprop :=
  match d_ref d with
  | Some (c, v) => <affine> ⌜child = c /\ vs = v /\ kids = [] /\ d_vs d = None⌝
  | None => str_at vs (d_vs d) ∗ children kids child
  end%I.

Lemma item_node d kids l prev next :
  item (Tree d kids) l prev next ⊣⊢
  ∃ child vs name, l ↦ CNode (node_of d prev next child vs name)
    ∗ name_at (d_const d) name (d_name d) ∗ parts d kids child vs.
Proof.
  cbn [item]. unfold parts. destruct (d_ref d) as [[c v]|]; [done|].
  by setoid_rewrite kids_at_seg.
Qed.

Lemma item_eq d kids l prev next :
  d_ref d = None ->
  item (Tree d kids) l prev next ⊣⊢
  ∃ child vs name, l ↦ CNode (node_of d prev next child vs name)
    ∗ name_at (d_const d) name (d_name d) ∗ str_at vs (d_vs d) ∗ children kids child.
Proof. intros Href. rewrite item_node. unfold parts. by rewrite Href. Qed.

Lemma item_ref d kids c v l prev next :
  d_ref d = Some (c, v) ->
  item (Tree d kids) l prev next ⊣⊢
  <affine> ⌜kids = [] /\ d_vs d = None⌝
  ∗ ∃ name, l ↦ CNode (node_of d prev next c v name) ∗ name_at (d_const d) name (d_name d).
Proof.
  intros Href. cbn [item]. rewrite Href. unfold node_of. iSplit.
  - iIntros "(%child & %vs & %name & Hl & Hn & %H)". destruct H as (-> & -> & -> & ->).
    iSplit; [done|]. iExists name. by iFrame.
  - iIntros "(%H & %name & Hl & Hn)". destruct H as [-> Hvs]. iExists c, v, name. by iFrame.
Qed.

(** ** Rules *)

Section NodeRules.
Context (full : bool).

Lemma wp_load_node l n (Φ : node -> iprop) :
  l ↦ CNode n -∗ (l ↦ CNode n -∗ Φ n) -∗ wp full (load_node (Some l)) Φ.
Proof.
  iIntros "Hl HΦ". iApply hwp_bind. iApply (wp_load with "Hl"). iIntros "Hl".
  iApply hwp_ret. by iApply "HΦ".
Qed.

Lemma wp_update l n f (Φ : unit -> iprop) :
  l ↦ CNode n -∗ (l ↦ CNode (f n) -∗ Φ tt) -∗ wp full (update (Some l) f) Φ.
Proof.
  iIntros "Hl HΦ". iApply hwp_bind. iApply (wp_load_node with "Hl"). iIntros "Hl".
  by iApply (wp_store with "Hl").
Qed.

Lemma wp_free_name const s o (Φ : unit -> iprop) :
  name_at const s o -∗ Φ tt -∗
  wp full (if negb const && sptr_set s then free_str s else cret tt) Φ.
Proof.
  iIntros "Hs HΦ". destruct o as [str|]; cbn [name_at].
  - destruct const; [iDestruct "Hs" as %->; by iApply hwp_ret|].
    iDestruct "Hs" as (l ->) "Hl". cbn [negb andb sptr_set free_str]. by iApply (wp_free with "Hl").
  - iDestruct "Hs" as %->. rewrite andb_false_r. by iApply hwp_ret.
Qed.

Lemma wp_free_str s o (Φ : unit -> iprop) :
  str_at s o -∗ Φ tt -∗ wp full (if sptr_set s then free_str s else cret tt) Φ.
Proof. iIntros "Hs HΦ". by iApply (wp_free_name false with "Hs"). Qed.

Lemma wp_strdup str (Φ : sptr -> iprop) :
  (∀ s, str_at s (Some str) -∗ Φ s) ∧ (if full then True else Φ SNull) -∗ wp full (cJSON_strdup str) Φ.
Proof.
  iIntros "HΦ". iApply hwp_bind. iApply wp_malloc. iSplit.
  - iIntros (l) "Hl". iApply hwp_ret. iDestruct "HΦ" as "[HΦ _]". iApply "HΦ". iExists l. by iFrame.
  - iDestruct "HΦ" as "[_ HΦ]". destruct full; [done|]. by iApply hwp_ret.
Qed.

(** At least [k] cells. *)
Definition sized (k : nat) : iprop := HProp (fun h => (k <= size h)%nat).

Lemma wp_heap_size k (Φ : nat -> iprop) :
  sized k ∧ (∀ n, <affine> ⌜(k <= n)%nat⌝ -∗ Φ n) ⊢ wp full heap_size Φ.
Proof.
  split. intros h [Hk HΦ] hf ans Hd Ha. exists (size (h ∪ hf)), h, ans. repeat split; [done..|].
  rewrite -(map_union_empty h). apply (HΦ _ ∅ (map_disjoint_empty_r _)).
  split; [done|]. rewrite map_union_empty. simpl in Hk |- *. rewrite map_size_disj_union; [|done]. lia.
Qed.
End NodeRules.

#[export] Instance sized_absorbing k : Absorbing (sized k).
Proof.
  split. intros h (h1 & h2 & -> & Hd & _ & Hk). simpl in *. rewrite map_size_disj_union; [|done]. lia.
Qed.

Lemma sized_0 P : P ⊢ sized 0.
Proof. split. intros h _. simpl. lia. Qed.

Lemma sized_sep k1 k2 P1 P2 : (P1 ⊢ sized k1) -> (P2 ⊢ sized k2) -> P1 ∗ P2 ⊢ sized (k1 + k2).
Proof.
  intros [H1] [H2]. split. intros h (h1 & h2 & -> & Hd & HP1%H1 & HP2%H2). simpl in *.
  rewrite map_size_disj_union; [|done]. lia.
Qed.

Lemma sized_points_to l (c : cell) : l ↦ c ⊢ sized 1.
Proof. split. intros h ->. simpl. by rewrite map_size_singleton. Qed.

Lemma sized_le j k : (j <= k)%nat -> sized k ⊢ sized j.
Proof. intros Hjk. split. intros h. simpl. lia. Qed.

Lemma tree_ind' (P : tree -> Prop) :
  (forall d kids, Forall P kids -> P (Tree d kids)) -> forall t, P t.
Proof.
  intros H. fix IH 1. intros [d kids]. apply H. induction kids as [|t ts IHts]; constructor; auto.
Qed.

Lemma seg_sized_if ts prev first last next :
  Forall (fun t => forall l prev next, item t l prev next ⊢ sized (tree_size t)) ts ->
  seg ts prev first last next ⊢ sized (trees_size ts).
Proof.
  intros H. revert prev first. induction H as [|t ts Ht _ IH]; intros prev first; cbn [seg].
  - apply sized_0.
  - iIntros "(%l & %nx & _ & Hs)". rewrite trees_size_cons. iStopProof. by apply sized_sep.
Qed.

Lemma item_sized t l prev next : item t l prev next ⊢ sized (tree_size t).
Proof.
  revert l prev next. induction t as [d kids IH] using tree_ind'. intros l prev next.
  rewrite tree_size_eq. destruct (d_ref d) as [[c v]|] eqn:Href.
  - rewrite (item_ref _ _ c v) //. iIntros "(%H & %name & Hl & _)". destruct H as [-> _].
    iApply sized_points_to. iFrame.
  - rewrite item_eq //. iIntros "(%child & %vs & %name & Hl & _ & _ & %last & Hk)".
    iStopProof. apply (sized_sep 1); [apply sized_points_to|by apply seg_sized_if].
Qed.

Lemma seg_sized ts prev first last next : seg ts prev first last next ⊢ sized (trees_size ts).
Proof. apply seg_sized_if, Forall_forall. intros t _ l p n. apply item_sized. Qed.

Lemma type_bits_flags d prev next child vs name :
  let n := node_of d prev next child vs name in
  is_reference n = (if d_ref d then true else false) /\ is_const n = d_const d.
Proof.
  unfold is_reference, is_const. cbn [node_of n_type]. unfold type_bits.
  destruct (d_type d), (d_ref d), (d_const d); by split; vm_compute.
Qed.

Lemma points_to_ne l l' (c c' : cell) : l ↦ c ∗ l' ↦ c' ⊢ ⌜l <> l'⌝.
Proof.
  split. intros h (h1 & h2 & -> & Hd & -> & ->) ->. simpl.
  rewrite map_disjoint_singleton_l lookup_singleton_eq in Hd. done.
Qed.
