(* ===== verification/CJsonOwn.v ===== *)
(** * What the functions of cJSON do to the trees in memory *)

From S2P Require Import Prelude CLib Float64 CJson CHeap CJsonHeap.
From iris.proofmode Require Import proofmode.
#[local] Open Scope Z_scope.

Section Specs.
Context (full : bool).

(** ** Deletion *)

(** Deleting what a node owns, its name apart. *)
Lemma wp_free_parts {A} fuel d kids child vs (k : cprog A) (Φ : A -> hProp cell) :
  (forall Ψ : unit -> hProp cell, children kids child -∗ Ψ tt -∗ wp full (delete_loop fuel child) Ψ) ->
  parts d kids child vs -∗ wp full k Φ -∗
  wp full
    ((if negb (if d_ref d then true else false) && (if child then true else false)
      then delete_loop fuel child else cret tt) ;;;
     (if negb (if d_ref d then true else false) && sptr_set vs then free_str vs else cret tt) ;;; k) Φ.
Proof.
  iIntros (Hdel) "Hp HΦ". iApply hwp_bind. unfold parts. destruct (d_ref d) as [[c v]|]; cbn [negb andb].
  - iDestruct "Hp" as %(-> & -> & _ & _). iApply hwp_ret. iApply hwp_bind. by iApply hwp_ret.
  - iDestruct "Hp" as "[Hs Hk]".
    iAssert (wp full (delete_loop fuel child) (fun _ => emp)%I) with "[Hk]" as "Hwp"; [by iApply (Hdel with "Hk")|].
    iAssert (wp full (if if child then true else false then delete_loop fuel child else cret tt)
               (fun _ => emp)%I) with "[Hwp]" as "Hwp".
    { destruct child; [done|]. by destruct fuel. }
    iApply (wp_wand with "Hwp"). iIntros ([]) "_". iApply hwp_bind. by iApply (wp_free_str with "Hs").
Qed.

Lemma delete_loop_spec fuel ts prev first last (Φ : unit -> hProp cell) :
  (trees_size ts <= fuel)%nat ->
  seg ts prev first last None -∗ Φ tt -∗ wp full (delete_loop fuel first) Φ.
Proof.
  revert ts prev first last Φ. induction fuel as [|fuel IH]; intros ts prev first last Φ Hf.
  all: destruct ts as [|t ts]; cbn [seg];
    [iIntros "%H HΦ"; destruct H as [-> _]; by iApply hwp_ret|].
  { rewrite trees_size_cons in Hf. pose proof (tree_size_pos t). lia. }
  destruct t as [d kids]. rewrite trees_size_cons tree_size_eq in Hf.
  iIntros "(%l & %nx & -> & Ht & Hts) HΦ". rewrite item_node.
  iDestruct "Ht" as (child vs name) "(Hl & Hn & Hp)". cbn [delete_loop].
  iApply hwp_bind. iApply (wp_load_node with "Hl"). iIntros "Hl".
  destruct (type_bits_flags d prev nx child vs name) as [-> ->].
  cbn [n_child n_valuestring n_string n_next node_of].
  iApply (wp_free_parts with "Hp").
  { iIntros (Ψ) "(%last' & Hk) HΨ". iApply (IH with "Hk HΨ"). lia. }
  iApply hwp_bind. iApply (wp_free_name with "Hn"). iApply hwp_bind. iApply (wp_free with "Hl").
  iApply (IH with "Hts HΦ"). lia.
Qed.

Lemma delete_spec ts prev first last (Φ : unit -> hProp cell) :
  seg ts prev first last None -∗ Φ tt -∗ wp full (cJSON_Delete first) Φ.
Proof.
  iIntros "Hs HΦ". iApply hwp_bind. iApply (wp_heap_size _ (trees_size ts)). iSplit.
  - iClear "HΦ". by iApply seg_sized.
  - iIntros (n Hn). by iApply (delete_loop_spec with "Hs HΦ").
Qed.

Lemma delete_null (Φ : unit -> hProp cell) : Φ tt ⊢ wp full (cJSON_Delete None) Φ.
Proof. iIntros "HΦ". by iApply (delete_spec [] None None None with "[]"). Qed.

(** One item that is in no chain. *)
Lemma delete_item t l prev (Φ : unit -> hProp cell) :
  item t l prev None -∗ Φ tt -∗ wp full (cJSON_Delete (Some l)) Φ.
Proof.
  iIntros "Ht HΦ". iApply (delete_spec [t] prev _ (Some l) with "[Ht]"); [|done].
  iExists l, None. by iFrame.
Qed.

Lemma delete_owned t l prev : item t l prev None ⊢ wp full (cJSON_Delete (Some l)) (fun _ => emp)%I.
Proof. iIntros "Ht". by iApply (delete_item with "Ht"). Qed.

(** ** Chains *)

Lemma seg_app ts1 ts2 prev first last next :
  seg (ts1 ++ ts2) prev first last next ⊣⊢
  ∃ mid nx, seg ts1 prev first mid nx ∗ seg ts2 mid nx last next.
Proof.
  revert prev first. induction ts1 as [|t ts1 IH]; intros prev first; cbn [seg app].
  - iSplit; [iIntros "Hs"; iExists prev, first; by iFrame|].
    iIntros "(%mid & %nx & %H & Hs)". by destruct H as [-> ->].
  - setoid_rewrite IH. iSplit.
    + iIntros "(%l & %nx & -> & Ht & %mid & %nx' & H1 & H2)". iExists mid, nx'. iFrame "H2".
      iExists l, nx. by iFrame.
    + iIntros "(%mid & %nx' & (%l & %nx & -> & Ht & H1) & H2)". iExists l, nx. iFrame "Ht".
      iSplit; [done|]. iExists mid, nx'. by iFrame.
Qed.

Lemma seg_snoc ts t prev first last next :
  seg (ts ++ [t]) prev first last next ⊣⊢
  ∃ l mid, <affine> ⌜last = Some l⌝ ∗ seg ts prev first mid (Some l) ∗ item t l mid next.
Proof.
  rewrite seg_app. cbn [seg]. iSplit.
  - iIntros "(%mid & %nx & Hs & %l & %nx' & -> & Ht & %H)". destruct H; subst.
    iExists l, mid. by iFrame.
  - iIntros "(%l & %mid & -> & Hs & Ht)". iExists mid, (Some l). iFrame "Hs". iExists l, next. by iFrame.
Qed.

(** Changing the links of an item. *)
Lemma wp_set_next t l prev next q (Φ : unit -> hProp cell) :
  item t l prev next -∗ (item t l prev q -∗ Φ tt) -∗ wp full (update (Some l) (set_next q)) Φ.
Proof.
  destruct t as [d kids]. rewrite !item_node. iIntros "(%c & %v & %n & Hl & Hr) HΦ".
  iApply (wp_update with "Hl"). iIntros "Hl". iApply "HΦ". iExists c, v, n. by iFrame.
Qed.

Lemma wp_set_prev t l prev next q (Φ : unit -> hProp cell) :
  item t l prev next -∗ (item t l q next -∗ Φ tt) -∗ wp full (update (Some l) (set_prev q)) Φ.
Proof.
  destruct t as [d kids]. rewrite !item_node. iIntros "(%c & %v & %n & Hl & Hr) HΦ".
  iApply (wp_update with "Hl"). iIntros "Hl". iApply "HΦ". iExists c, v, n. by iFrame.
Qed.

Lemma wp_unlink t l prev next (Φ : unit -> hProp cell) :
  item t l prev next -∗ (item t l None None -∗ Φ tt) -∗
  wp full (update (Some l) (fun n => set_next None (set_prev None n))) Φ.
Proof.
  destruct t as [d kids]. rewrite !item_node. iIntros "(%c & %v & %n & Hl & Hr) HΦ".
  iApply (wp_update with "Hl"). iIntros "Hl". iApply "HΦ". iExists c, v, n. by iFrame.
Qed.

(** Reading an item's links. *)
Lemma wp_links {A} t l prev next (k : node -> cprog A) (Φ : A -> hProp cell) :
  item t l prev next -∗
  (∀ n, <affine> ⌜n_next n = next /\ n_prev n = prev⌝ -∗ item t l prev next -∗ wp full (k n) Φ) -∗
  wp full (n <- load_node (Some l) ;; k n) Φ.
Proof.
  destruct t as [d kids]. iIntros "Ht HΦ". iDestruct (item_node with "Ht") as (c v n) "[Hl Hr]".
  iApply hwp_bind. iApply (wp_load_node with "Hl"). iIntros "Hl". iApply "HΦ"; [done|].
  iApply item_node. iExists c, v, n. iFrame.
Qed.

(** The last item of a chain gets a successor. *)
Lemma wp_last_next ts prev first last next q (Φ : unit -> hProp cell) :
  ts <> [] ->
  seg ts prev first last next -∗ (seg ts prev first last q -∗ Φ tt) -∗
  wp full (update last (set_next q)) Φ.
Proof.
  intros Hne. destruct (exists_last Hne) as (ts' & t & ->). rewrite !seg_snoc.
  iIntros "(%l & %mid & -> & Hs & Ht) HΦ". iApply (wp_set_next with "Ht"). iIntros "Ht".
  iApply "HΦ". iExists l, mid. by iFrame.
Qed.

(** The first item of a chain gets a predecessor. *)
Lemma wp_first_prev ts prev first last next q (Φ : unit -> hProp cell) :
  ts <> [] ->
  seg ts prev first last next -∗ (seg ts q first last next -∗ Φ tt) -∗
  wp full (update first (set_prev q)) Φ.
Proof.
  destruct ts as [|t ts]; [done|]. cbn [seg]. iIntros (_) "(%l & %nx & -> & Ht & Hs) HΦ".
  iApply (wp_set_prev with "Ht"). iIntros "Ht". iApply "HΦ". iExists l, nx. by iFrame.
Qed.

Lemma item_distinct t1 t2 l1 l2 p1 n1 p2 n2 : item t1 l1 p1 n1 ∗ item t2 l2 p2 n2 ⊢ ⌜l1 <> l2⌝.
Proof.
  destruct t1 as [d1 k1], t2 as [d2 k2]. rewrite !item_node.
  iIntros "[(%c1 & %v1 & %x1 & H1 & _) (%c2 & %v2 & %x2 & H2 & _)]".
  iApply points_to_ne. iFrame.
Qed.

(** ** Adding *)

Lemma last_loop_spec fuel ts prev first last (Φ : ptr -> hProp cell) :
  ts <> [] -> (length ts <= fuel)%nat ->
  seg ts prev first last None -∗ (seg ts prev first last None -∗ Φ last) -∗
  wp full (last_loop fuel first) Φ.
Proof.
  revert ts prev first Φ. induction fuel as [|fuel IH]; intros [|t ts] prev first Φ Hne Hf;
    try done; [simpl in Hf; lia|].
  cbn [seg last_loop]. iIntros "(%l & %nx & -> & Ht & Hs) HΦ".
  iApply (wp_links with "Ht"). iIntros (n [-> _]) "Ht". destruct ts as [|t' ts].
  - cbn [seg]. iDestruct "Hs" as %[-> <-]. iApply hwp_ret. iApply "HΦ". iExists l, None. by iFrame.
  - iAssert (⌜is_Some nx⌝)%I as %[l' ->].
    { cbn [seg]. by iDestruct "Hs" as (l' nx' ->) "_". }
    iApply (IH with "Hs"); [done|simpl in *; lia|]. iIntros "Hs". iApply "HΦ". iExists l, (Some l'). by iFrame.
Qed.

(** A chain is empty exactly when its first pointer is NULL. *)
Lemma children_null kids first : children kids first ⊢ ⌜first = None <-> kids = []⌝.
Proof.
  iIntros "(%last & Hs)". destruct kids as [|t ts]; cbn [seg].
  - by iDestruct "Hs" as %[-> _].
  - by iDestruct "Hs" as (l nx ->) "_".
Qed.

Lemma add_to_array d kids l prev next t l2 (Φ : unit -> hProp cell) :
  d_ref d = None ->
  item (Tree d kids) l prev next -∗ item t l2 None None -∗
  (item (Tree d (kids ++ [t])) l prev next -∗ Φ tt) -∗
  wp full (cJSON_AddItemToArray (Some l) (Some l2)) Φ.
Proof.
  intros Hd. rewrite !item_eq //. iIntros "(%child & %vs & %name & Hl & Hn & Hv & Hk) Ht HΦ".
  iDestruct (children_null with "Hk") as %Hnull.
  iApply hwp_bind. iApply (wp_load_node with "Hl"). iIntros "Hl". cbn [n_child node_of].
  destruct child as [c|].
  - iDestruct "Hk" as (last) "Hk". iApply hwp_bind. iApply (wp_heap_size _ (trees_size kids)). iSplit.
    { iClear "Hl Hn Hv Ht HΦ". by iApply seg_sized. }
    iIntros (fuel Hfuel). pose proof (length_trees_size kids).
    assert (kids <> []) as Hne by (intros ->; by destruct Hnull as [_ H']; specialize (H' eq_refl)).
    iApply hwp_bind. iApply (last_loop_spec with "Hk"); [done|lia|]. iIntros "Hk".
    iApply hwp_bind. iApply (wp_last_next with "Hk"); [done|]. iIntros "Hk".
    iApply (wp_set_prev with "Ht"). iIntros "Ht". iApply "HΦ". iExists (Some c), vs, name. iFrame.
    iExists (Some l2). iApply seg_snoc. iExists l2, last. by iFrame.
  - destruct Hnull as [Hnull _]. rewrite (Hnull eq_refl).
    iDestruct "Hk" as (last) "Hk". cbn [seg app]. iDestruct "Hk" as %[_ <-].
    iApply (wp_update with "Hl"). iIntros "Hl". iApply "HΦ". iExists (Some l2), vs, name.
    iFrame "Hl Hn Hv". iExists (Some l2), l2, None. by iFrame.
Qed.

(** A new name, owned or a literal. *)
Definition with_name (o : option string) (const : bool) (t : tree) : tree :=
  let 'Tree d kids := t in
  Tree (Data (d_type d) (d_vs d) (d_vi d) (d_vd d) o const (d_ref d)) kids.

(** The name that [cJSON_strdup (s)] gives: none when memory is exhausted. *)
Definition copied (s : string) (o : option string) : Prop := o = Some s \/ (full = false /\ o = None).

Lemma wp_copy s (Φ : sptr -> hProp cell) :
  (∀ p o, <affine> ⌜copied s o⌝ -∗ str_at p o -∗ Φ p) -∗ wp full (cJSON_strdup s) Φ.
Proof.
  iIntros "HΦ". iApply wp_strdup. iSplit.
  - iIntros (p) "Hp". iApply ("HΦ" $! p (Some s) with "[%] Hp"). by left.
  - destruct full eqn:E; [done|]. iApply ("HΦ" $! SNull None with "[%] [//]"). by right.
Qed.

(** The name of an item is exchanged. *)
Lemma wp_set_string t l prev next p o (Φ : unit -> hProp cell) :
  d_const (t_data t) = false -> d_name (t_data t) = None ->
  item t l prev next -∗ str_at p o -∗ (item (with_name o false t) l prev next -∗ Φ tt) -∗
  wp full (update (Some l) (set_string p)) Φ.
Proof.
  destruct t as [d kids]. cbn [t_data with_name]. intros Hc Hn. rewrite !item_node Hc Hn.
  iIntros "(%c & %v & %n & Hl & Hn & Hp) Hs HΦ". cbn [name_at]. iDestruct "Hn" as %->.
  iApply (wp_update with "Hl"). iIntros "Hl". iApply "HΦ". iExists c, v, p.
  unfold node_of, type_bits, set_string, parts. cbn. rewrite Hc. iFrame.
Qed.

(** The name is replaced by a copy of [s], the old one being freed. *)
Lemma wp_rename {A} t l prev next s (k : cprog A) (Φ : A -> hProp cell) :
  d_const (t_data t) = false ->
  item t l prev next -∗
  (∀ o, <affine> ⌜copied s o⌝ -∗ item (with_name o false t) l prev next -∗ wp full k Φ) -∗
  wp full
    (n <- load_node (Some l) ;;
     (if sptr_set (n_string n) then free_str (n_string n) else cret tt) ;;;
     p <- cJSON_strdup s ;; update (Some l) (set_string p) ;;; k) Φ.
Proof.
  destruct t as [d kids]. cbn [t_data]. intros Hc. rewrite item_node Hc.
  iIntros "(%c & %v & %n & Hl & Hn & Hp) HΦ".
  iApply hwp_bind. iApply (wp_load_node with "Hl"). iIntros "Hl". cbn [n_string node_of].
  iApply hwp_bind. iApply (wp_free_str with "Hn"). iApply hwp_bind. iApply wp_copy.
  iIntros (p o Ho) "Hs". iApply hwp_bind. iApply (wp_update with "Hl"). iIntros "Hl".
  iApply ("HΦ" $! o with "[//]"). cbn [with_name]. iApply item_node. iExists c, v, p.
  unfold node_of, type_bits, set_string, parts. cbn. rewrite Hc. iFrame.
Qed.

Lemma add_to_object d kids l prev next t l2 s (Φ : unit -> hProp cell) :
  d_ref d = None -> d_const (t_data t) = false ->
  item (Tree d kids) l prev next -∗ item t l2 None None -∗
  (∀ o, <affine> ⌜copied s o⌝ -∗ item (Tree d (kids ++ [with_name o false t])) l prev next -∗ Φ tt) -∗
  wp full (cJSON_AddItemToObject (Some l) s (Some l2)) Φ.
Proof.
  iIntros (Hd Hc) "Ha Ht HΦ". iApply (wp_rename with "Ht"); [done|]. iIntros (o Ho) "Ht".
  iApply (add_to_array with "Ha Ht"); [done|]. by iApply "HΦ".
Qed.

Lemma add_to_object_cs d kids l prev next t l2 s (Φ : unit -> hProp cell) :
  d_ref d = None ->
  item (Tree d kids) l prev next -∗ item t l2 None None -∗
  (item (Tree d (kids ++ [with_name (Some s) true t])) l prev next -∗ Φ tt) -∗
  wp full (cJSON_AddItemToObjectCS (Some l) s (Some l2)) Φ.
Proof.
  destruct t as [d2 kids2]. iIntros (Hd) "Ha Ht HΦ".
  iDestruct (item_node with "Ht") as (c v n) "(Hl & Hn & Hp)".
  iApply hwp_bind. iApply (wp_load_node with "Hl"). iIntros "Hl".
  destruct (type_bits_flags d2 None None c v n) as [_ ->]. cbn [n_string node_of].
  iApply hwp_bind. iApply (wp_free_name with "Hn").
  iApply hwp_bind. iApply (wp_update with "Hl"). iIntros "Hl".
  iApply hwp_bind. iApply (wp_update with "Hl"). iIntros "Hl".
  iApply (add_to_array with "Ha [Hl Hp]"); [done| |done].
  cbn [with_name]. iApply item_node. iExists c, v, (SStatic s). unfold parts, node_of, CJsonHeap.set_type. cbn.
  iFrame "Hp". iSplitL; [|done].
  assert (Z.lor (type_bits d2) cJSON_StringIsConst
    = type_bits (Data (d_type d2) (d_vs d2) (d_vi d2) (d_vd d2) (Some s) true (d_ref d2))) as ->; [|done].
  unfold type_bits. cbn. by destruct (d_type d2), (d_ref d2), (d_const d2).
Qed.

(** ** Construction *)

Definition plain_data (ty : jtype) : data := Data ty None 0 (SpecFloat.S754_zero false) None false None.

Lemma create_spec f d (Φ : ptr -> hProp cell) :
  d_vs d = None -> d_name d = None -> d_ref d = None ->
  f zero_node = node_of d None None None SNull SNull ->
  (∀ l, item (Tree d []) l None None -∗ Φ (Some l)) ∧ (if full then True else Φ None) ⊢
  wp full (create f) Φ.
Proof.
  iIntros (Hv Hn Hr Hf) "HΦ". iApply hwp_bind. iApply wp_malloc. iSplit.
  - iIntros (l) "Hl". iDestruct "HΦ" as "[HΦ _]". iApply hwp_bind. iApply (wp_update with "Hl").
    rewrite Hf. iIntros "Hl". iApply hwp_ret. iApply "HΦ". rewrite item_eq //.
    iExists None, SNull, SNull. iFrame. rewrite Hn Hv. cbn [name_at]. do 2 (iSplit; [done|]). by iExists None.
  - iDestruct "HΦ" as "[_ HΦ]". destruct full; [done|]. by iApply hwp_ret.
Qed.

Lemma create_string_spec s (Φ : ptr -> hProp cell) :
  (∀ l o, <affine> ⌜copied s o⌝ -∗
     item (Tree (Data cJSON_String o 0 (SpecFloat.S754_zero false) None false None) []) l None None -∗
     Φ (Some l)) ∧ (if full then True else Φ None) ⊢
  wp full (cJSON_CreateString s) Φ.
Proof.
  iIntros "HΦ". iApply hwp_bind. iApply wp_malloc. iSplit.
  - iIntros (l) "Hl". iDestruct "HΦ" as "[HΦ _]". iApply hwp_bind. iApply (wp_update with "Hl").
    iIntros "Hl". iApply hwp_bind. iApply wp_copy. iIntros (p o Ho) "Hs".
    iApply hwp_bind. iApply (wp_update with "Hl"). iIntros "Hl". iApply hwp_ret.
    iApply ("HΦ" $! l o with "[//]"). rewrite item_eq //. iExists None, p, SNull.
    iFrame "Hl Hs". cbn [name_at d_name]. iSplit; [done|]. by iExists None.
  - iDestruct "HΦ" as "[_ HΦ]". destruct full; [done|]. by iApply hwp_ret.
Qed.

(** A reference shares the children and the string of the item. *)
Definition reference_to (d : data) (c : ptr) (v : sptr) : tree :=
  Tree (Data (d_type d) None (d_vi d) (d_vd d) None (d_const d) (Some (c, v))) [].

Lemma create_reference_spec t l prev next (Φ : ptr -> hProp cell) :
  item t l prev next -∗
  (item t l prev next -∗
    (∀ r c v, item (reference_to (t_data t) c v) r None None -∗ Φ (Some r))
    ∧ (if full then True else Φ None)) -∗
  wp full (create_reference (Some l)) Φ.
Proof.
  destruct t as [d kids]. iIntros "Ht HΦ". iApply hwp_bind. iApply wp_malloc. iSplit.
  - iIntros (r) "Hr". iDestruct (item_node with "Ht") as (c v n) "[Hl Hrest]".
    iApply hwp_bind. iApply (wp_load_node with "Hl"). iIntros "Hl".
    iApply hwp_bind. iApply (wp_store with "Hr"). iIntros "Hr".
    iApply hwp_bind. iApply (wp_update with "Hr"). iIntros "Hr".
    iApply hwp_bind. iApply (wp_update with "Hr"). iIntros "Hr".
    iApply hwp_bind. iApply (wp_update with "Hr"). iIntros "Hr". iApply hwp_ret.
    iDestruct ("HΦ" with "[Hl Hrest]") as "[HΦ _]"; [iApply item_node; iExists c, v, n; iFrame|].
    iApply ("HΦ" $! r c v). iApply (item_ref _ _ c v); [done|]. iSplit; [done|]. iExists SNull.
    iSplitL; [|done]. unfold node_of. cbn.
    assert (Z.lor (type_bits d) cJSON_IsReference
      = type_bits (Data (d_type d) None (d_vi d) (d_vd d) None (d_const d) (Some (c, v)))) as ->; [|done].
    unfold type_bits. cbn. by destruct (d_type d), (d_ref d), (d_const d).
  - iDestruct ("HΦ" with "Ht") as "[_ HΦ]". destruct full; [done|]. by iApply hwp_ret.
Qed.

(** ** Positions *)

(** The chain, opened at position [i]: [r] points to the item there, or is NULL
    when there is none. *)
Definition split_at (i : nat) (ts : list tree) (prev first last r : ptr) : hProp cell :=
  match ts !! i with
  | Some t =>
      ∃ l p n, <affine> ⌜r = Some l⌝ ∗ seg (take i ts) prev first p (Some l)
        ∗ item t l p n ∗ seg (drop (S i) ts) (Some l) n last None
  | None => <affine> ⌜r = None⌝ ∗ seg ts prev first last None
  end%I.

Lemma split_at_0 t ts prev first last l nx :
  first = Some l ->
  item t l prev nx -∗ seg ts (Some l) nx last None -∗ split_at 0 (t :: ts) prev first last (Some l).
Proof.
  iIntros (->) "Ht Hs". unfold split_at. cbn [lookup list_lookup take drop]. iExists l, prev, nx.
  iSplit; [done|]. iFrame. by cbn [seg].
Qed.

Lemma split_at_S i t ts prev first last r l nx :
  first = Some l ->
  item t l prev nx -∗ split_at i ts (Some l) nx last r -∗ split_at (S i) (t :: ts) prev first last r.
Proof.
  iIntros (->) "Ht Hs". unfold split_at. cbn [lookup list_lookup take drop].
  change (list_lookup i ts) with (ts !! i). destruct (ts !! i) as [t'|].
  - iDestruct "Hs" as (l' p n ->) "(H1 & H2 & H3)". iExists l', p, n. iSplit; [done|].
    iFrame "H2 H3". cbn [seg]. iExists l, nx. by iFrame.
  - iDestruct "Hs" as "[-> Hs]". iSplit; [done|]. cbn [seg]. iExists l, nx. by iFrame.
Qed.

Lemma walk_spec i ts prev first last (Φ : ptr -> hProp cell) :
  seg ts prev first last None -∗ (∀ r, split_at i ts prev first last r -∗ Φ r) -∗
  wp full (walk i first) Φ.
Proof.
  revert ts prev first Φ. induction i as [|i IH]; intros [|t ts] prev first Φ; cbn [seg walk].
  all: iIntros "Hs HΦ".
  all: try (iDestruct "Hs" as %[-> ->]; iApply hwp_ret; iApply "HΦ"; by iSplit).
  - iDestruct "Hs" as (l nx ->) "[Ht Hs]". iApply hwp_ret. iApply "HΦ".
    by iApply (split_at_0 with "Ht Hs").
  - iDestruct "Hs" as (l nx ->) "[Ht Hs]". iApply (wp_links with "Ht"). iIntros (n [-> _]) "Ht".
    iApply (IH with "Hs"). iIntros (r) "Hs". iApply "HΦ". by iApply (split_at_S with "Ht Hs").
Qed.

(** The chain before an item that goes away: its last item gets the successor [q]. *)
Lemma wp_relink_next ts first p c q (Φ : unit -> hProp cell) :
  seg ts None first p c -∗
  (∀ first', <affine> ⌜first' = match ts with [] => q | _ => first end⌝ -∗ seg ts None first' p q -∗ Φ tt) -∗
  wp full (if p then update p (set_next q) else cret tt) Φ.
Proof.
  destruct ts as [|t ts].
  - cbn [seg]. iIntros ([-> <-]) "HΦ". iApply hwp_ret. by iApply ("HΦ" $! q with "[//] []").
  - iIntros "Hs HΦ". iAssert (⌜is_Some p⌝)%I as %[l ->].
    { destruct (exists_last (l := t :: ts)) as (ts' & t' & ->); [done|].
      rewrite seg_snoc. by iDestruct "Hs" as (l mid ->) "_". }
    iApply (wp_last_next with "Hs"); [done|]. by iApply "HΦ".
Qed.

(** The chain after it: its first item gets the predecessor [q]. *)
Lemma wp_relink_prev ts c first last q (Φ : unit -> hProp cell) :
  seg ts c first last None -∗
  (∀ last', seg ts q first last' None -∗ Φ tt) -∗
  wp full (if first then update first (set_prev q) else cret tt) Φ.
Proof.
  destruct ts as [|t ts].
  - cbn [seg]. iIntros ([-> <-]) "HΦ". iApply hwp_ret. by iApply ("HΦ" $! q).
  - iIntros "Hs HΦ". iAssert (⌜is_Some first⌝)%I as %[l ->]; [by iDestruct "Hs" as (l nx ->) "_"|].
    iApply (wp_first_prev with "Hs"); [done|]. by iApply "HΦ".
Qed.

(** The item at [l] is the first of the array exactly when nothing is before it. *)
Lemma first_is ts t first p l n q :
  seg ts None first p q ∗ item t l p n ⊢
  ⌜q = Some l -> ptr_eqb (Some l) first = match ts with [] => true | _ => false end⌝.
Proof.
  destruct ts as [|t' ts]; cbn [seg].
  - iIntros "[(%H & _) _]". iPureIntro. intros ->. destruct H as [-> _]. unfold ptr_eqb. by case_bool_decide.
  - iIntros "[(%l' & %nx & -> & Ht' & _) Ht]". iDestruct (item_distinct with "[$Ht' $Ht]") as %Hne.
    iPureIntro. intros _. unfold ptr_eqb. case_bool_decide; congruence.
Qed.

Lemma detach_spec d kids l prev next which (Φ : ptr -> hProp cell) :
  d_ref d = None ->
  item (Tree d kids) l prev next -∗
  (∀ r, match kids !! Z.to_nat which with
        | Some t => ∃ c, <affine> ⌜r = Some c⌝ ∗ item t c None None
        | None => <affine> ⌜r = None⌝
        end -∗ item (Tree d (delete (Z.to_nat which) kids)) l prev next -∗ Φ r) -∗
  wp full (cJSON_DetachItemFromArray (Some l) which) Φ.
Proof.
  iIntros (Hd) "Ha HΦ". set (i := Z.to_nat which).
  iDestruct (item_eq with "Ha") as (child vs name) "(Hl & Hn & Hv & %last & Hk)"; [done|].
  iApply hwp_bind. iApply (wp_load_node with "Hl"). iIntros "Hl". cbn [n_child node_of].
  iApply hwp_bind. iApply (walk_spec with "Hk"). iIntros (r) "Hk". fold i. unfold split_at.
  destruct (kids !! i) as [t|] eqn:Hi.
  - iDestruct "Hk" as (c p n ->) "(Hk1 & Ht & Hk2)".
    iApply (wp_links with "Ht"). iIntros (m [-> ->]) "Ht".
    iDestruct (first_is with "[$Hk1 $Ht]") as %Hfirst. specialize (Hfirst eq_refl).
    iApply hwp_bind. iApply (wp_relink_next with "Hk1"). iIntros (first' Hf') "Hk1".
    iApply hwp_bind. iApply (wp_relink_prev with "Hk2"). iIntros (last') "Hk2".
    iApply hwp_bind. iApply (wp_load_node with "Hl"). iIntros "Hl". cbn [n_child node_of]. rewrite Hfirst.
    iApply hwp_bind.
    iAssert (∀ Ψ : unit → hProp cell, l ↦ CNode (node_of d prev next child vs name) -∗
       (l ↦ CNode (node_of d prev next first' vs name) -∗ Ψ tt) -∗
       wp full (if match take i kids with [] => true | _ => false end
                then update (Some l) (set_child n) else cret tt) Ψ)%I as "Hset".
    { iIntros (Ψ) "Hl HΨ". destruct (take i kids); subst first'.
      - by iApply (wp_update with "Hl").
      - iApply hwp_ret. by iApply "HΨ". }
    iApply ("Hset" with "Hl"). iIntros "Hl". iClear "Hset".
    iApply hwp_bind. iApply (wp_unlink with "Ht"). iIntros "Ht". iApply hwp_ret.
    iApply ("HΦ" $! (Some c) with "[Ht]"); [iExists c; by iFrame|].
    iApply item_eq; [done|]. iExists first', vs, name. iFrame "Hl Hn Hv". iExists last'. rewrite delete_take_drop seg_app.
    iExists p, n. iFrame.
  - iDestruct "Hk" as "[-> Hk]". iApply hwp_ret. iApply ("HΦ" $! None with "[//]").
    apply lookup_ge_None in Hi. rewrite delete_take_drop take_ge ?drop_ge ?app_nil_r; [|lia..]. iApply item_eq; [done|].
    iExists child, vs, name. iFrame.
Qed.

(** The new item at [l2] follows the items [ts] before [c]: through the [next] of
    the last one, or through the array when there are none. *)
Lemma wp_link_new d ts l prev next child vs name c t l2 p nx (Φ : unit -> hProp cell) :
  ptr_eqb (Some c) child = match ts with [] => true | _ => false end ->
  l ↦ CNode (node_of d prev next child vs name) -∗ seg ts None child p (Some c) -∗ item t l2 p nx -∗
  (∀ first', l ↦ CNode (node_of d prev next first' vs name) -∗ seg ts None first' p (Some l2) -∗
     item t l2 p nx -∗ Φ tt) -∗
  wp full
    (if ptr_eqb (Some c) child then update (Some l) (set_child (Some l2))
     else n <- load_node (Some l2) ;; update (n_prev n) (set_next (Some l2))) Φ.
Proof.
  iIntros (->) "Hl Hs Ht HΦ". destruct ts as [|t' ts].
  - iDestruct "Hs" as %[_ <-]. iApply (wp_update with "Hl"). iIntros "Hl".
    by iApply ("HΦ" $! (Some l2) with "Hl [] Ht").
  - iApply (wp_links with "Ht"). iIntros (m [_ ->]) "Ht".
    iApply (wp_last_next with "Hs"); [done|]. iIntros "Hs". iApply ("HΦ" with "Hl Hs Ht").
Qed.

Lemma insert_spec d kids l prev next which t l2 (Φ : unit -> hProp cell) :
  d_ref d = None ->
  item (Tree d kids) l prev next -∗ item t l2 None None -∗
  (item (Tree d (take (Z.to_nat which) kids ++ t :: drop (Z.to_nat which) kids)) l prev next -∗ Φ tt) -∗
  wp full (cJSON_InsertItemInArray (Some l) which (Some l2)) Φ.
Proof.
  iIntros (Hd) "Ha Hnew HΦ". set (i := Z.to_nat which).
  iDestruct (item_eq with "Ha") as (child vs name) "(Hl & Hn & Hv & %last & Hk)"; [done|].
  iApply hwp_bind. iApply (wp_load_node with "Hl"). iIntros "Hl". cbn [n_child node_of].
  iApply hwp_bind. iApply (walk_spec with "Hk"). iIntros (r) "Hk". fold i. unfold split_at.
  destruct (kids !! i) as [t'|] eqn:Hi.
  - iDestruct "Hk" as (c p n ->) "(Hk1 & Ht & Hk2)".
    iDestruct (first_is with "[$Hk1 $Ht]") as %Hfirst. specialize (Hfirst eq_refl).
    iApply hwp_bind. iApply (wp_set_next with "Hnew"). iIntros "Hnew".
    iApply (wp_links with "Ht"). iIntros (m [_ ->]) "Ht".
    iApply hwp_bind. iApply (wp_set_prev with "Hnew"). iIntros "Hnew".
    iApply hwp_bind. iApply (wp_set_prev with "Ht"). iIntros "Ht".
    iApply hwp_bind. iApply (wp_load_node with "Hl"). iIntros "Hl". cbn [n_child node_of].
    iApply (wp_link_new with "Hl Hk1 Hnew"); [done|]. iIntros (first') "Hl Hk1 Hnew". iApply "HΦ".
    iApply item_eq; [done|]. iExists first', vs, name. iFrame "Hl Hn Hv". iExists last.
    rewrite seg_app. iExists p, (Some l2). iFrame "Hk1". rewrite (drop_S _ t' i) //. cbn [seg].
    iExists l2, (Some c). iFrame "Hnew". iSplit; [done|]. iExists c, n. by iFrame.
  - iDestruct "Hk" as "[-> Hk]". apply lookup_ge_None in Hi.
    iApply (add_to_array with "[Hl Hn Hv Hk] Hnew"); [done| |].
    + iApply item_eq; [done|]. iExists child, vs, name. iFrame.
    + by rewrite take_ge // drop_ge.
Qed.

Lemma replace_spec d kids l prev next which t l2 (Φ : unit -> hProp cell) :
  d_ref d = None ->
  item (Tree d kids) l prev next -∗ item t l2 None None -∗
  (item (Tree d (<[Z.to_nat which := t]> kids)) l prev next -∗
   match kids !! Z.to_nat which with Some _ => emp | None => item t l2 None None end -∗ Φ tt) -∗
  wp full (cJSON_ReplaceItemInArray (Some l) which (Some l2)) Φ.
Proof.
  iIntros (Hd) "Ha Hnew HΦ". set (i := Z.to_nat which).
  iDestruct (item_eq with "Ha") as (child vs name) "(Hl & Hn & Hv & %last & Hk)"; [done|].
  iApply hwp_bind. iApply (wp_load_node with "Hl"). iIntros "Hl". cbn [n_child node_of].
  iApply hwp_bind. iApply (walk_spec with "Hk"). iIntros (r) "Hk". fold i. unfold split_at.
  destruct (kids !! i) as [t'|] eqn:Hi.
  - iDestruct "Hk" as (c p n ->) "(Hk1 & Ht & Hk2)".
    iApply (wp_links with "Ht"). iIntros (m [-> ->]) "Ht".
    iDestruct (first_is with "[$Hk1 $Ht]") as %Hfirst. specialize (Hfirst eq_refl).
    iApply hwp_bind. iApply (wp_set_next with "Hnew"). iIntros "Hnew".
    iApply hwp_bind. iApply (wp_set_prev with "Hnew"). iIntros "Hnew".
    iApply hwp_bind. iApply (wp_relink_prev with "Hk2"). iIntros (last') "Hk2".
    iApply hwp_bind. iApply (wp_load_node with "Hl"). iIntros "Hl". cbn [n_child node_of].
    iApply hwp_bind. iApply (wp_link_new with "Hl Hk1 Hnew"); [done|]. iIntros (first') "Hl Hk1 Hnew".
    iApply hwp_bind. iApply (wp_unlink with "Ht"). iIntros "Ht".
    iApply (delete_item with "Ht"). iApply ("HΦ" with "[-] [//]").
    iApply item_eq; [done|]. iExists first', vs, name. iFrame "Hl Hn Hv". iExists last'.
    apply lookup_lt_Some in Hi. rewrite insert_take_drop // seg_app. iExists p, (Some l2).
    iFrame "Hk1". cbn [seg]. iExists l2, n. by iFrame.
  - iDestruct "Hk" as "[-> Hk]". apply lookup_ge_None in Hi. iApply hwp_ret.
    iApply ("HΦ" with "[-Hnew] Hnew"). iApply item_eq; [done|]. rewrite list_insert_ge //.
    iExists child, vs, name. iFrame.
Qed.

(** ** Names *)

(** The position of the first item with the name [s], letters compared without
    case; the length when there is none. *)
Fixpoint find_pos (s : string) (ts : list tree) : nat :=
  match ts with
  | [] => O
  | t :: ts => if strcase_eq (d_name (t_data t)) s then O else S (find_pos s ts)
  end.

Lemma name_matches_spec const p o s (Φ : bool -> hProp cell) :
  name_at const p o -∗ (name_at const p o -∗ Φ (strcase_eq o s)) -∗ wp full (name_matches p s) Φ.
Proof.
  iIntros "Hn HΦ". destruct o as [str|]; cbn [name_at].
  - destruct const; [iDestruct "Hn" as %->|iDestruct "Hn" as (l ->) "Hl"]; cbn [name_matches].
    + iApply hwp_bind. iApply hwp_ret. iApply hwp_ret. by iApply "HΦ".
    + iApply hwp_bind. iApply hwp_bind. iApply (wp_load with "Hl"). iIntros "Hl".
      iApply hwp_ret. iApply hwp_ret. iApply "HΦ". iExists l. by iFrame.
  - iDestruct "Hn" as %->. iApply hwp_ret. by iApply "HΦ".
Qed.

Lemma split_at_join i ts prev first last r :
  split_at i ts prev first last r ⊢ seg ts prev first last None.
Proof.
  unfold split_at. destruct (ts !! i) as [t|] eqn:Hi; [|by iIntros "[_ $]"].
  iIntros "(%l & %p & %n & -> & H1 & H2 & H3)".
  iAssert (seg (take i ts ++ t :: drop (S i) ts) prev first last None) with "[-]" as "Hs".
  { rewrite seg_app. iExists p, (Some l). iFrame "H1". cbn [seg]. iExists l, n. by iFrame. }
  by rewrite take_drop_middle.
Qed.

Lemma split_at_null i ts prev first last r :
  split_at i ts prev first last r ⊢ ⌜r = None <-> (length ts <= i)%nat⌝.
Proof.
  unfold split_at. destruct (ts !! i) as [t|] eqn:Hi.
  - iIntros "(%l & %p & %n & -> & _)". iPureIntro. apply lookup_lt_Some in Hi. split; [done|lia].
  - iIntros "[-> _]". iPureIntro. by apply lookup_ge_None in Hi.
Qed.

Lemma find_loop_spec fuel ts prev first last s i (Φ : ptr * Z -> hProp cell) :
  (length ts <= fuel)%nat -> 0 <= i -> i + Z.of_nat (length ts) <= INT_MAX ->
  seg ts prev first last None -∗
  (∀ r, split_at (find_pos s ts) ts prev first last r -∗ Φ (r, i + Z.of_nat (find_pos s ts))) -∗
  wp full (find_loop fuel first s i) Φ.
Proof.
  revert ts prev first i Φ. induction fuel as [|fuel IH]; intros [|t ts] prev first i Φ Hf Hi Hmax;
    cbn [seg find_loop find_pos].
  1,3: iIntros ([-> ->]) "HΦ"; iApply hwp_ret; iSpecialize ("HΦ" $! None);
    replace (i + Z.of_nat 0) with i by lia; by iApply ("HΦ" with "[]"); iSplit.
  { simpl in Hf. lia. }
  destruct t as [d kids]. iIntros "(%l & %nx & -> & Ht & Hs) HΦ".
  iDestruct (item_node with "Ht") as (c v n) "(Hl & Hn & Hp)".
  iApply hwp_bind. iApply (wp_load_node with "Hl"). iIntros "Hl". cbn [n_string n_next node_of].
  iApply hwp_bind. iApply (name_matches_spec with "Hn"). iIntros "Hn". cbn [t_data].
  iAssert (item (Tree d kids) l prev nx) with "[Hl Hn Hp]" as "Ht".
  { iApply item_node. iExists c, v, n. iFrame. }
  destruct (strcase_eq (d_name d) s).
  - iApply hwp_ret. iSpecialize ("HΦ" $! (Some l)). replace (i + Z.of_nat 0) with i by lia.
    iApply "HΦ". by iApply (split_at_0 with "Ht Hs").
  - simpl in Hf, Hmax. rewrite int32_small; [|unfold is_int, INT_MIN; lia].
    iApply (IH with "Hs"); [lia..|]. iIntros (r) "Hs".
    replace (i + 1 + Z.of_nat (find_pos s ts)) with (i + Z.of_nat (S (find_pos s ts))) by lia.
    iApply "HΦ". by iApply (split_at_S with "Ht Hs").
Qed.

(** The item with its children opened at position [i], to which [r] points. *)
Definition opened (i : nat) (d : data) (kids : list tree) (l : loc) (prev next r : ptr) : hProp cell :=
  (∃ child vs name last, l ↦ CNode (node_of d prev next child vs name)
    ∗ name_at (d_const d) name (d_name d) ∗ str_at vs (d_vs d)
    ∗ split_at i kids None child last r)%I.

Lemma opened_close i d kids l prev next r :
  d_ref d = None -> opened i d kids l prev next r ⊢ item (Tree d kids) l prev next.
Proof.
  iIntros (Hd) "(%child & %vs & %name & %last & Hl & Hn & Hv & Hs)". iApply item_eq; [done|].
  iExists child, vs, name. iFrame "Hl Hn Hv". iExists last. by iApply split_at_join.
Qed.

Lemma opened_null i d kids l prev next r :
  opened i d kids l prev next r ⊢ ⌜r = None <-> (length kids <= i)%nat⌝.
Proof. iIntros "(%child & %vs & %name & %last & _ & _ & _ & Hs)". by iApply split_at_null. Qed.

Lemma get_array_item_spec d kids l prev next i (Φ : ptr -> hProp cell) :
  d_ref d = None ->
  item (Tree d kids) l prev next -∗
  (∀ r, opened (Z.to_nat i) d kids l prev next r -∗ Φ r) -∗
  wp full (cJSON_GetArrayItem (Some l) i) Φ.
Proof.
  iIntros (Hd) "Ha HΦ".
  iDestruct (item_eq with "Ha") as (child vs name) "(Hl & Hn & Hv & %last & Hk)"; [done|].
  iApply hwp_bind. iApply (wp_load_node with "Hl"). iIntros "Hl". cbn [n_child node_of].
  iApply (walk_spec with "Hk"). iIntros (r) "Hk". iApply "HΦ". iExists child, vs, name, last. iFrame.
Qed.

(** The common part of the functions that look for a name. *)
Lemma wp_find {A} d kids l prev next s (k : ptr * Z -> cprog A) (Φ : A -> hProp cell) :
  d_ref d = None -> Z.of_nat (length kids) <= INT_MAX ->
  item (Tree d kids) l prev next -∗
  (∀ r, opened (find_pos s kids) d kids l prev next r -∗ wp full (k (r, Z.of_nat (find_pos s kids))) Φ) -∗
  wp full (o <- load_node (Some l) ;; fuel <- heap_size ;; r <- find_loop fuel (n_child o) s 0 ;; k r) Φ.
Proof.
  iIntros (Hd Hlen) "Ha HΦ".
  iDestruct (item_eq with "Ha") as (child vs name) "(Hl & Hn & Hv & %last & Hk)"; [done|].
  iApply hwp_bind. iApply (wp_load_node with "Hl"). iIntros "Hl". cbn [n_child node_of].
  iApply hwp_bind. iApply (wp_heap_size _ (trees_size kids)). iSplit.
  { iClear "Hl Hn Hv HΦ". by iApply seg_sized. }
  iIntros (fuel Hfuel). pose proof (length_trees_size kids). iApply hwp_bind.
  iApply (find_loop_spec with "Hk"); [lia..|]. iIntros (r) "Hk". iApply "HΦ".
  iExists child, vs, name, last. iFrame.
Qed.

Lemma get_object_item_spec d kids l prev next s (Φ : ptr -> hProp cell) :
  d_ref d = None -> Z.of_nat (length kids) <= INT_MAX ->
  item (Tree d kids) l prev next -∗
  (∀ r, opened (find_pos s kids) d kids l prev next r -∗ Φ r) -∗
  wp full (cJSON_GetObjectItem (Some l) s) Φ.
Proof.
  iIntros (Hd Hlen) "Ha HΦ". iApply (wp_find with "Ha"); [done..|]. iIntros (r) "Ho".
  iApply hwp_ret. by iApply "HΦ".
Qed.

Lemma detach_object_spec d kids l prev next s (Φ : ptr -> hProp cell) :
  d_ref d = None -> Z.of_nat (length kids) <= INT_MAX ->
  item (Tree d kids) l prev next -∗
  (∀ r, match kids !! find_pos s kids with
        | Some t => ∃ c, <affine> ⌜r = Some c⌝ ∗ item t c None None
        | None => <affine> ⌜r = None⌝
        end -∗ item (Tree d (delete (find_pos s kids) kids)) l prev next -∗ Φ r) -∗
  wp full (cJSON_DetachItemFromObject (Some l) s) Φ.
Proof.
  iIntros (Hd Hlen) "Ha HΦ". iApply (wp_find with "Ha"); [done..|]. iIntros (r) "Ho". cbn [fst snd].
  iDestruct (opened_null with "Ho") as %Hnull. iDestruct (opened_close with "Ho") as "Ha"; [done|].
  destruct r as [c|].
  - iApply (detach_spec with "Ha"); [done|]. by rewrite Nat2Z.id.
  - destruct Hnull as [Hge _]. specialize (Hge eq_refl). iApply hwp_ret.
    rewrite lookup_ge_None_2 // delete_take_drop take_ge ?drop_ge ?app_nil_r; [|lia..].
    iApply ("HΦ" with "[//] Ha").
Qed.

Lemma delete_from_array_spec d kids l prev next which (Φ : unit -> hProp cell) :
  d_ref d = None ->
  item (Tree d kids) l prev next -∗
  (item (Tree d (delete (Z.to_nat which) kids)) l prev next -∗ Φ tt) -∗
  wp full (cJSON_DeleteItemFromArray (Some l) which) Φ.
Proof.
  iIntros (Hd) "Ha HΦ". iApply hwp_bind. iApply (detach_spec with "Ha"); [done|]. iIntros (r) "Hr Ha".
  destruct (kids !! Z.to_nat which).
  - iDestruct "Hr" as (c ->) "Hc". iApply (delete_item with "Hc"). by iApply "HΦ".
  - iDestruct "Hr" as %->. iApply delete_null. by iApply "HΦ".
Qed.

Lemma delete_from_object_spec d kids l prev next s (Φ : unit -> hProp cell) :
  d_ref d = None -> Z.of_nat (length kids) <= INT_MAX ->
  item (Tree d kids) l prev next -∗
  (item (Tree d (delete (find_pos s kids) kids)) l prev next -∗ Φ tt) -∗
  wp full (cJSON_DeleteItemFromObject (Some l) s) Φ.
Proof.
  iIntros (Hd Hlen) "Ha HΦ". iApply hwp_bind. iApply (detach_object_spec with "Ha"); [done..|].
  iIntros (r) "Hr Ha". destruct (kids !! find_pos s kids).
  - iDestruct "Hr" as (c ->) "Hc". iApply (delete_item with "Hc"). by iApply "HΦ".
  - iDestruct "Hr" as %->. iApply delete_null. by iApply "HΦ".
Qed.

(** The new item must not have a name: it would not be freed. *)
Lemma replace_object_spec d kids l prev next s t l2 (Φ : unit -> hProp cell) :
  d_ref d = None -> Z.of_nat (length kids) <= INT_MAX ->
  d_const (t_data t) = false -> d_name (t_data t) = None ->
  item (Tree d kids) l prev next -∗ item t l2 None None -∗
  (match kids !! find_pos s kids with
   | Some _ => ∃ o, <affine> ⌜copied s o⌝
       ∗ item (Tree d (<[find_pos s kids := with_name o false t]> kids)) l prev next
   | None => item (Tree d kids) l prev next ∗ item t l2 None None
   end -∗ Φ tt) -∗
  wp full (cJSON_ReplaceItemInObject (Some l) s (Some l2)) Φ.
Proof.
  iIntros (Hd Hlen Hc Hn) "Ha Hnew HΦ". iApply (wp_find with "Ha"); [done..|]. iIntros (r) "Ho".
  cbn [fst snd]. iDestruct (opened_null with "Ho") as %Hnull.
  iDestruct (opened_close with "Ho") as "Ha"; [done|]. destruct r as [c|].
  - assert (is_Some (kids !! find_pos s kids)) as [t' Ht'].
    { apply lookup_lt_is_Some. destruct Hnull as [_ Hnull].
      destruct (decide (find_pos s kids < length kids)%nat); [done|]. by discriminate Hnull; lia. }
    rewrite Ht'. iApply hwp_bind. iApply wp_copy. iIntros (p o Ho) "Hs".
    iApply hwp_bind. iApply (wp_set_string with "Hnew Hs"); [done..|]. iIntros "Hnew".
    iApply (replace_spec with "Ha Hnew"); [done|]. rewrite Nat2Z.id Ht'. iIntros "Ha _".
    iApply "HΦ". iExists o. by iFrame.
  - destruct Hnull as [Hge _]. specialize (Hge eq_refl). iApply hwp_ret. rewrite lookup_ge_None_2 //.
    iApply "HΦ". iFrame.
Qed.

(** ** Size and arrays of values *)

Lemma size_loop_spec fuel ts prev first last i (Φ : Z -> hProp cell) :
  (length ts <= fuel)%nat -> 0 <= i -> i + Z.of_nat (length ts) <= INT_MAX ->
  seg ts prev first last None -∗
  (seg ts prev first last None -∗ Φ (i + Z.of_nat (length ts))) -∗ wp full (size_loop fuel first i) Φ.
Proof.
  revert ts prev first i Φ. induction fuel as [|fuel IH]; intros [|t ts] prev first i Φ Hf Hi Hmax;
    cbn [seg size_loop length].
  1,3: iIntros ([-> ->]) "HΦ"; iApply hwp_ret; replace (i + Z.of_nat 0) with i by lia; by iApply "HΦ".
  { simpl in Hf. lia. }
  iIntros "(%l & %nx & -> & Ht & Hs) HΦ". iApply (wp_links with "Ht"). iIntros (n [-> _]) "Ht".
  simpl in Hf, Hmax. rewrite int32_small; [|unfold is_int, INT_MIN; lia].
  iApply (IH with "Hs"); [lia..|]. iIntros "Hs".
  replace (i + 1 + Z.of_nat (length ts)) with (i + Z.of_nat (S (length ts))) by lia.
  iApply "HΦ". iExists l, nx. by iFrame.
Qed.

Lemma get_array_size_spec d kids l prev next (Φ : Z -> hProp cell) :
  d_ref d = None -> Z.of_nat (length kids) <= INT_MAX ->
  item (Tree d kids) l prev next -∗
  (item (Tree d kids) l prev next -∗ Φ (Z.of_nat (length kids))) -∗
  wp full (cJSON_GetArraySize (Some l)) Φ.
Proof.
  iIntros (Hd Hlen) "Ha HΦ".
  iDestruct (item_eq with "Ha") as (child vs name) "(Hl & Hn & Hv & %last & Hk)"; [done|].
  iApply hwp_bind. iApply (wp_load_node with "Hl"). iIntros "Hl". cbn [n_child node_of].
  iApply hwp_bind. iApply (wp_heap_size _ (trees_size kids)). iSplit.
  { iClear "Hl Hn Hv HΦ". by iApply seg_sized. }
  iIntros (fuel Hfuel). pose proof (length_trees_size kids).
  iApply (size_loop_spec with "Hk"); [lia..|]. iIntros "Hk". iApply "HΦ". iApply item_eq; [done|].
  iExists child, vs, name. iFrame.
Qed.

(** An item under construction: [last] is its last child so far. *)
Definition building (d : data) (ts : list tree) (l : loc) (last : ptr) : hProp cell :=
  (∃ child vs name, l ↦ CNode (node_of d None None child vs name)
    ∗ name_at (d_const d) name (d_name d) ∗ str_at vs (d_vs d) ∗ seg ts None child last None)%I.

Lemma building_done d ts l last : d_ref d = None -> building d ts l last ⊢ item (Tree d ts) l None None.
Proof.
  iIntros (Hd) "(%child & %vs & %name & Hl & Hn & Hv & Hs)". iApply item_eq; [done|].
  iExists child, vs, name. iFrame.
Qed.

Lemma building_start d l : d_ref d = None -> item (Tree d []) l None None ⊢ building d [] l None.
Proof.
  iIntros (Hd) "Ht". iDestruct (item_eq with "Ht") as (child vs name) "(Hl & Hn & Hv & %last & Hk)"; [done|].
  iDestruct "Hk" as %[-> <-]. iExists None, vs, name. by iFrame.
Qed.

(** The next child is linked: to the item itself or to the child before. *)
Lemma wp_link_child (first : bool) d ts l last t c (Φ : unit -> hProp cell) :
  first = match ts with [] => true | _ => false end ->
  building d ts l last -∗ item t c None None -∗
  (building d (ts ++ [t]) l (Some c) -∗ Φ tt) -∗
  wp full (if first then update (Some l) (set_child (Some c)) else suffix_object last (Some c)) Φ.
Proof.
  iIntros (->) "(%child & %vs & %name & Hl & Hn & Hv & Hs) Ht HΦ". destruct ts as [|t' ts].
  - iDestruct "Hs" as %[-> <-]. iApply (wp_update with "Hl"). iIntros "Hl". iApply "HΦ".
    iExists (Some c), vs, name. iFrame "Hl Hn Hv". iExists c, None. by iFrame.
  - iApply hwp_bind. iApply (wp_last_next with "Hs"); [done|]. iIntros "Hs".
    iApply (wp_set_prev with "Ht"). iIntros "Ht". iApply "HΦ". iExists child, vs, name.
    iFrame "Hl Hn Hv". iApply seg_snoc. iExists c, last. by iFrame.
Qed.

Lemma create_array_spec {A} (mk : A -> cprog ptr) (f : A -> tree) xs (Φ : ptr -> hProp cell) :
  full = true ->
  (forall x (Ψ : ptr -> hProp cell),
     (∀ l, item (f x) l None None -∗ Ψ (Some l)) ⊢ wp full (mk x) Ψ) ->
  (∀ l, item (Tree (plain_data cJSON_Array) (f <$> xs)) l None None -∗ Φ (Some l)) ⊢
  wp full (create_array mk xs) Φ.
Proof.
  iIntros (Hfull Hmk) "HΦ". iApply hwp_bind.
  iApply (create_spec _ (plain_data cJSON_Array)); [done..|]. iSplit; [|by rewrite Hfull].
  iIntros (l) "Hl". iDestruct (building_start with "Hl") as "Hb"; [done|]. iApply hwp_bind.
  iAssert (∀ ts last, building (plain_data cJSON_Array) ts l last -∗
     wp full (create_loop mk xs (Some l) last (match ts with [] => true | _ => false end))
       (fun _ => item (Tree (plain_data cJSON_Array) (ts ++ (f <$> xs))) l None None))%I as "Hloop".
  { iInduction xs as [|x xs IH]; iIntros (ts last) "Hb"; cbn [create_loop fmap list_fmap].
    - iApply hwp_ret. rewrite app_nil_r. by iApply building_done.
    - iApply hwp_bind. iApply Hmk. iIntros (c) "Hc". iApply hwp_bind.
      iApply (wp_link_child with "Hb Hc"); [done|]. iIntros "Hb".
      iSpecialize ("IH" with "Hb"). rewrite -app_assoc. by destruct ts. }
  iApply (wp_wand with "[Hb Hloop]"); [by iApply ("Hloop" with "Hb")|]. iIntros ([]) "Ha".
  iApply hwp_ret. by iApply "HΦ".
Qed.

(** ** Duplication *)

(** Neither references nor literal names. *)
Fixpoint owned (t : tree) : bool :=
  let 'Tree d kids := t in
  (if d_ref d then false else true) && negb (d_const d) && forallb owned kids.

Lemma dup_copy_spec l n str (set : sptr -> node -> node) (Φ : bool -> hProp cell) :
  l ↦ CNode n -∗
  (∀ p, str_at p (Some str) -∗ l ↦ CNode (set p n) -∗ Φ true)
    ∧ (if full then True else l ↦ CNode (set SNull n) -∗ Φ false) -∗
  wp full (copy <- cJSON_strdup str ;; update (Some l) (set copy) ;;; cret (sptr_set copy)) Φ.
Proof.
  iIntros "Hl HΦ". iApply hwp_bind. iApply wp_strdup. iSplit.
  - iIntros (p) "Hp". iApply hwp_bind. iApply (wp_update with "Hl"). iIntros "Hl". iApply hwp_ret.
    iDestruct "HΦ" as "[HΦ _]". iDestruct "Hp" as (ls ->) "Hs". iApply ("HΦ" with "[Hs] Hl").
    iExists ls. by iFrame.
  - destruct full eqn:E; [done|]. iApply hwp_bind. iApply (wp_update with "Hl"). iIntros "Hl".
    iApply hwp_ret. iDestruct "HΦ" as "[_ HΦ]". by iApply "HΦ".
Qed.

Lemma dup_string_spec const l n s o (set : sptr -> node -> node) (Φ : bool -> hProp cell) :
  l ↦ CNode n -∗ name_at const s o -∗
  (name_at const s o -∗
    (∀ p, str_at p o -∗ l ↦ CNode (if o then set p n else n) -∗ Φ true)
    ∧ (if full then True else l ↦ CNode (set SNull n) -∗ Φ false)) -∗
  wp full (dup_string (Some l) s set) Φ.
Proof.
  iIntros "Hl Hs HΦ". destruct o as [str|]; cbn [name_at]; [destruct const|].
  - iDestruct "Hs" as %->. iApply hwp_bind. iApply hwp_ret. iApply (dup_copy_spec with "Hl"). by iApply "HΦ".
  - iDestruct "Hs" as (ls ->) "Hs". iApply hwp_bind. iApply hwp_bind. iApply (wp_load with "Hs").
    iIntros "Hs". iApply hwp_ret. iApply (dup_copy_spec with "Hl"). iApply "HΦ". iExists ls. by iFrame.
  - iDestruct "Hs" as %->. iApply hwp_ret. iDestruct ("HΦ" with "[//]") as "[HΦ _]".
    by iApply ("HΦ" $! SNull with "[//] Hl").
Qed.

(** The copy: the children only with [recurse]. *)
Definition copy_of (recurse : bool) (t : tree) : tree :=
  let 'Tree d kids := t in Tree d (if recurse then kids else []).

Lemma owned_type d : d_ref d = None -> d_const d = false ->
  Z.land (type_bits d) (Z.lnot cJSON_IsReference) = type_bits d.
Proof. intros Hr Hc. unfold type_bits. rewrite Hr Hc. by destruct (d_type d). Qed.

(** What the caller gets: a copy, or NULL and nothing allocated. *)
Definition dup_post (t t' : tree) l prev next (Φ : ptr -> hProp cell) : hProp cell :=
  (item t l prev next -∗
     (∀ r, item t' r None None -∗ Φ (Some r)) ∧ (if full then True else Φ None))%I.

Definition dup_ok (fuel : nat) : Prop := forall t l prev next recurse (Φ : ptr -> hProp cell),
  owned t = true -> (2 * tree_size t <= S fuel)%nat ->
  item t l prev next -∗ dup_post t (copy_of recurse t) l prev next Φ -∗
  wp full (duplicate fuel (Some l) recurse) Φ.

Definition dup_kids_ok (fuel : nat) : Prop := forall ts prev cptr last d done nl nptr (Φ : bool -> hProp cell),
  forallb owned ts = true -> d_ref d = None -> (2 * trees_size ts <= fuel)%nat ->
  nptr = None <-> done = [] ->
  seg ts prev cptr last None -∗ building d done nl nptr -∗
  (seg ts prev cptr last None -∗
     (item (Tree d (done ++ ts)) nl None None -∗ Φ true)
     ∧ (if full then True else ∀ ts', item (Tree d ts') nl None None -∗ Φ false)) -∗
  wp full (dup_children fuel (Some nl) cptr nptr) Φ.

Lemma dup_children_step fuel : dup_ok fuel -> dup_kids_ok fuel -> dup_kids_ok (S fuel).
Proof.
  intros IH1 IH2 [|t ts] prev cptr last d done nl nptr Φ Hown Hd Hf Hdone; cbn [seg dup_children].
  - iIntros ([-> <-]) "Hb HΦ". iApply hwp_ret. iDestruct ("HΦ" with "[//]") as "[HΦ _]".
    iApply "HΦ". rewrite app_nil_r. by iApply building_done.
  - cbn [forallb] in Hown. apply andb_prop in Hown as [Ho1 Ho2]. rewrite trees_size_cons in Hf.
    pose proof (tree_size_pos t).
    iIntros "(%l & %nx & -> & Ht & Hs) Hb HΦ". iApply hwp_bind.
    iApply (IH1 with "Ht"); [done|lia|]. iIntros "Ht". iSplit.
    + iIntros (r) "Hr". iApply hwp_bind.
      iAssert (wp full (match nptr with
                  | Some _ => update nptr (set_next (Some r)) ;;; update (Some r) (set_prev nptr)
                  | None => update (Some nl) (set_child (Some r))
                  end) (fun _ => building d (done ++ [t]) nl (Some r))) with "[Hb Hr]" as "Hwp".
      { iAssert (wp full (if match done with [] => true | _ => false end
                          then update (Some nl) (set_child (Some r)) else suffix_object nptr (Some r))
                   (fun _ => building d (done ++ [t]) nl (Some r))) with "[Hb Hr]" as "Hwp".
        { iApply (wp_link_child with "Hb Hr"); [done|]. destruct t as [dt kt]. by iIntros "Hb". }
        destruct nptr, done; try done; [by destruct Hdone as [_ Hx]; discriminate Hx|
          by destruct Hdone as [Hx _]; discriminate Hx]. }
      iApply (wp_wand with "Hwp"). iIntros ([]) "Hb".
      iApply (wp_links with "Ht"). iIntros (n [-> _]) "Ht".
      iApply (IH2 with "Hs Hb"); [done|done|lia|by split; destruct done|]. iIntros "Hs".
      rewrite -app_assoc. iApply "HΦ". iExists l, nx. by iFrame.
    + destruct full eqn:E; [done|]. iApply hwp_ret.
      iDestruct ("HΦ" with "[Ht Hs]") as "[_ HΦ]"; [iExists l, nx; by iFrame|].
      iApply "HΦ". by iApply building_done.
Qed.

Lemma if_full_wand (P Q : hProp cell) :
  (if full then True else P) -∗ (P -∗ Q) -∗ if full then True else Q.
Proof. destruct full; [by iIntros "_ _"|]. iIntros "HP HQ". by iApply "HQ". Qed.

(** A node of its own with the strings [p] and [q], without children. *)
Lemma new_item d l p q :
  d_ref d = None -> d_const d = false ->
  l ↦ CNode (node_of d None None None p q) -∗ str_at p (d_vs d) -∗ str_at q (d_name d) -∗
  building d [] l None.
Proof. iIntros (Hd Hc) "Hl Hp Hq". iExists None, p, q. rewrite Hc. by iFrame. Qed.

Lemma delete_new {A} d l p q (k : cprog A) (Φ : A -> hProp cell) :
  d_ref d = None -> d_const d = false ->
  l ↦ CNode (node_of d None None None p q) -∗ str_at p (d_vs d) -∗ str_at q (d_name d) -∗
  wp full k Φ -∗ wp full (cJSON_Delete (Some l) ;;; k) Φ.
Proof.
  iIntros (Hd Hc) "Hl Hp Hq HΦ". iApply hwp_bind. iApply (delete_item with "[Hl Hp Hq] HΦ").
  iApply (building_done d); [done|]. by iApply (new_item with "Hl Hp Hq").
Qed.

Lemma duplicate_step fuel : dup_kids_ok fuel -> dup_ok (S fuel).
Proof.
  intros IH [d kids] l prev next recurse Φ Hown Hf. cbn [owned] in Hown.
  apply andb_prop in Hown as [[Hr Hc]%andb_prop Hk]. apply negb_true_iff in Hc.
  assert (d_ref d = None) as Hd by by destruct (d_ref d). rewrite tree_size_eq in Hf.
  iIntros "Ht HΦ". cbn [duplicate]. iApply hwp_bind. iApply wp_malloc. iSplit; last first.
  { iDestruct ("HΦ" with "Ht") as "[_ HΦ]". destruct full; [done|]. by iApply hwp_ret. }
  iIntros (r) "Hr". iDestruct (item_eq with "Ht") as (child vs name) "(Hl & Hn & Hv & %last & Hk)"; [done|].
  iApply hwp_bind. iApply (wp_load_node with "Hl"). iIntros "Hl".
  iApply hwp_bind. iApply (wp_update with "Hr"). iIntros "Hr".
  cbn [n_valueint n_valuedouble n_type n_valuestring n_string n_child node_of].
  rewrite owned_type // Hc.
  iAssert (l ↦ CNode (node_of d prev next child vs name) -∗ name_at false name (d_name d) -∗
    str_at vs (d_vs d) -∗ seg kids None child last None -∗ item (Tree d kids) l prev next)%I as "Hback".
  { iIntros "Hl Hn Hv Hk". iApply item_eq; [done|]. iExists child, vs, name. rewrite Hc. iFrame. }
  set (d1 := Data (d_type d) None (d_vi d) (d_vd d) None false None).
  set (d2 := Data (d_type d) (d_vs d) (d_vi d) (d_vd d) None false None).
  assert (type_bits d = type_bits d1) as Hty by (unfold type_bits; by rewrite Hd Hc).
  iApply hwp_bind. iApply (dup_string_spec with "Hr Hv"). iIntros "Hv". iSplit; last first.
  { iDestruct ("HΦ" with "(Hback Hl Hn Hv Hk)") as "[_ HΦ]".
    iApply (if_full_wand with "HΦ"). iIntros "HΦ Hr".
    iApply (delete_new d1 with "[Hr] [//] [//]"); [done|done| |by iApply hwp_ret].
    rewrite Hty. iApply "Hr". }
  iIntros (p) "Hp Hr".
  iAssert (r ↦ CNode (node_of d2 None None None p SNull) ∗ str_at p (d_vs d))%I with "[Hp Hr]" as "[Hr Hp]".
  { rewrite Hty. destruct (d_vs d) eqn:E; [iFrame|iDestruct "Hp" as %->; by iFrame]. }
  iApply hwp_bind. iApply (dup_string_spec with "Hr Hn"). iIntros "Hn". iSplit; last first.
  { iDestruct ("HΦ" with "(Hback Hl Hn Hv Hk)") as "[_ HΦ]".
    iApply (if_full_wand with "HΦ"). iIntros "HΦ Hr".
    iApply (delete_new d2 with "[Hr] Hp [//]"); [done..|by iApply hwp_ret]. }
  iIntros (q) "Hq Hr". cbn [negb].
  iAssert (building d [] r None) with "[Hp Hq Hr]" as "Hb".
  { iAssert (r ↦ CNode (node_of d None None None p q) ∗ str_at q (d_name d))%I with "[Hq Hr]" as "[Hr Hq]".
    - unfold node_of. rewrite Hty. destruct (d_name d) eqn:E; [iFrame|iDestruct "Hq" as %->; by iFrame].
    - by iApply (new_item with "Hr Hp Hq"). }
  destruct recurse; cbn [negb copy_of].
  - iApply hwp_bind. iApply (IH with "Hk Hb"); [done|done|lia|done|]. iIntros "Hk".
    iDestruct ("HΦ" with "(Hback Hl Hn Hv Hk)") as "HΦ". iSplit.
    + iIntros "Hr". iApply hwp_ret. iDestruct "HΦ" as "[HΦ _]". by iApply "HΦ".
    + iDestruct "HΦ" as "[_ HΦ]". iApply (if_full_wand with "HΦ"). iIntros "HΦ" (ts') "Hr". cbn [negb].
      iApply hwp_bind. iApply (delete_item with "Hr"). by iApply hwp_ret.
  - iApply hwp_ret. iDestruct ("HΦ" with "(Hback Hl Hn Hv Hk)") as "[HΦ _]". iApply "HΦ".
    by iApply building_done.
Qed.

Lemma duplicate_ok fuel : dup_ok fuel /\ dup_kids_ok fuel.
Proof.
  induction fuel as [|fuel [IH1 IH2]].
  - split.
    + intros t l prev next recurse Φ _ Hf. pose proof (tree_size_pos t). lia.
    + intros [|t ts] prev cptr last d done nl nptr Φ _ Hd Hf _;
        [|rewrite trees_size_cons in Hf; pose proof (tree_size_pos t); lia].
      cbn [seg dup_children]. iIntros ([-> <-]) "Hb HΦ". iApply hwp_ret.
      iDestruct ("HΦ" with "[//]") as "[HΦ _]". iApply "HΦ". rewrite app_nil_r. by iApply building_done.
  - split; [by apply duplicate_step|by apply dup_children_step].
Qed.

Lemma duplicate_spec t l prev next recurse (Φ : ptr -> hProp cell) :
  owned t = true ->
  item t l prev next -∗ dup_post t (copy_of recurse t) l prev next Φ -∗
  wp full (cJSON_Duplicate (Some l) recurse) Φ.
Proof.
  iIntros (Hown) "Ht HΦ". iApply hwp_bind. iApply (wp_heap_size _ (tree_size t)). iSplit.
  - iClear "HΦ". by iApply item_sized.
  - iIntros (n Hn). destruct (duplicate_ok (2 * n)) as [Hdup _].
    iApply (Hdup with "Ht HΦ"); [done|lia].
Qed.
End Specs.

(** ** The operations on arrays and objects as operations on lists *)

Definition insert_at (i : nat) (t : tree) (kids : list tree) : list tree := take i kids ++ t :: drop i kids.

(** What the caller gets: the item taken out, or NULL. *)
Definition handed_over (o : option tree) (r : ptr) : hProp cell :=
  match o with
  | Some t => (∃ c, <affine> ⌜r = Some c⌝ ∗ item t c None None)%I
  | None => (<affine> ⌜r = None⌝)%I
  end.

(** C23: the operations on an array are those on the list of its children,
    whatever [malloc] answers: adding appends, inserting at a position puts the
    item there (at the end when the position is beyond it), replacing
    exchanges one child and frees the old one, detaching takes a child out and
    hands it over, deleting frees it, and [cJSON_Delete] frees the whole item.
    Links, order and ownership are exact: nothing is lost, shared or freed twice.
    A negative position counts as 0. *)
Theorem array_operations full d kids t l l2 prev next which :
  d_ref d = None ->
  let array (ks : list tree) := item (Tree d ks) l prev next in
  let new := item t l2 None None in
  let i := Z.to_nat which in
  (array kids ∗ new ⊢ wp full (cJSON_AddItemToArray (Some l) (Some l2)) (fun _ => array (kids ++ [t])))
  /\ (array kids ∗ new ⊢ wp full (cJSON_InsertItemInArray (Some l) which (Some l2))
        (fun _ => array (insert_at i t kids)))
  /\ (array kids ∗ new ⊢ wp full (cJSON_ReplaceItemInArray (Some l) which (Some l2))
        (fun _ => array (<[i := t]> kids) ∗ if kids !! i then emp else new)%I)
  /\ (array kids ⊢ wp full (cJSON_DetachItemFromArray (Some l) which)
        (fun r => array (delete i kids) ∗ handed_over (kids !! i) r)%I)
  /\ (array kids ⊢ wp full (cJSON_DeleteItemFromArray (Some l) which) (fun _ => array (delete i kids)))
  /\ (item (Tree d kids) l prev None ⊢ wp full (cJSON_Delete (Some l)) (fun _ => emp)%I).
Proof.
  intros Hd array new i. unfold array, new. repeat split_and.
  - iIntros "[Ha Hn]". iApply (add_to_array with "Ha Hn"); [done|]. by iIntros "$".
  - iIntros "[Ha Hn]". iApply (insert_spec with "Ha Hn"); [done|]. by iIntros "$".
  - iIntros "[Ha Hn]". iApply (replace_spec with "Ha Hn"); [done|]. iIntros "$ Hn".
    fold i.
    destruct (kids !! i); by iIntros.
  - iIntros "Ha". iApply (detach_spec with "Ha"); [done|]. by iIntros (r) "$ $".
  - iIntros "Ha". iApply (delete_from_array_spec with "Ha"); [done|]. by iIntros "$".
  - apply delete_owned.
Qed.

Lemma array_operations_witness :
  let d := plain_data cJSON_Array in
  let one := Tree (plain_data cJSON_True) [] in let two := Tree (plain_data cJSON_NULL) [] in
  item (Tree d [one; one]) 1%positive None None ∗ item two 2%positive None None ⊢
  wp false (cJSON_InsertItemInArray (Some 1%positive) 1 (Some 2%positive))
    (fun _ => item (Tree d [one; two; one]) 1%positive None None).
Proof.
  intros d one two.
  exact (proj1 (proj2 (array_operations false d [one; one] two 1%positive 2%positive None None 1 eq_refl))).
Defined.



(** Samples for the witnesses. *)
Definition sample_leaf : tree := Tree (plain_data cJSON_NULL) [].
Definition sample_object : tree :=
  Tree (plain_data cJSON_Object)
    [with_name (Some "a") false sample_leaf; with_name (Some "b") false sample_leaf].



(** ** Defects *)

(** The programs below start from empty memory. *)
Definition outcome_of {A} (x : cprog A) (ans : list bool) : option (A * nat) :=
  match x (Mem ∅ ans) with Some (a, m) => Some (a, size (m_heap m)) | None => None end.

(** An item added under a literal name and moved to another object:
    [cJSON_AddItemToObject] frees the literal. *)
Definition move_literal : cprog unit :=
  o <- cJSON_CreateObject ;; i <- cJSON_CreateNull ;;
  cJSON_AddItemToObjectCS o "a" i ;;;
  d <- cJSON_DetachItemFromObject o "a" ;;
  cJSON_AddItemToObject o "b" d.

(** A copy of an item with a literal name: the copied name is never freed. *)
Definition copy_literal : cprog unit :=
  o <- cJSON_CreateObject ;; i <- cJSON_CreateNull ;;
  cJSON_AddItemToObjectCS o "a" i ;;;
  c <- cJSON_Duplicate o true ;; cJSON_Delete c ;;; cJSON_Delete o.

(** Replacing by an item that had a name: the old name is never freed. *)
Definition replace_named : cprog unit :=
  o <- cJSON_CreateObject ;; i <- cJSON_CreateNull ;; cJSON_AddItemToObject o "a" i ;;;
  i <- cJSON_CreateNull ;; cJSON_AddItemToObject o "b" i ;;;
  d <- cJSON_DetachItemFromObject o "b" ;;
  cJSON_ReplaceItemInObject o "a" d ;;; cJSON_Delete o.

Example cjson_memory_defects :
  outcome_of move_literal [] = None
  /\ outcome_of copy_literal [] = Some (tt, 1%nat)
  /\ outcome_of replace_named [] = Some (tt, 1%nat)
  /\ outcome_of (cJSON_CreateIntArray [1; 2]) [true; true; false] = None.
Proof. repeat split_and; vm_compute; reflexivity. Qed.
