(* ===== verification/CJsonParse.v ===== *)
(** * The JSON parser in memory

    The parser of cJSON.c with its nodes: every item is allocated and linked
    before its text is read, and a failure leaves a half-built structure that
    [cJSON_ParseWithOpts] deletes.  The texts are read as in CJson.v; here is
    the rest: which nodes there are, who owns them, and what happens when
    [malloc] fails.  A failure carries the error pointer [ep], when it was set.

    The theorems say that the structure built is the tree of CJson.v, that a
    failure leaves no memory behind, and that with memory enough the two agree. *)

From S2P Require Import Prelude CLib Float64 CJson CHeap CJsonHeap CJsonOwn.
From iris.proofmode Require Import proofmode.
#[local] Open Scope Z_scope.

(** The rest of the text, or NULL with the error pointer. *)
Inductive parse_end := PRest (rest : string) | PNull (ep : option string).

(** [parse_string (item, str)] *)
Definition parse_string (item : ptr) (str : string) : cprog parse_end :=
  match str with
  | String c text =>
      if negb (Ascii.eqb c DQUOTE) then cret (PNull (Some str))
      else match string_len text 0 with
      | None => cundef
      | Some len =>
          out <- malloc (CStr EmptyString) ;;
          match out with
          | None => cret (PNull None)
          | Some l =>
              match unescape (S (String.length text)) text with
              | POk s rest =>
                  if (len <? String.length s)%nat then cundef
                  else
                    store out (CStr (cstr s)) ;;;
                    update item (set_valuestring (SHeap l)) ;;;
                    update item (set_type (tag cJSON_String)) ;;;
                    cret (PRest (if head_is DQUOTE rest then sdrop 1 rest else rest))
              | _ => cundef
              end
          end
      end
  | EmptyString => cret (PNull (Some str))
  end.

(** [parse_number (item, num)] *)
Definition parse_number (item : ptr) (num : string) : cprog parse_end :=
  match CJson.parse_number CJson.cJSON_New_Item num with
  | POk it rest =>
      update item (fun n => set_type (tag cJSON_Number) (set_number (j_valueint it) (j_valuedouble it) n)) ;;;
      cret (PRest rest)
  | _ => cundef
  end.

Fixpoint parse_value (fuel : nat) (item : ptr) (value : string) : cprog parse_end :=
  match fuel with
  | O => cundef
  | S fuel =>
      if String.prefix "null" value then
        update item (set_type (tag cJSON_NULL)) ;;; cret (PRest (sdrop 4 value))
      else if String.prefix "false" value then
        update item (set_type (tag cJSON_False)) ;;; cret (PRest (sdrop 5 value))
      else if String.prefix "true" value then
        update item (fun n => set_number 1 (n_valuedouble n) (set_type (tag cJSON_True) n)) ;;;
        cret (PRest (sdrop 4 value))
      else if head_is DQUOTE value then parse_string item value
      else if head_is "-" value || head_digit value then parse_number item value
      else if head_is "[" value then
        (* parse_array *)
        update item (set_type (tag cJSON_Array)) ;;;
        let value := skip (sdrop 1 value) in
        if head_is "]" value then cret (PRest (sdrop 1 value)) else
        child <- cJSON_New_Item ;;
        update item (set_child child) ;;;
        match child with
        | None => cret (PNull None)
        | Some _ => parse_elements fuel child value
        end
      else if head_is "{" value then
        (* parse_object *)
        update item (set_type (tag cJSON_Object)) ;;;
        let value := skip (sdrop 1 value) in
        if head_is "}" value then cret (PRest (sdrop 1 value)) else
        child <- cJSON_New_Item ;;
        update item (set_child child) ;;;
        match child with
        | None => cret (PNull None)
        | Some _ => parse_members fuel child value
        end
      else cret (PNull (Some value))
  end
(** The elements of an array from the empty item [child] on. *)
with parse_elements (fuel : nat) (child : ptr) (value : string) : cprog parse_end :=
  match fuel with
  | O => cundef
  | S fuel =>
      r <- parse_value fuel child (skip value) ;;
      match r with
      | PNull ep => cret (PNull ep)
      | PRest rest =>
          let rest := skip rest in
          if head_is "," rest then
            new_item <- cJSON_New_Item ;;
            match new_item with
            | None => cret (PNull None)
            | Some _ =>
                update child (set_next new_item) ;;; update new_item (set_prev child) ;;;
                parse_elements fuel new_item (sdrop 1 rest)
            end
          else if head_is "]" rest then cret (PRest (sdrop 1 rest))
          else cret (PNull (Some rest))
      end
  end
(** The members of an object from the empty item [child] on. *)
with parse_members (fuel : nat) (child : ptr) (value : string) : cprog parse_end :=
  match fuel with
  | O => cundef
  | S fuel =>
      r <- parse_string child (skip value) ;;
      match r with
      | PNull ep => cret (PNull ep)
      | PRest rest =>
          let rest := skip rest in
          update child (fun n => set_valuestring SNull (set_string (n_valuestring n) n)) ;;;
          if negb (head_is ":" rest) then cret (PNull (Some rest)) else
          r <- parse_value fuel child (skip (sdrop 1 rest)) ;;
          match r with
          | PNull ep => cret (PNull ep)
          | PRest rest =>
              let rest := skip rest in
              if head_is "," rest then
                new_item <- cJSON_New_Item ;;
                match new_item with
                | None => cret (PNull None)
                | Some _ =>
                    update child (set_next new_item) ;;; update new_item (set_prev child) ;;;
                    parse_members fuel new_item (sdrop 1 rest)
                end
              else if head_is "}" rest then cret (PRest (sdrop 1 rest))
              else cret (PNull (Some rest))
          end
      end
  end.

(** The root and where parsing ended; [None] is a NULL result with [ep]. *)
Definition cJSON_ParseWithOpts (value : string) (require_null_terminated : bool)
    : cprog (ptr * parse_end) :=
  c <- cJSON_New_Item ;;
  match c with
  | None => cret (None, PNull None)
  | Some _ =>
      r <- parse_value (json_fuel value) c (skip value) ;;
      match r with
      | PNull ep => cJSON_Delete c ;;; cret (None, PNull ep)
      | PRest rest =>
          if require_null_terminated then
            let rest := skip rest in
            if streq rest EmptyString then cret (c, PRest rest)
            else cJSON_Delete c ;;; cret (None, PNull (Some rest))
          else cret (c, PRest rest)
      end
  end.
Definition cJSON_Parse (value : string) : cprog (ptr * parse_end) := cJSON_ParseWithOpts value false.

(** ** The trees of CJson.v *)

(** A tree without references and literal names. *)
Fixpoint of_cJSON (c : cJSON) : tree :=
  Tree (Data (j_type c) (j_valuestring c) (j_valueint c) (j_valuedouble c) (j_string c) false None)
       (of_cJSON <$> j_child c).

Definition data_of (c : cJSON) : data :=
  Data (j_type c) (j_valuestring c) (j_valueint c) (j_valuedouble c) (j_string c) false None.

Lemma of_cJSON_eq c : of_cJSON c = Tree (data_of c) (of_cJSON <$> j_child c).
Proof. by destruct c. Qed.

(** An item that has no value yet. *)
Definition is_fresh (c : cJSON) : Prop := j_valuestring c = None /\ j_child c = [].

Section Specs.
Context (full : bool).

(** An item without value in memory. *)
Definition fresh_at (c : cJSON) (l : loc) (prev : ptr) : hProp cell :=
  (∃ name, l ↦ CNode (node_of (data_of c) prev None None SNull name) ∗ str_at name (j_string c))%I.

Lemma fresh_item c l prev :
  is_fresh c -> item (of_cJSON c) l prev None ⊣⊢ fresh_at c l prev.
Proof.
  intros [Hv Hk]. rewrite of_cJSON_eq item_eq // Hk /= Hv. iSplit.
  - iIntros "(%child & %vs & %name & Hl & Hn & -> & %last & Hs)". iDestruct "Hs" as %[-> _].
    iExists name. iFrame.
  - iIntros "(%name & Hl & Hn)". iExists None, SNull, name. iFrame "Hl Hn". iSplit; [done|]. by iExists None.
Qed.

Lemma wp_update_fresh c c' l prev f (Φ : unit -> hProp cell) :
  is_fresh c -> is_fresh c' -> j_string c' = j_string c ->
  (forall name, f (node_of (data_of c) prev None None SNull name)
     = node_of (data_of c') prev None None SNull name) ->
  item (of_cJSON c) l prev None -∗ (item (of_cJSON c') l prev None -∗ Φ tt) -∗
  wp full (update (Some l) f) Φ.
Proof.
  intros Hc Hc' Hs Hf. rewrite !fresh_item // /fresh_at Hs. iIntros "(%name & Hl & Hn) HΦ".
  iApply (wp_update with "Hl"). rewrite Hf. iIntros "Hl". iApply "HΦ". iExists name. iFrame.
Qed.

(** What parsing [res] of CJson.v is in memory: the same rest and [own] of the
    result, or NULL and some [part] of a structure. *)
Definition outcome {A} (res : presult A) (own : A -> hProp cell) (part : hProp cell) (r : parse_end)
    : hProp cell :=
  match r with
  | PRest rest => ∃ a, <affine> ⌜res = POk a rest⌝ ∗ own a
  | PNull _ => <affine> ⌜full = true -> res = PErr⌝ ∗ part
  end%I.

(** No undefined behaviour on the texts. *)
Definition defined {A} (res : presult A) : Prop := res <> PUndef /\ res <> PFuel.

Definition some_item (l : loc) (prev : ptr) : hProp cell := (∃ t, item t l prev None)%I.
Definition some_seg (l : loc) (prev : ptr) : hProp cell :=
  (∃ ts last, seg ts prev (Some l) last None)%I.
Definition item_at (l : loc) (prev : ptr) (c : cJSON) : hProp cell := item (of_cJSON c) l prev None.
Definition seg_at (l : loc) (prev : ptr) (cs : list cJSON) : hProp cell :=
  (∃ last, seg (of_cJSON <$> cs) prev (Some l) last None)%I.

Lemma unescape_err fuel text : unescape fuel text <> PErr.
Proof.
  revert text. induction fuel as [|fuel IH]; intros text; [done|]. cbn [unescape].
  assert (forall text (f : string -> string -> presult string),
            (forall s r, f s r <> PErr) -> pbind (unescape fuel text) f <> PErr) as Hb.
  { intros t f Hf. specialize (IH t). destruct (unescape fuel t); [apply Hf|done..]. }
  repeat (case_match; try done); by apply Hb.
Qed.

Lemma parse_string_spec c l prev v (Φ : parse_end -> hProp cell) :
  is_fresh c -> defined (CJson.parse_string c v) ->
  item_at l prev c -∗
  (∀ r, outcome (CJson.parse_string c v) (item_at l prev) (item_at l prev c) r -∗ Φ r) -∗
  wp full (parse_string (Some l) v) Φ.
Proof.
  intros Hc Hdef. unfold parse_string, CJson.parse_string, defined in *.
  iIntros "Hi HΦ". destruct v as [|a text]; [iApply hwp_ret; iApply "HΦ"; by iFrame|].
  destruct (negb (Ascii.eqb a DQUOTE)); [iApply hwp_ret; iApply "HΦ"; by iFrame|].
  destruct (string_len text 0) as [len|]; [|by destruct Hdef].
  pose proof (unescape_err (S (String.length text)) text) as Herr.
  destruct (unescape (S (String.length text)) text) as [s rest| | |]; cbn [pbind] in *;
    [|done|by destruct Hdef|by destruct Hdef].
  destruct (len <? String.length s)%nat; [by destruct Hdef|].
  iApply hwp_bind. iApply wp_malloc. iSplit.
  - iIntros (out) "Hout". iApply hwp_bind. iApply (wp_store with "Hout"). iIntros "Hout".
    iDestruct (fresh_item with "Hi") as (name) "[Hl Hn]"; [done|].
    iApply hwp_bind. iApply (wp_update with "Hl"). iIntros "Hl".
    iApply hwp_bind. iApply (wp_update with "Hl"). iIntros "Hl". iApply hwp_ret. iApply "HΦ".
    iExists _. iSplit; [done|]. unfold item_at. rewrite of_cJSON_eq item_eq //=.
    destruct Hc as [_ ->]. iExists None, (SHeap out), name. iFrame "Hl Hn".
    iSplitL "Hout"; [iExists out; by iFrame|by iExists None].
  - destruct full eqn:E; [done|]. iApply hwp_ret. iApply "HΦ". iSplit; [|by iFrame].
    iPureIntro. congruence.
Qed.

Lemma parse_number_any num :
  exists z d rest, forall item, CJson.parse_number item num
    = POk (Item cJSON_Number (j_valuestring item) z d (j_string item) (j_child item)) rest.
Proof. unfold CJson.parse_number. repeat case_match; do 3 eexists; intros; reflexivity. Qed.

Lemma parse_number_spec c l prev v (Φ : parse_end -> hProp cell) :
  is_fresh c ->
  item_at l prev c -∗
  (∀ r, outcome (CJson.parse_number c v) (item_at l prev) (some_item l prev) r -∗ Φ r) -∗
  wp full (parse_number (Some l) v) Φ.
Proof.
  intros Hc. unfold parse_number. iIntros "Hi HΦ".
  destruct (parse_number_any v) as (z & d & rest & Hnum). rewrite !Hnum. iApply hwp_bind.
  iApply (wp_update_fresh _ (Item cJSON_Number (j_valuestring c) z d (j_string c) (j_child c)) with "Hi");
    [done..|].
  iIntros "Hi". iApply hwp_ret. iApply "HΦ". iExists _. by iFrame.
Qed.

Lemma defined_bind {A B} (res : presult A) (f : A -> string -> presult B) :
  defined (pbind res f) -> defined res.
Proof. unfold defined. intros [H1 H2]. destruct res; by split. Qed.

Lemma new_item_spec (Φ : ptr -> hProp cell) :
  (∀ l, item_at l None CJson.cJSON_New_Item -∗ Φ (Some l)) ∧ (if full then True else Φ None) ⊢
  wp full cJSON_New_Item Φ.
Proof.
  iIntros "HΦ". iApply wp_malloc. iSplit; [|by iDestruct "HΦ" as "[_ HΦ]"].
  iIntros (l) "Hl". iDestruct "HΦ" as "[HΦ _]". iApply "HΦ". iApply fresh_item; [done|].
  iExists SNull. by iFrame.
Qed.

Lemma seg_cons t ts l prev nx last :
  item t l prev nx -∗ seg ts (Some l) nx last None -∗ seg (t :: ts) prev (Some l) last None.
Proof. iIntros "Ht Hs". iExists l, nx. by iFrame. Qed.

(** An array or an object: the first child is allocated and [k] parses from it. *)
Lemma container_spec ty c l prev res (k : ptr -> cprog parse_end) (Φ : parse_end -> hProp cell) :
  is_fresh c ->
  (forall lc (Ψ : parse_end -> hProp cell), item_at lc None CJson.cJSON_New_Item -∗
     (∀ r, outcome res (seg_at lc None) (some_seg lc None) r -∗ Ψ r) -∗ wp full (k (Some lc)) Ψ) ->
  item_at l prev (CJson.set_type ty c) -∗
  (∀ r, outcome (pbind res (fun cs rest => POk (CJson.set_child cs (CJson.set_type ty c)) rest))
          (item_at l prev) (some_item l prev) r -∗ Φ r) -∗
  wp full
    (child <- cJSON_New_Item ;; update (Some l) (set_child child) ;;;
     match child with None => cret (PNull None) | Some _ => k child end) Φ.
Proof.
  intros Hc Hk. assert (is_fresh (CJson.set_type ty c)) as Hc1 by by destruct Hc.
  iIntros "Hi HΦ". iDestruct (fresh_item with "Hi") as (name) "[Hl Hn]"; [done|].
  iApply hwp_bind. iApply new_item_spec. iSplit.
  - iIntros (lc) "Hc". iApply hwp_bind. iApply (wp_update with "Hl"). iIntros "Hl".
    iApply (Hk with "Hc"). iIntros ([rest|ep]) "Hr".
    + iDestruct "Hr" as (cs ->) "[%last Hs]". iApply "HΦ". iExists _. iSplit; [done|].
      unfold item_at. rewrite of_cJSON_eq item_eq //=. destruct Hc as [Hv _].
      iExists (Some lc), SNull, name. iFrame "Hl Hn". rewrite Hv. iSplit; [done|]. by iExists last.
    + iDestruct "Hr" as "(%Hr & %ts & %last & Hs)". iApply "HΦ". iSplit.
      { iPureIntro. intros Hf. by rewrite (Hr Hf). }
      iExists (Tree (data_of (CJson.set_type ty c)) ts). rewrite item_eq //=. destruct Hc as [Hv _].
      iExists (Some lc), SNull, name. iFrame "Hl Hn". rewrite Hv. iSplit; [done|]. by iExists last.
  - destruct full eqn:E; [done|]. iApply hwp_bind. iApply (wp_update with "Hl"). iIntros "Hl".
    iApply hwp_ret. iApply "HΦ". iSplit; [iPureIntro; congruence|].
    iExists _. iApply (fresh_item _ _ _ Hc1). iExists name. iFrame.
Qed.

Definition value_ok (fuel : nat) : Prop := forall c l prev v (Φ : parse_end -> hProp cell),
  is_fresh c -> defined (CJson.parse_value fuel c v) ->
  item_at l prev c -∗
  (∀ r, outcome (CJson.parse_value fuel c v) (item_at l prev) (some_item l prev) r -∗ Φ r) -∗
  wp full (parse_value fuel (Some l) v) Φ.

Definition chain_ok (pure : string -> presult (list cJSON)) (prog : ptr -> string -> cprog parse_end) : Prop :=
  forall l prev v (Φ : parse_end -> hProp cell),
  defined (pure v) ->
  item_at l prev CJson.cJSON_New_Item -∗
  (∀ r, outcome (pure v) (seg_at l prev) (some_seg l prev) r -∗ Φ r) -∗
  wp full (prog (Some l) v) Φ.

Lemma parse_value_step fuel :
  chain_ok (CJson.parse_elements fuel) (parse_elements fuel) ->
  chain_ok (CJson.parse_members fuel) (parse_members fuel) -> value_ok (S fuel).
Proof.
  intros IHe IHm c l prev v Φ Hc Hdef. cbn [CJson.parse_value parse_value] in *.
  assert (forall t, is_fresh (CJson.set_type t c)) as Hset by by destruct Hc.
  iIntros "Hi HΦ".
  destruct (String.prefix "null" v); [|destruct (String.prefix "false" v);
    [|destruct (String.prefix "true" v)]].
  1-3: iApply hwp_bind; iApply (wp_update_fresh with "Hi"); [done| | | |iIntros "Hi"; iApply hwp_ret;
       iApply "HΦ"; iExists _; iSplit; [done|iApply "Hi"]]; [by destruct Hc|done|done].
  destruct (head_is DQUOTE v).
  { iApply (parse_string_spec with "Hi"); [done..|]. iIntros (r) "Hr". iApply "HΦ".
    destruct r; [done|]. iDestruct "Hr" as "[$ Hr]". by iExists _. }
  destruct (head_is "-" v || head_digit v); [by iApply (parse_number_spec with "Hi")|].
  destruct (head_is "[" v); [|destruct (head_is "{" v)].
  - iApply hwp_bind. iApply (wp_update_fresh _ (CJson.set_type cJSON_Array c) with "Hi"); [done..|]. iIntros "Hi".
    destruct (head_is "]" _); [iApply hwp_ret; iApply "HΦ"; iExists _; by iFrame|].
    iApply (container_spec cJSON_Array with "Hi HΦ"); [done|]. intros lc Ψ. apply IHe.
    by eapply defined_bind.
  - iApply hwp_bind. iApply (wp_update_fresh _ (CJson.set_type cJSON_Object c) with "Hi"); [done..|]. iIntros "Hi".
    destruct (head_is "}" _); [iApply hwp_ret; iApply "HΦ"; iExists _; by iFrame|].
    iApply (container_spec cJSON_Object with "Hi HΦ"); [done|]. intros lc Ψ. apply IHm.
    by eapply defined_bind.
  - iApply hwp_ret. iApply "HΦ". iSplit; [done|]. by iExists _.
Qed.

(** After a value: the next element, the end, or an error. *)
Lemma chain_tail close c l prev rest (pure : string -> presult (list cJSON))
    (prog : ptr -> string -> cprog parse_end) (Φ : parse_end -> hProp cell) :
  chain_ok pure prog ->
  let next := if head_is "," rest then pbind (pure (sdrop 1 rest)) (fun cs r => POk (c :: cs) r)
              else if head_is close rest then POk [c] (sdrop 1 rest) else PErr in
  defined next ->
  item_at l prev c -∗
  (∀ r, outcome next (seg_at l prev) (some_seg l prev) r -∗ Φ r) -∗
  wp full
    (if head_is "," rest then
       new_item <- cJSON_New_Item ;;
       match new_item with
       | None => cret (PNull None)
       | Some _ =>
           update (Some l) (set_next new_item) ;;; update new_item (set_prev (Some l)) ;;;
           prog new_item (sdrop 1 rest)
       end
     else if head_is close rest then cret (PRest (sdrop 1 rest))
     else cret (PNull (Some rest))) Φ.
Proof.
  intros Hok next Hdef. subst next. iIntros "Hi HΦ". destruct (head_is "," rest).
  - iApply hwp_bind. iApply new_item_spec. iSplit.
    + iIntros (ln) "Hn". iApply hwp_bind. iApply (wp_set_next with "Hi"). iIntros "Hi".
      iApply hwp_bind. iApply (wp_set_prev with "Hn"). iIntros "Hn".
      iApply (Hok with "Hn"); [by eapply defined_bind|]. iIntros ([r|ep]) "Hr"; iApply "HΦ".
      * iDestruct "Hr" as (cs ->) "[%last Hs]". iExists (c :: cs). iSplit; [done|]. iExists last.
        cbn [fmap list_fmap]. iApply (seg_cons with "Hi Hs").
      * iDestruct "Hr" as "(%Hr & %ts & %last & Hs)". iSplit; [iPureIntro; intros Hf; by rewrite (Hr Hf)|].
        iExists (of_cJSON c :: ts), last. iApply (seg_cons with "Hi Hs").
    + destruct full eqn:E; [done|]. iApply hwp_ret. iApply "HΦ". iSplit; [iPureIntro; congruence|].
      iExists [of_cJSON c], (Some l). by iApply (seg_cons with "Hi").
  - destruct (head_is close rest); iApply hwp_ret; iApply "HΦ".
    + iExists [c]. iSplit; [done|]. iExists (Some l). by iApply (seg_cons with "Hi").
    + iSplit; [done|]. iExists [of_cJSON c], (Some l). by iApply (seg_cons with "Hi").
Qed.

Lemma parse_elements_step fuel :
  value_ok fuel -> chain_ok (CJson.parse_elements fuel) (parse_elements fuel) ->
  chain_ok (CJson.parse_elements (S fuel)) (parse_elements (S fuel)).
Proof.
  intros IHv IHe l prev v Φ Hdef. cbn [CJson.parse_elements parse_elements] in *.
  iIntros "Hi HΦ". iApply hwp_bind. iApply (IHv with "Hi"); [done|by eapply defined_bind|].
  iIntros ([rest|ep]) "Hr".
  - iDestruct "Hr" as (c Hc) "Hi". rewrite Hc in Hdef |- *. cbn [pbind] in *.
    iApply (chain_tail with "Hi HΦ"); done.
  - iDestruct "Hr" as "(%Hr & %t & Hi)". iApply hwp_ret. iApply "HΦ".
    iSplit; [iPureIntro; intros Hf; by rewrite (Hr Hf)|]. iExists [t], (Some l). by iApply (seg_cons with "Hi").
Qed.

Lemma parse_string_keeps it v key rest :
  CJson.parse_string it v = POk key rest -> j_string key = j_string it /\ j_child key = j_child it.
Proof.
  unfold CJson.parse_string. destruct v as [|a text]; [done|]. destruct (negb _); [done|].
  destruct (string_len text 0) as [len|]; [|done].
  destruct (unescape _ text); cbn [pbind]; [|done..]. destruct (len <? _)%nat; [done|]. by intros [= <- _].
Qed.

Lemma parse_members_step fuel :
  value_ok fuel -> chain_ok (CJson.parse_members fuel) (parse_members fuel) ->
  chain_ok (CJson.parse_members (S fuel)) (parse_members (S fuel)).
Proof.
  intros IHv IHm l prev v Φ Hdef. cbn [CJson.parse_members parse_members] in *.
  iIntros "Hi HΦ". iApply hwp_bind. iApply (parse_string_spec with "Hi"); [done|by eapply defined_bind|].
  iIntros ([rest|ep]) "Hr"; last first.
  { iDestruct "Hr" as "[%Hr Hi]". iApply hwp_ret. iApply "HΦ".
    iSplit; [iPureIntro; intros Hf; by rewrite (Hr Hf)|].
    iExists [_], (Some l). by iApply (seg_cons with "Hi"). }
  iDestruct "Hr" as (key Hkey) "Hi". rewrite Hkey in Hdef |- *. cbn [pbind] in *.
  destruct (parse_string_keeps _ _ _ _ Hkey) as [Hs Hk].
  set (child := Item (j_type key) None (j_valueint key) (j_valuedouble key) (j_valuestring key) (j_child key)) in *.
  iAssert (∃ vs, l ↦ CNode (node_of (data_of key) prev None None vs SNull) ∗ str_at vs (j_valuestring key))%I
    with "[Hi]" as (vs) "[Hl Hv]".
  { unfold item_at. rewrite of_cJSON_eq item_eq //= Hk Hs.
    iDestruct "Hi" as (ch vs name) "(Hl & -> & Hv & %last & Hs)". iDestruct "Hs" as %[-> _].
    iExists vs. by iFrame. }
  iApply hwp_bind. iApply (wp_update with "Hl"). iIntros "Hl".
  iAssert (item_at l prev child) with "[Hl Hv]" as "Hi".
  { iApply fresh_item; [by split|]. iExists vs. iFrame. }
  destruct (negb (head_is ":" (skip rest))).
  { iApply hwp_ret. iApply "HΦ". iSplit; [done|]. iExists [_], (Some l). by iApply (seg_cons with "Hi"). }
  iApply hwp_bind. iApply (IHv with "Hi"); [done|by eapply defined_bind|]. iIntros ([rest2|ep]) "Hr".
  - iDestruct "Hr" as (c Hc) "Hi". rewrite Hc in Hdef |- *. cbn [pbind] in *.
    iApply (chain_tail with "Hi HΦ"); done.
  - iDestruct "Hr" as "(%Hr & %t & Hi)". iApply hwp_ret. iApply "HΦ".
    iSplit; [iPureIntro; intros Hf; by rewrite (Hr Hf)|]. iExists [t], (Some l). by iApply (seg_cons with "Hi").
Qed.

Lemma parsers_ok fuel :
  value_ok fuel /\ chain_ok (CJson.parse_elements fuel) (parse_elements fuel)
  /\ chain_ok (CJson.parse_members fuel) (parse_members fuel).
Proof.
  induction fuel as [|fuel (IHv & IHe & IHm)].
  - repeat split; repeat intro; by match goal with H : defined _ |- _ => destruct H end.
  - split; [|split]; [by apply parse_value_step|by apply parse_elements_step|by apply parse_members_step].
Qed.

(** A root with the tree of CJson.v, or NULL and nothing allocated. *)
Definition root_post (res : presult cJSON) (r : ptr * parse_end) : hProp cell :=
  match r with
  | (Some l, PRest rest) => ∃ c, <affine> ⌜res = POk c rest⌝ ∗ item (of_cJSON c) l None None
  | (None, PNull _) => <affine> ⌜full = true -> res = PErr⌝
  | _ => False
  end%I.

Lemma parse_opts_spec value req (Φ : ptr * parse_end -> hProp cell) :
  defined (CJson.cJSON_ParseWithOpts value req) ->
  (∀ r, root_post (CJson.cJSON_ParseWithOpts value req) r -∗ Φ r) ⊢
  wp full (cJSON_ParseWithOpts value req) Φ.
Proof.
  intros Hdef. unfold CJson.cJSON_ParseWithOpts in *. iIntros "HΦ".
  iApply hwp_bind. iApply new_item_spec. iSplit.
  - iIntros (l) "Hi". iApply hwp_bind. destruct (parsers_ok (json_fuel value)) as [Hok _].
    iApply (Hok with "Hi"); [done|by eapply defined_bind|]. iIntros ([rest|ep]) "Hr".
    + iDestruct "Hr" as (c Hc) "Hi". rewrite Hc in Hdef |- *. cbn [pbind] in *.
      destruct req; [destruct (streq (skip rest) EmptyString)|].
      * iApply hwp_ret. iApply "HΦ". iExists c. by iFrame.
      * iApply hwp_bind. iApply (delete_item with "Hi"). iApply hwp_ret. by iApply "HΦ".
      * iApply hwp_ret. iApply "HΦ". iExists c. by iFrame.
    + iDestruct "Hr" as "(%Hr & %t & Hi)". iApply hwp_bind. iApply (delete_item with "Hi"). iApply hwp_ret.
      iApply "HΦ". iPureIntro. intros Hf. by rewrite (Hr Hf).
  - destruct full eqn:E; [done|]. iApply hwp_ret. iApply "HΦ". iPureIntro. congruence.
Qed.
End Specs.

(** ** Runs *)

(** [Some l]: the root and the memory it owns; NULL: the memory is empty again. *)
Definition parsed_memory (res : presult cJSON) (r : ptr * parse_end) (m : mem cell) : Prop :=
  match r with
  | (Some l, PRest rest) =>
      exists c, res = POk c rest /\ hProp_at (item (of_cJSON c) l None None) (m_heap m)
        /\ exists ans, cJSON_Delete (Some l) m = Some (tt, Mem ∅ ans)
  | (None, PNull _) => m_heap m = ∅
  | _ => False
  end.


(** A small text, with memory for two allocations. *)
Definition sample_text : string := "{" +:+ quoted "a" +:+ ":[1,true]}".


(** With memory enough the text is parsed, with less it is not, and nothing is
    left allocated. *)
Example parse_sample :
  (exists l h, cJSON_Parse sample_text (Mem ∅ []) = Some ((Some l, PRest EmptyString), Mem h [])
     /\ size h = 5%nat)
  /\ cJSON_Parse sample_text (Mem ∅ [true; true; false]) = Some ((None, PNull None), Mem ∅ []).
Proof. split; [do 2 eexists; split; vm_compute; reflexivity|vm_compute; reflexivity]. Qed.
