(* ===== verification/CJsonPrint.v ===== *)
(** * The printer of cJSON on cells (src/src/common/cJSON.c)

    [cJSON_Print] and [cJSON_PrintUnformatted] without a print buffer: every
    part of the text is a string of its own, collected in arrays of pointers,
    copied into the text of the whole and freed.  Any allocation may fail; then
    all parts are freed and the result is NULL.  CJson.v says which text is
    printed and CJsonBuffer.v that the lengths that are added up suffice; here
    the tree, the parts and the arrays are in memory, with the lengths as
    [int]s, and a write past an allocated text or array is undefined.

    The main theorem: the tree is unchanged, the result is the text of CJson.v
    or NULL because an allocation failed, and nothing else is left allocated. *)

From S2P Require Import Prelude CLib Float64 CJson CJsonRound CJsonBuffer CHeap CJsonHeap CJsonOwn CJsonParse.
From iris.proofmode Require Import proofmode.
From Stdlib Require Import Floats.SpecFloat.
#[local] Close Scope buf_scope.
#[local] Open Scope cheap_scope.
#[local] Open Scope Z_scope.

(** ** Texts and arrays of texts *)

(** [malloc (size)] for a text; the [int] is converted to an unsigned size, so a
    negative one is a size that no system has. *)
Definition text_malloc (size : Z) : cprog ptr :=
  if size <? 0 then cret None else malloc (CStr EmptyString).

(** Writing [s] at the end of the text in a block of [size] bytes; there must be
    room for the terminator too. *)
Definition append (out : ptr) (size : Z) (s : string) : cprog unit :=
  c <- load out ;;
  match c with
  | CStr t => if slen t + slen s + 1 <=? size then store out (CStr (t +:+ s)) else cundef
  | _ => cundef
  end.

(** A text of which the length is known in advance. *)
Definition new_text (size : Z) (text : string) : cprog sptr :=
  out <- text_malloc size ;;
  match out with
  | Some l => append out size text ;;; cret (SHeap l)
  | None => cret SNull
  end.

(** [malloc (n * sizeof (char* ))] and [memset (..., 0, ...)]. *)
Definition ptrs_malloc (n : Z) : cprog ptr := malloc (CPtrs (replicate (Z.to_nat n) SNull)).

Definition get_entry (entries : ptr) (i : nat) : cprog sptr :=
  c <- load entries ;;
  match c with
  | CPtrs l => match l !! i with Some s => cret s | None => cundef end
  | _ => cundef
  end.

Definition set_entry (entries : ptr) (i : nat) (s : sptr) : cprog unit :=
  c <- load entries ;;
  match c with
  | CPtrs l => if (i <? length l)%nat then store entries (CPtrs (<[i := s]> l)) else cundef
  | _ => cundef
  end.

(** [if (p) cJSON_free (p)] *)
Definition free_set (s : sptr) : cprog unit := if sptr_set s then free_str s else cret tt.

(** ** Numbers and strings *)

Definition number_item (n : node) : cJSON :=
  Item cJSON_Number None (n_valueint n) (n_valuedouble n) None [].

(** A NaN is not modelled. *)
Definition print_number (n : node) : cprog sptr :=
  match CJson.print_number (number_item n) with
  | Some s => new_text (number_room (number_item n)) s
  | None => cundef
  end.

Definition print_string_ptr (str : sptr) : cprog sptr :=
  str <- read_str str ;;
  if sforall (fun c => negb (needs_escape c)) str
  then new_text (int32 (slen str + 3)) (quoted str)
  else new_text (int32 (escape_len str + 3)) (quoted (escape str)).

(** ** Arrays *)

(** [for (i = 0; i < numentries; i++) if (entries[i]) cJSON_free (entries[i]);],
    the last [k] rounds. *)
Fixpoint free_entries (k : nat) (entries : ptr) (i : nat) : cprog unit :=
  match k with
  | O => cret tt
  | S k => s <- get_entry entries i ;; free_set s ;;; free_entries k entries (S i)
  end.

Definition separator (fmt : bool) : string := if fmt then ", " else ",".

(** The loop that composes the text of an array, its last [k] rounds. *)
Fixpoint compose_array (k : nat) (out : ptr) (len : Z) (entries : ptr) (i : nat) (fmt : bool) : cprog unit :=
  match k with
  | O => cret tt
  | S k =>
      s <- get_entry entries i ;;
      text <- read_str s ;;
      append out len text ;;;
      (match k with O => cret tt | _ => append out len (separator fmt) end) ;;;
      free_str s ;;;
      compose_array k out len entries (S i) fmt
  end.

(** From [if (!fail) out = malloc (len)] on. *)
Definition finish_array (entries : ptr) (numentries len : Z) (fail fmt : bool) : cprog sptr :=
  out <- (if fail then cret None else text_malloc len) ;;
  match out with
  | None =>
      free_entries (Z.to_nat numentries) entries 0 ;;;
      free entries ;;; cret SNull
  | Some o =>
      append out len "[" ;;;
      compose_array (Z.to_nat numentries) out len entries 0 fmt ;;;
      free entries ;;;
      append out len "]" ;;;
      cret (SHeap o)
  end.

(** ** Objects *)

Fixpoint free_members (k : nat) (names entries : ptr) (i : nat) : cprog unit :=
  match k with
  | O => cret tt
  | S k =>
      s <- get_entry names i ;; free_set s ;;;
      s <- get_entry entries i ;; free_set s ;;;
      free_members k names entries (S i)
  end.

(** One round of the loop that composes the text of an object, with
    [name] for [names[i]] and [entry] for [entries[i]]. *)
Definition compose_member (out : ptr) (len : Z) (name entry : sptr) (depth : nat) (fmt last : bool)
    : cprog unit :=
  (if fmt then append out len (tabs depth) else cret tt) ;;;
  text <- read_str name ;; append out len text ;;;
  append out len (if fmt then String ":" (String TAB EmptyString) else ":") ;;;
  text <- read_str entry ;; append out len text ;;;
  (if negb last then append out len "," else cret tt) ;;;
  (if fmt then append out len nl_text else cret tt) ;;;
  free_str name ;;; free_str entry.

Fixpoint compose_object (k : nat) (out : ptr) (len : Z) (names entries : ptr) (i depth : nat) (fmt : bool)
    : cprog unit :=
  match k with
  | O => cret tt
  | S k =>
      name <- get_entry names i ;;
      entry <- get_entry entries i ;;
      compose_member out len name entry depth fmt (match k with O => true | _ => false end) ;;;
      compose_object k out len names entries (S i) depth fmt
  end.

(** [depth] is the one after [depth++]. *)
Definition finish_object (names entries : ptr) (numentries len : Z) (fail : bool) (depth : nat) (fmt : bool)
    : cprog sptr :=
  out <- (if fail then cret None else text_malloc len) ;;
  match out with
  | None =>
      free_members (Z.to_nat numentries) names entries 0 ;;;
      free names ;;; free entries ;;; cret SNull
  | Some o =>
      append out len (if fmt then String "{" nl_text else "{") ;;;
      compose_object (Z.to_nat numentries) out len names entries 0 depth fmt ;;;
      free names ;;; free entries ;;;
      (if fmt then append out len (tabs (depth - 1)) else cret tt) ;;;
      append out len "}" ;;;
      cret (SHeap o)
  end.

(** ** Values *)

Fixpoint print_value (fuel : nat) (item : ptr) (depth : nat) (fmt : bool) : cprog sptr :=
  match fuel, item with
  | _, None => cret SNull
  | O, Some _ => cundef
  | S fuel, Some _ =>
      n <- load_node item ;;
      let t := Z.land (n_type n) 255 in
      if t =? tag cJSON_NULL then cJSON_strdup "null"
      else if t =? tag cJSON_False then cJSON_strdup "false"
      else if t =? tag cJSON_True then cJSON_strdup "true"
      else if t =? tag cJSON_Number then print_number n
      else if t =? tag cJSON_String then print_string_ptr (n_valuestring n)
      else if t =? tag cJSON_Array then
        cells <- heap_size ;;
        numentries <- size_loop cells (n_child n) 0 ;;
        if numentries =? 0 then new_text 3 "[]" else
        entries <- ptrs_malloc numentries ;;
        match entries with
        | None => cret SNull
        | Some _ =>
            r <- print_entries fuel (n_child n) entries 0 5 depth fmt ;;
            finish_array entries numentries (fst r) (snd r) fmt
        end
      else if t =? tag cJSON_Object then
        cells <- heap_size ;;
        numentries <- size_loop cells (n_child n) 0 ;;
        if numentries =? 0 then
          new_text (if fmt then int32 (Z.of_nat depth + 4) else 3)
            (if fmt then String "{" (nl_text +:+ tabs (depth - 1) +:+ "}") else "{}")
        else
        entries <- ptrs_malloc numentries ;;
        match entries with
        | None => cret SNull
        | Some _ =>
            names <- ptrs_malloc numentries ;;
            match names with
            | None => free entries ;;; cret SNull
            | Some _ =>
                r <- print_members fuel (n_child n) names entries 0
                       (if fmt then int32 (7 + Z.of_nat (S depth)) else 7) (S depth) fmt false ;;
                finish_object names entries numentries (fst r) (snd r) (S depth) fmt
            end
        end
      else cret SNull
  end
(** [while (child && !fail)]: the length and the flag after the loop. *)
with print_entries (fuel : nat) (child entries : ptr) (i : nat) (len : Z) (depth : nat) (fmt : bool)
    : cprog (Z * bool) :=
  match fuel, child with
  | _, None => cret (len, false)
  | O, Some _ => cundef
  | S fuel, Some _ =>
      ret <- print_value fuel child (S depth) fmt ;;
      set_entry entries i ret ;;;
      if sptr_set ret then
        text <- read_str ret ;;
        n <- load_node child ;;
        print_entries fuel (n_next n) entries (S i)
          (int32 (len + (slen text + 2 + (if fmt then 1 else 0)))) depth fmt
      else cret (len, true)
  end
(** [while (child)]: it goes on after a failure. *)
with print_members (fuel : nat) (child names entries : ptr) (i : nat) (len : Z) (depth : nat) (fmt fail : bool)
    : cprog (Z * bool) :=
  match fuel, child with
  | _, None => cret (len, fail)
  | O, Some _ => cundef
  | S fuel, Some _ =>
      n <- load_node child ;;
      str <- print_string_ptr (n_string n) ;;
      set_entry names i str ;;;
      ret <- print_value fuel child depth fmt ;;
      set_entry entries i ret ;;;
      let ok := sptr_set str && sptr_set ret in
      len <- (if ok then
                rtext <- read_str ret ;; stext <- read_str str ;;
                cret (int32 (len + (slen rtext + slen stext + 2 + (if fmt then 2 + Z.of_nat depth else 0))))
              else cret len) ;;
      n <- load_node child ;;
      print_members fuel (n_next n) names entries (S i) len depth fmt (fail || negb ok)
  end.

Definition cJSON_Print (item : ptr) : cprog sptr := fuel <- heap_size ;; print_value (2 * fuel) item 0 true.
Definition cJSON_PrintUnformatted (item : ptr) : cprog sptr :=
  fuel <- heap_size ;; print_value (2 * fuel) item 0 false.

(** ** Lengths *)

(** The lengths added up for [item] and for its parts are [int]s. *)
Fixpoint print_fits (item : cJSON) (depth : nat) (fmt : bool) : bool :=
  match print_alloc item depth fmt with
  | Some n => n <=? INT_MAX
  | None => false
  end
  && match j_type item with
     | cJSON_Array | cJSON_Object => forallb (fun c => print_fits c (S depth) fmt) (j_child item)
     | _ => true
     end.

(** ** Specifications *)

(** Texts in the order of an array, as the loops put them together. *)
Fixpoint join_entries (fmt : bool) (l : list string) : string :=
  match l with
  | [] => EmptyString
  | s :: l =>
      s +:+ match l with [] => EmptyString | _ => separator fmt +:+ join_entries fmt l end
  end.

Fixpoint join_members (depth : nat) (fmt : bool) (l : list (string * string)) : string :=
  match l with
  | [] => EmptyString
  | (name, s) :: l =>
      (if fmt then tabs depth else EmptyString) +:+ name +:+ ":"
      +:+ (if fmt then String TAB EmptyString else EmptyString) +:+ s
      +:+ (match l with [] => EmptyString | _ => "," end)
      +:+ (if fmt then nl_text else EmptyString) +:+ join_members depth fmt l
  end.

(** Arithmetic on lengths of texts. *)
Ltac name_slen x :=
  let n := fresh "n" in let H := fresh "Hn" in
  pose proof (slen_nonneg x) as H; set (n := slen x) in *; clearbody n.
Ltac text_lia :=
  repeat match goal with
  | |- context [slen (?a +:+ ?b)] => rewrite (slen_app a b)
  | H : context [slen (?a +:+ ?b)] |- _ => rewrite (slen_app a b) in H
  end;
  repeat match goal with
  | |- context [slen ?x] => name_slen x
  | H : context [slen ?x] |- _ => name_slen x
  end; lia.

Section Specs.
Context (full : bool).

Lemma wp_text_malloc size (Φ : ptr -> hProp cell) :
  0 <= size ->
  (∀ l, l ↦ CStr EmptyString -∗ Φ (Some l)) ∧ (if full then True else Φ None) ⊢
  wp full (text_malloc size) Φ.
Proof.
  intros Hs. unfold text_malloc. destruct (Z.ltb_spec size 0); [lia|]. apply wp_malloc.
Qed.

Lemma wp_append l size t s (Φ : unit -> hProp cell) :
  slen t + slen s + 1 <= size ->
  l ↦ CStr t -∗ (l ↦ CStr (t +:+ s) -∗ Φ tt) -∗ wp full (append (Some l) size s) Φ.
Proof.
  iIntros (Hs) "Hl HΦ". iApply hwp_bind. iApply (wp_load with "Hl"). iIntros "Hl".
  destruct (Z.leb_spec (slen t + slen s + 1) size); [|lia]. by iApply (wp_store with "Hl").
Qed.

(** A new text, or NULL for want of memory. *)
Definition text_or_null (s : string) (Φ : sptr -> hProp cell) : hProp cell :=
  ((∀ r, str_at r (Some s) -∗ Φ r) ∧ (if full then True else Φ SNull))%I.

Lemma wp_new_text size s (Φ : sptr -> hProp cell) :
  slen s + 1 <= size -> text_or_null s Φ ⊢ wp full (new_text size s) Φ.
Proof.
  iIntros (Hs) "HΦ". pose proof (slen_nonneg s). iApply hwp_bind. iApply wp_text_malloc; [lia|]. iSplit.
  - iIntros (l) "Hl". iApply hwp_bind. iApply (wp_append with "Hl"); [rewrite slen_nil; lia|]. iIntros "Hl".
    iApply hwp_ret. iDestruct "HΦ" as "[HΦ _]". iApply "HΦ". iExists l. by iFrame.
  - iDestruct "HΦ" as "[_ HΦ]". destruct full; [done|]. by iApply hwp_ret.
Qed.

Lemma wp_read_text r s (Φ : string -> hProp cell) :
  str_at r (Some s) -∗ (str_at r (Some s) -∗ Φ s) -∗ wp full (read_str r) Φ.
Proof.
  iIntros "(%l & -> & Hl) HΦ". iApply hwp_bind. iApply (wp_load with "Hl"). iIntros "Hl".
  iApply hwp_ret. iApply "HΦ". iExists l. by iFrame.
Qed.

Lemma wp_free_text r s (Φ : unit -> hProp cell) :
  str_at r (Some s) -∗ Φ tt -∗ wp full (free_str r) Φ.
Proof. iIntros "(%l & -> & Hl) HΦ". by iApply (wp_free with "Hl"). Qed.

Lemma wp_free_set r o (Φ : unit -> hProp cell) : str_at r o -∗ Φ tt -∗ wp full (free_set r) Φ.
Proof. apply wp_free_str. Qed.

Lemma text_set r s : str_at r (Some s) ⊢ ⌜sptr_set r = true⌝.
Proof. by iIntros "(%l & -> & _)". Qed.

Lemma wp_get_entry e L i s (Φ : sptr -> hProp cell) :
  L !! i = Some s -> e ↦ CPtrs L -∗ (e ↦ CPtrs L -∗ Φ s) -∗ wp full (get_entry (Some e) i) Φ.
Proof.
  iIntros (Hi) "He HΦ". iApply hwp_bind. iApply (wp_load with "He"). iIntros "He". rewrite Hi.
  iApply hwp_ret. by iApply "HΦ".
Qed.

Lemma wp_set_entry e L i s (Φ : unit -> hProp cell) :
  (i < length L)%nat -> e ↦ CPtrs L -∗ (e ↦ CPtrs (<[i := s]> L) -∗ Φ tt) -∗
  wp full (set_entry (Some e) i s) Φ.
Proof.
  iIntros (Hi) "He HΦ". iApply hwp_bind. iApply (wp_load with "He"). iIntros "He".
  destruct (Nat.ltb_spec i (length L)); [|lia]. by iApply (wp_store with "He").
Qed.

(** *** Freeing and composing the parts: [L1] are the entries already done *)

Lemma lookup_mid (L1 : list sptr) s L : (L1 ++ s :: L) !! length L1 = Some s.
Proof. by rewrite list_lookup_middle. Qed.

Lemma shift_mid (L1 : list sptr) s L : L1 ++ s :: L = (L1 ++ [s]) ++ L.
Proof. by rewrite -app_assoc. Qed.

Lemma length_snoc (L1 : list sptr) s : S (length L1) = length (L1 ++ [s]).
Proof. rewrite length_app /=. lia. Qed.

Lemma free_entries_spec L1 L texts e (Φ : unit -> hProp cell) :
  e ↦ CPtrs (L1 ++ L) -∗ ([∗ list] p;o ∈ L;texts, str_at p o) -∗
  (e ↦ CPtrs (L1 ++ L) -∗ Φ tt) -∗
  wp full (free_entries (length L) (Some e) (length L1)) Φ.
Proof.
  revert L1 texts Φ. induction L as [|s L IH]; intros L1 texts Φ; iIntros "He HL HΦ"; cbn [length free_entries].
  - iDestruct (big_sepL2_nil_inv_l with "HL") as %->. iApply hwp_ret. by iApply "HΦ".
  - iDestruct (big_sepL2_cons_inv_l with "HL") as (o texts') "(-> & Hs & HL)".
    iApply hwp_bind. iApply (wp_get_entry with "He"); [apply lookup_mid|]. iIntros "He".
    iApply hwp_bind. iApply (wp_free_set with "Hs"). rewrite shift_mid (length_snoc L1 s).
    iApply (IH with "He HL HΦ").
Qed.

Lemma compose_array_spec fmt len strs L1 L e o t (Φ : unit -> hProp cell) :
  slen t + slen (join_entries fmt strs) + 1 <= len ->
  e ↦ CPtrs (L1 ++ L) -∗ ([∗ list] p;s ∈ L;strs, str_at p (Some s)) -∗ o ↦ CStr t -∗
  (e ↦ CPtrs (L1 ++ L) -∗ o ↦ CStr (t +:+ join_entries fmt strs) -∗ Φ tt) -∗
  wp full (compose_array (length L) (Some o) len (Some e) (length L1) fmt) Φ.
Proof.
  revert L1 strs t Φ. induction L as [|p L IH]; intros L1 strs t Φ Hlen; iIntros "He HL Ho HΦ".
  - iDestruct (big_sepL2_nil_inv_l with "HL") as %->. iApply hwp_ret. iApply ("HΦ" with "He").
    cbn [join_entries]. by rewrite string_app_nil_r.
  - iDestruct (big_sepL2_cons_inv_l with "HL") as (s strs') "(-> & Hs & HL)".
    iDestruct (big_sepL2_length with "HL") as %Hl.
    cbn [join_entries length compose_array] in *. rewrite slen_app in Hlen.
    iApply hwp_bind. iApply (wp_get_entry with "He"); [apply lookup_mid|]. iIntros "He".
    iApply hwp_bind. iApply (wp_read_text with "Hs"). iIntros "Hs".
    iApply hwp_bind. iApply (wp_append with "Ho"); [text_lia|].
    iIntros "Ho". iApply hwp_bind.
    destruct L as [|p' L], strs' as [|s' strs']; try done; cbn [length].
    + iApply hwp_ret. iApply hwp_bind. iApply (wp_free_text with "Hs"). iApply hwp_ret.
      iDestruct "HL" as "_". iApply ("HΦ" with "He"). by rewrite string_app_nil_r.
    + change (s' +:+ _) with (join_entries fmt (s' :: strs')) in *.
      iApply (wp_append with "Ho"); [text_lia|].
      iIntros "Ho". iApply hwp_bind. iApply (wp_free_text with "Hs").
      change (S (length L)) with (length (p' :: L)). rewrite shift_mid (length_snoc L1 p).
      iApply (IH with "He HL Ho"); [text_lia|].
      iIntros "He Ho". iApply ("HΦ" with "He"). by rewrite -!string_app_assoc.
Qed.

Lemma free_members_spec N1 N names L1 L texts nm e (Φ : unit -> hProp cell) :
  length N1 = length L1 -> length N = length L ->
  nm ↦ CPtrs (N1 ++ N) -∗ ([∗ list] p;o ∈ N;names, str_at p o) -∗
  e ↦ CPtrs (L1 ++ L) -∗ ([∗ list] p;o ∈ L;texts, str_at p o) -∗
  (nm ↦ CPtrs (N1 ++ N) -∗ e ↦ CPtrs (L1 ++ L) -∗ Φ tt) -∗
  wp full (free_members (length L) (Some nm) (Some e) (length L1)) Φ.
Proof.
  revert N1 names L1 L texts Φ. induction N as [|n N IH]; intros N1 names L1 [|s L] texts Φ H1 HL;
    try done; iIntros "Hn HN He HL HΦ"; cbn [length free_members].
  - iDestruct (big_sepL2_nil_inv_l with "HL") as %->. iDestruct (big_sepL2_nil_inv_l with "HN") as %->.
    iApply hwp_ret. by iApply ("HΦ" with "Hn").
  - iDestruct (big_sepL2_cons_inv_l with "HL") as (o texts') "(-> & Hs & HL)".
    iDestruct (big_sepL2_cons_inv_l with "HN") as (o' names') "(-> & Ht & HN)".
    iApply hwp_bind. rewrite -{1}H1. iApply (wp_get_entry with "Hn"); [apply lookup_mid|]. iIntros "Hn".
    iApply hwp_bind. iApply (wp_free_set with "Ht").
    iApply hwp_bind. iApply (wp_get_entry with "He"); [apply lookup_mid|]. iIntros "He".
    iApply hwp_bind. iApply (wp_free_set with "Hs").
    rewrite (shift_mid L1) (shift_mid N1) (length_snoc L1 s).
    iApply (IH with "Hn HN He HL HΦ"); [rewrite !length_app /= H1; done|simpl in HL; lia].
Qed.

Lemma wp_append_if (b : bool) l size t s (Φ : unit -> hProp cell) :
  slen t + slen (if b then s else EmptyString) + 1 <= size ->
  l ↦ CStr t -∗ (l ↦ CStr (t +:+ (if b then s else EmptyString)) -∗ Φ tt) -∗
  wp full (if b then append (Some l) size s else cret tt) Φ.
Proof.
  iIntros (Hs) "Hl HΦ". destruct b; [by iApply (wp_append with "Hl")|].
  iApply hwp_ret. iApply "HΦ". by rewrite string_app_nil_r.
Qed.

(** One member: the line and its parts. *)
Definition member_text (depth : nat) (fmt last : bool) (m : string * string) : string :=
  (if fmt then tabs depth else EmptyString) +:+ fst m
  +:+ (if fmt then String ":" (String TAB EmptyString) else ":") +:+ snd m
  +:+ (if negb last then "," else EmptyString) +:+ (if fmt then nl_text else EmptyString).

Lemma join_members_cons depth fmt m l :
  join_members depth fmt (m :: l)
  = member_text depth fmt (match l with [] => true | _ => false end) m +:+ join_members depth fmt l.
Proof.
  destruct m as [name s]. unfold member_text. cbn [join_members fst snd].
  rewrite -!string_app_assoc. by destruct fmt, l.
Qed.

Lemma compose_member_spec fmt depth len last m name entry o t (Φ : unit -> hProp cell) :
  slen t + slen (member_text depth fmt last m) + 1 <= len ->
  str_at name (Some (fst m)) -∗ str_at entry (Some (snd m)) -∗ o ↦ CStr t -∗
  (o ↦ CStr (t +:+ member_text depth fmt last m) -∗ Φ tt) -∗
  wp full (compose_member (Some o) len name entry depth fmt last) Φ.
Proof.
  unfold member_text. iIntros (Hlen) "Hn Hs Ho HΦ".
  iApply hwp_bind. iApply (wp_append_if with "Ho"); [text_lia|]. iIntros "Ho".
  iApply hwp_bind. iApply (wp_read_text with "Hn"). iIntros "Hn".
  iApply hwp_bind. iApply (wp_append with "Ho"); [text_lia|]. iIntros "Ho".
  iApply hwp_bind. iApply (wp_append with "Ho"); [text_lia|]. iIntros "Ho".
  iApply hwp_bind. iApply (wp_read_text with "Hs"). iIntros "Hs".
  iApply hwp_bind. iApply (wp_append with "Ho"); [text_lia|]. iIntros "Ho".
  iApply hwp_bind. iApply (wp_append_if with "Ho"); [text_lia|]. iIntros "Ho".
  iApply hwp_bind. iApply (wp_append_if with "Ho"); [text_lia|]. iIntros "Ho".
  iApply hwp_bind. iApply (wp_free_text with "Hn"). iApply (wp_free_text with "Hs").
  iApply "HΦ". by rewrite -!string_app_assoc.
Qed.

Lemma compose_object_spec fmt depth len members N1 N L1 L nm e o t (Φ : unit -> hProp cell) :
  length N1 = length L1 ->
  slen t + slen (join_members depth fmt members) + 1 <= len ->
  nm ↦ CPtrs (N1 ++ N) -∗ ([∗ list] p;m ∈ N;members, str_at p (Some (fst m))) -∗
  e ↦ CPtrs (L1 ++ L) -∗ ([∗ list] p;m ∈ L;members, str_at p (Some (snd m))) -∗ o ↦ CStr t -∗
  (nm ↦ CPtrs (N1 ++ N) -∗ e ↦ CPtrs (L1 ++ L) -∗ o ↦ CStr (t +:+ join_members depth fmt members) -∗ Φ tt) -∗
  wp full (compose_object (length L) (Some o) len (Some nm) (Some e) (length L1) depth fmt) Φ.
Proof.
  revert N1 N L1 members t Φ. induction L as [|p L IH]; intros N1 N L1 members t Φ H1 Hlen;
    iIntros "Hn HN He HL Ho HΦ".
  - iDestruct (big_sepL2_nil_inv_l with "HL") as %->. iDestruct (big_sepL2_nil_inv_r with "HN") as %->.
    iApply hwp_ret. iApply ("HΦ" with "Hn He"). cbn [join_members]. by rewrite string_app_nil_r.
  - iDestruct (big_sepL2_cons_inv_l with "HL") as (m members') "(-> & Hs & HL)".
    iDestruct (big_sepL2_cons_inv_r with "HN") as (q N') "(-> & Ht & HN)".
    iDestruct (big_sepL2_length with "HL") as %HlenL.
    cbn [length compose_object]. rewrite join_members_cons in Hlen.
    iApply hwp_bind. rewrite -{1}H1. iApply (wp_get_entry with "Hn"); [apply lookup_mid|]. iIntros "Hn".
    iApply hwp_bind. iApply (wp_get_entry with "He"); [apply lookup_mid|]. iIntros "He".
    replace (match length L with O => true | _ => false end)
      with (match members' with [] => true | _ => false end) by (by destruct L, members').
    iApply hwp_bind. iApply (compose_member_spec with "Ht Hs Ho"); [text_lia|]. iIntros "Ho".
    rewrite (shift_mid L1) (shift_mid N1) (length_snoc L1 p).
    iApply (IH with "Hn HN He HL Ho"); [rewrite !length_app /= H1; done|text_lia|].
    iIntros "Hn He Ho". iApply ("HΦ" with "Hn He"). by rewrite join_members_cons -string_app_assoc.
Qed.

(** *** The ends of the two functions *)

(** An array of texts, [None] for NULL. *)
Definition texts_at (e : loc) (texts : list (option string)) : hProp cell :=
  (∃ L, e ↦ CPtrs L ∗ [∗ list] p;o ∈ L;texts, str_at p o)%I.

Lemma texts_at_some e strs :
  texts_at e (Some <$> strs) ⊣⊢ ∃ L, e ↦ CPtrs L ∗ [∗ list] p;s ∈ L;strs, str_at p (Some s).
Proof. unfold texts_at. by setoid_rewrite big_sepL2_fmap_r. Qed.

Lemma array_cleanup e texts (Φ : sptr -> hProp cell) :
  texts_at e texts -∗ Φ SNull -∗
  wp full (free_entries (length texts) (Some e) 0 ;;; free (Some e) ;;; cret SNull) Φ.
Proof.
  iIntros "(%L & He & HL) HΦ". iDestruct (big_sepL2_length with "HL") as %<-.
  iApply hwp_bind. iApply (free_entries_spec [] with "He HL"). iIntros "He".
  iApply hwp_bind. iApply (wp_free with "He"). by iApply hwp_ret.
Qed.

Lemma finish_array_fail e n len fmt texts (Φ : sptr -> hProp cell) :
  n = Z.of_nat (length texts) ->
  texts_at e texts -∗ Φ SNull -∗ wp full (finish_array (Some e) n len true fmt) Φ.
Proof.
  iIntros (->) "Ht HΦ". iApply hwp_bind. iApply hwp_ret. rewrite Nat2Z.id. by iApply (array_cleanup with "Ht").
Qed.

Lemma finish_array_spec e n len fmt strs (Φ : sptr -> hProp cell) :
  n = Z.of_nat (length strs) -> slen (join_entries fmt strs) + 3 <= len ->
  texts_at e (Some <$> strs) -∗ text_or_null ("[" +:+ join_entries fmt strs +:+ "]") Φ -∗
  wp full (finish_array (Some e) n len false fmt) Φ.
Proof.
  iIntros (-> Hlen) "Ht HΦ". iApply hwp_bind. iApply wp_text_malloc; [text_lia|]. iSplit.
  - iIntros (o) "Ho". rewrite texts_at_some. iDestruct "Ht" as (L) "[He HL]".
    iDestruct (big_sepL2_length with "HL") as %Hl. rewrite Nat2Z.id -Hl.
    iApply hwp_bind. iApply (wp_append with "Ho"); [change (slen "[") with 1; rewrite slen_nil; text_lia|].
    iIntros "Ho". iApply hwp_bind.
    iApply (compose_array_spec _ _ _ [] with "He HL Ho"); [change (slen (_ +:+ "[")) with 1; text_lia|].
    iIntros "He Ho". iApply hwp_bind. iApply (wp_free with "He"). iApply hwp_bind.
    iApply (wp_append with "Ho"); [rewrite slen_app; change (slen (_ +:+ "[")) with 1; change (slen "]") with 1; lia|].
    iIntros "Ho". iApply hwp_ret. iDestruct "HΦ" as "[HΦ _]". iApply "HΦ". iExists o. iSplit; [done|].
    by rewrite string_app_nil_l -string_app_assoc.
  - iDestruct "HΦ" as "[_ HΦ]". iApply (if_full_wand with "HΦ"). iIntros "HΦ". rewrite Nat2Z.id.
    rewrite -(length_fmap Some strs). by iApply (array_cleanup with "Ht").
Qed.

Lemma object_cleanup nm e names texts (Φ : sptr -> hProp cell) :
  length names = length texts ->
  texts_at nm names -∗ texts_at e texts -∗ Φ SNull -∗
  wp full (free_members (length texts) (Some nm) (Some e) 0 ;;;
           free (Some nm) ;;; free (Some e) ;;; cret SNull) Φ.
Proof.
  iIntros (Hlen) "(%N & Hn & HN) (%L & He & HL) HΦ".
  iDestruct (big_sepL2_length with "HL") as %Hl. iDestruct (big_sepL2_length with "HN") as %Hn. rewrite -Hl.
  iApply hwp_bind. iApply (free_members_spec [] _ _ [] with "Hn HN He HL"); [done|lia|]. iIntros "Hn He".
  iApply hwp_bind. iApply (wp_free with "Hn"). iApply hwp_bind. iApply (wp_free with "He"). by iApply hwp_ret.
Qed.

Lemma finish_object_fail nm e n len depth fmt names texts (Φ : sptr -> hProp cell) :
  n = Z.of_nat (length texts) -> length names = length texts ->
  texts_at nm names -∗ texts_at e texts -∗ Φ SNull -∗
  wp full (finish_object (Some nm) (Some e) n len true depth fmt) Φ.
Proof.
  iIntros (-> Hlen) "Hn Ht HΦ". iApply hwp_bind. iApply hwp_ret. rewrite Nat2Z.id.
  by iApply (object_cleanup with "Hn Ht").
Qed.

(** The text of an object with members. *)
Definition object_text (depth : nat) (fmt : bool) (body : string) : string :=
  "{" +:+ (if fmt then nl_text else EmptyString) +:+ body
  +:+ (if fmt then tabs depth else EmptyString) +:+ "}".

Lemma finish_object_spec nm e n len depth fmt members (Φ : sptr -> hProp cell) :
  n = Z.of_nat (length members) ->
  slen (object_text depth fmt (join_members (S depth) fmt members)) + 1 <= len ->
  texts_at nm (Some <$> (fst <$> members)) -∗ texts_at e (Some <$> (snd <$> members)) -∗
  text_or_null (object_text depth fmt (join_members (S depth) fmt members)) Φ -∗
  wp full (finish_object (Some nm) (Some e) n len false (S depth) fmt) Φ.
Proof.
  iIntros (-> Hlen) "Hn Ht HΦ". iApply hwp_bind. iApply wp_text_malloc; [text_lia|]. unfold object_text in *. iSplit.
  - iIntros (o) "Ho". rewrite !texts_at_some. iDestruct "Hn" as (N) "[Hn HN]". iDestruct "Ht" as (L) "[He HL]".
    rewrite !big_sepL2_fmap_r.
    iDestruct (big_sepL2_length with "HL") as %Hl. rewrite Nat2Z.id -Hl.
    replace (if fmt then String "{" nl_text else "{") with ("{" +:+ (if fmt then nl_text else EmptyString))
      by (by destruct fmt).
    iApply hwp_bind. iApply (wp_append with "Ho"); [rewrite slen_nil; text_lia|]. iIntros "Ho".
    rewrite string_app_nil_l. iApply hwp_bind.
    iApply (compose_object_spec _ _ _ _ [] _ [] with "Hn HN He HL Ho"); [done|text_lia|]. iIntros "Hn He Ho".
    iApply hwp_bind. iApply (wp_free with "Hn"). iApply hwp_bind. iApply (wp_free with "He").
    replace (S depth - 1)%nat with depth by lia.
    iApply hwp_bind. iApply (wp_append_if with "Ho"); [text_lia|]. iIntros "Ho".
    iApply hwp_bind. iApply (wp_append with "Ho"); [text_lia|]. iIntros "Ho".
    iApply hwp_ret. iDestruct "HΦ" as "[HΦ _]". iApply "HΦ". iExists o. iSplit; [done|].
    by rewrite -!string_app_assoc.
  - iDestruct "HΦ" as "[_ HΦ]". iApply (if_full_wand with "HΦ"). iIntros "HΦ".
    replace (Z.to_nat (Z.of_nat (length members))) with (length (Some <$> (snd <$> members)))
      by (by rewrite !length_fmap Nat2Z.id).
    iApply (object_cleanup with "Hn Ht HΦ"). by rewrite !length_fmap.
Qed.
End Specs.

(** ** The text in terms of its parts *)

Definition prints_as (depth : nat) (fmt : bool) (c : cJSON) (s : string) : Prop :=
  CJson.print_value c depth fmt = Some s /\ numbers_valid c = true /\ print_fits c depth fmt = true.

Lemma print_entries_join d f l b :
  CJsonRound.print_entries d f l = Some b ->
  Forall (fun c => numbers_valid c = true /\ print_fits c (S d) f = true) l ->
  exists strs, Forall2 (prints_as (S d) f) l strs /\ b = join_entries f strs.
Proof.
  intros Hb Hl. revert b Hb. induction Hl as [|c l [Hc1 Hc2] Hl IH]; intros b Hb; cbn [CJsonRound.print_entries] in Hb.
  - injection Hb as <-. exists []. split; [constructor|done].
  - destruct (CJson.print_value c (S d) f) as [s|] eqn:Hs; [|done].
    destruct (CJsonRound.print_entries d f l) as [r|]; [|done]. injection Hb as <-.
    destruct (IH r eq_refl) as (strs & Hst & ->). exists (s :: strs). split; [by constructor|].
    cbn [join_entries]. inversion Hst; subst; [done|]. by destruct f.
Qed.

(** A member: its name, quoted, and its value. *)
Definition member_as (depth : nat) (fmt : bool) (c : cJSON) (m : string * string) : Prop :=
  exists name, j_string c = Some name /\ fst m = CJson.print_string_ptr name
    /\ prints_as depth fmt c (snd m).

Lemma print_members_join d f l b :
  CJsonRound.print_members d f l = Some b ->
  Forall (fun c => numbers_valid c = true /\ print_fits c (S d) f = true) l ->
  exists ms, Forall2 (member_as (S d) f) l ms /\ b = join_members (S d) f ms.
Proof.
  intros Hb Hl. revert b Hb. induction Hl as [|c l [Hc1 Hc2] Hl IH]; intros b Hb; cbn [CJsonRound.print_members] in Hb.
  - injection Hb as <-. exists []. split; [constructor|done].
  - destruct (j_string c) as [name|] eqn:Hn; [|done].
    destruct (CJson.print_value c (S d) f) as [s|] eqn:Hs; [|done].
    destruct (CJsonRound.print_members d f l) as [r|]; [|done]. injection Hb as <-.
    destruct (IH r eq_refl) as (ms & Hst & ->). exists ((CJson.print_string_ptr name, s) :: ms).
    split; [constructor; [by exists name|done]|]. cbn [join_members]. by inversion Hst.
Qed.

Definition entry_room (fmt : bool) (s : string) : Z := slen s + 2 + (if fmt then 1 else 0).
Definition member_room (depth : nat) (fmt : bool) (m : string * string) : Z :=
  slen (snd m) + slen (fst m) + 2 + (if fmt then 2 + Z.of_nat depth else 0).

Fixpoint total {A} (room : A -> Z) (l : list A) : Z :=
  match l with [] => 0 | x :: l => room x + total room l end.

Lemma entries_len_total d f l strs :
  Forall2 (prints_as (S d) f) l strs -> entries_len d f l = Some (total (entry_room f) strs).
Proof.
  induction 1 as [|c s l strs (Hs & _) _ IH]; [done|]. cbn [entries_len total]. by rewrite Hs IH.
Qed.

Lemma members_len_total d f l ms :
  Forall2 (member_as (S d) f) l ms -> members_len d f l = Some (total (member_room (S d) f) ms).
Proof.
  induction 1 as [|c m l ms (name & Hn & Hm & Hs & _) _ IH]; [done|]. cbn [members_len total].
  by rewrite Hn Hs IH /member_room Hm.
Qed.

Lemma total_ge {A} (room : A -> Z) l :
  (forall x, 2 <= room x) -> 2 * Z.of_nat (length l) <= total room l.
Proof.
  intros H. induction l as [|x l IH]; [done|]. cbn [total length]. specialize (H x). lia.
Qed.

Lemma entry_room_ge f s : 2 <= entry_room f s.
Proof. unfold entry_room. pose proof (slen_nonneg s). destruct f; lia. Qed.

Lemma member_room_ge d f m : 2 + slen (fst m) <= member_room d f m.
Proof. unfold member_room. pose proof (slen_nonneg (snd m)). destruct f; lia. Qed.

Lemma total_members_ge d f ms : 2 * Z.of_nat (length ms) <= total (member_room d f) ms.
Proof.
  apply total_ge. intros x. pose proof (member_room_ge d f x). pose proof (slen_nonneg (fst x)). lia.
Qed.

Lemma member_text_room d f b m : slen (member_text d f b m) <= member_room d f m.
Proof.
  unfold member_text, member_room.
  assert (slen (if negb b then "," else EmptyString) <= 1) by (by destruct b).
  rewrite !slen_app. destruct f.
  - rewrite slen_tabs !slen_cons slen_nil. change (slen nl_text) with 1. lia.
  - change (slen ":") with 1. rewrite slen_nil. lia.
Qed.

Lemma join_members_room d f ms : slen (join_members d f ms) <= total (member_room d f) ms.
Proof.
  induction ms as [|m ms IH]; [done|]. rewrite join_members_cons slen_app. cbn [total].
  pose proof (member_text_room d f (match ms with [] => true | _ => false end) m). lia.
Qed.

Lemma object_text_room d f body : slen (object_text d f body) + 1 <= 7 + (if f then Z.of_nat (S d) else 0) + slen body.
Proof.
  unfold object_text. rewrite !slen_app. change (slen "{") with 1. change (slen "}") with 1. destruct f.
  - change (slen nl_text) with 1. rewrite slen_tabs. lia.
  - rewrite !slen_nil. lia.
Qed.

Lemma join_entries_room f l : slen (join_entries f l) <= total (entry_room f) l.
Proof.
  induction l as [|s l IH]; [done|]. cbn [join_entries total]. rewrite slen_app. unfold entry_room at 1.
  assert (slen (separator f) <= 2) by (by destruct f).
  assert (0 <= (if f then 1 else 0)) by (by destruct f).
  destruct l as [|s' l]; [rewrite slen_nil; text_lia|].
  change (total (entry_room f) (s' :: l)) with (entry_room f s' + total (entry_room f) l) in *.
  rewrite slen_app. lia.
Qed.

Definition has_parts (ty : jtype) : bool :=
  match ty with cJSON_Array | cJSON_Object => true | _ => false end.

Lemma fits_children c depth fmt :
  numbers_valid c = true -> print_fits c depth fmt = true ->
  (has_parts (j_type c) = true ->
     Forall (fun c => numbers_valid c = true /\ print_fits c (S depth) fmt = true) (j_child c))
  /\ exists n, print_alloc c depth fmt = Some n /\ n <= INT_MAX.
Proof.
  destruct c as [ty vs vi vd nm ch]. cbn [numbers_valid print_fits j_child j_type].
  intros [_ Hv]%andb_true_iff [Ha Hf]%andb_true_iff. split.
  - intros Hp. assert (forallb (fun c => print_fits c (S depth) fmt) ch = true) as Hch by by destruct ty.
    apply Forall_forall. intros x Hx%list_elem_of_In. rewrite !forallb_forall in Hv Hch. auto.
  - destruct (print_alloc _ depth fmt) as [n|]; [|done]. exists n. split; [done|]. by apply Z.leb_le.
Qed.

(** ** Printing *)

Section Printing.
Context (full : bool).

Lemma int32_in z : 0 <= z -> z <= INT_MAX -> int32 z = z.
Proof. intros H1 H2. apply int32_small. unfold is_int, INT_MIN. lia. Qed.

Lemma wp_print_string p str (Φ : sptr -> hProp cell) :
  slen (CJson.print_string_ptr str) + 1 <= INT_MAX ->
  str_at p (Some str) -∗ (str_at p (Some str) -∗ text_or_null full (CJson.print_string_ptr str) Φ) -∗
  wp full (print_string_ptr p) Φ.
Proof.
  iIntros (Hlen) "Hs HΦ". iApply hwp_bind. iApply (wp_read_text with "Hs"). iIntros "Hs".
  unfold CJson.print_string_ptr in *. pose proof (slen_nonneg str). pose proof (slen_nonneg (escape str)).
  destruct (sforall _ str); rewrite slen_quoted in Hlen;
    (iApply wp_new_text; [rewrite slen_quoted ?escape_len_slen int32_in; lia|by iApply "HΦ"]).
Qed.

Lemma print_name_spec {A} c name l prev next (k : sptr -> cprog A) (Φ : A -> hProp cell) :
  j_string c = Some name -> slen (CJson.print_string_ptr name) + 1 <= INT_MAX ->
  item (of_cJSON c) l prev next -∗
  (item (of_cJSON c) l prev next -∗
     text_or_null full (CJson.print_string_ptr name) (fun str => wp full (k str) Φ)) -∗
  wp full (n <- load_node (Some l) ;; str <- print_string_ptr (n_string n) ;; k str) Φ.
Proof.
  iIntros (Hn Hlen) "Hi HΦ". rewrite of_cJSON_eq item_eq //=. rewrite Hn.
  iDestruct "Hi" as (child vs nm) "(Hl & Hn & Hv & Hk)".
  iApply hwp_bind. iApply (wp_load_node with "Hl"). iIntros "Hl". iApply hwp_bind.
  iApply (wp_print_string with "Hn"); [done|]. iIntros "Hn". iApply "HΦ". iExists child, vs, nm. iFrame.
Qed.

(** Entries not yet set. *)
Lemma nulls_at k : ⊢ [∗ list] p;o ∈ replicate k SNull;replicate k None, str_at p o.
Proof. induction k as [|k IH]; [done|]. cbn [replicate]. iSplit; [done|]. iApply IH. Qed.

Lemma texts_with_nulls e L texts k :
  e ↦ CPtrs (L ++ replicate k SNull) -∗ ([∗ list] p;o ∈ L;texts, str_at p o) -∗
  texts_at e (texts ++ replicate k None).
Proof.
  iIntros "He HL". iExists _. iFrame "He". iDestruct (big_sepL2_app with "HL []") as "$". iApply nulls_at.
Qed.

Definition value_ok (fuel : nat) : Prop := forall c l prev next depth fmt s (Φ : sptr -> hProp cell),
  prints_as depth fmt c s -> (2 * tree_size (of_cJSON c) <= fuel)%nat ->
  item (of_cJSON c) l prev next -∗ (item (of_cJSON c) l prev next -∗ text_or_null full s Φ) -∗
  wp full (print_value fuel (Some l) depth fmt) Φ.

Definition entries_ok (fuel : nat) : Prop :=
  forall cs prev first last strs L old e len depth fmt (Φ : Z * bool -> hProp cell),
  Forall2 (prints_as (S depth) fmt) cs strs ->
  0 <= len -> len + total (entry_room fmt) strs <= INT_MAX ->
  (2 * trees_size (of_cJSON <$> cs) + 1 <= fuel)%nat ->
  seg (of_cJSON <$> cs) prev first last None -∗
  e ↦ CPtrs (L ++ replicate (length cs) SNull) -∗ ([∗ list] p;s ∈ L;old, str_at p (Some s)) -∗
  (seg (of_cJSON <$> cs) prev first last None -∗
     (texts_at e (Some <$> old ++ strs) -∗ Φ (len + total (entry_room fmt) strs, false))
     ∧ (if full then True else
        ∀ texts n, <affine> ⌜length texts = (length old + length cs)%nat⌝ -∗ texts_at e texts -∗ Φ (n, true))) -∗
  wp full (print_entries fuel first (Some e) (length L) len depth fmt) Φ.

Lemma wp_set_next_entry e L k r (Φ : unit -> hProp cell) :
  e ↦ CPtrs (L ++ replicate (S k) SNull) -∗
  (e ↦ CPtrs ((L ++ [r]) ++ replicate k SNull) -∗ Φ tt) -∗
  wp full (set_entry (Some e) (length L) r) Φ.
Proof.
  iIntros "He HΦ". iApply (wp_set_entry with "He"); [rewrite length_app /=; lia|].
  cbn [replicate]. rewrite insert_app_r_alt // Nat.sub_diag /= -app_assoc. iApply "HΦ".
Qed.

Lemma print_entries_step fuel : value_ok fuel -> entries_ok fuel -> entries_ok (S fuel).
Proof.
  intros IHv IHe cs prev first last strs L old e len depth fmt Φ Hs Hlen Hmax Hf.
  destruct Hs as [|c s cs strs Hc Hs]; cbn [fmap list_fmap seg total length] in *.
  - iIntros ([-> ->]) "He HL HΦ". iApply hwp_ret. iDestruct ("HΦ" with "[//]") as "[HΦ _]".
    rewrite Z.add_0_r. iApply "HΦ". rewrite app_nil_r texts_at_some. iExists L. rewrite app_nil_r. iFrame.
  - rewrite trees_size_cons in Hf. pose proof (tree_size_pos (of_cJSON c)).
    pose proof (total_ge (entry_room fmt) strs (entry_room_ge fmt)).
    iIntros "(%l & %nx & -> & Ht & Hk) He HL HΦ". cbn [print_entries].
    iApply hwp_bind. iApply (IHv with "Ht"); [exact Hc|lia|]. iIntros "Ht". iSplit.
    + iIntros (r) "Hr". iDestruct (text_set with "Hr") as %Hset. rewrite Hset.
      iApply hwp_bind. iApply (wp_set_next_entry with "He"). iIntros "He".
      iApply hwp_bind. iApply (wp_read_text with "Hr"). iIntros "Hr".
      iApply (wp_links with "Ht"). iIntros (n [-> _]) "Ht".
      pose proof (entry_room_ge fmt s). change (slen s + 2 + (if fmt then 1 else 0)) with (entry_room fmt s).
      rewrite int32_in; [|lia..]. rewrite (length_snoc L r).
      iApply (IHe _ _ _ _ strs _ (old ++ [s]) with "Hk He [HL Hr]"); [done|lia|lia|lia| |].
      { iApply (big_sepL2_app with "HL"). cbn. by iFrame. }
      iIntros "Hk". rewrite -app_assoc -Z.add_assoc length_app /= -Nat.add_assoc. iApply "HΦ".
      iExists l, nx. by iFrame.
    + iDestruct ("HΦ" with "[Ht Hk]") as "[_ HΦ]"; [iExists l, nx; by iFrame|].
      iApply (if_full_wand with "HΦ"). iIntros "HΦ".
      iApply hwp_bind. iApply (wp_set_next_entry with "He"). iIntros "He". cbn [sptr_set].
      iApply hwp_ret. rewrite -app_assoc. change ([SNull] ++ replicate (length cs) SNull) with (replicate (S (length cs)) SNull).
      iDestruct (big_sepL2_fmap_r Some (fun _ p o => str_at p o) with "HL") as "HL".
      iApply ("HΦ" $! ((Some <$> old) ++ replicate (S (length cs)) None) with "[%]").
      * by rewrite length_app length_fmap length_replicate.
      * iApply (texts_with_nulls with "He HL").
Qed.

(** The arrays of an object while the members are printed: the texts so far, some
    of them missing after a failure, and the entries not yet set. *)
Definition members_at (nm e : loc) (N L : list sptr) (names texts : list (option string)) (k : nat)
    : hProp cell :=
  (<affine> ⌜length N = length L⌝
   ∗ nm ↦ CPtrs (N ++ replicate k SNull) ∗ ([∗ list] p;o ∈ N;names, str_at p o)
   ∗ e ↦ CPtrs (L ++ replicate k SNull) ∗ ([∗ list] p;o ∈ L;texts, str_at p o))%I.

Definition members_ok (fuel : nat) : Prop :=
  forall cs prev first last ms old N L names texts nm e len depth fmt fail (Φ : Z * bool -> hProp cell),
  Forall2 (member_as depth fmt) cs ms ->
  0 <= len -> len + total (member_room depth fmt) ms <= INT_MAX ->
  (2 * trees_size (of_cJSON <$> cs) + 1 <= fuel)%nat ->
  (fail = false -> names = (Some <$> (fst <$> old)) /\ texts = (Some <$> (snd <$> old))) ->
  (fail = true -> full = false) ->
  seg (of_cJSON <$> cs) prev first last None -∗
  members_at nm e N L names texts (length cs) -∗
  (seg (of_cJSON <$> cs) prev first last None -∗
     (<affine> ⌜fail = false⌝ -∗ texts_at nm (Some <$> (fst <$> old ++ ms)) -∗
        texts_at e (Some <$> (snd <$> old ++ ms)) -∗ Φ (len + total (member_room depth fmt) ms, false))
     ∧ (if full then True else
        ∀ names' texts' n, <affine> ⌜length names' = (length L + length cs)%nat
             /\ length texts' = (length L + length cs)%nat⌝ -∗
          texts_at nm names' -∗ texts_at e texts' -∗ Φ (n, true))) -∗
  wp full (print_members fuel first (Some nm) (Some e) (length L) len depth fmt fail) Φ.

Lemma members_at_done nm e N L names texts :
  members_at nm e N L names texts 0 ⊢
  <affine> ⌜length names = length L /\ length texts = length L⌝ ∗ texts_at nm names ∗ texts_at e texts.
Proof.
  iIntros "(%Hl & Hn & HN & He & HL)". rewrite !app_nil_r.
  iDestruct (big_sepL2_length with "HN") as %H1. iDestruct (big_sepL2_length with "HL") as %H2.
  iSplit; [iPureIntro; lia|]. iSplitL "Hn HN"; iExists _; iFrame.
Qed.

Lemma print_members_end fail old N L names texts nm e len (Φ : Z * bool -> hProp cell) :
  (fail = false -> names = (Some <$> (fst <$> old)) /\ texts = (Some <$> (snd <$> old))) ->
  (fail = true -> full = false) ->
  members_at nm e N L names texts 0 -∗
  ((<affine> ⌜fail = false⌝ -∗ texts_at nm (Some <$> (fst <$> old)) -∗
      texts_at e (Some <$> (snd <$> old)) -∗ Φ (len, false))
   ∧ (if full then True else
        ∀ names' texts' n, <affine> ⌜length names' = length L /\ length texts' = length L⌝ -∗
          texts_at nm names' -∗ texts_at e texts' -∗ Φ (n, true))) -∗
  Φ (len, fail).
Proof.
  iIntros (Hok Hfull) "Hm HΦ". iDestruct (members_at_done with "Hm") as (Hlen) "[Hn He]".
  destruct fail.
  - iDestruct "HΦ" as "[_ HΦ]". rewrite (Hfull eq_refl). by iApply ("HΦ" with "[//] Hn He").
  - destruct (Hok eq_refl) as [-> ->]. iDestruct "HΦ" as "[HΦ _]". by iApply ("HΦ" with "[//] Hn He").
Qed.

(** A text, or nothing for want of memory. *)
Definition maybe (s : string) (o : option string) : Prop := o = Some s \/ (full = false /\ o = None).

Lemma text_or_null_maybe s (Φ : sptr -> hProp cell) :
  (∀ r o, <affine> ⌜maybe s o⌝ -∗ str_at r o -∗ Φ r) ⊢ text_or_null full s Φ.
Proof.
  iIntros "HΦ". iSplit.
  - iIntros (r) "Hr". iApply ("HΦ" $! r (Some s) with "[%] Hr"). by left.
  - destruct full eqn:E; [done|]. iApply ("HΦ" $! SNull None with "[%] [//]"). by right.
Qed.

Lemma str_at_set r o : str_at r o ⊢ ⌜sptr_set r = match o with Some _ => true | None => false end⌝.
Proof. destruct o as [s|]; [apply text_set|]. by iIntros "->". Qed.

Lemma wp_member_len (ok : bool) ret str o1 o2 len depth fmt (Φ : Z -> hProp cell) :
  ok = (match o1 with Some _ => true | None => false end && match o2 with Some _ => true | None => false end) ->
  str_at str o1 -∗ str_at ret o2 -∗
  (str_at str o1 -∗ str_at ret o2 -∗
     Φ (match o1, o2 with Some n, Some s => int32 (len + member_room depth fmt (n, s)) | _, _ => len end)) -∗
  wp full (if ok then
             rtext <- read_str ret ;; stext <- read_str str ;;
             cret (int32 (len + (slen rtext + slen stext + 2 + (if fmt then 2 + Z.of_nat depth else 0))))
           else cret len) Φ.
Proof.
  iIntros (->) "H1 H2 HΦ". destruct o1 as [n|], o2 as [s|]; cbn [andb];
    [|iApply hwp_ret; iApply ("HΦ" with "H1 H2")..].
  iApply hwp_bind. iApply (wp_read_text with "H2"). iIntros "H2".
  iApply hwp_bind. iApply (wp_read_text with "H1"). iIntros "H1". iApply hwp_ret. iApply ("HΦ" with "H1 H2").
Qed.

(** The length after one member; what is known when both texts are there. *)
Lemma member_len_ok m rest len depth fmt o1 o2 :
  maybe (fst m) o1 -> maybe (snd m) o2 -> 0 <= len -> 0 <= rest ->
  len + (member_room depth fmt m + rest) <= INT_MAX ->
  let len' := match o1, o2 with Some n, Some s => int32 (len + member_room depth fmt (n, s)) | _, _ => len end in
  let ok := match o1 with Some _ => true | None => false end && match o2 with Some _ => true | None => false end in
  0 <= len' /\ len' + rest <= INT_MAX
  /\ (ok = true -> o1 = Some (fst m) /\ o2 = Some (snd m) /\ len' = len + member_room depth fmt m)
  /\ (ok = false -> full = false).
Proof.
  pose proof (member_room_ge depth fmt m). pose proof (slen_nonneg (fst m)).
  destruct m as [mn mv]. cbn [fst snd] in *. intros [->|[Hf1 ->]] [->|[Hf2 ->]] Hlen Hrest Hmax; cbn [andb];
    [rewrite int32_in; [|lia..]; repeat split; (lia || done)|repeat split; (lia || done)..].
Qed.

Lemma members_at_next nm e N L names texts k str ret o1 o2 :
  length N = length L ->
  nm ↦ CPtrs ((N ++ [str]) ++ replicate k SNull) -∗ ([∗ list] p;o ∈ N;names, str_at p o) -∗
  e ↦ CPtrs ((L ++ [ret]) ++ replicate k SNull) -∗ ([∗ list] p;o ∈ L;texts, str_at p o) -∗
  str_at str o1 -∗ str_at ret o2 -∗
  members_at nm e (N ++ [str]) (L ++ [ret]) (names ++ [o1]) (texts ++ [o2]) k.
Proof.
  iIntros (Hl) "Hn HN He HL H1 H2". iSplit; [iPureIntro; rewrite !length_app /=; lia|]. iFrame "Hn He".
  iSplitL "HN H1"; [iApply (big_sepL2_app with "HN"); cbn; by iFrame|].
  iApply (big_sepL2_app with "HL"). cbn. by iFrame.
Qed.

Lemma print_members_step fuel : value_ok fuel -> members_ok fuel -> members_ok (S fuel).
Proof.
  intros IHv IHm cs prev first last ms old N L names texts nm e len depth fmt fail Φ Hs Hlen Hmax Hf Hok Hfull.
  destruct Hs as [|c m cs ms (name & Hname & Hm & Hc) Hs]; cbn [fmap list_fmap seg total length] in *.
  - iIntros ([-> ->]) "Hm HΦ". iApply hwp_ret. iDestruct ("HΦ" with "[//]") as "HΦ".
    rewrite Z.add_0_r app_nil_r Nat.add_0_r. by iApply (print_members_end with "Hm HΦ").
  - rewrite trees_size_cons in Hf. pose proof (tree_size_pos (of_cJSON c)).
    pose proof (member_room_ge depth fmt m) as Hroom. pose proof (slen_nonneg (fst m)).
    pose proof (total_members_ge depth fmt ms) as Htot.
    iIntros "(%l & %nx & -> & Ht & Hk) (%HNL & Hn & HN & He & HL) HΦ". cbn [print_members].
    iApply (print_name_spec with "Ht"); [exact Hname|rewrite -Hm; lia|]. iIntros "Ht". rewrite -Hm.
    iApply text_or_null_maybe. iIntros (str o1 Ho1) "H1".
    iApply hwp_bind. replace (set_entry (Some nm) (length L) str) with (set_entry (Some nm) (length N) str)
      by (by rewrite HNL).
    iApply (wp_set_next_entry with "Hn"). iIntros "Hn".
    iApply hwp_bind. iApply (IHv with "Ht"); [exact Hc|lia|]. iIntros "Ht".
    iApply text_or_null_maybe. iIntros (ret o2 Ho2) "H2".
    iApply hwp_bind. iApply (wp_set_next_entry with "He"). iIntros "He".
    iDestruct (str_at_set with "H1") as %Hset1. iDestruct (str_at_set with "H2") as %Hset2.
    iApply hwp_bind. iApply (wp_member_len _ _ _ o1 o2 with "H1 H2"); [by rewrite Hset1 Hset2|].
    iIntros "H1 H2". iApply (wp_links with "Ht"). iIntros (n [-> _]) "Ht". rewrite (length_snoc L ret).
    iDestruct (members_at_next with "Hn HN He HL H1 H2") as "Hm"; [done|].
    rewrite Hset1 Hset2.
    destruct (member_len_ok m (total (member_room depth fmt) ms) len depth fmt o1 o2 Ho1 Ho2)
      as (Hl1 & Hl2 & Hyes & Hno); [lia..|].
    set (ok := _ && _) in *. set (len' := match o1 with Some _ => _ | None => _ end) in *.
    iApply (IHm _ _ _ _ ms (old ++ [m]) with "Hk Hm"); [done|lia|lia|lia| | |].
    + intros [Hf0 Hok0%negb_false_iff]%orb_false_iff. destruct (Hyes Hok0) as (-> & -> & _).
      destruct (Hok Hf0) as [-> ->]. by rewrite !fmap_app.
    + intros [Hf0|Hok0%negb_true_iff]%orb_true_iff; auto.
    + iIntros "Hk". rewrite -(assoc_L app) length_app /= -Nat.add_assoc.
      iDestruct ("HΦ" with "[Ht Hk]") as "HΦ"; [iExists l, nx; by iFrame|]. iSplit.
      * iIntros ([Hf0 Hok0%negb_false_iff]%orb_false_iff) "Hn He". destruct (Hyes Hok0) as (_ & _ & ->).
        iDestruct "HΦ" as "[HΦ _]". rewrite -Z.add_assoc. by iApply ("HΦ" with "[//] Hn He").
      * by iDestruct "HΦ" as "[_ HΦ]".
Qed.

Lemma wp_ptrs_malloc n (Φ : ptr -> hProp cell) :
  (∀ e, e ↦ CPtrs ([] ++ replicate (Z.to_nat n) SNull) -∗ Φ (Some e)) ∧ (if full then True else Φ None) ⊢
  wp full (ptrs_malloc n) Φ.
Proof. apply wp_malloc. Qed.

Lemma length_children (cs : list cJSON) n :
  n = Z.of_nat (length cs) -> cs <> [] -> Z.to_nat n = length cs /\ (n =? 0) = false.
Proof. intros -> Hne. destruct cs; [done|]. split; [lia|]. by apply Z.eqb_neq. Qed.

(** [while (child) numentries++, child = child->next;] *)
Lemma count_children {A} cs first (k : Z -> cprog A) (Φ : A -> hProp cell) :
  Z.of_nat (length cs) <= INT_MAX ->
  children (of_cJSON <$> cs) first -∗
  (children (of_cJSON <$> cs) first -∗ wp full (k (Z.of_nat (length cs))) Φ) -∗
  wp full (cells <- heap_size ;; numentries <- size_loop cells first 0 ;; k numentries) Φ.
Proof.
  iIntros (Hmax) "(%last & Hk) HΦ". iApply hwp_bind. iApply (wp_heap_size _ (trees_size (of_cJSON <$> cs))).
  iSplit; [iClear "HΦ"; by iApply seg_sized|].
  iIntros (cells Hcells). pose proof (length_trees_size (of_cJSON <$> cs)) as Hlt. rewrite length_fmap in Hlt.
  iApply hwp_bind. iApply (size_loop_spec with "Hk"); [rewrite length_fmap; lia|lia|rewrite length_fmap; lia|].
  iIntros "Hk". rewrite Z.add_0_l length_fmap. iApply "HΦ". by iExists last.
Qed.

Lemma print_array_step fuel cs first depth fmt s (Φ : sptr -> hProp cell) :
  entries_ok fuel -> cs <> [] ->
  CJsonRound.print_entries depth fmt cs = Some s ->
  Forall (fun c => numbers_valid c = true /\ print_fits c (S depth) fmt = true) cs ->
  (exists n, entries_len depth fmt cs = Some n /\ 5 + n <= INT_MAX) ->
  (2 * trees_size (of_cJSON <$> cs) + 1 <= fuel)%nat ->
  children (of_cJSON <$> cs) first -∗
  (children (of_cJSON <$> cs) first -∗ text_or_null full ("[" +:+ s +:+ "]") Φ) -∗
  wp full
    (cells <- heap_size ;;
     numentries <- size_loop cells first 0 ;;
     if numentries =? 0 then new_text 3 "[]" else
     entries <- ptrs_malloc numentries ;;
     match entries with
     | None => cret SNull
     | Some _ =>
         r <- print_entries fuel first entries 0 5 depth fmt ;;
         finish_array entries numentries (fst r) (snd r) fmt
     end) Φ.
Proof.
  intros IHe Hne Hs Hcs (n & Hn & Hmax) Hf.
  destruct (print_entries_join _ _ _ _ Hs Hcs) as (strs & Hst & ->).
  rewrite (entries_len_total _ _ _ _ Hst) in Hn. injection Hn as <-.
  pose proof (total_ge _ strs (entry_room_ge fmt)) as Htot. pose proof (Forall2_length _ _ _ Hst) as Hlen.
  iIntros "Hk HΦ". iApply (count_children with "Hk"); [lia|]. iIntros "(%last & Hk)".
  destruct (length_children cs _ eq_refl Hne) as [Hto ->].
  iApply hwp_bind. iApply wp_ptrs_malloc. rewrite Hto. iSplit.
  - iIntros (e) "He". iApply hwp_bind.
    iApply (IHe _ _ _ _ strs [] [] with "Hk He []"); [done|lia|lia|lia|done|]. iIntros "Hk".
    iDestruct ("HΦ" with "[Hk]") as "HΦ"; [by iExists last|]. iSplit.
    + rewrite app_nil_l. iIntros "Ht". cbn [fst snd]. iApply (finish_array_spec with "Ht HΦ"); [by rewrite Hlen|].
      pose proof (join_entries_room fmt strs). lia.
    + iDestruct "HΦ" as "[_ HΦ]". iApply (if_full_wand with "HΦ"). iIntros "HΦ" (texts m Htx) "Ht". cbn [fst snd].
      iApply (finish_array_fail with "Ht HΦ"). by rewrite Htx.
  - iDestruct ("HΦ" with "[Hk]") as "[_ HΦ]"; [by iExists last|].
    iApply (if_full_wand with "HΦ"). iIntros "HΦ". by iApply hwp_ret.
Qed.

(** The length with which the loop of [print_object] starts. *)
Definition object_base (depth : nat) (fmt : bool) : Z := 7 + (if fmt then Z.of_nat (S depth) else 0).

Lemma print_object_step fuel cs first depth fmt body (Φ : sptr -> hProp cell) :
  members_ok fuel -> cs <> [] ->
  CJsonRound.print_members depth fmt cs = Some body ->
  Forall (fun c => numbers_valid c = true /\ print_fits c (S depth) fmt = true) cs ->
  (exists n, members_len depth fmt cs = Some n /\ object_base depth fmt + n <= INT_MAX) ->
  (2 * trees_size (of_cJSON <$> cs) + 1 <= fuel)%nat ->
  children (of_cJSON <$> cs) first -∗
  (children (of_cJSON <$> cs) first -∗ text_or_null full (object_text depth fmt body) Φ) -∗
  wp full
    (cells <- heap_size ;;
     numentries <- size_loop cells first 0 ;;
     if numentries =? 0 then
       new_text (if fmt then int32 (Z.of_nat depth + 4) else 3)
         (if fmt then String "{" (nl_text +:+ tabs (depth - 1) +:+ "}") else "{}")
     else
     entries <- ptrs_malloc numentries ;;
     match entries with
     | None => cret SNull
     | Some _ =>
         names <- ptrs_malloc numentries ;;
         match names with
         | None => free entries ;;; cret SNull
         | Some _ =>
             r <- print_members fuel first names entries 0
                    (if fmt then int32 (7 + Z.of_nat (S depth)) else 7) (S depth) fmt false ;;
             finish_object names entries numentries (fst r) (snd r) (S depth) fmt
         end
     end) Φ.
Proof.
  intros IHm Hne Hs Hcs (n & Hn & Hmax) Hf.
  destruct (print_members_join _ _ _ _ Hs Hcs) as (ms & Hst & ->).
  rewrite (members_len_total _ _ _ _ Hst) in Hn. injection Hn as <-.
  pose proof (total_members_ge (S depth) fmt ms) as Htot. pose proof (Forall2_length _ _ _ Hst) as Hlen.
  assert (7 <= object_base depth fmt) as Hb by (unfold object_base; destruct fmt; lia).
  assert ((if fmt then int32 (7 + Z.of_nat (S depth)) else 7) = object_base depth fmt) as ->.
  { unfold object_base in *. destruct fmt; [apply int32_in; lia|done]. }
  iIntros "Hk HΦ". iApply (count_children with "Hk"); [lia|]. iIntros "(%last & Hk)".
  destruct (length_children cs _ eq_refl Hne) as [Hto ->].
  iApply hwp_bind. iApply wp_ptrs_malloc. rewrite Hto. iSplit; [iIntros (e) "He"|].
  2:{ iDestruct ("HΦ" with "[Hk]") as "[_ HΦ]"; [by iExists last|].
      iApply (if_full_wand with "HΦ"). iIntros "HΦ". by iApply hwp_ret. }
  iApply hwp_bind. iApply wp_ptrs_malloc. rewrite Hto. iSplit; [iIntros (nm) "Hn"|].
  2:{ iDestruct ("HΦ" with "[Hk]") as "[_ HΦ]"; [by iExists last|].
      iApply (if_full_wand with "HΦ"). iIntros "HΦ". iApply hwp_bind. iApply (wp_free with "He"). by iApply hwp_ret. }
  iApply hwp_bind.
  iApply (IHm _ _ _ _ ms [] [] [] [] [] with "Hk [Hn He]"); [done|lia|lia|lia|by split|done| |].
  { iSplit; [done|]. iFrame "Hn He". by iSplitL. }
  iIntros "Hk". iDestruct ("HΦ" with "[Hk]") as "HΦ"; [by iExists last|]. iSplit.
  - rewrite app_nil_l. iIntros (_) "Hn He". cbn [fst snd].
    iApply (finish_object_spec with "Hn He HΦ"); [by rewrite Hlen|].
    pose proof (object_text_room depth fmt (join_members (S depth) fmt ms)) as Hr.
    pose proof (join_members_room (S depth) fmt ms). unfold object_base. lia.
  - iDestruct "HΦ" as "[_ HΦ]". iApply (if_full_wand with "HΦ"). iIntros "HΦ" (names texts m Htx) "Hn He".
    cbn [fst snd length Nat.add] in *. destruct Htx as [H1 H2].
    iApply (finish_object_fail with "Hn He HΦ"); [by rewrite H2|by rewrite H1 H2].
Qed.

Lemma type_tag c prev next child vs name :
  Z.land (n_type (node_of (data_of c) prev next child vs name)) 255 = tag (j_type c).
Proof. cbn [node_of n_type]. unfold type_bits. cbn. by destruct (j_type c). Qed.

Lemma print_value_step fuel : entries_ok fuel -> members_ok fuel -> value_ok (S fuel).
Proof.
  intros IHe IHm c l prev next depth fmt s Φ (Hs & Hv & Hfit) Hf.
  destruct (fits_children c depth fmt Hv Hfit) as [Hkids (n & Hn & Hmax)].
  destruct (print_alloc_enough c depth fmt s Hs Hv) as (n' & Hn' & Hroom).
  assert (n' = n) as -> by congruence. clear Hn'.
  rewrite of_cJSON_eq item_eq //. iIntros "(%child & %vs & %name & Hl & Hname & Hv & Hk) HΦ". cbn [print_value].
  iApply hwp_bind. iApply (wp_load_node with "Hl"). iIntros "Hl".
  rewrite type_tag. cbn [n_child n_valuestring node_of].
  set (post := (_ -∗ text_or_null full s Φ)%I).
  iAssert (children (of_cJSON <$> j_child c) child -∗ str_at vs (j_valuestring c) -∗ text_or_null full s Φ)%I
    with "[Hl Hname HΦ]" as "HΦ".
  { iIntros "Hk Hv". iApply "HΦ". iExists child, vs, name. iFrame. }
  destruct c as [ty str vi vd nm ch]. rewrite of_cJSON_eq tree_size_eq in Hf.
  cbn [j_type j_child j_valuestring] in *. clear post. cbn [d_vs data_of j_valuestring].
  destruct ty; cbn [tag Z.eqb Pos.eqb].
  1-3: injection Hs as <-; iApply wp_strdup; iApply ("HΦ" with "Hk Hv").
  - unfold print_number. change (CJson.print_number _) with (CJson.print_number (Item cJSON_Number str vi vd nm ch)).
    cbn [CJson.print_value j_type] in Hs. rewrite Hs. injection Hn as <-. iApply wp_new_text; [exact Hroom|]. iApply ("HΦ" with "Hk Hv").
  - cbn [CJson.print_value j_type j_valuestring] in Hs. destruct str as [str|]; [|done]. injection Hs as <-.
    iApply (wp_print_string with "Hv"); [lia|]. iIntros "Hv". iApply ("HΦ" with "Hk Hv").
  - rewrite print_array_eq in Hs. destruct (CJsonRound.print_entries depth fmt ch) as [b|] eqn:Hb; [|done].
    injection Hs as <-. destruct ch as [|c ch].
    + injection Hb as <-. iApply (count_children [] with "Hk"); [done|]. iIntros "Hk".
      iApply wp_new_text; [done|]. iApply ("HΦ" with "Hk Hv").
    + iApply (print_array_step with "Hk"); [done|done|exact Hb|by apply Hkids| |lia|].
      { unfold print_alloc in Hn. cbn [j_type j_child] in Hn.
        destruct (entries_len depth fmt (c :: ch)) as [m|]; [|done]. injection Hn as <-. by exists m. }
      iIntros "Hk". iApply ("HΦ" with "Hk Hv").
  - destruct ch as [|c ch].
    + iApply (count_children [] with "Hk"); [done|]. iIntros "Hk". injection Hs as <-. injection Hn as <-.
      cbn [length]. change (Z.of_nat 0 =? 0) with true. cbv iota.
      iApply wp_new_text; [|by destruct fmt; iApply ("HΦ" with "Hk Hv")].
      destruct fmt; [|done]. rewrite int32_in; [|lia..]. revert Hroom. cbn. done.
    + rewrite print_object_eq in Hs. destruct (CJsonRound.print_members depth fmt (c :: ch)) as [b|] eqn:Hb; [|done].
      injection Hs as <-. iApply (print_object_step with "Hk"); [done|done|exact Hb|by apply Hkids| |lia|].
      { unfold print_alloc in Hn. cbn [j_type j_child] in Hn.
        destruct (members_len depth fmt (c :: ch)) as [m|]; [|done]. injection Hn as <-. by exists m. }
      iIntros "Hk". iApply ("HΦ" with "Hk Hv").
Qed.

Lemma printers_ok fuel : value_ok fuel /\ entries_ok fuel /\ members_ok fuel.
Proof.
  induction fuel as [|fuel (IHv & IHe & IHm)].
  - split; [|split].
    + intros c l prev next depth fmt s Φ _ Hf. pose proof (tree_size_pos (of_cJSON c)). lia.
    + intros cs prev first last strs L old e len depth fmt Φ _ _ _ Hf. lia.
    + intros cs prev first last ms old N L names texts nm e len depth fmt fail Φ _ _ _ Hf. lia.
  - split; [by apply print_value_step|]. split; [by apply print_entries_step|by apply print_members_step].
Qed.

Lemma print_spec c l prev next fmt s (Φ : sptr -> hProp cell) :
  prints_as 0 fmt c s ->
  item (of_cJSON c) l prev next -∗ (item (of_cJSON c) l prev next -∗ text_or_null full s Φ) -∗
  wp full (fuel <- heap_size ;; print_value (2 * fuel) (Some l) 0 fmt) Φ.
Proof.
  iIntros (Hs) "Hi HΦ". iApply hwp_bind. iApply (wp_heap_size _ (tree_size (of_cJSON c))). iSplit.
  - iClear "HΦ". by iApply item_sized.
  - iIntros (n Hn). destruct (printers_ok (2 * n)) as [Hok _]. iApply (Hok with "Hi HΦ"); [done|lia].
Qed.
End Printing.

(** ** Lengths of short texts *)

Lemma entries_len_le d f l b :
  CJsonRound.print_entries d f l = Some b -> exists n, entries_len d f l = Some n /\ n <= 3 * slen b + 3.
Proof.
  revert b. induction l as [|c l IH]; intros b Hb; [injection Hb as <-; by exists 0|].
  destruct l as [|c' l].
  - cbn [CJsonRound.print_entries entries_len] in *. destruct (CJson.print_value c (S d) f) as [s|]; [|done].
    injection Hb as <-. eexists. split; [done|]. rewrite string_app_nil_r. pose proof (slen_nonneg s).
    destruct f; lia.
  - remember (c' :: l) as l' eqn:El. cbn [CJsonRound.print_entries entries_len] in *.
    destruct (CJson.print_value c (S d) f) as [s|]; [|done].
    destruct (CJsonRound.print_entries d f l') as [r|]; [|done]. injection Hb as <-.
    destruct (IH r eq_refl) as (n & -> & Hn). eexists. split; [done|]. rewrite El !slen_app.
    pose proof (slen_nonneg s). destruct f.
    + change (slen ", ") with 2. lia.
    + change (slen ",") with 1. lia.
Qed.

Lemma members_len_le d f l b :
  CJsonRound.print_members d f l = Some b -> exists n, members_len d f l = Some n /\ n <= 3 * slen b.
Proof.
  revert b. induction l as [|c l IH]; intros b Hb; [injection Hb as <-; by exists 0|].
  cbn [CJsonRound.print_members members_len] in *. destruct (j_string c) as [name|]; [|done].
  destruct (CJson.print_value c (S d) f) as [s|]; [|done].
  destruct (CJsonRound.print_members d f l) as [r|]; [|done]. injection Hb as <-.
  destruct (IH r eq_refl) as (n & -> & Hn). eexists. split; [done|]. rewrite !slen_app. change (slen ":") with 1.
  pose proof (slen_nonneg (match l with [] => EmptyString | _ => "," end)).
  pose proof (slen_nonneg s). pose proof (slen_nonneg (CJson.print_string_ptr name)). destruct f; cbv iota.
  - rewrite !slen_cons slen_tabs slen_nil. change (slen nl_text) with 1. lia.
  - rewrite !slen_nil. lia.
Qed.

(** The parts of a text are not longer than the text. *)
Lemma entries_short d f l b :
  CJsonRound.print_entries d f l = Some b ->
  Forall (fun c => exists s, CJson.print_value c (S d) f = Some s /\ slen s <= slen b) l.
Proof.
  revert b. induction l as [|c l IH]; intros b Hb; [constructor|]. cbn [CJsonRound.print_entries] in Hb.
  destruct (CJson.print_value c (S d) f) as [s|] eqn:Hs; [|done].
  destruct (CJsonRound.print_entries d f l) as [r|] eqn:Hr; [|done]. injection Hb as <-. constructor.
  - exists s. split; [done|]. text_lia.
  - destruct l as [|c' l]; [constructor|]. eapply Forall_impl; [by apply IH|].
    intros x (sx & Hx & Hlen). exists sx. split; [done|]. text_lia.
Qed.

Lemma members_short d f l b :
  CJsonRound.print_members d f l = Some b ->
  Forall (fun c => exists s, CJson.print_value c (S d) f = Some s /\ slen s <= slen b) l.
Proof.
  revert b. induction l as [|c l IH]; intros b Hb; [constructor|]. cbn [CJsonRound.print_members] in Hb.
  destruct (j_string c) as [nm|]; [|done]. destruct (CJson.print_value c (S d) f) as [s|] eqn:Hs; [|done].
  destruct (CJsonRound.print_members d f l) as [r|] eqn:Hr; [|done]. injection Hb as <-. constructor.
  - exists s. split; [done|]. text_lia.
  - eapply Forall_impl; [by apply IH|]. intros x (sx & Hx & Hlen). exists sx. split; [done|]. text_lia.
Qed.

(** No length overflows when the text is shorter than half a gigabyte. *)
Definition short (s : string) : Prop := 4 * slen s + 64 <= INT_MAX.

Lemma print_alloc_le c depth fmt s :
  CJson.print_value c depth fmt = Some s -> numbers_valid c = true ->
  exists n, print_alloc c depth fmt = Some n /\ n <= 4 * slen s + 64.
Proof.
  destruct c as [ty vs vi vd nm ch]. intros Hs Hv. pose proof (slen_nonneg s). unfold print_alloc.
  destruct ty; cbn [j_type j_child j_valuestring].
  1-3: injection Hs as <-; eexists; split; [done|vm_compute; congruence].
  - cbn [numbers_valid] in Hv. apply andb_true_iff in Hv as [[[Hvd Hlo]%andb_true_iff Hhi]%andb_true_iff _].
    apply Z.leb_le in Hlo, Hhi. eexists. split; [done|].
    pose proof (number_room_enough (Item cJSON_Number vs vi vd nm ch) s Hs Hvd (conj Hlo Hhi)). lia.
  - cbn [CJson.print_value j_type j_valuestring] in Hs. destruct vs as [str|]; [|done]. injection Hs as <-.
    eexists. split; [done|]. unfold CJson.print_string_ptr in *. rewrite escape_len_slen.
    destruct (sforall _ str); rewrite slen_quoted; text_lia.
  - rewrite print_array_eq in Hs. destruct (CJsonRound.print_entries depth fmt ch) as [b|] eqn:Eb; [|done].
    injection Hs as <-. destruct ch as [|c ch]; [eexists; split; [done|text_lia]|].
    destruct (entries_len_le _ _ _ _ Eb) as (n & -> & Hn). eexists. split; [done|].
    rewrite !slen_app. change (slen "[") with 1. change (slen "]") with 1. text_lia.
  - destruct ch as [|c ch].
    { injection Hs as <-. eexists. split; [done|]. destruct fmt; [|done].
      rewrite !(slen_app, slen_cons, slen_tabs, slen_nil). lia. }
    rewrite print_object_eq in Hs. destruct (CJsonRound.print_members depth fmt (c :: ch)) as [b|] eqn:Eb; [|done].
    injection Hs as <-. destruct (members_len_le _ _ _ _ Eb) as (n & -> & Hn). eexists. split; [done|].
    rewrite !slen_app. change (slen "{") with 1. change (slen "}") with 1. pose proof (slen_nonneg b).
    destruct fmt; cbv iota; rewrite ?slen_tabs ?slen_nil; [change (slen nl_text) with 1|]; lia.
Qed.

Lemma short_fits c depth fmt s :
  CJson.print_value c depth fmt = Some s -> numbers_valid c = true -> short s ->
  print_fits c depth fmt = true.
Proof.
  unfold short. revert depth s. induction c as [ty vs vi vd nm ch IH] using cJSON_tree_ind. intros depth s Hs Hv Hlen.
  destruct (print_alloc_le _ _ _ _ Hs Hv) as (n & Hn & Hmax). cbn [print_fits]. rewrite Hn.
  apply andb_true_iff. split; [apply Z.leb_le; lia|]. cbn [j_type j_child].
  cbn [numbers_valid] in Hv. apply andb_true_iff in Hv as [_ Hv]. rewrite forallb_forall in Hv.
  assert (forall b, slen b <= slen s ->
    Forall (fun c => exists s, CJson.print_value c (S depth) fmt = Some s /\ slen s <= slen b) ch ->
    forallb (fun c => print_fits c (S depth) fmt) ch = true) as Hparts.
  { intros b Hb Hch. apply forallb_forall. intros x Hx. rewrite !Forall_forall in IH Hch.
    pose proof (proj2 (list_elem_of_In _ _) Hx) as Hx'. destruct (Hch x Hx') as (sx & Hsx & Hlx).
    apply (IH x Hx' _ sx); [done|by apply Hv|lia]. }
  destruct ty; try done.
  - rewrite print_array_eq in Hs. destruct (CJsonRound.print_entries depth fmt ch) as [b|] eqn:Eb; [|done].
    injection Hs as <-. apply (Hparts b); [text_lia|by apply entries_short].
  - destruct ch as [|c ch]; [done|]. rewrite print_object_eq in Hs.
    destruct (CJsonRound.print_members depth fmt (c :: ch)) as [b|] eqn:Eb; [|done].
    injection Hs as <-. apply (Hparts b); [text_lia|by apply members_short].
Qed.

(** ** Runs *)

(** The memory after printing: the tree and its text, or the tree alone. *)
Definition printed_memory (c : cJSON) (l : loc) (s : string) (r : sptr) (m : mem cell) : Prop :=
  match r with
  | SHeap o => hProp_at (item (of_cJSON c) l None None ∗ o ↦ CStr s)%I (m_heap m)
  | SNull => hProp_at (item (of_cJSON c) l None None) (m_heap m)
  | SStatic _ => False
  end.

(** C22: the printer on real memory.  Let the memory hold a tree and nothing else.
    Whatever calls of [malloc] fail, [cJSON_Print] (or
    [cJSON_PrintUnformatted]) is defined: no access outside a node, a text or
    an array of texts, none through a freed pointer.  The tree is as before, and
    the memory holds, besides it, exactly the text that CJson.v says, or
    nothing, the result being NULL; the latter only if a call of [malloc] has
    failed. *)
Theorem print_in_memory c l fmt s h ans :
  CJson.print_value c 0 fmt = Some s -> numbers_valid c = true -> short s ->
  hProp_at (item (of_cJSON c) l None None) h ->
  exists r m,
    (if fmt then cJSON_Print (Some l) else cJSON_PrintUnformatted (Some l)) (Mem h ans) = Some (r, m)
    /\ printed_memory c l s r m
    /\ (ans = [] -> r <> SNull).
Proof.
  intros Hs Hv Hlen Hh. set (full := bool_decide (ans = [])).
  assert (answers_ok full ans) as Hans by (intros Hf; by apply bool_decide_eq_true in Hf).
  assert (prints_as 0 fmt c s) as Hp by (split; [done|split; [done|by eapply short_fits]]).
  destruct (hwp_run full (fuel <- heap_size ;; print_value (2 * fuel) (Some l) 0 fmt)
    (fun r => item (of_cJSON c) l None None
       ∗ match r with SHeap o => o ↦ CStr s | SNull => <affine> ⌜full = false⌝ | SStatic _ => False end)%I h ans)
    as (r & h' & ans' & Hrun & Hpost); [|done|].
  { revert Hh. apply entails_at. iIntros "Hi". iApply (print_spec with "Hi"); [done|]. iIntros "Hi". iSplit.
    - iIntros (r) "(%o & -> & Ho)". iFrame.
    - destruct full eqn:E; [done|]. by iFrame. }
  exists r, (Mem h' ans'). split; [by destruct fmt|].
  destruct r as [|o|str]; cbn [printed_memory m_heap] in *.
  - destruct Hpost as (h1 & h2 & -> & _ & Hi & Hx & Hfull). rewrite (Hx : h2 = ∅) map_union_empty.
    split; [done|]. intros Ha. exfalso. unfold full in Hfull. by rewrite bool_decide_eq_true_2 in Hfull.
  - done.
  - by destruct Hpost as (h1 & h2 & _ & _ & _ & []).
Qed.

(** A tree in memory, built by the parser. *)
Definition sample_tree : cJSON :=
  match CJson.cJSON_Parse sample_text with POk c _ => c | _ => Item cJSON_NULL None 0 (S754_zero false) None [] end.

Lemma sample_parsed : exists l h, hProp_at (item (of_cJSON sample_tree) l None None) h.
Proof.
  assert (CJson.cJSON_ParseWithOpts sample_text false = POk sample_tree EmptyString) as Hres by (vm_compute; reflexivity).
  destruct (hwp_run_empty true (cJSON_ParseWithOpts sample_text false)
    (root_post true (CJson.cJSON_ParseWithOpts sample_text false)) []) as (r & h & ans' & _ & Hpost); [|done|].
  { iApply parse_opts_spec; [rewrite Hres; by split|]. by iIntros (r) "Hr". }
  rewrite Hres in Hpost. destruct r as [[l|] [rest|ep]]; cbn [root_post] in Hpost; try done.
  - destruct Hpost as (c & h1 & h2 & -> & _ & [_ Hc] & Hi). injection Hc as <- _. by exists l, h2.
  - destruct Hpost as [_ Hx]. discriminate (Hx eq_refl).
Qed.

Lemma print_in_memory_witness :
  exists l h r m s, cJSON_Print (Some l) (Mem h [true; true; false]) = Some (r, m)
    /\ CJson.cJSON_Print sample_tree = Some s /\ printed_memory sample_tree l s r m.
Proof.
  destruct sample_parsed as (l & h & Hh).
  destruct (CJson.cJSON_Print sample_tree) as [s|] eqn:Hs; [|vm_compute in Hs; discriminate].
  assert (short s) as Hlen.
  { vm_compute in Hs. injection Hs as <-. vm_compute. congruence. }
  destruct (print_in_memory sample_tree l true s h [true; true; false] Hs) as (r & m & Hrun & Hm & _);
    [vm_compute; reflexivity|exact Hlen|exact Hh|].
  exists l, h, r, m, s. auto.
Defined.

(** C27: the lengths the printer adds up as [int]s.  For every tree that can be
    printed, the size that is allocated for its text is enough for the text and
    its terminator and at most four times the text and 64 bytes more; so, when
    the text has at most a quarter of the largest [int] less 64 bytes, no sum
    overflows, neither for the tree nor for any of its parts. *)
Theorem print_lengths_bounded c depth fmt s :
  CJson.print_value c depth fmt = Some s -> numbers_valid c = true ->
  exists n, print_alloc c depth fmt = Some n
    /\ slen s + 1 <= n <= 4 * slen s + 64
    /\ (short s -> print_fits c depth fmt = true).
Proof.
  intros Hs Hv. destruct (print_alloc_enough _ _ _ _ Hs Hv) as (n & Hn & Hlo).
  destruct (print_alloc_le _ _ _ _ Hs Hv) as (n' & Hn' & Hhi). rewrite Hn in Hn'. injection Hn' as <-.
  exists n. split; [done|]. split; [done|]. by apply short_fits.
Qed.

Lemma print_lengths_bounded_witness :
  exists s n, CJson.cJSON_Print sample_tree = Some s /\ print_alloc sample_tree 0 true = Some n
    /\ slen s + 1 <= n <= 4 * slen s + 64.
Proof.
  destruct (CJson.cJSON_Print sample_tree) as [s|] eqn:Hs; [|vm_compute in Hs; discriminate].
  destruct (print_lengths_bounded sample_tree 0 true s Hs) as (n & Hn & Hb & _); [vm_compute; reflexivity|].
  exists s, n. auto.
Defined.

(** Parsing and printing on one memory: the text, and how many cells are
    allocated when an allocation of the printer fails. *)
Definition parse_and_print (fmt : bool) (ans : list bool) : option (option string * nat) :=
  match (r <- cJSON_Parse sample_text ;;
         s <- (if fmt then cJSON_Print (fst r) else cJSON_PrintUnformatted (fst r)) ;;
         match s with SNull => cret None | _ => text <- read_str s ;; cret (Some text) end) (Mem ∅ ans) with
  | Some (t, m) => Some (t, size (m_heap m))
  | None => None
  end.

Example parse_and_print_runs :
  parse_and_print false [] = Some (Some sample_text, 6%nat)
  /\ parse_and_print true [] = Some (CJson.cJSON_Print sample_tree, 6%nat)
  /\ Forall (fun k => parse_and_print true (replicate (5 + k) true ++ [false]) = Some (None, 5%nat)) (seq 0 8).
Proof. split; [|split]; [vm_compute; reflexivity..|]. repeat constructor; vm_compute; reflexivity. Qed.
