(* ===== verification/Sim.v ===== *)
(** * Executable services

    A reference implementation of the services of [CProg]: an engine for the
    SQL statements, a Redis server, files and FastDFS tools.  It satisfies the
    contract ([sim_sound]), so every theorem proved against the contract
    applies to runs with it ([wp_run], [can_run]), and the theorems'
    hypotheses can be evaluated on concrete states. *)

From S2P Require Import Prelude CLib UtilCgi Sql Tables CProg.
From Stdlib Require Import Permutation Sorted.
From stdpp Require Import sorting.

(** ** MySQL *)

Definition pv_le (a b : Z * row) : Prop := (fst a <= fst b)%Z.
Definition pv_ge (a b : Z * row) : Prop := (fst b <= fst a)%Z.

#[export] Instance pv_le_dec : RelDecision pv_le.
Proof. intros a b. unfold pv_le. apply _. Defined.
#[export] Instance pv_ge_dec : RelDecision pv_ge.
Proof. intros a b. unfold pv_ge. apply _. Defined.
#[export] Instance pv_le_total : Total pv_le.
Proof. intros a b. unfold pv_le. lia. Qed.
#[export] Instance pv_ge_total : Total pv_ge.
Proof. intros a b. unfold pv_ge. lia. Qed.
#[export] Instance pv_le_trans : Transitive pv_le.
Proof. intros a b c. unfold pv_le. lia. Qed.
#[export] Instance pv_ge_trans : Transitive pv_ge.
Proof. intros a b c. unfold pv_ge. lia. Qed.

Section Engine.
Context {coll : Collation}.

Definition sort_pv (o : pv_order) (l : list (Z * row)) : list (Z * row) :=
  match o with
  | Unordered => l
  | Ascending => merge_sort pv_le l
  | Descending => merge_sort pv_ge l
  end.

Definition exec_limit (o : pv_order) (start count : Z) (l : list (Z * row)) : option (list row) :=
  if ((0 <=? start) && (0 <=? count))%Z
  then Some (List.map snd (firstn (Z.to_nat count) (skipn (Z.to_nat start) (sort_pv o l))))
  else None.

(** A read-only statement. *)
Definition reads (t : tables) (l : list row) : option (tables * option (list row)) :=
  Some (t, Some l).
(** A statement without a result set. *)
Definition writes (t : tables) : option (tables * option (list row)) := Some (t, None).
(** An INSERT, refused when [dup] says that a unique key is taken. *)
Definition inserts (dup : bool) (t : tables) : option (tables * option (list row)) :=
  if dup then None else Some (t, None).

(** Executing a statement; [None] is an error of the server. *)
Definition exec_sql (k : sql_kind) (args : list arg) (t : tables)
    : option (tables * option (list row)) :=
  match k, args with
  | SetNames, [] => writes t
  | SelPassword, [AStr n] =>
      reads t (List.map (fun r => [Some (u_password r)]) (List.filter (is_user n) (users t)))
  | SelUser, [AStr n] => reads t (List.map user_cols (List.filter (is_user n) (users t)))
  | InsUser, [AStr n; AStr nk; AStr p; AStr ph; AStr tm; AStr em] =>
      inserts (existsb (fun r => is_user n r || ceq (u_nickname r) nk) (users t))
        (set_users (users t ++ [mkUser n nk p ph tm em]) t)
  | SelFileCount, [AStr m] =>
      reads t (List.map (fun r => [num (f_count r)]) (List.filter (is_file m) (file_info t)))
  | SelFileId, [AStr m] =>
      reads t (List.map (fun r => [Some (f_file_id r)]) (List.filter (is_file m) (file_info t)))
  | (UpdFileCount | UpdFileCountTight), [AInt n; AStr m] =>
      writes (set_file_info (update_where (is_file m) (set_count n) (file_info t)) t)
  | DelFileInfo, [AStr m] => writes (set_file_info (delete_where (is_file m) (file_info t)) t)
  | InsFileInfo, [AStr m; AStr fid; AStr url; AInt size; AStr ty; AInt n] =>
      inserts (existsb (is_file m) (file_info t))
        (set_file_info (file_info t ++ [mkFile m fid url size ty n]) t)
  | SelUserFile, [AStr u; AStr m; AStr f] =>
      reads t (List.map ufl_cols (List.filter (is_ufl u m f) (user_file_list t)))
  | SelSharedStatus, [AStr u; AStr m; AStr f] =>
      reads t (List.map (fun r => [num (l_shared_status r)])
                 (List.filter (is_ufl u m f) (user_file_list t)))
  | SelPv, [AStr u; AStr m; AStr f] =>
      reads t (List.map (fun r => [num (l_pv r)])
                 (List.filter (is_ufl u m f) (user_file_list t)))
  | InsUserFile, [AStr u; AStr m; AStr tm; AStr f; AInt s; AInt p] =>
      writes (set_user_file_list (user_file_list t ++ [mkUfl u m tm f s p]) t)
  | SetShared, [AStr u; AStr m; AStr f] =>
      writes (set_user_file_list
                (update_where (is_ufl u m f) (set_shared 1) (user_file_list t)) t)
  | ClearShared, [AStr u; AStr m; AStr f] =>
      writes (set_user_file_list
                (update_where (is_ufl u m f) (set_shared 0) (user_file_list t)) t)
  | UpdPv, [AInt n; AStr u; AStr m; AStr f] =>
      writes (set_user_file_list (update_where (is_ufl u m f) (set_pv n) (user_file_list t)) t)
  | DelUserFile, [AStr u; AStr m; AStr f] =>
      writes (set_user_file_list (delete_where (is_ufl u m f) (user_file_list t)) t)
  | (SelUserCount | SelUserCountDq), [AStr u] =>
      reads t (List.map (fun r => [num (c_count r)]) (List.filter (is_cnt u) (user_file_count t)))
  | (InsUserCountSp | InsUserCount), [AStr u; AInt n] =>
      inserts (existsb (is_cnt u) (user_file_count t))
        (set_user_file_count (user_file_count t ++ [mkCnt u n]) t)
  | UpdUserCount, [AInt n; AStr u] =>
      writes (set_user_file_count (update_where (is_cnt u) (set_ccount n) (user_file_count t)) t)
  | DelUserCount, [AStr u] =>
      writes (set_user_file_count (delete_where (is_cnt u) (user_file_count t)) t)
  | SelShare, [AStr m; AStr f] =>
      reads t (List.map share_cols (List.filter (is_share m f) (share_file_list t)))
  | SelSharePv, [AStr m; AStr f] =>
      reads t (List.map (fun r => [num (s_pv r)])
                 (List.filter (is_share m f) (share_file_list t)))
  | InsShare, [AStr u; AStr m; AStr tm; AStr f; AInt p] =>
      writes (set_share_file_list (share_file_list t ++ [mkShare u m tm f p]) t)
  | DelShare, [AStr u; AStr m; AStr f] =>
      writes (set_share_file_list (delete_where (is_ushare u m f) (share_file_list t)) t)
  | UpdSharePv, [AInt n; AStr m; AStr f] =>
      writes (set_share_file_list (update_where (is_share m f) (set_spv n) (share_file_list t)) t)
  | SelFiles, [AStr u; AInt a; AInt n] => pair t <$> (Some <$> exec_limit Unordered a n (join_ufl u t))
  | SelFilesAsc, [AStr u; AInt a; AInt n] =>
      pair t <$> (Some <$> exec_limit Ascending a n (join_ufl u t))
  | SelFilesDesc, [AStr u; AInt a; AInt n] =>
      pair t <$> (Some <$> exec_limit Descending a n (join_ufl u t))
  | SelShareFiles, [AInt a; AInt n] =>
      pair t <$> (Some <$> exec_limit Unordered a n (join_share t))
  | SelRanking, [] =>
      reads t (List.map snd (merge_sort pv_ge (List.map (fun r =>
        (s_pv r, [Some (s_md5 r); Some (s_filename r); num (s_pv r)])) (share_file_list t))))
  | _, _ => None
  end.

Lemma sort_pv_spec o l : Permutation (sort_pv o l) l /\ ordered o (sort_pv o l).
Proof.
  destruct o; simpl; split; try done; try apply merge_sort_Permutation.
  - apply (StronglySorted_merge_sort pv_le).
  - apply (StronglySorted_merge_sort pv_ge).
Qed.

Lemma exec_limit_spec o a n l rs :
  exec_limit o a n l = Some rs -> selects_limit (Some rs) o a n l.
Proof.
  unfold exec_limit. destruct (_ && _) eqn:E; [|done]. intros [= <-].
  apply andb_prop in E as [Ha Hn]. repeat split; [lia|lia|].
  exists (sort_pv o l). destruct (sort_pv_spec o l). done.
Qed.

Lemma exec_limit_stmt o a n l (t t' : tables) rs :
  pair t <$> (Some <$> exec_limit o a n l) = Some (t', rs) ->
  t' = t /\ selects_limit rs o a n l.
Proof.
  destruct (exec_limit o a n l) as [l'|] eqn:E; [|done]. simpl. intros [= <- <-].
  split; [done|]. by apply exec_limit_spec.
Qed.

Lemma exec_sql_sound k args t t' rs :
  exec_sql k args t = Some (t', rs) -> stmt_spec k args t t' rs.
Proof.
  destruct k; cbn [exec_sql stmt_spec];
    repeat match goal with
    | |- context [match ?x with [] => _ | _ :: _ => _ end] => destruct x
    | |- context [match ?x with AStr _ => _ | AInt _ => _ end] => destruct x
    end; try done; unfold reads, writes, inserts.
  all: try (intros [= <- <-]; split; [done|]; first [done | by eexists]).
  all: try (by apply exec_limit_stmt).
  all: try (destruct (existsb _ _); [done|]; by intros [= <- <-]).
  intros [= <- <-]. split; [done|]. eexists. split; [reflexivity|].
  split; [apply (StronglySorted_merge_sort pv_ge)|apply merge_sort_Permutation].
Qed.
End Engine.

(** ** Redis *)

#[export] Instance rank_ge_dec : RelDecision rank_ge.
Proof. intros a b. unfold rank_ge. apply _. Defined.

Lemma rank_leb_trans a b c :
  String.leb a b = true -> String.leb b c = true -> String.leb a c = true.
Proof.
  intros H1 H2. apply Is_true_true. apply Is_true_true in H1, H2.
  exact (transitivity (R := String.le) H1 H2).
Qed.

#[export] Instance rank_ge_trans : Transitive rank_ge.
Proof.
  intros a b c [H1|[H1 L1]] [H2|[H2 L2]]; unfold rank_ge; [left; lia..|].
  right. split; [lia|]. eapply rank_leb_trans; eauto.
Qed.

#[export] Instance rank_ge_total : Total rank_ge.
Proof.
  intros a b. unfold rank_ge. destruct (Z.lt_trichotomy (snd a) (snd b)) as [?|[?|?]]; [auto| |auto].
  destruct (String.leb_total (fst a) (fst b)) as [?|?]; auto.
Qed.

Definition WRONGTYPE : reply := RError "WRONGTYPE Operation against a key holding the wrong kind of value".

Definition on_zset (r : gmap string rval) (k : string)
    (f : gmap string Z -> reply * gmap string rval) : reply * gmap string rval :=
  match zset_of r k with Some z => f z | None => (WRONGTYPE, r) end.
Definition on_hash (r : gmap string rval) (k : string)
    (f : gmap string string -> reply * gmap string rval) : reply * gmap string rval :=
  match hash_of r k with Some h => f h | None => (WRONGTYPE, r) end.

(** The commands of the CGI programs; [None] for any other. *)
Definition redis_exec (argv : list string) (r : gmap string rval)
    : option (reply * gmap string rval) :=
  match argv with
  | [c; k] =>
      if streq c "get" then
        Some (match r !! k with
              | Some (VStr v) => (RString v, r)
              | None => (RNil, r)
              | _ => (WRONGTYPE, r)
              end)
      else if streq c "DEL" then
        Some (match r !! k with Some _ => (RInteger 1, delete k r) | None => (RInteger 0, r) end)
      else if streq c "ZCARD" then
        Some (on_zset r k (fun z => (RInteger (Z.of_nat (size z)), r)))
      else None
  | [c; k; a] =>
      if streq c "ZREM" then
        Some (on_zset r k (fun z => (RInteger (if decide (a ∈ dom z) then 1 else 0),
                                     put_zset k (delete a z) r)))
      else if streq c "ZSCORE" then
        Some (on_zset r k (fun z =>
          (match z !! a with Some s => RString (dec_string s) | None => RNil end, r)))
      else if streq c "hget" then
        Some (on_hash r k (fun h => (match h !! a with Some v => RString v | None => RNil end, r)))
      else if streq c "hdel" then
        Some (on_hash r k (fun h => (RInteger (if decide (a ∈ dom h) then 1 else 0),
                                     put_hash k (delete a h) r)))
      else None
  | [c; k; a; b] =>
      if streq c "setex" then Some (RStatus "OK", <[k := VStr b]> r)
      else if streq c "ZADD" then
        Some (on_zset r k (fun z => (RInteger (if decide (b ∈ dom z) then 0 else 1),
                                     <[k := VZset (<[b := strtol a]> z)]> r)))
      else if streq c "ZINCRBY" && streq a "1" then
        Some (on_zset r k (fun z =>
          let s := (default 0%Z (z !! b) + 1)%Z in
          (RString (dec_string s), <[k := VZset (<[b := s]> z)]> r)))
      else if streq c "zlexcount" then
        match a with
        | String _ m =>
            if streq a ("[" +:+ m) && streq b ("[" +:+ m)
            then Some (on_zset r k (fun z => (RInteger (if decide (m ∈ dom z) then 1 else 0), r)))
            else None
        | EmptyString => None
        end
      else if streq c "ZREVRANGE" then
        Some (on_zset r k (fun z =>
          (RArray (List.map (fun p => RString (fst p))
             (range_slice (merge_sort rank_ge (map_to_list z)) (strtol a) (strtol b))), r)))
      else if streq c "hset" then
        Some (on_hash r k (fun h => (RInteger (if decide (a ∈ dom h) then 0 else 1),
                                     <[k := VHash (<[a := b]> h)]> r)))
      else None
  | _ => None
  end.

Lemma redis_exec_sound argv r rep r' :
  redis_exec argv r = Some (rep, r') ->
  redis_spec argv r rep r' /\ match rep with RError s => (slen s <= MSG_MAX)%Z | _ => True end.
Proof.
  unfold redis_exec, on_zset, on_hash, WRONGTYPE. intros H.
  repeat match type of H with
  | context [match ?l with [] => _ | _ :: _ => _ end] => destruct l; try done
  end;
  repeat match type of H with
  | context [if streq ?a ?b && streq ?c ?d then _ else _] =>
      destruct (streq a b) eqn:?; cbn [andb] in H;
      [destruct (streq c d) eqn:?|]
  | context [if streq ?a ?b then _ else _] => destruct (streq a b) eqn:?
  end; try done.
  all: repeat match goal with E : streq _ _ = true |- _ => apply streq_true in E; subst end.
  all: repeat match type of H with
  | context [match ?m !! ?k with _ => _ end] =>
      match type of m with gmap string rval => destruct (m !! k) as [[]|] eqn:? end
  | context [match zset_of ?r ?k with _ => _ end] => destruct (zset_of r k) eqn:?
  | context [match hash_of ?r ?k with _ => _ end] => destruct (hash_of r k) eqn:?
  end; try done.
  all: try (injection H as <- <-).
  all: try (split; [|done || (vm_compute; done)]; econstructor; eauto;
            first [done | congruence | by eexists | by intros ?; congruence]).
  - split; [by constructor|]. by destruct (g !! s1).
  - split; [by constructor|]. by destruct (g !! s1).
  - destruct s1 as [|b s1]; [done|].
    destruct (streq (String b s1) ("[" +:+ s1)) eqn:E1; [|done].
    destruct (streq s2 ("[" +:+ s1)) eqn:E2; [|done].
    apply streq_true in E1, E2. rewrite E1, E2. injection H as <- <-.
    split; [|done]. eapply spec_zlexcount; eauto. destruct (decide _); lia.
  - destruct s1 as [|b s1]; [done|].
    destruct (streq (String b s1) ("[" +:+ s1)) eqn:E1; [|done].
    destruct (streq s2 ("[" +:+ s1)) eqn:E2; [|done].
    apply streq_true in E1, E2. rewrite E1, E2. injection H as <- <-.
    split; [by constructor|vm_compute; done].
  - split; [|done]. eapply spec_zrevrange; [eauto|apply merge_sort_Permutation|].
    apply (StronglySorted_merge_sort rank_ge).
Qed.

(** ** All services *)

(** The configuration file and file id of a delete command. *)
Definition parse_delete (cmd : string) : option (string * string) :=
  if String.prefix "fdfs_delete_file " cmd then
    let '(conf, rest) := span (fun c => negb (Ascii.eqb c " ")) (sdrop 17 cmd) in
    match rest with String _ fid => Some (conf, fid) | EmptyString => None end
  else None.

Lemma parse_delete_cmd conf fid :
  conf = EmptyString \/ shell_word conf = true ->
  parse_delete (delete_cmd conf fid) = Some (conf, fid).
Proof.
  intros Hc. assert (sforall word_char conf = true) as Hw.
  { destruct Hc as [->|[_ ?]%andb_prop]; done. }
  unfold parse_delete, delete_cmd. rewrite CLib.prefix_app.
  change 17%nat with (String.length "fdfs_delete_file "). rewrite sdrop_app.
  change (" " +:+ fid) with (String " " fid). rewrite span_app; [done| |done].
  eapply sforall_impl; [|exact Hw]. intros c Hcc. destruct (Ascii.eqb_spec c " "); [|done].
  by subst.
Qed.

Section Services.
Context {coll : Collation}.

Definition NOW : string := "2024-01-01 00:00:00".

Definition new_fid (o : obs) : string :=
  "group1/M00/00/00/" +:+ dec_string (Z.of_nat (size (o_dfs o))).

(** Every service answers without failure; [None] is a call outside the
    contract. *)
Definition sim (e : event) : obs -> option (answer e * obs) :=
  match e return obs -> option (answer e * obs) with
  | MysqlInit => fun o => Some (true, add_my 1 o)
  | MysqlRealConnect _ _ _ => fun o => Some (true, o)
  | MysqlQuery sql => fun o =>
      match parse_sql sql with
      | Some (k, args) =>
          match exec_sql k args (o_tables o) with
          | Some (t, rs) => Some (0%Z, with_tables t rs o)
          | None => Some (1%Z, with_tables (o_tables o) None o)
          end
      | None =>
          if streq sql EmptyString then Some (1%Z, with_tables (o_tables o) None o) else None
      end
  | MysqlStoreResult => fun o => Some (o_result o, with_tables (o_tables o) None o)
  | MysqlError => fun o => Some ("error", o)
  | MysqlClose => fun o => Some (tt, add_my (-1) o)
  | RedisConnect _ _ | RedisConnectUnix _ | RedisConnectTimeout _ _ _ =>
      fun o => Some (RcOk, add_rd 1 o)
  | RedisCommand argv => fun o =>
      match redis_exec argv (o_redis o) with
      | Some (rep, r) => Some (Some rep, with_redis r o)
      | None => None
      end
  | RedisFree => fun o => Some (tt, add_rd (-1) o)
  | Printf s => fun o => Some (tt, with_out (o_out o +:+ s) o)
  | ReadFile p => fun o => Some (o_files o !! p, o)
  | OpenWrite p => fun o =>
      Some (true, with_files (<[p := default EmptyString (o_files o !! p)]> (o_files o)) o)
  | WriteFile p c => fun o => Some (tt, with_files (<[p := c]> (o_files o)) o)
  | Unlink p => fun o => Some (tt, with_files (delete p (o_files o)) o)
  | Now => fun o => Some (NOW, o)
  | Rand => fun o => Some (7%Z, o)
  | Uninit => fun o => Some (0%Z, o)
  | Malloc n => fun o => Some (((0 <=? n) && (n <=? LONG_MAX))%Z, o)
  | Pipe => fun o => Some (true, o)
  | Fork _ => fun o => Some (ForkParent, o)
  | RunTool tool _ file => fun o =>
      if streq tool "fdfs_upload_file" then
        match o_files o !! file, o_dfs o !! new_fid o with
        | Some c, None =>
            if (slen (new_fid o) <=? 127)%Z && shell_word (new_fid o)
            then Some (new_fid o +:+ nl, with_dfs (<[new_fid o := c]> (o_dfs o)) o)
            else Some (EmptyString, o)
        | _, _ => Some (EmptyString, o)
        end
      else Some (SOURCE_IP +:+ "127.0.0.1" +:+ nl, o)
  | System cmd => fun o =>
      match parse_delete cmd with
      | Some (conf, fid) =>
          if streq conf EmptyString then Some (1%Z, o)
          else Some (0%Z, with_dfs (delete fid (o_dfs o)) o)
      | None => None
      end
  end.

Lemma sim_sound e o a o' : sim e o = Some (a, o') -> ev_spec e o a o'.
Proof.
  destruct e as [| |s| | | | | | |argv| | | | | | | | | |n| |tool|tool conf file|cmd];
    cbn [sim ev_spec]; try (intros [= <- <-]; simpl; auto; fail).
  - destruct (parse_sql s) as [[k args]|];
      [|destruct (streq s EmptyString); [by intros [= <- <-]|done]].
    destruct (exec_sql k args (o_tables o)) as [[t rs]|] eqn:E; intros [= <- <-].
    + right. split; [done|]. exists t, rs. split; [|done]. by apply exec_sql_sound.
    + left. done.
  - intros [= <- <-]. split; [done|vm_compute; done].
  - destruct (redis_exec argv (o_redis o)) as [[rep r]|] eqn:E; [|done]. intros [= <- <-].
    apply redis_exec_sound in E as [Hr He]. by exists rep, r.
  - intros [= <- <-]. eexists. split; [by left|done].
  - intros [= <- <-]. split; [done|]. done.
  - intros [= <- <-]. split; [done|]. unfold is_int, INT_MIN, INT_MAX. lia.
  - intros [= <- <-]. split; [done|]. intros [H1 H2]%andb_prop. lia.
  - intros [= <- <-]. split; [done|]. done.
  - unfold tool_spec. destruct (streq tool "fdfs_upload_file").
    + destruct (o_files o !! file) as [c|] eqn:Ef; [|intros [= <- <-]; by left].
      destruct (o_dfs o !! new_fid o) eqn:Ed; [intros [= <- <-]; by left|].
      destruct ((slen (new_fid o) <=? 127)%Z && shell_word (new_fid o)) eqn:E;
        intros [= <- <-]; [|by left].
      apply andb_prop in E as [El Ew]. right. exists (new_fid o), c.
      split_and!; [done..|lia|done|by left].
    + destruct (streq tool "fdfs_file_info"); intros [= <- <-]; [|done].
      split; [done|]. split; [done|]. split; [done|]. right. exists "127.0.0.1".
      exists 0%nat, EmptyString. by split_and!.
  - destruct (parse_delete cmd) as [[conf fid]|] eqn:E; [|done].
    destruct (streq conf EmptyString) eqn:Ec; intros [= <- <-];
      (split; [unfold is_int, INT_MIN, INT_MAX; lia|]); intros conf' fid' -> Hf;
      (split; [intros ->|intros Hw]).
    + done.
    + rewrite parse_delete_cmd in E by (by right). injection E as -> ->.
      apply streq_true in Ec as ->. done.
    + rewrite parse_delete_cmd in E by (by left). by injection E as <- <-.
    + rewrite parse_delete_cmd in E by (by right). injection E as -> ->. by right.
Qed.

(** Running a program with these services; [None] is a crash or a call
    outside the contract. *)
Fixpoint run {X A} (p : prog X A) (o : obs) : option ((A + X) * obs) :=
  match p with
  | Ret a => Some (inl a, o)
  | Goto x => Some (inr x, o)
  | Crash => None
  | Call e k =>
      match sim e o with
      | Some (a, o') => run (k a) o'
      | None => None
      end
  end.

(** A run of a program satisfies what was proved for all runs. *)
Lemma wp_run {X A} (p : prog X A) Q G o a o' :
  wp p Q G o -> run p o = Some (inl a, o') -> Q a o'.
Proof.
  revert o. induction p as [b|x| |e k IH]; intros o; simpl; try done.
  - by intros H [= <- <-].
  - intros H. destruct (sim e o) as [[b o1]|] eqn:E; [|done].
    apply IH, H, sim_sound, E.
Qed.

(** The value a run returns. *)
Definition returned {X A} (p : prog X A) (o : obs) : option A :=
  match run p o with Some (inl a, _) => Some a | _ => None end.

(** The value and the state a run ends with satisfy [Q]. *)
Definition run_ends {X A} (p : prog X A) (o : obs) (Q : A -> obs -> Prop) : Prop :=
  match run p o with Some (inl a, o') => Q a o' | _ => False end.

Lemma wp_run_ends {X A} (p : prog X A) Q G o a :
  wp p Q G o -> returned p o = Some a -> run_ends p o Q.
Proof.
  unfold returned, run_ends. intros Hwp. destruct (run p o) as [[[b|x] o']|] eqn:E; try done.
  intros _. eapply wp_run; eauto.
Qed.

(** A run shows that an outcome is possible. *)
Lemma can_run {X A} (p : prog X A) Q G o a o' :
  run p o = Some (inl a, o') -> Q a o' -> can p Q G o.
Proof.
  revert o. induction p as [b|x| |e k IH]; intros o; simpl; try done.
  - by intros [= <- <-].
  - destruct (sim e o) as [[b o1]|] eqn:E; [|done]. intros Hr HQ. exists b, o1.
    split; [by apply sim_sound|]. eauto.
Qed.

(** A run that ends in undefined behaviour. *)
Fixpoint crashes {X A} (p : prog X A) (o : obs) : bool :=
  match p with
  | Ret _ | Goto _ => false
  | Crash => true
  | Call e k =>
      match sim e o with
      | Some (a, o') => crashes (k a) o'
      | None => false
      end
  end.

(** Such a run refutes every safety statement. *)
Lemma crashes_not_wp {X A} (p : prog X A) Q G o : crashes p o = true -> ~ wp p Q G o.
Proof.
  revert o. induction p as [b|x| |e k IH]; intros o; simpl; try done; [auto|].
  destruct (sim e o) as [[b o1]|] eqn:E; [|done]. intros Hc Hwp.
  eapply IH; [exact Hc|]. by apply Hwp, sim_sound.
Qed.
End Services.
