(* ===== verification/Config.v ===== *)
(** * Configuration (src/src/common/config.c)

    [get_config_value] reads a value of the JSON configuration file;
    [get_mysql_info] reads the three MySQL settings and stops at the first
    failure.  Buffers are passed with their capacity and their content, which
    a failed lookup leaves as it was. *)

From S2P Require Import Prelude CLib UtilCgi Sql Tables CProg CJson.

Definition CONFIG_PATH : string := "/home/huafeng/HF_DFS/src/conf/config.json".

(** [cJSON_Parse (buf)]: [None] is NULL. *)
Definition json_parse {X} (buf : string) : prog X (option cJSON) :=
  match cJSON_Parse buf with
  | POk root _ => Ret (Some root)
  | PErr => Ret None
  | PUndef | PFuel => Crash
  end.

Definition get_config_value {X} (profile title key : string) (cap : Z) (value : string)
    : prog X (Z * string) :=
  buf <- call (ReadFile profile) ;;
  match buf with
  | None => LOG "fopen err" [] ;;; Ret (-1, value)%Z
  | Some content =>
      root <- json_parse (cstr content) ;;
      match root with
      | None => LOG "root err" [] ;;; Ret (-1, value)%Z
      | Some root =>
          match cJSON_GetObjectItem root title with
          | None => LOG "father err" [] ;;; Ret (-1, value)%Z
          | Some father =>
              match cJSON_GetObjectItem father key with
              | None => LOG "son err" [] ;;; Ret (-1, value)%Z
              | Some son => s <- strcpy_opt cap (j_valuestring son) ;; Ret (0, s)%Z
              end
          end
      end
  end.

(** The result and the three buffers, of 256 bytes in the callers. *)
Definition get_mysql_info {X} (mysql_user mysql_pwd mysql_db : string)
    : prog X (Z * (string * string * string)) :=
  let* (r, mysql_user) := get_config_value CONFIG_PATH "mysql" "user" 256 mysql_user in
  if (r =? -1)%Z then LOG "mysql_user err" [] ;;; Ret (-1, (mysql_user, mysql_pwd, mysql_db))%Z
  else
    let* (r, mysql_pwd) := get_config_value CONFIG_PATH "mysql" "password" 256 mysql_pwd in
    if (r =? -1)%Z then LOG "mysql_pwd err" [] ;;; Ret (-1, (mysql_user, mysql_pwd, mysql_db))%Z
    else
      let* (r, mysql_db) := get_config_value CONFIG_PATH "mysql" "database" 256 mysql_db in
      if (r =? -1)%Z then LOG "mysql_db err" [] ;;; Ret (-1, (mysql_user, mysql_pwd, mysql_db))%Z
      else Ret (0, (mysql_user, mysql_pwd, mysql_db))%Z.

(** ** What a configuration file gives *)

Definition config_item (content title key : string) : outcome string :=
  match cJSON_Parse (cstr content) with
  | POk root _ =>
      match cJSON_GetObjectItem root title with
      | None => Err
      | Some father =>
          match cJSON_GetObjectItem father key with
          | None => Err
          | Some son => match j_valuestring son with Some v => Ok v | None => Undef end
          end
      end
  | PErr => Err
  | PUndef | PFuel => Undef
  end.

Definition config_fits (content : string) (u : string * string * Z) : bool :=
  let '(title, key, cap) := u in
  match config_item content title key with
  | Ok v => (slen v <? cap)%Z
  | Err => true
  | Undef => false
  end.

(** The settings the programs read, with their smallest buffers. *)
Definition config_uses : list (string * string * Z) :=
  [("mysql", "user", 128); ("mysql", "password", 128); ("mysql", "database", 128);
   ("redis", "ip", 30); ("redis", "port", 10);
   ("dfs_path", "client", 256); ("storage_web_server", "port", 10)]%Z.

Definition config_good (content : string) : bool :=
  forallb (config_fits content) config_uses
  && match config_item content "dfs_path" "client" with Ok v => shell_word v | _ => true end.

(** The configuration file, if there is one, has settings that fit. *)
Definition conf_ok (o : obs) : Prop :=
  forall c, o_files o !! CONFIG_PATH = Some c -> config_good c = true.

Section Rules.
Context {coll : Collation}.

Lemma wp_LOG_const {X} f (Q : unit -> obs -> Prop) (G : X -> obs -> Prop) o :
  match format (f +:+ nl) [] with Some s => (slen s <? LOG_BUF)%Z | None => false end = true ->
  Q tt o -> wp (LOG f []) Q G o.
Proof.
  unfold LOG, LOG0. destruct (format (f +:+ nl) []); [|done]. by intros ->.
Qed.

(** Reading a setting: failure leaves the buffer, success fills it with the
    configured value. *)
Lemma wp_config {X} title key cap0 cap value (Q : Z * string -> obs -> Prop) (G : X -> obs -> Prop) o :
  conf_ok o -> In (title, key, cap0) config_uses -> (cap0 <= cap)%Z ->
  Q (-1, value)%Z o ->
  (forall c v, o_files o !! CONFIG_PATH = Some c -> config_item c title key = Ok v ->
     (slen v < cap0)%Z -> Q (0, v)%Z o) ->
  wp (get_config_value CONFIG_PATH title key cap value) Q G o.
Proof.
  intros Hok Hin Hcap Hfail Hgood buf o' [-> Hbuf]. simpl.
  destruct buf as [content|]; [|exact Hfail].
  destruct Hbuf as [Hc|]; [|done]. symmetry in Hc.
  pose proof (Hok content Hc) as [Hall _]%andb_prop. rewrite forallb_forall in Hall.
  specialize (Hall _ Hin). simpl in Hall. specialize (Hgood content).
  unfold config_item in Hall, Hgood. unfold json_parse.
  destruct (cJSON_Parse (cstr content)) as [root rest| | |]; try done. simpl.
  destruct (cJSON_GetObjectItem root title) as [father|];
    [|exact Hfail].
  destruct (cJSON_GetObjectItem father key) as [son|];
    [|exact Hfail].
  destruct (j_valuestring son) as [v|]; [|done]. apply wp_bind, wp_strcpy; [lia|].
  apply Hgood; [done..|lia].
Qed.

(** The same when the value does not matter: the buffer's content still fits. *)
Lemma wp_setting {X} title key cap0 cap value (Q : Z * string -> obs -> Prop)
    (G : X -> obs -> Prop) o :
  conf_ok o -> In (title, key, cap0) config_uses -> (cap0 <= cap)%Z -> (slen value < cap0)%Z ->
  (forall r v, (r = 0 \/ r = -1)%Z -> (slen v < cap0)%Z -> Q (r, v) o) ->
  wp (get_config_value CONFIG_PATH title key cap value) Q G o.
Proof. intros Hok Hin Hcap Hv HQ. eapply wp_config; eauto. Qed.
End Rules.
