(* ===== verification/Demo.v ===== *)
(** * A concrete installation

    A configuration file and a state of the services on which the theorems'
    hypotheses are evaluated. *)

From S2P Require Import Prelude CLib UtilCgi Sql Tables CProg Redis CJson Config Sim.

Definition obj (l : list (string * cJSON)) : cJSON :=
  fold_left (fun o p => cJSON_AddItemToObject o (fst p) (snd p)) l cJSON_CreateObject.
Definition str (s : string) : cJSON := cJSON_CreateString s.

(** The text of a JSON object. *)
Definition json_text (l : list (string * cJSON)) : string :=
  default EmptyString (cJSON_PrintUnformatted (obj l)).

(** The settings of src/src/conf/config.json. *)
Definition demo_config : string :=
  json_text
    [("web_server", obj [("ip", str "192.168.181.1"); ("port", str "80")]);
     ("mysql", obj [("ip", str "127.0.0.1"); ("port", str "3306"); ("database", str "HFDFS");
                    ("user", str "huafeng"); ("password", str "huafeng")]);
     ("redis", obj [("ip", str "127.0.0.1"); ("port", str "6379")]);
     ("dfs_path", obj [("client", str "/etc/fdfs/client.conf")]);
     ("storage_web_server", obj [("ip", str "192.168.181.1"); ("port", str "80")])].

Definition demo_obs (t : tables) (r : gmap string rval) : obs :=
  mkObs t None r EmptyString {[ CONFIG_PATH := demo_config ]} ∅ 0 0.

Lemma demo_conf_ok t r : conf_ok (demo_obs t r).
Proof.
  intros c. unfold demo_obs. cbn [o_files]. rewrite lookup_singleton_eq. intros [= <-].
  vm_compute. reflexivity.
Qed.

(** Byte-wise comparison of strings. *)
Definition binary_collation : Collation := fun s => s.

Definition no_tables : tables := mkTables [] [] [] [] [].
