(* ===== verification/Auth.v ===== *)
(** * Status texts and token check (src/src/common/util_cgi.c)

    [return_status] prints the status object {"code": ...} through cJSON;
    [verify_token] compares a token with the one Redis stores for the user. *)

From S2P Require Import Prelude CLib UtilCgi Sql Tables CProg Redis CJson Config Sim Demo.

(** [return_status (status_num)]; [None] is a NULL result. *)
Definition return_status (status_num : string) : option string :=
  cJSON_Print (cJSON_AddStringToObject cJSON_CreateObject "code" status_num).

Definition TOKEN_LEN : Z := 128.

Definition verify_token {X} (user token : string) : prog X Z :=
  let* (_, redis_ip) := get_config_value CONFIG_PATH "redis" "ip" 30 EmptyString in
  let* (_, redis_port) := get_config_value CONFIG_PATH "redis" "port" 10 EmptyString in
  redis_conn <- rop_connectdb_nopwd redis_ip redis_port ;;
  if negb redis_conn then LOG "redis connected error" [] ;;; Ret (-1)%Z
  else
    let* (ret, tmp_token) := rop_get_string user 128 in
    let ret := if (ret =? 0)%Z && negb (streq token tmp_token) then (-1)%Z else ret in
    rop_disconnect ;;; Ret ret.

(** The response texts, one per status code. *)
Definition status_text (code : string) : string :=
  match return_status code with Some s => s | None => EmptyString end.

(** Everything but the response, the tables and Redis. *)
Definition kept (o o' : obs) : Prop :=
  o_files o' = o_files o /\ o_dfs o' = o_dfs o /\ o_my o' = o_my o /\ o_rd o' = o_rd o.

(** Tokens in Redis are C strings shorter than the buffer they are read into. *)
Definition tokens_fit (r : gmap string rval) : Prop :=
  forall u v, r !! u = Some (VStr v) -> (slen v < 128)%Z /\ no_nul v = true.

Section Rules.
Context {coll : Collation}.

(** What a token check may do: keep the state, or lose an expired token. *)
Definition token_checked (user token : string) (o : obs) (ret : Z) (o' : obs) : Prop :=
  (ret = 0%Z /\ o' = o /\ o_redis o !! user = Some (VStr token))
  \/ (ret = (-1)%Z /\ (o' = o \/ o' = with_redis (delete user (o_redis o)) o)).

Lemma wp_verify_token {X} user token (Q : Z -> obs -> Prop) (G : X -> obs -> Prop) o :
  conf_ok o -> tokens_fit (o_redis o) ->
  (forall ret o', token_checked user token o ret o' -> Q ret o') ->
  wp (verify_token user token) Q G o.
Proof.
  intros Hc Ht HQ. unfold verify_token. wp_binds.
  eapply wp_setting; [done|simpl; tauto|lia|done|]. intros _ ip _ Hip. wp_binds.
  eapply wp_setting; [done|simpl; tauto|lia|done|]. intros _ port _ Hport. wp_binds.
  apply wp_connectdb_nopwd; [lia|]. intros [|]; cbn [negb].
  2:{ wp_log. apply HQ. right. auto. }
  wp_binds. apply wp_get_string; cbn [o_redis add_rd].
  - intros v Hv. by apply (Ht user).
  - intros _. wp_binds. apply wp_disconnect. wp_binds. apply HQ. right. split; [done|right].
    obs_eq.
  - wp_binds. apply wp_disconnect. wp_binds. rewrite add_rd_cancel. apply HQ. right. auto.
  - intros v Hv. destruct (Ht user v Hv) as [_ Hn]. rewrite cstr_id by done. wp_binds.
    apply wp_disconnect. wp_binds. rewrite add_rd_cancel. apply HQ. cbn [Z.eqb andb].
    destruct (streq token v) eqn:E; [left|right; auto].
    apply streq_true in E. by subst.
Qed.

(** C8: [verify_token] accepts only the token that Redis holds for this very
    user: when it returns 0 the state is unchanged and the key named by the user
    has exactly this token as its value.  When it returns -1 nothing has changed
    but possibly the removal of the user's expired token.  In every case the
    connection it opened is closed again. *)
Theorem verify_token_sound (user token : string) (o : obs) :
  conf_ok o -> tokens_fit (o_redis o) ->
  wp (verify_token (X := Empty_set) user token)
     (fun ret o' =>
        kept o o' /\ o_tables o' = o_tables o /\ o_out o' = o_out o
        /\ (ret = 0%Z -> o_redis o' = o_redis o /\ o_redis o !! user = Some (VStr token))
        /\ (ret <> 0%Z -> ret = (-1)%Z
             /\ (o_redis o' = o_redis o \/ o_redis o' = delete user (o_redis o))))
     (fun _ _ => False) o.
Proof.
  intros Hc Ht. apply wp_verify_token; [done..|].
  intros ret o' [(-> & -> & Hu)|(-> & [->| ->])]; repeat split; auto; lia.
Qed.
End Rules.

Definition demo_token_redis : gmap string rval := {[ "bob" := VStr "t0k" ]}.

Lemma tokens_fit_demo : tokens_fit demo_token_redis.
Proof.
  intros u v. unfold demo_token_redis. rewrite lookup_singleton_Some. by intros [_ [= <-]].
Qed.

Lemma verify_token_sound_witness :
  let o := demo_obs no_tables demo_token_redis in
  returned (coll := binary_collation) (X := Empty_set) (verify_token "bob" "t0k") o = Some 0%Z
  /\ returned (coll := binary_collation) (X := Empty_set) (verify_token "bob" "bad") o = Some (-1)%Z
  /\ run_ends (coll := binary_collation) (X := Empty_set) (verify_token "bob" "t0k") o
       (fun ret o' => ret = 0%Z -> o_redis o !! "bob" = Some (VStr "t0k")).
Proof.
  intros o. split; [vm_compute; reflexivity|]. split; [vm_compute; reflexivity|].
  eapply (wp_run_ends (coll := binary_collation) _ _ (fun _ _ => False) _ 0%Z);
    [|vm_compute; reflexivity].
  eapply wp_mono; [apply (verify_token_sound (coll := binary_collation) "bob" "t0k" o)| |].
  - apply demo_conf_ok.
  - apply tokens_fit_demo.
  - intros a o' H. apply H.
  - done.
Defined.
