(* ===== verification/Handler.v ===== *)
(** * What the request handlers share

    The globals read from the configuration, the code at the END labels, the
    guarded statements, and the abstract operations on the tables in which
    the handlers' effects are stated: a handler that succeeds has applied its
    operations in order, a handler that fails has applied a prefix of them. *)

From S2P Require Import Prelude CLib UtilCgi Sql Tables CProg Mysql Redis CJson Config Auth.
From Stdlib Require Import Permutation.

(** The static buffers of a CGI program: MySQL and Redis settings. *)
Record conf := mkConf {
  mysql_user : string; mysql_pwd : string; mysql_db : string;
  redis_ip : string; redis_port : string }.

Definition conf_fits (cf : conf) : Prop := (slen (redis_ip cf) < 30)%Z.

(** [ret] and the two handles (non-NULL or not) at an END label. *)
Record end_state := mkEnd { e_ret : Z; e_redis : bool; e_conn : bool }.

(** The state at END once both connections are open. *)
Definition both (ret : Z) : end_state := mkEnd ret true true.

(** [out = return_status (code); if (out != NULL) printf (out)]. *)
Definition print_status {X} (code : string) : prog X unit :=
  match return_status code with Some out => printf out [] | None => Ret tt end.

(** The END block: the status for [ret], then the handles are closed. *)
Definition finish {X} (codes : Z -> option string) (e : end_state) : prog X Z :=
  match codes (e_ret e) with Some code => print_status code | None => Ret tt end ;;;
  (if e_redis e then rop_disconnect else Ret tt) ;;;
  (if e_conn e then mysql_close else Ret tt) ;;;
  Ret (e_ret e).

(** [if (mysql_query (conn, sql_cmd) != 0) { LOG ...; goto END }] *)
Definition must {X} (fmt sql_cmd : string) (e : X) : prog X unit :=
  r <- mysql_query sql_cmd ;;
  if (r =? 0)%Z then Ret tt
  else err <- call MysqlError ;; LOG fmt [AStr sql_cmd; AStr err] ;;; Goto e.

(** [ret2 = process_result_one (conn, sql_cmd, tmp); if (ret2 != 0) goto END],
    with [char tmp[512]]. *)
Definition must_select {X} (fmt sql_cmd tmp : string) (e : X) : prog X string :=
  let* (ret2, tmp) := process_result_one sql_cmd (Some (512%Z, tmp)) in
  if (ret2 =? 0)%Z then Ret tmp
  else LOG fmt [AStr sql_cmd] ;;; Goto e.

(** The same with the log message of dealsharefile_cgi, which does not ask for
    the error text. *)
Definition must1 {X} (fmt sql_cmd : string) (e : X) : prog X unit :=
  r <- mysql_query sql_cmd ;;
  if (r =? 0)%Z then Ret tt else LOG fmt [AStr sql_cmd] ;;; Goto e.

(** "Look the counter of [user] up; insert it with 1 or add 1 to it": the text
    in [sql_cmd] is the SELECT, which is sent again when the lookup failed.
    [send] is the guarded statement of the caller. *)
Definition count_up {X} (send : string -> prog X unit) (ins : sql_kind)
    (user sql_cmd tmp : string) : prog X unit :=
  let* (ret2, tmp) := process_result_one sql_cmd (Some (512%Z, tmp)) in
  sql_cmd <- (if (ret2 =? 1)%Z then sql ins [AStr user; AInt 1]
              else if (ret2 =? 0)%Z
              then sql UpdUserCount [AInt (int32 (atoi tmp + 1)); AStr user]
              else Ret sql_cmd) ;;
  send sql_cmd.

(** One more owner of a stored file, whose count was read: the reference count,
    the user's row, the user's counter. *)
Definition add_reference {X} (send : string -> prog X unit) (user md5 filename : string)
    (count : Z) (tmp : string) : prog X unit :=
  sql_cmd <- sql UpdFileCount [AInt (int32 (count + 1)); AStr md5] ;;
  send sql_cmd ;;;
  time_str <- call Now ;;
  sql_cmd <- sql InsUserFile [AStr user; AStr md5; AStr time_str; AStr filename; AInt 0; AInt 0] ;;
  send sql_cmd ;;;
  sql_cmd <- sql SelUserCount [AStr user] ;;
  count_up send InsUserCountSp user sql_cmd tmp.

(** ** Requests *)

(** What the web server passes: QUERY_STRING, CONTENT_LENGTH, the body. *)
Record request := mkRequest {
  rq_query : option string; rq_length : option string; rq_body : string }.

Definition content_len (rq : request) : Z :=
  match rq_length rq with Some s => atoi s | None => 0 end.

(** [fread (buf, 1, len, stdin)] into [char buf[cap] = {0}]: [None] when it
    returns 0, otherwise the C string in [buf]. *)
Definition read_body {X} (cap len : Z) (rq : request) : prog X (option string) :=
  let n := Z.min len (slen (rq_body rq)) in
  if (n =? 0)%Z then Ret None
  else if (cap <=? n)%Z then Crash
  else Ret (Some (cstr (stake (Z.to_nat n) (rq_body rq)))).

(** The body of a request as the C string in [buf]. *)
Definition body_text (rq : request) : string :=
  cstr (stake (Z.to_nat (Z.min (content_len rq) (slen (rq_body rq)))) (rq_body rq)).

Lemma body_text_len rq : (slen (body_text rq) <= Z.min (content_len rq) (slen (rq_body rq)))%Z
  \/ (Z.min (content_len rq) (slen (rq_body rq)) < 0)%Z.
Proof.
  destruct (Z.ltb_spec (Z.min (content_len rq) (slen (rq_body rq))) 0); [by right|left].
  unfold body_text. etrans; [apply slen_cstr|]. unfold slen at 1. rewrite stake_length. lia.
Qed.

(** [query_parse_key_value (query, key, value, NULL)] with [char value[cap]]. *)
Definition query_value {X} (cap : Z) (query : option string) (key value : string) : prog X string :=
  match query with
  | None => Crash
  | Some q =>
      match query_parse_key_value q key with
      | Ok v => strcpy cap v
      | Err => Ret value
      | Undef => Crash
      end
  end.

(** [child = cJSON_GetObjectItem (root, name); if (NULL == child) goto END;
    strcpy (dst, child->valuestring)] with [char dst[cap]]. *)
Definition json_field {X} (cap : Z) (root : cJSON) (name : string) (e : X) : prog X string :=
  match cJSON_GetObjectItem root name with
  | None => LOG "cJSON_GetObjectItem err" [] ;;; Goto e
  | Some child => strcpy_opt cap (j_valuestring child)
  end.

Definition HEADER : string := "Content-type: text/html" +:+ CRLF +:+ CRLF.
Definition content_type {X} : prog X unit := printf HEADER [].

(** The user name under which the number of shared files is kept. *)
Definition SHARE_USER : string := "xxx_share_xxx_file_xxx_list_xxx_count_xxx".
Definition FILE_PUBLIC_ZSET : string := "FILE_PUBLIC_ZSET".
Definition FILE_NAME_HASH : string := "FILE_NAME_HASH".

Lemma slen_SHARE_USER : slen SHARE_USER = 41%Z.
Proof. reflexivity. Qed.
Lemma slen_FILE_PUBLIC_ZSET : slen FILE_PUBLIC_ZSET = 16%Z.
Proof. reflexivity. Qed.
Lemma slen_FILE_NAME_HASH : slen FILE_NAME_HASH = 14%Z.
Proof. reflexivity. Qed.
#[export] Hint Rewrite slen_SHARE_USER slen_FILE_PUBLIC_ZSET slen_FILE_NAME_HASH : slen_db.

(** Strings that fit the SQL buffer together and denote themselves in SQL. *)
Definition names_ok (user md5 filename : string) : bool :=
  plain user && plain md5 && plain filename
  && (slen user + slen md5 + slen filename <=? 330)%Z.

(** ** Redis records of shared files *)

(** What a successful share leaves in Redis. *)
Definition redis_share (fileid filename : string) (r : gmap string rval) : gmap string rval :=
  let r1 := match zset_of r FILE_PUBLIC_ZSET with
            | Some z => <[FILE_PUBLIC_ZSET := VZset (<[fileid := 0%Z]> z)]> r
            | None => r
            end in
  match hash_of r1 FILE_NAME_HASH with
  | Some h => <[FILE_NAME_HASH := VHash (<[fileid := filename]> h)]> r1
  | None => r1
  end.

(** ... and what its removal leaves. *)
Definition redis_unshare (fileid : string) (r : gmap string rval) : gmap string rval :=
  let r1 := match zset_of r FILE_PUBLIC_ZSET with
            | Some z => put_zset FILE_PUBLIC_ZSET (delete fileid z) r
            | None => r
            end in
  match hash_of r1 FILE_NAME_HASH with
  | Some h => put_hash FILE_NAME_HASH (delete fileid h) r1
  | None => r1
  end.

Lemma hash_of_put_zset k k' z r : k <> k' -> hash_of (put_zset k z r) k' = hash_of r k'.
Proof.
  intros Hne. unfold hash_of, put_zset. destruct (decide _).
  - by rewrite lookup_delete_ne.
  - by rewrite lookup_insert_ne.
Qed.

Lemma format_ss a b : format "%s%s" [AStr a; AStr b] = Some (a +:+ b).
Proof.
  unfold format. change (pieces_of "%s%s") with (Some [PStr; PStr]).
  cbn [render option_map]. by rewrite string_app_nil_r.
Qed.

(** ** Table operations *)

Section Ops.
Context {coll : Collation}.

Definition op_set_shared (v : Z) (u m f : string) (t : tables) : tables :=
  set_user_file_list (update_where (is_ufl u m f) (set_shared v) (user_file_list t)) t.
Definition op_add_share (u m tm f : string) (t : tables) : tables :=
  set_share_file_list (share_file_list t ++ [mkShare u m tm f 0]) t.
Definition op_del_share (u m f : string) (t : tables) : tables :=
  set_share_file_list (delete_where (is_ushare u m f) (share_file_list t)) t.
Definition op_del_ufl (u m f : string) (t : tables) : tables :=
  set_user_file_list (delete_where (is_ufl u m f) (user_file_list t)) t.
Definition op_add_ufl (u m tm f : string) (t : tables) : tables :=
  set_user_file_list (user_file_list t ++ [mkUfl u m tm f 0 0]) t.

(** The counter row of [u] goes up or down. *)
Definition op_bump (u : string) (d : Z) (t : tables) : tables :=
  set_user_file_count
    (update_where (is_cnt u) (fun r => set_ccount (c_count r + d) r) (user_file_count t)) t.
(** ... is created with value 1 when there is none. *)
Definition op_inc (u : string) (t : tables) : tables :=
  if existsb (is_cnt u) (user_file_count t) then op_bump u 1 t
  else set_user_file_count (user_file_count t ++ [mkCnt u 1]) t.
(** ... is deleted when it holds 1. *)
Definition op_dec (u : string) (t : tables) : tables :=
  if existsb (fun r => is_cnt u r && (c_count r =? 1)%Z) (user_file_count t)
  then set_user_file_count (delete_where (is_cnt u) (user_file_count t)) t
  else op_bump u (-1) t.

(** The reference count of a file. *)
Definition op_ref (m : string) (d : Z) (t : tables) : tables :=
  set_file_info
    (update_where (is_file m) (fun r => set_count (f_count r + d) r) (file_info t)) t.
Definition op_del_file (m : string) (t : tables) : tables :=
  set_file_info (delete_where (is_file m) (file_info t)) t.

Definition op_pv (u m f : string) (v : Z) (t : tables) : tables :=
  set_user_file_list (update_where (is_ufl u m f) (set_pv v) (user_file_list t)) t.
Definition op_spv (m f : string) (v : Z) (t : tables) : tables :=
  set_share_file_list (update_where (is_share m f) (set_spv v) (share_file_list t)) t.

(** All operations in order; the operations up to some point. *)
Definition applied (ops : list (tables -> tables)) (t : tables) : tables :=
  fold_left (fun t f => f t) ops t.
Definition stage (ops : list (tables -> tables)) (t t' : tables) : Prop :=
  exists k, t' = applied (firstn k ops) t.

Lemma applied_app l1 l2 t : applied (l1 ++ l2) t = applied l2 (applied l1 t).
Proof. apply fold_left_app. Qed.

Lemma stage_start ops t : stage ops t t.
Proof. by exists 0%nat. Qed.

Lemma stage_end ops t : stage ops t (applied ops t).
Proof. exists (length ops). by rewrite firstn_all. Qed.

Lemma stage_left l1 l2 k t : stage (l1 ++ l2) t (applied (firstn k l1) t).
Proof.
  exists (Nat.min k (length l1)). rewrite take_app_le by lia. f_equal.
  destruct (Nat.le_gt_cases k (length l1)); [by rewrite Nat.min_l|].
  rewrite Nat.min_r by lia. by rewrite !firstn_all2 by lia.
Qed.

Lemma stage_right l1 l2 k t : stage (l1 ++ l2) t (applied (firstn k l2) (applied l1 t)).
Proof. exists (length l1 + k)%nat. by rewrite take_app_add, applied_app. Qed.

Lemma stage_mid l1 l2 l3 k t : stage (l1 ++ l2 ++ l3) t (applied (firstn k l2) (applied l1 t)).
Proof.
  destruct (stage_left l2 l3 k (applied l1 t)) as [k' ->].
  destruct (stage_right l1 (l2 ++ l3) k' t) as [k2 H]. by exists k2.
Qed.

(** Keys are unique, and the counters stay [n] away from the limits of [int]. *)
Definition small (n z : Z) : Prop := (INT_MIN + n < z < INT_MAX - n)%Z.
Definition tables_wf (n : Z) (t : tables) : Prop :=
  (forall u, count_if (is_cnt u) (user_file_count t) <= 1)%Z
  /\ (forall m, count_if (is_file m) (file_info t) <= 1)%Z
  /\ (forall r, In r (user_file_count t) -> small n (c_count r))
  /\ (forall r, In r (file_info t) -> small n (f_count r) /\ (slen (f_file_id r) < 512)%Z)
  /\ (forall r, In r (user_file_list t) -> small n (l_shared_status r) /\ small n (l_pv r))
  /\ (forall r, In r (share_file_list t) -> small n (s_pv r)).

Lemma unique_row {A} (p : A -> bool) (l : list A) r x :
  (count_if p l <= 1)%Z -> In r l -> p r = true -> In x l -> p x = true -> x = r.
Proof.
  unfold count_if. intros Hu Hr Hpr Hx Hpx.
  assert (In x (List.filter p l)) as H1 by (apply filter_In; auto).
  assert (In r (List.filter p l)) as H2 by (apply filter_In; auto).
  destruct (List.filter p l) as [|a [|b l']]; simpl in *; [done| |lia].
  destruct H1 as [->|[]], H2 as [->|[]]. done.
Qed.

(** With a unique key, writing a value computed from the row found is the
    update of that row. *)
Lemma update_where_found {A} (p : A -> bool) (f g : A -> A) (l : list A) r :
  (count_if p l <= 1)%Z -> In r l -> p r = true -> f r = g r ->
  update_where p f l = update_where p g l.
Proof.
  intros Hu Hin Hp Hfg. unfold update_where. apply map_ext_in. intros x Hx.
  destruct (p x) eqn:E; [|done]. by rewrite (unique_row p l r x).
Qed.

Lemma count_if_delete {A} (f p : A -> bool) l : (count_if f (delete_where p l) <= count_if f l)%Z.
Proof.
  unfold delete_where. rewrite count_if_filter_negb.
  pose proof (count_if_nonneg (fun x => f x && p x) l). lia.
Qed.

Lemma in_delete {A} (p : A -> bool) l x : In x (delete_where p l) -> In x l.
Proof. by intros [? _]%filter_In. Qed.

Lemma count_if_update {A} (f p : A -> bool) g l :
  (forall x, f (g x) = f x) -> count_if f (update_where p g l) = count_if f l.
Proof. intros H. apply count_if_map. intros x. by destruct (p x). Qed.

(** The rows of an updated table are old rows or updated old rows. *)
Lemma in_update {A} (p : A -> bool) g l x :
  In x (update_where p g l) -> exists y, In y l /\ (x = y \/ x = g y).
Proof. intros (y & <- & Hy)%in_map_iff. exists y. destruct (p y); auto. Qed.

Lemma wf_le n m t : (m <= n)%Z -> tables_wf n t -> tables_wf m t.
Proof.
  unfold tables_wf, small. intros Hle (H1 & H2 & H3 & H4 & H5 & H6).
  split; [done|]. split; [done|].
  split; [|split; [|split]]; intros r Hr;
    [specialize (H3 r Hr)|specialize (H4 r Hr)|specialize (H5 r Hr)|specialize (H6 r Hr)]; lia.
Qed.

(** The tactic splits [tables_wf] and settles the tables an operation keeps. *)
Ltac wf_tac :=
  unfold tables_wf; cbn [users file_info user_file_list share_file_list user_file_count
    set_users set_file_info set_user_file_list set_share_file_list set_user_file_count];
  intros (H1 & H2 & H3 & H4 & H5 & H6); (split; [|split; [|split; [|split; [|split]]]]);
  try assumption.

Lemma wf_set_shared n v u m f t :
  small n v -> tables_wf n t -> tables_wf n (op_set_shared v u m f t).
Proof.
  intros Hv. unfold op_set_shared. wf_tac.
  intros r (y & Hy & [->| ->])%in_update; [auto|]. split; [done|]. apply (H5 y Hy).
Qed.

Lemma wf_add_share n u m tm f t :
  small n 0 -> tables_wf n t -> tables_wf n (op_add_share u m tm f t).
Proof. intros H0. unfold op_add_share. wf_tac. intros r [?|[<-|[]]]%in_app_or; auto. Qed.

Lemma wf_del_share n u m f t : tables_wf n t -> tables_wf n (op_del_share u m f t).
Proof. unfold op_del_share. wf_tac. intros r ?%in_delete. auto. Qed.

Lemma wf_del_ufl n u m f t : tables_wf n t -> tables_wf n (op_del_ufl u m f t).
Proof. unfold op_del_ufl. wf_tac. intros r ?%in_delete. auto. Qed.

Lemma wf_add_ufl n u m tm f t :
  small n 0 -> tables_wf n t -> tables_wf n (op_add_ufl u m tm f t).
Proof. intros H0. unfold op_add_ufl. wf_tac. intros r [?|[<-|[]]]%in_app_or; auto. Qed.

Lemma wf_bump n u d t :
  (-1 <= d <= 1)%Z -> tables_wf (n + 1) t -> tables_wf n (op_bump u d t).
Proof.
  intros Hd Hwf. pose proof (wf_le (n + 1) n t ltac:(lia) Hwf) as Hn. revert Hwf.
  destruct Hn as (_ & _ & _ & K4 & K5 & K6). unfold op_bump. wf_tac.
  - intros u'. by rewrite count_if_update.
  - intros r (y & Hy & [->| ->])%in_update; specialize (H3 y Hy); unfold small in *; simpl; lia.
Qed.

Lemma wf_inc n u t : small n 1 -> tables_wf (n + 1) t -> tables_wf n (op_inc u t).
Proof.
  intros H1s Hwf. unfold op_inc. destruct (existsb _ _) eqn:E; [apply wf_bump; [lia|done]|].
  apply (wf_le (n + 1) n) in Hwf; [|lia]. revert Hwf. wf_tac.
  - intros u'. rewrite count_if_app, count_if_cons, count_if_nil. specialize (H1 u').
    destruct (is_cnt u' (mkCnt u 1)) eqn:Eu; [|lia].
    rewrite (count_if_zero (is_cnt u')); [lia|]. intros x Hx. rewrite existsb_false_iff in E.
    specialize (E x Hx). unfold is_cnt in *. simpl in Eu.
    by rewrite <- (ceq_trans_r _ u u').
  - intros r [?|[<-|[]]]%in_app_or; auto.
Qed.

Lemma wf_dec n u t : tables_wf (n + 1) t -> tables_wf n (op_dec u t).
Proof.
  intros Hwf. unfold op_dec. destruct (existsb _ _); [|apply wf_bump; [lia|done]].
  apply (wf_le (n + 1) n) in Hwf; [|lia]. revert Hwf. wf_tac.
  - intros u'. etrans; [apply count_if_delete|apply H1].
  - intros r ?%in_delete. auto.
Qed.

Lemma wf_ref n m d t :
  (-1 <= d <= 1)%Z -> tables_wf (n + 1) t -> tables_wf n (op_ref m d t).
Proof.
  intros Hd Hwf. pose proof (wf_le (n + 1) n t ltac:(lia) Hwf) as Hn. revert Hwf.
  destruct Hn as (_ & _ & K3 & _ & K5 & K6). unfold op_ref. wf_tac.
  - intros u'. by rewrite count_if_update.
  - intros r (y & Hy & [->| ->])%in_update; specialize (H4 y Hy); unfold small in *; simpl; lia.
Qed.

Lemma wf_del_file n m t : tables_wf n t -> tables_wf n (op_del_file m t).
Proof.
  unfold op_del_file. wf_tac.
  - intros u'. etrans; [apply count_if_delete|apply H2].
  - intros r ?%in_delete. auto.
Qed.

Lemma wf_pv n u m f v t : small n v -> tables_wf n t -> tables_wf n (op_pv u m f v t).
Proof.
  intros Hv. unfold op_pv. wf_tac.
  intros r (y & Hy & [->| ->])%in_update; [auto|]. split; [apply (H5 y Hy)|done].
Qed.

Lemma wf_spv n m f v t : small n v -> tables_wf n t -> tables_wf n (op_spv m f v t).
Proof. intros Hv. unfold op_spv. wf_tac. intros r (y & Hy & [->| ->])%in_update; auto. Qed.
End Ops.

(** Well-formedness of tables built by the operations, from that of the first. *)
Ltac wf_step :=
  lazymatch goal with
  | |- tables_wf _ (op_set_shared _ _ _ _ _) => apply wf_set_shared
  | |- tables_wf _ (op_add_share _ _ _ _ _) => apply wf_add_share
  | |- tables_wf _ (op_del_share _ _ _ _) => apply wf_del_share
  | |- tables_wf _ (op_del_ufl _ _ _ _) => apply wf_del_ufl
  | |- tables_wf _ (op_add_ufl _ _ _ _ _) => apply wf_add_ufl
  | |- tables_wf _ (op_bump _ _ _) => apply wf_bump
  | |- tables_wf _ (op_inc _ _) => apply wf_inc
  | |- tables_wf _ (op_dec _ _) => apply wf_dec
  | |- tables_wf _ (op_ref _ _ _) => apply wf_ref
  | |- tables_wf _ (op_del_file _ _) => apply wf_del_file
  | |- tables_wf _ (op_pv _ _ _ _ _) => apply wf_pv
  | |- tables_wf _ (op_spv _ _ _ _) => apply wf_spv
  end.
Ltac solve_wf :=
  repeat wf_step;
  lazymatch goal with
  | |- tables_wf _ _ =>
      match goal with H : tables_wf ?n _ |- _ => apply (wf_le n); [lia|exact H] end
  | |- _ => unfold small, INT_MIN, INT_MAX; lia
  end.

(** ** Proof rules *)

(** SQL texts: the arguments are plain and the text fits. *)
Ltac solve_sql_ok :=
  unfold sql_ok; apply andb_true_intro; split; [vm_compute; reflexivity|];
  cbn [forallb plain_arg]; repeat (apply andb_true_intro; split); try done.
Ltac solve_sql_len :=
  match goal with |- context [lits_len ?p] =>
    let n := eval vm_compute in (lits_len p) in
    replace (lits_len p) with n by (vm_compute; reflexivity)
  end; cbn [args_len arg_len]; unfold SQL_MAX_LEN; slen_lia.
Ltac wp_sql s Hs Hl :=
  wp_binds; apply wp_sql; [solve_sql_ok|solve_args|solve_sql_len|];
  intros s Hs Hl; wp_binds.

(** Split the hypothesis [names_ok u m f]. *)
Ltac split_names H :=
  let H1 := fresh "Hu" in let H2 := fresh "Hm" in let H3 := fresh "Hf" in let H4 := fresh "Hlen" in
  unfold names_ok in H; apply andb_prop in H as [[[H1 H2]%andb_prop H3]%andb_prop H4];
  apply Z.leb_le in H4.

(** Decide comparisons of integer constants. *)
Ltac zeq := cbn [Z.eqb Pos.eqb negb].

Ltac obs_cbn :=
  cbn [with_tables with_redis with_out with_files with_dfs add_my add_rd
       o_tables o_result o_redis o_out o_files o_dfs o_my o_rd] in *.

Section Rules.
Context {coll : Collation}.

Lemma wp_must {X} fmt s k args (e : X) (Q : unit -> obs -> Prop) (G : X -> obs -> Prop) o :
  parse_sql s = Some (k, args) -> (slen s < SQL_MAX_LEN)%Z ->
  (forall err : string, match pieces_of (fmt +:+ nl) with
   | Some ps => simple_fmt ps [AStr s; AStr err] && (lits_len ps <=? 400)%Z
   | None => false
   end = true) ->
  G e (with_tables (o_tables o) None o) ->
  (forall t rs, stmt_spec k args (o_tables o) t rs -> Q tt (with_tables t rs o)) ->
  wp (must fmt s e) Q G o.
Proof.
  intros Hp Hs Hfmt HG HQ. unfold must. wp_binds. eapply wp_query; [exact Hp| |].
  - intros r Hr. destruct (Z.eqb_spec r 0); [done|]. wp_binds. apply wp_call.
    intros err o' [-> Herr]. wp_binds.
    apply (wp_log_fits _ _ 400); [apply Hfmt|solve_args| |wp_binds; exact HG].
    unfold SQL_MAX_LEN in Hs. solve_len.
  - intros t rs Ht. cbn [Z.eqb]. wp_binds. by apply HQ.
Qed.

(** Reading an integer column into [tmp]. *)
Lemma wp_select_num {X A} s k args (g : A -> Z) (L : list A) cap old
    (Q : Z * string -> obs -> Prop) (G : X -> obs -> Prop) o :
  parse_sql s = Some (k, args) ->
  (forall t rs, stmt_spec k args (o_tables o) t rs ->
     t = o_tables o /\ selects rs (List.map (fun r => [num (g r)]) L)) ->
  (forall r, In r L -> small 0 (g r)) -> (20 < cap)%Z ->
  let o1 := with_tables (o_tables o) None o in
  Q (-1, old)%Z o1 -> (L = [] -> Q (1, old)%Z o1) ->
  (forall r, In r L -> Q (0%Z, dec_string (g r)) o1) ->
  wp (process_result_one s (Some (cap, old))) Q G o.
Proof.
  intros Hp Hspec Hint Hcap o1 Hfail Hempty Hrow. eapply wp_select_one; [exact Hp|exact Hspec| | |].
  - exact Hfail.
  - intros HL. apply Hempty. by destruct L.
  - intros r (x & <- & Hx)%in_map_iff. exists (dec_string (g x)), []. split; [done|].
    specialize (Hint x Hx). split; [|auto].
    pose proof (dec_string_int (g x) ltac:(unfold small, is_int in *; lia)). lia.
Qed.

Lemma atoi_small z : small 0 z -> atoi (dec_string z) = z.
Proof. intros H. apply atoi_dec_string. unfold small, is_int in *. lia. Qed.

(** A failed lookup ends the handler, a successful one gives the value of a row. *)
Lemma wp_must_select {X A} fmt s k args (v : A -> string) (L : list A) old (e : X)
    (Q : string -> obs -> Prop) (G : X -> obs -> Prop) o :
  parse_sql s = Some (k, args) -> (slen s < SQL_MAX_LEN)%Z ->
  match pieces_of (fmt +:+ nl) with
  | Some ps => simple_fmt ps [AStr s] && (lits_len ps <=? 400)%Z
  | None => false
  end = true ->
  (forall t rs, stmt_spec k args (o_tables o) t rs ->
     t = o_tables o /\ selects rs (List.map (fun r => [Some (v r)]) L)) ->
  (forall r, In r L -> (slen (v r) < 512)%Z) ->
  let o1 := with_tables (o_tables o) None o in
  G e o1 -> (forall r, In r L -> Q (v r) o1) ->
  wp (must_select fmt s old e) Q G o.
Proof.
  intros Hp Hs Hfmt Hspec Hint o1 HG HQ. unfold must_select.
  assert (forall o', G e o' -> wp (LOG (X := X) fmt [AStr s] ;;; @Goto X string e) Q G o') as Hlog.
  { intros o' HG'. wp_binds. apply (wp_log_fits _ _ 400); [exact Hfmt|solve_args| |wp_binds; exact HG'].
    unfold SQL_MAX_LEN in Hs. solve_len. }
  wp_binds. eapply wp_select_one; [exact Hp|exact Hspec|..].
  - apply Hlog, HG.
  - intros _. apply Hlog, HG.
  - intros r (x & <- & Hx)%in_map_iff. exists (v x), []. split; [done|].
    specialize (Hint x Hx). split; [done|]. cbn [Z.eqb]. wp_binds. auto.
Qed.

(** The same for an integer column. *)
Lemma wp_must_select_num {X A} fmt s k args (g : A -> Z) (L : list A) old (e : X)
    (Q : string -> obs -> Prop) (G : X -> obs -> Prop) o :
  parse_sql s = Some (k, args) -> (slen s < SQL_MAX_LEN)%Z ->
  match pieces_of (fmt +:+ nl) with
  | Some ps => simple_fmt ps [AStr s] && (lits_len ps <=? 400)%Z
  | None => false
  end = true ->
  (forall t rs, stmt_spec k args (o_tables o) t rs ->
     t = o_tables o /\ selects rs (List.map (fun r => [num (g r)]) L)) ->
  (forall r, In r L -> small 0 (g r)) ->
  let o1 := with_tables (o_tables o) None o in
  G e o1 -> (forall r, In r L -> Q (dec_string (g r)) o1) ->
  wp (must_select fmt s old e) Q G o.
Proof.
  intros Hp Hs Hfmt Hspec Hint o1 HG HQ.
  apply (wp_must_select fmt s k args (fun r => dec_string (g r)) L); try done.
  intros r Hr. specialize (Hint r Hr).
  pose proof (dec_string_int (g r) ltac:(unfold small, is_int in *; lia)). lia.
Qed.

(** Facts about a unique counter row. *)
Lemma cnt_found (u : string) (t : tables) (r : cnt_row) (d : Z) :
  tables_wf 0 t -> In r (List.filter (is_cnt u) (user_file_count t)) ->
  set_user_file_count
    (update_where (is_cnt u) (set_ccount (c_count r + d)) (user_file_count t)) t
  = op_bump u d t.
Proof.
  intros (Hu & _) [Hin Hp]%filter_In. unfold op_bump. f_equal.
  by apply (update_where_found _ _ _ _ r).
Qed.

Lemma ref_found (m : string) (t : tables) (r : file_row) (d : Z) :
  tables_wf 0 t -> In r (List.filter (is_file m) (file_info t)) ->
  set_file_info (update_where (is_file m) (set_count (f_count r + d)) (file_info t)) t
  = op_ref m d t.
Proof.
  intros (_ & Hu & _) [Hin Hp]%filter_In. unfold op_ref. f_equal.
  by apply (update_where_found _ _ _ _ r).
Qed.

Lemma existsb_filter {A} (p : A -> bool) l r : In r (List.filter p l) -> existsb p l = true.
Proof. intros [? ?]%filter_In. apply existsb_exists. eauto. Qed.

Lemma small_filter_cnt u t r :
  tables_wf 0 t -> In r (List.filter (is_cnt u) (user_file_count t)) -> small 0 (c_count r).
Proof. intros (_ & _ & H & _) [? _]%filter_In. auto. Qed.

Lemma small_long z d : small 0 z -> (d = 1 \/ d = -1)%Z -> int32 (z + d) = (z + d)%Z /\ is_long (z + d).
Proof.
  unfold small, is_long, INT_MIN, INT_MAX, LONG_MIN, LONG_MAX. intros H Hd.
  rewrite int32_small by (unfold is_int, INT_MIN, INT_MAX; lia). split; lia.
Qed.

(** What the callers' guarded statements have in common. *)
Definition guarded {X} (send : string -> prog X unit) (e : X) : Prop :=
  forall s k args (Q : unit -> obs -> Prop) (G : X -> obs -> Prop) o,
    parse_sql s = Some (k, args) -> (slen s < SQL_MAX_LEN)%Z ->
    G e (with_tables (o_tables o) None o) ->
    (forall t rs, stmt_spec k args (o_tables o) t rs -> Q tt (with_tables t rs o)) ->
    wp (send s) Q G o.

Lemma must_guarded {X} fmt (e : X) :
  (forall s err : string, match pieces_of (fmt +:+ nl) with
   | Some ps => simple_fmt ps [AStr s; AStr err] && (lits_len ps <=? 400)%Z
   | None => false
   end = true) ->
  guarded (fun s => must fmt s e) e.
Proof. intros Hfmt s k args Q G o. intros. by eapply wp_must. Qed.

Lemma must1_guarded {X} fmt (e : X) :
  (forall s : string, match pieces_of (fmt +:+ nl) with
   | Some ps => simple_fmt ps [AStr s] && (lits_len ps <=? 400)%Z
   | None => false
   end = true) ->
  guarded (fun s => must1 fmt s e) e.
Proof.
  intros Hfmt s k args Q G o Hp Hs HG HQ. unfold must1. wp_binds. eapply wp_query; [exact Hp| |].
  - intros r Hr. destruct (Z.eqb_spec r 0); [done|]. wp_binds.
    apply (wp_log_fits _ _ 400); [apply Hfmt|solve_args| |wp_binds; exact HG].
    unfold SQL_MAX_LEN in Hs. solve_len.
  - intros t rs Ht. cbn [Z.eqb]. wp_binds. by apply HQ.
Qed.

(** The counter row found decides between deletion and decrement. *)
Lemma dec_found u t r :
  tables_wf 0 t -> In r (List.filter (is_cnt u) (user_file_count t)) ->
  op_dec u t
  = if (c_count r =? 1)%Z
    then set_user_file_count (delete_where (is_cnt u) (user_file_count t)) t else op_bump u (-1) t.
Proof.
  intros Hwf Hr. unfold op_dec.
  assert (existsb (fun r => is_cnt u r && (c_count r =? 1)%Z) (user_file_count t)
          = (c_count r =? 1)%Z) as ->; [|done].
  apply filter_In in Hr as [Hin Hp]. destruct (Z.eqb_spec (c_count r) 1) as [E|E].
  - apply existsb_exists. exists r. rewrite Hp, E. done.
  - apply existsb_false_iff. intros x Hx. destruct (is_cnt u x) eqn:Ex; [|done]. simpl.
    destruct (unique_row (is_cnt u) (user_file_count t) r x) as []; try done; [apply Hwf|].
    by apply Z.eqb_neq.
Qed.

Lemma filter_nil_existsb {A} (p : A -> bool) l : List.filter p l = [] -> existsb p l = false.
Proof.
  intros H. apply existsb_false_iff. intros x Hx. destruct (p x) eqn:E; [|done].
  assert (In x []) as []. rewrite <- H. by apply filter_In.
Qed.

Lemma map_filter_not_nil {A B} (f : A -> B) (p : A -> bool) l :
  List.map f (List.filter p l) <> [] -> existsb p l = true.
Proof.
  destruct (List.filter p l) as [|r l'] eqn:E; [done|]. intros _. apply (existsb_filter _ _ r).
  rewrite E. by left.
Qed.

(** Counting up: the counter grows by one, or stays when the lookup failed. *)
Lemma wp_count_up {X} send ins user s sel tmp (e : X) (Q : unit -> obs -> Prop)
    (G : X -> obs -> Prop) o :
  guarded send e ->
  sel = SelUserCount \/ sel = SelUserCountDq ->
  ins = InsUserCount \/ ins = InsUserCountSp ->
  parse_sql s = Some (sel, [AStr user]) -> (slen s < SQL_MAX_LEN)%Z ->
  plain user = true -> (slen user <= 330)%Z ->
  tables_wf 0 (o_tables o) ->
  (forall rs, G e (with_tables (o_tables o) rs o)) ->
  (forall rs, Q tt (with_tables (op_inc user (o_tables o)) rs o)) ->
  (forall rs, Q tt (with_tables (o_tables o) rs o)) ->
  wp (count_up send ins user s tmp) Q G o.
Proof.
  intros Hsend Hsel Hins Hp Hs Hu Hlen Hwf HG HQ HQ0. unfold count_up. wp_binds.
  apply (wp_select_num s sel [AStr user] c_count
           (List.filter (is_cnt user) (user_file_count (o_tables o)))); [done| |..].
  - by destruct Hsel as [->| ->].
  - intros r Hr. eapply small_filter_cnt; eauto.
  - lia.
  - cbn [Z.eqb]. wp_binds. eapply Hsend; [done..|apply HG|].
    intros t rs Ht. assert (t = o_tables o) as -> by (destruct Hsel as [->| ->]; apply Ht).
    apply HQ0.
  - intros HL. cbn [Z.eqb]. wp_binds.
    assert (existsb (is_cnt user) (user_file_count (o_tables o)) = false) as Hex.
    { apply existsb_false_iff. intros x Hx. destruct (is_cnt user x) eqn:E; [|done].
      assert (In x []) as []. rewrite <- HL. by apply filter_In. }
    specialize (HQ None). unfold op_inc in HQ. rewrite Hex in HQ.
    destruct Hins as [->| ->]; wp_sql s' Hs' Hl';
      (eapply Hsend; [done..|apply HG|]); intros t rs (_ & -> & ->); exact HQ.
  - intros r Hr. cbn [Z.eqb]. wp_binds.
    pose proof (small_filter_cnt _ _ _ Hwf Hr) as Hsm. rewrite atoi_small by done.
    destruct (small_long (c_count r) 1 Hsm ltac:(auto)) as [-> Hl1].
    wp_sql s' Hs' Hl'. eapply Hsend; [done..|apply HG|].
    intros t rs [-> ->]. specialize (HQ None). unfold op_inc in HQ.
    rewrite (existsb_filter _ _ _ Hr), <- (cnt_found user _ r 1) in HQ by done. exact HQ.
Qed.

Definition ref_ops (u m f tm : string) : list (tables -> tables) :=
  [op_ref m 1; op_add_ufl u m tm f; op_inc u].

(** What a failure leaves: nothing, or a prefix of the operations on a file the
    server has. *)
Definition ref_partial (u m f : string) (t t' : tables) : Prop :=
  t' = t
  \/ (existsb (is_file m) (file_info t) = true /\ exists tm, stage (ref_ops u m f tm) t t').

(** A new owner, from the row of the file: all operations, or all but the
    counter when its lookup failed; a prefix when a statement fails. *)
Lemma wp_add_reference {X} send user md5 filename r tmp (e : X) (Q : unit -> obs -> Prop)
    (G : X -> obs -> Prop) o :
  guarded send e -> names_ok user md5 filename = true -> tables_wf 1 (o_tables o) ->
  In r (List.filter (is_file md5) (file_info (o_tables o))) ->
  (forall tm k rs, G e
     (with_tables (applied (firstn k (ref_ops user md5 filename tm)) (o_tables o)) rs o)) ->
  (forall tm k rs, (k = 2 \/ k = 3)%nat -> Q tt
     (with_tables (applied (firstn k (ref_ops user md5 filename tm)) (o_tables o)) rs o)) ->
  wp (add_reference send user md5 filename (f_count r) tmp) Q G o.
Proof.
  intros Hsend Hn Hwf Hr HG HQ. split_names Hn. unfold add_reference.
  pose proof (wf_le 1 0 _ ltac:(lia) Hwf) as Hwf0.
  assert (small 0 (f_count r)) as Hsm by (apply filter_In in Hr as [Hr _]; apply Hwf0, Hr).
  destruct (small_long (f_count r) 1 Hsm ltac:(auto)) as [-> Hl].
  wp_sql s1 Hs1 Hl1. eapply Hsend; [done..|apply (HG EmptyString 0%nat)|]. intros t1 rs1 [Ht1 ->].
  assert (t1 = op_ref md5 1 (o_tables o)) as ->.
  { rewrite Ht1. exact (ref_found md5 _ r 1 Hwf0 Hr). }
  wp_binds. apply wp_call. intros tm o1 (-> & Htm & Hpl). wp_binds.
  wp_sql s2 Hs2 Hl2. eapply Hsend; [done..|apply (HG tm 1%nat)|]. intros t2 rs2 [-> ->].
  wp_sql s3 Hs3 Hl3.
  apply (wp_count_up _ _ _ _ SelUserCount _ e); [done|by left|by right|done|done|done|slen_lia|..].
  - change (tables_wf 0 (op_add_ufl user md5 tm filename (op_ref md5 1 (o_tables o)))). solve_wf.
  - intros rs. apply (HG tm 2%nat).
  - intros rs. apply (HQ tm 3%nat). by right.
  - intros rs. apply (HQ tm 2%nat). by left.
Qed.

Definition status_ok (code : string) : bool :=
  match return_status code with
  | Some s => match format s [] with Some s' => streq s' s | None => false end
  | None => false
  end.

Lemma wp_print_status {X} code (Q : unit -> obs -> Prop) (G : X -> obs -> Prop) o :
  status_ok code = true -> Q tt (with_out (o_out o +:+ status_text code) o) ->
  wp (print_status code) Q G o.
Proof.
  unfold status_ok, print_status, status_text. destruct (return_status code) as [s|]; [|done].
  unfold printf. destruct (format s []) as [s'|]; [|done]. intros ->%streq_true HQ.
  apply wp_call. intros [] o' ->. exact HQ.
Qed.

Lemma add_my_0 o : add_my 0 o = o.
Proof. obs_eq. Qed.

Lemma add_rd_0 o : add_rd 0 o = o.
Proof. obs_eq. Qed.

Lemma closed_obs s a b o :
  with_out s (add_my a (add_rd b o)) = add_my a (add_rd b (with_out s o)).
Proof. obs_eq. Qed.

(** The END block prints the status of [ret] and closes what is open. *)
Lemma wp_finish {X} codes code e (Q : Z -> obs -> Prop) (G : X -> obs -> Prop) o :
  codes (e_ret e) = Some code -> status_ok code = true ->
  Q (e_ret e) (with_out (o_out o +:+ status_text code)
                (add_my (if e_conn e then -1 else 0) (add_rd (if e_redis e then -1 else 0) o))) ->
  wp (finish codes e) Q G o.
Proof.
  intros Hcode Hok HQ. unfold finish. rewrite Hcode. wp_binds. apply wp_print_status; [done|].
  rewrite closed_obs in HQ. destruct (e_redis e), (e_conn e); rewrite ?add_my_0, ?add_rd_0 in HQ; wp_binds.
  - apply wp_disconnect. wp_binds. apply wp_call. intros ? o' ->. wp_binds. exact HQ.
  - apply wp_disconnect. wp_binds. exact HQ.
  - apply wp_call. intros ? o' ->. wp_binds. exact HQ.
  - exact HQ.
Qed.

Lemma wp_printf_const {X} f (Q : unit -> obs -> Prop) (G : X -> obs -> Prop) o :
  format f [] = Some f -> Q tt (with_out (o_out o +:+ f) o) -> wp (printf f []) Q G o.
Proof. intros Hf HQ. unfold printf. rewrite Hf. apply wp_call. intros [] o' ->. exact HQ. Qed.

(** Opening both connections and setting the character set. *)
Lemma wp_open_both cf (body : prog end_state end_state) Q G o :
  conf_fits cf -> G (mkEnd (-1) false false) o -> G (mkEnd (-1) true false) (add_rd 1 o) ->
  wp body Q G (with_tables (o_tables o) None (add_my 1 (add_rd 1 o))) ->
  wp (redis_conn <- rop_connectdb_nopwd (redis_ip cf) (redis_port cf) ;;
      if negb redis_conn then LOG0 "redis connected error" [] ;;; Goto (mkEnd (-1) false false) else
      conn <- msql_conn (mysql_user cf) (mysql_pwd cf) (mysql_db cf) ;;
      if negb conn then LOG "msql_conn err" [] ;;; Goto (mkEnd (-1) true false) else
      mysql_query "set names utf8" ;;; body) Q G o.
Proof.
  intros Hcf H0 H1 H2. unfold conf_fits in Hcf. wp_binds.
  apply wp_connectdb_nopwd; [lia|]. intros [|]; cbn [negb]; wp_binds.
  2:{ apply wp_LOG0 with (ps := default [] (pieces_of "redis connected error"));
        [vm_compute; reflexivity..|constructor|vm_compute; reflexivity|]. exact H0. }
  apply wp_msql_conn. intros [|]; cbn [negb]; wp_binds; [|wp_log; exact H1].
  apply wp_set_names. intros _. exact H2.
Qed.

(** Opening the MySQL connection only. *)
Lemma wp_open_mysql cf (body : prog end_state end_state) Q G o :
  G (mkEnd (-1) false false) o ->
  wp body Q G (with_tables (o_tables o) None (add_my 1 o)) ->
  wp (conn <- msql_conn (mysql_user cf) (mysql_pwd cf) (mysql_db cf) ;;
      if negb conn then LOG "msql_conn err" [] ;;; Goto (mkEnd (-1) false false) else
      mysql_query "set names utf8" ;;; body) Q G o.
Proof.
  intros H0 H1. wp_binds. apply wp_msql_conn. intros [|]; cbn [negb]; wp_binds; [|wp_log; exact H0].
  apply wp_set_names. intros _. exact H1.
Qed.
End Rules.

(** Ending a handler: the status is printed and the handles are closed. *)
Ltac end_block :=
  wp_binds; eapply wp_finish; [reflexivity|vm_compute; reflexivity|];
  cbn [both e_ret e_conn e_redis].
Ltac kept_tac := unfold kept; obs_cbn; repeat split; try done; lia.
