(* ===== verification/Samples.v ===== *)
(** * Sample tables

    A small database on which the hypotheses of the handlers' theorems hold,
    with byte-wise comparison of strings. *)

From S2P Require Import Prelude CLib UtilCgi Sql Tables CProg Redis Config Sim Demo Auth Handler.

(** Distinct keys are unique rows. *)
Lemma distinct_count {A} (key : A -> string) (l : list A) u :
  NoDup (List.map key l) -> (count_if (fun r => streq (key r) u) l <= 1)%Z.
Proof.
  induction l as [|r l IH]; [done|]. cbn [List.map]. inversion 1 as [|? ? Hni Hnd]; subst.
  rewrite count_if_cons. destruct (streq (key r) u) eqn:E; [|specialize (IH Hnd); lia].
  rewrite count_if_zero; [lia|]. intros x Hx. destruct (streq (key x) u) eqn:Ex; [|done].
  apply streq_true in E, Ex. exfalso. apply Hni. rewrite E, <- Ex.
  apply list_elem_of_In, in_map. done.
Qed.

Definition small_b (n z : Z) : bool := ((INT_MIN + n <? z) && (z <? INT_MAX - n))%Z.

(** [tables_wf], decided. *)
Definition wf_b (n : Z) (t : tables) : bool :=
  bool_decide (NoDup (List.map c_user (user_file_count t)))
  && bool_decide (NoDup (List.map f_md5 (file_info t)))
  && forallb (fun r => small_b n (c_count r)) (user_file_count t)
  && forallb (fun r => small_b n (f_count r) && (slen (f_file_id r) <? 512)%Z) (file_info t)
  && forallb (fun r => small_b n (l_shared_status r) && small_b n (l_pv r)) (user_file_list t)
  && forallb (fun r => small_b n (s_pv r)) (share_file_list t).

Lemma small_b_spec n z : small_b n z = true -> small n z.
Proof. unfold small_b, small. intros [H1 H2]%andb_prop. lia. Qed.

Lemma wf_b_spec n t : wf_b n t = true -> tables_wf (coll := binary_collation) n t.
Proof.
  unfold wf_b. intros H. split_andb. rewrite !forallb_forall in *.
  split; [|split; [|split; [|split; [|split]]]].
  - intros u. apply distinct_count. by eapply bool_decide_eq_true.
  - intros m. apply distinct_count. by eapply bool_decide_eq_true.
  - intros r Hr. by apply small_b_spec; auto.
  - intros r Hr.
    match goal with Hf : forall x, In x (file_info t) -> _ |- _ => specialize (Hf r Hr) end.
    split_andb. split; [by apply small_b_spec|lia].
  - intros r Hr.
    match goal with Hf : forall x, In x (user_file_list t) -> _ |- _ => specialize (Hf r Hr) end.
    split_andb. split; by apply small_b_spec.
  - intros r Hr. by apply small_b_spec; auto.
Qed.

(** Bob and Eve own one file each. *)
Definition two_users : tables :=
  mkTables []
    [mkFile "m1" "group1/M00/00/00/f1" "http://h/f1" 10 "txt" 1;
     mkFile "m2" "group1/M00/00/00/f2" "http://h/f2" 20 "txt" 1]
    [mkUfl "bob" "m1" NOW "a.txt" 0 3; mkUfl "eve" "m2" NOW "b.txt" 0 0]
    []
    [mkCnt "bob" 1; mkCnt "eve" 1].

Definition demo_cf : conf := mkConf "huafeng" "huafeng" "HFDFS" "127.0.0.1" "6379".

(** Bob's and Eve's tokens. *)
Definition two_tokens : gmap string rval := {[ "bob" := VStr "tb"; "eve" := VStr "te" ]}.

Definition demo_dfs : gmap string string :=
  {[ "group1/M00/00/00/f1" := "hello"; "group1/M00/00/00/f2" := "world" ]}.

Definition two_obs : obs := with_dfs demo_dfs (demo_obs two_users two_tokens).
