(* ===== verification/Register.v ===== *)
(** * register_cgi: new users (src/src/cgi/register_cgi.c) *)

From S2P Require Import Prelude CLib UtilCgi Sql Tables CProg Mysql Redis CJson Config Sim Demo.
From S2P Require Import Auth Handler Samples.

(** The five fields of a registration, in buffers of 128 bytes. *)
Record reg_info := mkReg {
  r_user : string; r_nick_name : string; r_pwd : string; r_tel : string; r_email : string }.

(** On failure the caller gives up, so the buffers are not returned. *)
Definition get_reg_info {X} (reg_buf : string) : prog X (Z * reg_info) :=
  let none := ((-1)%Z, mkReg EmptyString EmptyString EmptyString EmptyString EmptyString) in
  at_END
    (root <- json_parse reg_buf ;;
     match root with
     | None => LOG "cJSON_Parse err" [] ;;; Goto none
     | Some root =>
         user <- json_field 128 root "userName" none ;;
         nick_name <- json_field 128 root "nickName" none ;;
         pwd <- json_field 128 root "firstPwd" none ;;
         tel <- json_field 128 root "phone" none ;;
         email <- json_field 128 root "email" none ;;
         Ret (0%Z, mkReg user nick_name pwd tel email)
     end)
    Ret.

Definition INSERT_FAILED : string := "%s 插入失败：%s".

Definition user_register {X} (reg_buf : string) : prog X Z :=
  at_END
    (let* (ret, (mysql_user, mysql_pwd, mysql_db)) :=
       get_mysql_info EmptyString EmptyString EmptyString in
     if negb (ret =? 0)%Z then Goto (mkEnd ret false false) else
     LOG "mysql_user = %s, mysql_pwd = %s, mysql_db = %s"
       [AStr mysql_user; AStr mysql_pwd; AStr mysql_db] ;;;
     let* (ret, i) := get_reg_info reg_buf in
     if negb (ret =? 0)%Z then Goto (mkEnd ret false false) else
     LOG "user = %s, nick_name = %s, pwd = %s, tel = %s, email = %s"
       [AStr (r_user i); AStr (r_nick_name i); AStr (r_pwd i); AStr (r_tel i); AStr (r_email i)] ;;;
     conn <- msql_conn mysql_user mysql_pwd mysql_db ;;
     if negb conn then LOG "msql_conn err" [] ;;; Goto (mkEnd (-1) false false) else
     mysql_query "set names utf8" ;;;
     sql_cmd <- sql SelUser [AStr (r_user i)] ;;
     let* (ret2, _) := process_result_one sql_cmd None in
     if (ret2 =? 2)%Z then LOG "[%s] 该用户已存在" [] ;;; Goto (mkEnd (-2) false true) else
     time_str <- call Now ;;
     sql_cmd <- sql InsUser [AStr (r_user i); AStr (r_nick_name i); AStr (r_pwd i);
                             AStr (r_tel i); AStr time_str; AStr (r_email i)] ;;
     must INSERT_FAILED sql_cmd (mkEnd (-1) false true) ;;;
     Ret (mkEnd 0 false true))
    (finish (fun _ => None)).

Definition reg_codes (ret : Z) : option string :=
  if (ret =? 0)%Z then Some "002"
  else if (ret =? -2)%Z then Some "003"
  else if (ret =? -1)%Z then Some "004" else None.

(** One iteration of the loop of [main]. *)
Definition handle {X} (rq : request) : prog X unit :=
  content_type ;;;
  let len := content_len rq in
  if (len <=? 0)%Z then
    printf ("No data from standard input.<p>" +:+ nl) [] ;;;
    LOG "len = 0, No data from standard input" []
  else
    buf <- read_body 4096 len rq ;;
    match buf with
    | None => LOG "fread(buf, 1, len, stdin) err" []
    | Some buf =>
        LOG "buf = %s" [AStr buf] ;;;
        ret <- user_register buf ;;
        match reg_codes ret with Some code => print_status code | None => Ret tt end
    end.

Fixpoint main {X} (rqs : list request) : prog X unit :=
  match rqs with
  | [] => Ret tt
  | rq :: rqs => handle rq ;;; main rqs
  end.

(** ** Specification *)

Section Register.
Context {coll : Collation}.

(** The fields denote themselves in SQL and fit the statement. *)
Definition reg_ok (i : reg_info) : bool :=
  plain (r_user i) && plain (r_nick_name i) && plain (r_pwd i) && plain (r_tel i)
  && plain (r_email i)
  && (slen (r_user i) + slen (r_nick_name i) + slen (r_pwd i) + slen (r_tel i)
      + slen (r_email i) <=? 370)%Z.

Definition op_add_user (i : reg_info) (tm : string) (t : tables) : tables :=
  set_users (users t ++ [mkUser (r_user i) (r_nick_name i) (r_pwd i) (r_tel i) tm (r_email i)]) t.

Definition reg_post (i : reg_info) (o : obs) (ret : Z) (o' : obs) : Prop :=
  kept o o' /\ o_redis o' = o_redis o /\ o_out o' = o_out o /\
  ((ret = 0%Z
    /\ existsb (fun r => is_user (r_user i) r || ceq (u_nickname r) (r_nick_name i))
         (users (o_tables o)) = false
    /\ exists tm, o_tables o' = op_add_user i tm (o_tables o))
   \/ (ret = (-1)%Z /\ o_tables o' = o_tables o)).

(** Reading the MySQL settings changes nothing. *)
Lemma wp_mysql_info {X} (Q : Z * (string * string * string) -> obs -> Prop)
    (G : X -> obs -> Prop) o :
  conf_ok o ->
  (forall r a b c, (r = 0 \/ r = -1)%Z -> (slen a < 128)%Z -> (slen b < 128)%Z ->
     (slen c < 128)%Z -> Q (r, (a, b, c)) o) ->
  wp (get_mysql_info EmptyString EmptyString EmptyString) Q G o.
Proof.
  intros Hc HQ. assert (slen EmptyString < 128)%Z as He by done.
  unfold get_mysql_info. wp_binds.
  eapply wp_setting; [done|simpl; tauto|lia|done|]. intros r1 a Hr1 Ha.
  destruct Hr1 as [-> | ->]; zeq; wp_binds; [|wp_log; by apply HQ; auto].
  eapply wp_setting; [done|simpl; tauto|lia|done|]. intros r2 b Hr2 Hb.
  destruct Hr2 as [-> | ->]; zeq; wp_binds; [|wp_log; by apply HQ; auto].
  eapply wp_setting; [done|simpl; tauto|lia|done|]. intros r3 c Hr3 Hcl.
  destruct Hr3 as [-> | ->]; zeq; wp_binds; [by apply HQ; auto|wp_log; by apply HQ; auto].
Qed.

(** The END block without a status. *)
Lemma wp_finish_silent {X} e (Q : Z -> obs -> Prop) (G : X -> obs -> Prop) o :
  Q (e_ret e) (add_my (if e_conn e then -1 else 0) (add_rd (if e_redis e then -1 else 0) o)) ->
  wp (finish (fun _ => None) e) Q G o.
Proof.
  intros HQ. unfold finish. wp_binds.
  destruct (e_redis e), (e_conn e); rewrite ?add_my_0, ?add_rd_0 in HQ; wp_binds.
  - apply wp_disconnect. wp_binds. apply wp_call. intros ? o' ->. wp_binds. exact HQ.
  - apply wp_disconnect. wp_binds. exact HQ.
  - apply wp_call. intros ? o' ->. wp_binds. exact HQ.
  - exact HQ.
Qed.

Lemma wp_user_register {X} reg_buf i (G : X -> obs -> Prop) o :
  conf_ok o -> get_reg_info (X := end_state) reg_buf = Ret (0%Z, i) -> reg_ok i = true ->
  existsb (is_user (r_user i)) (users (o_tables o)) = false ->
  wp (user_register reg_buf) (reg_post i o) G o.
Proof.
  intros Hc Hi Hok Hnew. unfold reg_ok in Hok. split_andb.
  match goal with Hl : (_ <=? 370)%Z = true |- _ => apply Z.leb_le in Hl; rename Hl into Hlen end.
  assert (forall (b : bool) rs,
    wp (finish (fun _ => None) (mkEnd (-1) false b)) (reg_post i o) G
       (with_tables (o_tables o) rs (if b then add_my 1 o else o))) as HF.
  { intros b rs. apply wp_finish_silent. cbn [e_ret e_conn e_redis].
    destruct b; (split; [kept_tac|]); obs_cbn; auto. }
  unfold user_register. apply wp_at_END. wp_binds. apply wp_mysql_info; [done|].
  intros r a b c Hr Ha Hb Hcl. pose proof (HF false (o_result o)) as HF0. cbv iota in HF0.
  rewrite with_tables_id in HF0. destruct Hr as [-> | ->]; zeq; [|wp_binds; exact HF0].
  wp_log. rewrite Hi. wp_binds. zeq. wp_log. apply wp_msql_conn.
  intros [|]; cbn [negb]; wp_binds; [|wp_log; exact HF0].
  apply wp_set_names. intros _. wp_sql s1 Hs1 Hl1.
  assert (forall (o1 : obs), o1 = with_tables (o_tables o) None (add_my 1 o) ->
    wp (time_str <- call Now ;;
        sql_cmd <- sql InsUser [AStr (r_user i); AStr (r_nick_name i); AStr (r_pwd i);
                                AStr (r_tel i); AStr time_str; AStr (r_email i)] ;;
        must INSERT_FAILED sql_cmd (mkEnd (-1) false true) ;;; Ret (mkEnd 0 false true))
       (fun x => wp (finish (fun _ => None) x) (reg_post i o) G)
       (fun x => wp (finish (fun _ => None) x) (reg_post i o) G) o1) as Hins.
  { intros o1 ->. wp_binds. apply wp_call. intros tm o1 (-> & Htm & Hpl). wp_binds.
    wp_sql s2 Hs2 Hl2. eapply wp_must; [done..|apply (HF true)|].
    intros t rs (Hfree & -> & ->). wp_binds. apply wp_finish_silent. cbn [e_ret e_conn e_redis].
    split; [kept_tac|]. obs_cbn. repeat split. left. repeat split; [exact Hfree|by exists tm]. }
  eapply wp_select_one; [exact Hs1|intros t rs Ht; exact Ht|..].
  - zeq. by apply Hins.
  - intros _. zeq. by apply Hins.
  - intros Hne. apply map_filter_not_nil in Hne. obs_cbn. congruence.
Qed.

(** C33: registration of a new user.  With result 0 the row of the new user
    was added, and neither the name nor the nickname was taken; with -1 nothing
    changed.  The connection is closed and nothing is printed by
    [user_register] itself. *)
Theorem user_register_spec (reg_buf : string) (i : reg_info) (o : obs) :
  conf_ok o -> get_reg_info (X := end_state) reg_buf = Ret (0%Z, i) -> reg_ok i = true ->
  existsb (is_user (r_user i)) (users (o_tables o)) = false ->
  wp (user_register (X := Empty_set) reg_buf) (reg_post i o) (fun _ _ => False) o.
Proof. apply wp_user_register. Qed.
End Register.

(** ** On a sample *)

#[local] Existing Instance binary_collation.

Definition reg_body (user nick : string) : string :=
  json_text [("userName", str user); ("nickName", str nick); ("firstPwd", str "pw");
             ("phone", str "1"); ("email", str "e")].

Lemma user_register_spec_witness :
  returned (X := Empty_set) (user_register (reg_body "amy" "a")) two_obs = Some 0%Z
  /\ run_ends (X := Empty_set) (user_register (reg_body "amy" "a")) two_obs
       (reg_post (mkReg "amy" "a" "pw" "1" "e") two_obs).
Proof.
  split; [vm_compute; reflexivity|].
  eapply (wp_run_ends _ _ (fun _ _ => False) _ 0%Z); [|vm_compute; reflexivity].
  apply (user_register_spec (reg_body "amy" "a") (mkReg "amy" "a" "pw" "1" "e") two_obs).
  - apply (demo_conf_ok two_users two_tokens).
  - vm_compute. reflexivity.
  - reflexivity.
  - reflexivity.
Defined.

(** The message for an existing user has a conversion and no argument: the
    second registration of a name is undefined behaviour instead of code 003. *)
Theorem register_existing_crashes :
  crashes (X := Empty_set) (user_register (reg_body "amy" "a" ) ;;; user_register (reg_body "amy" "b"))
    two_obs = true.
Proof. vm_compute. reflexivity. Qed.
