(* ===== verification/Login.v ===== *)
(** * login_cgi: passwords and tokens (src/src/cgi/login_cgi.c)

    [long_bytes] is the size of [unsigned long], on which the encryption
    depends (see Des.v); memory allocation succeeds. *)

From S2P Require Import Prelude CLib UtilCgi Bits Sql Tables CProg Mysql Redis CJson Config Sim Demo.
From S2P Require Import Auth Handler Samples Register.
From S2P Require Base64 Md5 Des.

(** The two fields, in buffers of 512 bytes that were zeroed; what was read
    before a failure stays. *)
Definition get_login_info {X} (login_buf : string) : prog X (Z * (string * string)) :=
  at_END
    (root <- json_parse login_buf ;;
     match root with
     | None => LOG "cJSON_Parse err" [] ;;; Goto ((-1)%Z, (EmptyString, EmptyString))
     | Some root =>
         user <- json_field 512 root "user" ((-1)%Z, (EmptyString, EmptyString)) ;;
         pwd <- json_field 512 root "pwd" ((-1)%Z, (user, EmptyString)) ;;
         Ret (0%Z, (user, pwd))
     end)
    Ret.

Definition PWD_LEN : Z := 256.

Definition check_user_pwd {X} (user pwd : string) : prog X Z :=
  let* (_, (mysql_user, mysql_pwd, mysql_db)) :=
    get_mysql_info EmptyString EmptyString EmptyString in
  LOG "mysql_user = %s, mysql_pwd = %s, mysql_db = %s"
    [AStr mysql_user; AStr mysql_pwd; AStr mysql_db] ;;;
  conn <- msql_conn mysql_user mysql_pwd mysql_db ;;
  if negb conn then LOG "msql_conn err" [] ;;; Ret (-1)%Z else
  mysql_query "set names utf8" ;;;
  sql_cmd <- sql SelPassword [AStr user] ;;
  let* (_, tmp) := process_result_one sql_cmd (Some (PWD_LEN, EmptyString)) in
  let ret := if streq tmp pwd then 0%Z else (-1)%Z in
  mysql_close ;;;
  Ret ret.

(** [rand () % 1000]. *)
Definition random_1000 {X} : prog X Z := r <- call Rand ;; Ret (r mod 1000)%Z.

(** The loop [sprintf (str, "%02x", decrypt[i]); strcat (token, str)] with
    [char token[128]]. *)
Fixpoint hex_token {X} (decrypt : list Z) (token : string) : prog X string :=
  match decrypt with
  | [] => Ret token
  | b :: decrypt =>
      str <- sprintf 100 "%02x" [AInt b] ;;
      token <- strcpy 128 (token +:+ str) ;;
      hex_token decrypt token
  end.

(** The MD5 context is not initialised beyond [MD5Init]; the digest does not
    depend on what its buffer holds ([Md5.md5_chunks]). *)
Definition digest (text : string) : list Z := Md5.md5_of (repeat 0%Z 64) [bytes_of text].

(** The token from the seed text, which [strlen] ends at its NUL. *)
Definition make_token {X} (long_bytes : Z) (tmp : string) (e : X) : prog X string :=
  match Des.DesEnc long_bytes true (bytes_of tmp) with
  | Ok (ret, enc_tmp) =>
      if negb (ret =? 0)%Z then LOG "DesEnc error" [] ;;; Goto e
      else if (2048 <? Z.of_nat (length enc_tmp))%Z then Crash
      else
        let base64 := Base64.base64_encode enc_tmp in
        base64 <- strcpy 3072 base64 ;;
        LOG "base64 = %s" [AStr base64] ;;;
        hex_token (digest base64) EmptyString
  | _ => Crash
  end.

(** Result and token; [token] was zeroed by the caller. *)
Definition set_token {X} (long_bytes : Z) (user : string) : prog X (Z * string) :=
  let fin (open : bool) ret token : bool * Z * string := (open, ret, token) in
  at_END
    (let* (_, redis_ip) := get_config_value CONFIG_PATH "redis" "ip" 30 EmptyString in
     let* (_, redis_port) := get_config_value CONFIG_PATH "redis" "port" 10 EmptyString in
     LOG "redis:[ip=%s,port=%s]" [AStr redis_ip; AStr redis_port] ;;;
     redis_conn <- rop_connectdb_nopwd redis_ip redis_port ;;
     if negb redis_conn then
       LOG "redis connected error" [] ;;; Goto (fin false (-1)%Z EmptyString)
     else
     r0 <- random_1000 ;;
     r1 <- random_1000 ;;
     r2 <- random_1000 ;;
     r3 <- random_1000 ;;
     tmp <- sprintf 1024 "%s%d%d%d%d" [AStr user; AInt r0; AInt r1; AInt r2; AInt r3] ;;
     LOG "tmp = %s" [AStr tmp] ;;;
     token <- make_token long_bytes tmp (fin true (-1)%Z EmptyString) ;;
     ret <- rop_setex_string user 86400 token ;;
     Ret (fin true ret token))
    (fun e => let '(open, ret, token) := e in
     (if open then rop_disconnect else Ret tt) ;;; Ret (ret, token)).

Definition login_status (status_num token : string) : option string :=
  cJSON_Print (cJSON_AddStringToObject
    (cJSON_AddStringToObject cJSON_CreateObject "code" status_num) "token" token).
Definition return_login_status {X} (status_num token : string) : prog X unit :=
  match login_status status_num token with Some out => printf out [] | None => Ret tt end.

(** One iteration of the loop of [main]. *)
Definition handle {X} (long_bytes : Z) (rq : request) : prog X unit :=
  content_type ;;;
  let len := content_len rq in
  if (len <=? 0)%Z then
    printf ("No data from standard input.<p>" +:+ nl) [] ;;;
    LOG "len = 0, No data from standard input" []
  else
    buf <- read_body 4096 len rq ;;
    match buf with
    | None => LOG "fread(buf, 1, len, stdin) err" []
    | Some buf =>
        LOG "buf = %s" [AStr buf] ;;;
        let* (_, (user, pwd)) := get_login_info buf in
        LOG "user = %s, pwd = %s" [AStr user; AStr pwd] ;;;
        ret <- check_user_pwd user pwd ;;
        let* (ret, token) :=
          (if (ret =? 0)%Z then
             let* (ret, token) := set_token long_bytes user in
             LOG "token = %s" [AStr token] ;;; Ret (ret, token)
           else Ret (ret, EmptyString)) in
        if (ret =? 0)%Z then return_login_status "000" token
        else return_login_status "001" "fail"
    end.

Fixpoint main {X} (long_bytes : Z) (rqs : list request) : prog X unit :=
  match rqs with
  | [] => Ret tt
  | rq :: rqs => handle long_bytes rq ;;; main long_bytes rqs
  end.

(** ** The token *)

Section Token.
Context {coll : Collation}.

Definition hex_char (c : ascii) : bool :=
  isdigit c || ((97 <=? byte_of c) && (byte_of c <=? 102))%Z.

Lemma hex_bytes :
  forallb (fun b => (slen (pad_hex 2 (Z.of_nat b)) =? 2)%Z && sforall hex_char (pad_hex 2 (Z.of_nat b)))
    (seq 0 256) = true.
Proof. vm_compute. reflexivity. Qed.

Lemma pad_hex_byte b : is_byte b -> slen (pad_hex 2 b) = 2%Z /\ sforall hex_char (pad_hex 2 b) = true.
Proof.
  intros Hb. pose proof hex_bytes as H. rewrite forallb_forall in H.
  specialize (H (Z.to_nat b)). rewrite Z2Nat.id in H by apply Hb.
  assert (In (Z.to_nat b) (seq 0 256)) as Hin by (apply in_seq; unfold is_byte in Hb; lia).
  apply H in Hin. split_andb. split; [lia|done].
Qed.

Lemma hex_text_ok l : Forall is_byte l ->
  slen (Md5.hex_text l) = (2 * Z.of_nat (length l))%Z /\ sforall hex_char (Md5.hex_text l) = true.
Proof.
  induction 1 as [|b l Hb _ [IH1 IH2]]; [done|]. cbn [Md5.hex_text length].
  destruct (pad_hex_byte b Hb) as [H1 H2]. rewrite slen_app, sforall_app, H1, H2, IH1, IH2.
  split; [lia|done].
Qed.

(** The loop appends two digits per byte. *)
Lemma hex_token_eq {X} l token : Forall is_byte l ->
  (slen token + 2 * Z.of_nat (length l) < 128)%Z ->
  hex_token (X := X) l token = Ret (token +:+ Md5.hex_text l).
Proof.
  revert token. induction l as [|b l IH]; intros token Hl Hlen.
  { cbn [hex_token Md5.hex_text]. by rewrite string_app_nil_r. }
  inversion Hl as [|? ? Hb Hl']; subst. cbn [hex_token Md5.hex_text length] in *.
  destruct (pad_hex_byte b Hb) as [Hp _].
  assert (format "%02x" [AInt b] = Some (pad_hex 2 b)) as Hf.
  { unfold format. change (pieces_of "%02x") with (Some [PHex 2]). cbn [render option_map].
    by rewrite string_app_nil_r. }
  unfold sprintf, strcpy. rewrite Hf, Hp. destruct (Z.ltb_spec 2 100); [|lia]. cbn [bind].
  rewrite slen_app, Hp. destruct (Z.ltb_spec (slen token + 2) 128); [|lia].
  cbn [bind]. rewrite IH; [by rewrite string_app_assoc|done|]. rewrite slen_app. lia.
Qed.

(** The token is the digest of the encrypted and encoded seed. *)
Definition token_of (tmp : string) : string :=
  match Des.DesEnc 4 true (bytes_of tmp) with
  | Ok (_, enc) => Md5.hex_text (digest (Base64.base64_encode enc))
  | _ => EmptyString
  end.

Definition token_ok (token : string) : Prop := slen token = 32%Z /\ sforall hex_char token = true.

Lemma digest_ok text : Forall is_byte (digest text) /\ length (digest text) = 16%nat.
Proof.
  unfold digest, Md5.md5_of. destruct (Md5.length_final
    (fold_left Md5.MD5Update [bytes_of text] (Md5.MD5Init (repeat 0%Z 64)))). done.
Qed.

Lemma token_of_ok enc : token_ok (Md5.hex_text (digest enc)).
Proof.
  destruct (digest_ok enc) as [Hb Hl]. destruct (hex_text_ok _ Hb) as [H1 H2].
  split; [|done]. rewrite H1, Hl. done.
Qed.

(** With 32-bit longs the token of a seed that fits its buffer is made without
    fail. *)
Lemma make_token_eq {X} tmp (e : X) : (slen tmp < 1024)%Z ->
  make_token 4 tmp e = Ret (token_of tmp) /\ token_ok (token_of tmp).
Proof.
  intros Hlen. destruct (Des.enc_ok (bytes_of tmp) (bytes_of_bytes tmp)) as (enc & Henc & Hel & Heb).
  unfold make_token, token_of. rewrite Henc. cbn [Z.eqb negb].
  split; [|apply token_of_ok].
  rewrite length_bytes_of in Hel. unfold slen in Hlen.
  assert (Z.of_nat (length enc) <= 1032)%Z as Hl.
  { rewrite Hel. pose proof (Nat.div_mod (String.length tmp) 8 ltac:(lia)). lia. }
  destruct (Z.ltb_spec 2048 (Z.of_nat (length enc))); [lia|].
  assert (slen (Base64.base64_encode enc) <= 1380)%Z as Hb.
  { rewrite Base64.encode_length.
    pose proof (Z.mul_div_le (Z.of_nat (length enc) + 2) 3 ltac:(lia)). lia. }
  unfold strcpy. destruct (Z.ltb_spec (slen (Base64.base64_encode enc)) 3072); [|lia]. cbn [bind].
  assert (LOG (X := X) "base64 = %s" [AStr (Base64.base64_encode enc)] = Ret tt) as ->.
  { unfold LOG, LOG0, format.
    change (pieces_of ("base64 = %s" +:+ nl)) with (Some (List.map PLit
      ["b"; "a"; "s"; "e"; "6"; "4"; " "; "="; " "]%char ++ [PStr; PLit LF])).
    cbn [List.map app render option_map]. rewrite !slen_cons, slen_app, slen_cons, slen_nil.
    destruct (Z.ltb_spec (1 + (1 + (1 + (1 + (1 + (1 + (1 + (1 + (1 +
      (slen (Base64.base64_encode enc) + (1 + 0))))))))))) LOG_BUF); [done|unfold LOG_BUF in *; lia]. }
  cbn [bind]. destruct (digest_ok (Base64.base64_encode enc)) as [Hd Hdl].
  rewrite hex_token_eq; [done|done|]. rewrite Hdl. done.
Qed.

(** ** set_token *)

Definition set_token_post (user : string) (o : obs) (rt : Z * string) (o' : obs) : Prop :=
  kept o o' /\ o_tables o' = o_tables o /\ o_out o' = o_out o /\ (slen (snd rt) <= 32)%Z
  /\ ((fst rt = 0%Z /\ token_ok (snd rt) /\ o_redis o' = <[user := VStr (snd rt)]> (o_redis o))
      \/ (fst rt = (-1)%Z /\ o_redis o' = o_redis o)).

Lemma wp_random {X} (Q : Z -> obs -> Prop) (G : X -> obs -> Prop) o :
  (forall r, (0 <= r < 1000)%Z -> Q r o) -> wp random_1000 Q G o.
Proof.
  intros HQ. unfold random_1000. wp_binds. apply wp_call. intros r o' (-> & Hr). wp_binds.
  apply HQ, Z.mod_pos_bound. lia.
Qed.

Lemma wp_set_token {X} user (Q : Z * string -> obs -> Prop) (G : X -> obs -> Prop) o :
  conf_ok o -> (slen user < 512)%Z ->
  (forall rt o', set_token_post user o rt o' -> Q rt o') -> wp (set_token 4 user) Q G o.
Proof.
  intros Hc Hu HQ. unfold set_token. apply wp_at_END. wp_binds.
  eapply wp_setting; [done|simpl; tauto|lia|done|]. intros _ ip _ Hip. wp_binds.
  eapply wp_setting; [done|simpl; tauto|lia|done|]. intros _ port _ Hport. wp_log.
  apply wp_connectdb_nopwd; [lia|]. intros [|]; cbn [negb].
  2:{ wp_log. apply HQ. split; [kept_tac|]. split_and!; try done. by right. }
  wp_binds. apply wp_random. intros r0 H0. wp_binds. apply wp_random. intros r1 H1. wp_binds.
  apply wp_random. intros r2 H2. wp_binds. apply wp_random. intros r3 H3. wp_binds.
  destruct (format_simple "%s%d%d%d%d" [PStr; PDec 0; PDec 0; PDec 0; PDec 0]
              [AStr user; AInt r0; AInt r1; AInt r2; AInt r3]) as (tmp & Hf & Hlen);
    [reflexivity|reflexivity| |].
  { repeat constructor; cbn [arg_ok]; unfold is_long, LONG_MIN, LONG_MAX; lia. }
  cbn [lits_len args_len arg_len] in Hlen.
  assert (slen tmp < 1024)%Z as Ht by lia.
  apply (wp_sprintf _ _ _ tmp); [exact Hf|lia|]. wp_log.
  destruct (make_token_eq (X := bool * Z * string) tmp (true, (-1)%Z, EmptyString) Ht) as [-> [Hl Hh]].
  wp_binds.
  apply wp_setex_string; wp_binds; apply wp_disconnect; wp_binds; apply HQ;
    (split; [kept_tac|]); split_and!; try done; cbn [snd]; try lia; [by right|].
  left. by split_and!.
Qed.

(** ** check_user_pwd *)

Definition passwords_fit (t : tables) : Prop :=
  forall r, In r (users t) -> (slen (u_password r) < 256)%Z.

Definition unchanged (o o' : obs) : Prop :=
  kept o o' /\ o_tables o' = o_tables o /\ o_redis o' = o_redis o /\ o_out o' = o_out o.

(** Success: the password of a row of this user, or the empty password. *)
Definition checked (user pwd : string) (o : obs) (ret : Z) (o' : obs) : Prop :=
  unchanged o o' /\
  ((ret = 0%Z /\ (pwd = EmptyString
      \/ exists r, In r (users (o_tables o)) /\ is_user user r = true /\ u_password r = pwd))
   \/ ret = (-1)%Z).

Lemma wp_check_user_pwd {X} user pwd (Q : Z -> obs -> Prop) (G : X -> obs -> Prop) o :
  conf_ok o -> plain user = true -> (slen user <= 330)%Z -> passwords_fit (o_tables o) ->
  (forall ret o', checked user pwd o ret o' -> Q ret o') -> wp (check_user_pwd user pwd) Q G o.
Proof.
  intros Hc Hu Hlen Hfit HQ. unfold check_user_pwd. wp_binds. apply wp_mysql_info; [done|].
  intros r a b c _ Ha Hb Hcl. wp_log. apply wp_msql_conn. intros [|]; cbn [negb]; wp_binds.
  2:{ wp_log. apply HQ. split; [repeat split|]. by right. }
  apply wp_set_names. intros _. wp_sql s1 Hs1 Hl1.
  assert (forall (tmp : string) rs, (tmp = pwd -> pwd = EmptyString
      \/ exists r, In r (users (o_tables o)) /\ is_user user r = true /\ u_password r = pwd) ->
    wp (mysql_close ;;; Ret (if streq tmp pwd then 0%Z else (-1)%Z)) Q G
       (with_tables (o_tables o) rs (add_my 1 o))) as Hend.
  { intros tmp rs Hp. wp_binds. apply wp_call. intros ? o' ->. wp_binds. apply HQ.
    split; [split_and!; try done; kept_tac|]. destruct (streq tmp pwd) eqn:E; [left|by right].
    apply streq_true in E. auto. }
  eapply wp_select_one; [exact Hs1|intros t rs Ht; exact Ht|..].
  - apply (Hend EmptyString). intros <-. by left.
  - intros _. apply (Hend EmptyString). intros <-. by left.
  - intros r' (x & <- & [Hx Hp]%filter_In)%in_map_iff. exists (u_password x), [].
    split; [done|]. split; [by apply Hfit|]. apply Hend. intros <-. right. by exists x.
Qed.

(** ** Theorems *)

Lemma hex_no_nul c : hex_char c = true -> negb (Ascii.eqb c NUL) = true.
Proof.
  intros H. destruct (Ascii.eqb c NUL) eqn:E; [|done]. apply Ascii.eqb_eq in E as ->. done.
Qed.

Lemma tokens_fit_insert user token r :
  tokens_fit r -> token_ok token -> tokens_fit (<[user := VStr token]> r).
Proof.
  intros Hr [Hl Hh] u v. rewrite lookup_insert_Some. intros [[_ [= <-]]|[_ Hu]]; [|by apply (Hr u)].
  split; [lia|]. eapply sforall_impl; [apply hex_no_nul|done].
Qed.

(** A new token (32-bit longs).  With result 0 Redis holds for the user
    exactly the returned token, 32 hexadecimal digits, and nothing else has
    changed; otherwise Redis is unchanged.  The connection is closed, and no
    random number or failing service leads to undefined behaviour. *)
Theorem set_token_spec (user : string) (o : obs) :
  conf_ok o -> (slen user < 512)%Z ->
  wp (set_token (X := Empty_set) 4 user) (set_token_post user o) (fun _ _ => False) o.
Proof. intros Hc Hu. by apply wp_set_token. Qed.


(** The password check.  It succeeds only with the password of a row of
    this user, or with the empty password; it changes nothing. *)
Theorem check_user_pwd_sound (user pwd : string) (o : obs) :
  conf_ok o -> plain user = true -> (slen user <= 330)%Z -> passwords_fit (o_tables o) ->
  wp (check_user_pwd (X := Empty_set) user pwd) (checked user pwd o) (fun _ _ => False) o.
Proof. intros Hc Hu Hl Hp. by apply wp_check_user_pwd. Qed.
End Token.

(** ** Defects, on the sample database *)

#[local] Existing Instance binary_collation.

Definition with_users (l : list user_row) (o : obs) : obs :=
  with_tables (set_users l (o_tables o)) (o_result o) o.
Definition amy : user_row := mkUser "amy" "a" "pw" "1" NOW "e".
Definition amy_obs : obs := with_users [amy] two_obs.

Lemma set_token_spec_witness :
  run_ends (X := Empty_set) (set_token 4 "amy") amy_obs (set_token_post "amy" amy_obs).
Proof.
  eapply (wp_run_ends _ _ (fun _ _ => False) _ (0%Z, token_of "amy7777"));
    [|vm_compute; reflexivity].
  apply (set_token_spec "amy" amy_obs); [apply (demo_conf_ok (o_tables amy_obs) two_tokens)|reflexivity].
Defined.

Lemma amy_tokens_fit : tokens_fit (o_redis amy_obs).
Proof.
  intros u v. cbn [o_redis amy_obs with_users with_tables two_obs with_dfs demo_obs]. unfold two_tokens.
  rewrite lookup_insert_Some, lookup_singleton_Some.
  intros [[_ [= <-]]|[_ [_ [= <-]]]]; done.
Qed.


Lemma check_user_pwd_sound_witness :
  returned (X := Empty_set) (check_user_pwd "amy" "pw") amy_obs = Some 0%Z
  /\ returned (X := Empty_set) (check_user_pwd "amy" "no") amy_obs = Some (-1)%Z
  /\ run_ends (X := Empty_set) (check_user_pwd "amy" "pw") amy_obs (checked "amy" "pw" amy_obs).
Proof.
  split; [vm_compute; reflexivity|]. split; [vm_compute; reflexivity|].
  eapply (wp_run_ends _ _ (fun _ _ => False) _ 0%Z); [|vm_compute; reflexivity].
  apply (check_user_pwd_sound "amy" "pw" amy_obs);
    [apply (demo_conf_ok (o_tables amy_obs) two_tokens)|reflexivity|vm_compute; done|].
  intros r [<-|[]]. reflexivity.
Defined.

Definition login_request (user pwd : string) : request :=
  let body := json_text [("user", str user); ("pwd", str pwd)] in
  mkRequest None (Some (dec_string (slen body))) body.

(** [check_user_pwd] ignores the result of its query and compares the
    zeroed buffer: a user who does not exist logs in with the empty password
    and gets a token, which [verify_token] then accepts. *)
Theorem login_without_account :
  existsb (is_user "mallory") (users (o_tables amy_obs)) = false
  /\ run_ends (X := Empty_set)
       (handle 4 (login_request "mallory" EmptyString) ;;;
        verify_token "mallory" (token_of "mallory7777")) amy_obs
       (fun ret o' => ret = 0%Z
          /\ o_redis o' !! "mallory" = Some (VStr (token_of "mallory7777"))).
Proof. split; vm_compute; auto. Qed.

(** Tokens are stored under the bare user name: a user with the name of
    the sorted set of shared files replaces the set by a token. *)
Theorem login_overwrites_shares :
  let o := with_redis {[ FILE_PUBLIC_ZSET := VZset {[ "m1a.txt" := 5%Z ]} ]} amy_obs in
  run_ends (X := Empty_set) (handle 4 (login_request FILE_PUBLIC_ZSET EmptyString)) o
    (fun _ o' => zset_of (o_redis o') FILE_PUBLIC_ZSET = None).
Proof. vm_compute. reflexivity. Qed.

(** With 64-bit longs no token can be made: the step from the seed to the
    token is undefined for every seed, and so is the login of Amy with her
    password. *)
Theorem login_lp64 (X : Type) (tmp : string) (e : X) :
  make_token 8 tmp e = Crash
  /\ crashes (X := Empty_set) (handle 8 (login_request "amy" "pw")) amy_obs = true.
Proof.
  split; [unfold make_token; by rewrite Des.DesEnc_lp64|]. vm_compute. reflexivity.
Qed.
