(* ===== verification/DealFile.v ===== *)
(** * dealfile_cgi: sharing, deleting and downloading one's files
    (src/src/cgi/dealfile_cgi.c)

    [share_file], [del_file] and [pv_file] with all their statements, Redis
    commands and error paths, and the FastCGI loop around them.  The request's
    fields are static buffers of [main] that keep their content from one
    request to the next. *)

From S2P Require Import Prelude CLib UtilCgi Sql Tables CProg Mysql Redis CJson Config Sim Demo.
From S2P Require Import Auth Handler Samples.

Definition FAILED : string := "%s 操作失败: %s".
Definition FAILED1 : string := "%s 操作失败".

Definition read_config {X} : prog X conf :=
  let* (_, mysql_user) := get_config_value CONFIG_PATH "mysql" "user" 128 EmptyString in
  let* (_, mysql_pwd) := get_config_value CONFIG_PATH "mysql" "password" 128 EmptyString in
  let* (_, mysql_db) := get_config_value CONFIG_PATH "mysql" "database" 128 EmptyString in
  LOG0 "mysql:[user=%s,pwd=%s,database=%s]" [AStr mysql_user; AStr mysql_pwd; AStr mysql_db] ;;;
  let* (_, redis_ip) := get_config_value CONFIG_PATH "redis" "ip" 30 EmptyString in
  let* (_, redis_port) := get_config_value CONFIG_PATH "redis" "port" 10 EmptyString in
  LOG "redis:[ip=%s,port=%s]" [AStr redis_ip; AStr redis_port] ;;;
  Ret (mkConf mysql_user mysql_pwd mysql_db redis_ip redis_port).

(** The buffers of [main]. *)
Record bufs := mkBufs {
  b_cmd : string; b_user : string; b_token : string; b_md5 : string; b_filename : string }.

Definition set_user (s : string) (b : bufs) := mkBufs (b_cmd b) s (b_token b) (b_md5 b) (b_filename b).
Definition set_token_buf (s : string) (b : bufs) := mkBufs (b_cmd b) (b_user b) s (b_md5 b) (b_filename b).
Definition set_md5 (s : string) (b : bufs) := mkBufs (b_cmd b) (b_user b) (b_token b) s (b_filename b).
Definition set_filename (s : string) (b : bufs) := mkBufs (b_cmd b) (b_user b) (b_token b) (b_md5 b) s.
Definition set_cmd (s : string) (b : bufs) := mkBufs s (b_user b) (b_token b) (b_md5 b) (b_filename b).

Definition get_json_info {X} (buf : string) (b : bufs) : prog X (Z * bufs) :=
  at_END
    (root <- json_parse buf ;;
     match root with
     | None => LOG "cJSON_Parse err" [] ;;; Goto ((-1)%Z, b)
     | Some root =>
         s <- json_field 128 root "user" ((-1)%Z, b) ;;
         let b := set_user s b in
         s <- json_field 256 root "md5" ((-1)%Z, b) ;;
         let b := set_md5 s b in
         s <- json_field 256 root "filename" ((-1)%Z, b) ;;
         let b := set_filename s b in
         s <- json_field 128 root "token" ((-1)%Z, b) ;;
         let b := set_token_buf s b in
         Ret (0%Z, b)
     end)
    Ret.

Definition share_codes (ret : Z) : option string :=
  if (ret =? 0)%Z then Some "010"
  else if (ret =? -1)%Z then Some "011"
  else if (ret =? -2)%Z then Some "012" else None.

(** Steps 1-3: is the file shared already, in Redis or in the tables? *)
Definition share_check (md5 filename fileid : string) : prog end_state unit :=
  ret2 <- rop_zset_exit FILE_PUBLIC_ZSET fileid ;;
  if (ret2 =? 1)%Z then LOG "别人已经分享此文件" [] ;;; Goto (both (-2))
  else if (ret2 =? 0)%Z then
    sql_cmd <- sql SelShare [AStr md5; AStr filename] ;;
    let* (ret2, _) := process_result_one sql_cmd None in
    if (ret2 =? 2)%Z then
      rop_zset_add FILE_PUBLIC_ZSET 0 fileid ;;;
      LOG "别人已经分享此文件" [] ;;; Goto (both (-2))
    else Ret tt
  else Goto (both (-1)).

(** Steps 4-6: the tables, then the set and the hash of Redis. *)
Definition share_store (user md5 filename fileid : string) : prog end_state end_state :=
  sql_cmd <- sql SetShared [AStr user; AStr md5; AStr filename] ;;
  must FAILED sql_cmd (both (-1)) ;;;
  create_time <- call Now ;;
  sql_cmd <- sql InsShare [AStr user; AStr md5; AStr create_time; AStr filename; AInt 0] ;;
  must FAILED sql_cmd (both (-1)) ;;;
  sql_cmd <- sql SelUserCount [AStr SHARE_USER] ;;
  count_up (fun s => must FAILED s (both (-1))) InsUserCount SHARE_USER sql_cmd EmptyString ;;;
  rop_zset_add FILE_PUBLIC_ZSET 0 fileid ;;;
  rop_hash_set FILE_NAME_HASH fileid filename ;;;
  Ret (both 0).

Definition share_file {X} (cf : conf) (user md5 filename : string) : prog X Z :=
  at_END
    (redis_conn <- rop_connectdb_nopwd (redis_ip cf) (redis_port cf) ;;
     if negb redis_conn then LOG0 "redis connected error" [] ;;; Goto (mkEnd (-1) false false) else
     conn <- msql_conn (mysql_user cf) (mysql_pwd cf) (mysql_db cf) ;;
     if negb conn then LOG "msql_conn err" [] ;;; Goto (mkEnd (-1) true false) else
     mysql_query "set names utf8" ;;;
     fileid <- sprintf 1024 "%s%s" [AStr md5; AStr filename] ;;
     share_check md5 filename fileid ;;;
     share_store user md5 filename fileid)
    (finish share_codes).

Definition remove_file_from_storage {X} (fileid : string) : prog X Z :=
  let* (_, fdfs_cli_conf_path) := get_config_value CONFIG_PATH "dfs_path" "client" 256 EmptyString in
  cmd <- sprintf 2048 "fdfs_delete_file %s %s" [AStr fdfs_cli_conf_path; AStr fileid] ;;
  ret <- call (System cmd) ;;
  LOG "remove_file_from_storage ret = %d" [AInt (int32 ret)] ;;;
  Ret (int32 ret).

Definition del_codes (ret : Z) : option string := if (ret =? 0)%Z then Some "013" else Some "014".

(** Is the file shared, and is it in Redis?  [share], [flag], and [tmp]. *)
Definition del_lookup (user md5 filename fileid : string) : prog end_state (Z * Z * string) :=
  ret2 <- rop_zset_exit FILE_PUBLIC_ZSET fileid ;;
  if (ret2 =? 1)%Z then Ret (1, 1, EmptyString)%Z
  else if (ret2 =? 0)%Z then
    sql_cmd <- sql SelSharedStatus [AStr user; AStr md5; AStr filename] ;;
    let* (ret2, tmp) := process_result_one sql_cmd (Some (512%Z, EmptyString)) in
    if (ret2 =? 0)%Z then Ret (atoi tmp, 0, tmp)%Z
    else if (ret2 =? -1)%Z then LOG FAILED1 [AStr sql_cmd] ;;; Goto (both (-1))
    else Ret (0, 0, tmp)%Z
  else Goto (both (-1)).

(** The share goes: its row, the number of shares, the Redis records. *)
Definition del_unshare (user md5 filename fileid : string) (flag : Z) (tmp : string)
    : prog end_state string :=
  sql_cmd <- sql DelShare [AStr user; AStr md5; AStr filename] ;;
  must FAILED sql_cmd (both (-1)) ;;;
  sql_cmd <- sql SelUserCount [AStr SHARE_USER] ;;
  tmp <- must_select FAILED1 sql_cmd tmp (both (-1)) ;;
  sql_cmd <- sql UpdUserCount [AInt (int32 (atoi tmp - 1)); AStr SHARE_USER] ;;
  must FAILED sql_cmd (both (-1)) ;;;
  (if (flag =? 1)%Z then
     rop_zset_zrem FILE_PUBLIC_ZSET fileid ;;;
     rop_hash_del FILE_NAME_HASH fileid ;;; Ret tt
   else Ret tt) ;;;
  Ret tmp.

(** The user's counter and the user's row. *)
Definition del_owned (user md5 filename tmp : string) : prog end_state string :=
  sql_cmd <- sql SelUserCount [AStr user] ;;
  tmp <- must_select FAILED1 sql_cmd tmp (both (-1)) ;;
  let count := atoi tmp in
  sql_cmd <- (if (count =? 1)%Z then sql DelUserCount [AStr user]
              else sql UpdUserCount [AInt (int32 (count - 1)); AStr user]) ;;
  must FAILED sql_cmd (both (-1)) ;;;
  sql_cmd <- sql DelUserFile [AStr user; AStr md5; AStr filename] ;;
  must FAILED sql_cmd (both (-1)) ;;;
  Ret tmp.

(** The reference count, and the stored file when nobody refers to it. *)
Definition del_stored (md5 tmp : string) : prog end_state end_state :=
  sql_cmd <- sql SelFileCount [AStr md5] ;;
  tmp <- must_select FAILED1 sql_cmd tmp (both (-1)) ;;
  let count := int32 (atoi tmp - 1) in
  sql_cmd <- sql UpdFileCountTight [AInt count; AStr md5] ;;
  must FAILED sql_cmd (both (-1)) ;;;
  if (count =? 0)%Z then
    sql_cmd <- sql SelFileId [AStr md5] ;;
    tmp <- must_select FAILED1 sql_cmd tmp (both (-1)) ;;
    sql_cmd <- sql DelFileInfo [AStr md5] ;;
    must FAILED sql_cmd (both (-1)) ;;;
    ret2 <- remove_file_from_storage tmp ;;
    if negb (ret2 =? 0)%Z then LOG "remove_file_from_storage err" [] ;;; Goto (both (-1))
    else Ret (both 0)
  else Ret (both 0).

Definition del_file {X} (cf : conf) (user md5 filename : string) : prog X Z :=
  at_END
    (redis_conn <- rop_connectdb_nopwd (redis_ip cf) (redis_port cf) ;;
     if negb redis_conn then LOG0 "redis connected error" [] ;;; Goto (mkEnd (-1) false false) else
     conn <- msql_conn (mysql_user cf) (mysql_pwd cf) (mysql_db cf) ;;
     if negb conn then LOG "msql_conn err" [] ;;; Goto (mkEnd (-1) true false) else
     mysql_query "set names utf8" ;;;
     fileid <- sprintf 1024 "%s%s" [AStr md5; AStr filename] ;;
     let* ((share, flag), tmp) := del_lookup user md5 filename fileid in
     tmp <- (if (share =? 1)%Z then del_unshare user md5 filename fileid flag tmp else Ret tmp) ;;
     tmp <- del_owned user md5 filename tmp ;;
     del_stored md5 tmp)
    (finish del_codes).

Definition pv_codes (ret : Z) : option string := if (ret =? 0)%Z then Some "016" else Some "017".

Definition pv_file {X} (cf : conf) (user md5 filename : string) : prog X Z :=
  at_END
    (conn <- msql_conn (mysql_user cf) (mysql_pwd cf) (mysql_db cf) ;;
     if negb conn then LOG "msql_conn err" [] ;;; Goto (mkEnd (-1) false false) else
     let fail := mkEnd (-1) false true in
     mysql_query "set names utf8" ;;;
     sql_cmd <- sql SelPv [AStr user; AStr md5; AStr filename] ;;
     tmp <- must_select FAILED1 sql_cmd EmptyString fail ;;
     let pv := atoi tmp in
     sql_cmd <- sql UpdPv [AInt (int32 (pv + 1)); AStr user; AStr md5; AStr filename] ;;
     must FAILED sql_cmd fail ;;;
     Ret (mkEnd 0 false true))
    (finish pv_codes).

(** One iteration of the loop of [main]: the new buffers. *)
Definition handle {X} (cf : conf) (b : bufs) (rq : request) : prog X bufs :=
  cmd <- query_value 20 (rq_query rq) "cmd" (b_cmd b) ;;
  let b := set_cmd cmd b in
  LOG "cmd = %s" [AStr cmd] ;;;
  content_type ;;;
  let len := content_len rq in
  if (len <=? 0)%Z then
    printf ("No data from standard input.<p>" +:+ nl) [] ;;;
    LOG "len = 0, No data from standard input" [] ;;; Ret b
  else
    buf <- read_body 4096 len rq ;;
    match buf with
    | None => LOG "fread(buf, 1, len, stdin) err" [] ;;; Ret b
    | Some buf =>
        LOG "buf = %s" [AStr buf] ;;;
        let* (_, b) := get_json_info buf b in
        LOG "user = %s, token = %s, md5 = %s, filename = %s"
          [AStr (b_user b); AStr (b_token b); AStr (b_md5 b); AStr (b_filename b)] ;;;
        ret <- verify_token (b_user b) (b_token b) ;;
        if negb (ret =? 0)%Z then print_status "111" ;;; Ret b
        else
          (if streq cmd "share" then share_file cf (b_user b) (b_md5 b) (b_filename b) ;;; Ret tt
           else if streq cmd "del" then del_file cf (b_user b) (b_md5 b) (b_filename b) ;;; Ret tt
           else if streq cmd "pv" then pv_file cf (b_user b) (b_md5 b) (b_filename b) ;;; Ret tt
           else Ret tt) ;;;
          Ret b
    end.

(** [main] on a sequence of requests; [b] is what the buffers hold at the start. *)
Fixpoint serve {X} (cf : conf) (b : bufs) (rqs : list request) : prog X bufs :=
  match rqs with
  | [] => Ret b
  | rq :: rqs => b <- handle cf b rq ;; serve cf b rqs
  end.

Definition main {X} (b : bufs) (rqs : list request) : prog X bufs :=
  cf <- read_config ;; serve cf b rqs.

(** ** share_file *)

(** What a refused share may leave: the set repaired from the tables. *)
Definition redis_reshare (fileid : string) (r r' : gmap string rval) : Prop :=
  r' = r \/ exists z, zset_of r FILE_PUBLIC_ZSET = Some z
                      /\ r' = <[FILE_PUBLIC_ZSET := VZset (<[fileid := 0%Z]> z)]> r.

Section DealFile.
Context {coll : Collation}.

Definition share_ops (u m f tm : string) : list (tables -> tables) :=
  [op_set_shared 1 u m f; op_add_share u m tm f; op_inc SHARE_USER].

(** The outcomes of [share_file]. *)
Definition share_post (u m f : string) (o : obs) (ret : Z) (o' : obs) : Prop :=
  let t := o_tables o in
  kept o o' /\
  ((ret = 0%Z /\ o_out o' = o_out o +:+ status_text "010"
      /\ (exists tm, o_tables o' = applied (share_ops u m f tm) t
                     \/ o_tables o' = applied (firstn 2 (share_ops u m f tm)) t)
      /\ o_redis o' = redis_share (m +:+ f) f (o_redis o)
      /\ (forall z, zset_of (o_redis o) FILE_PUBLIC_ZSET = Some z -> same_scores z ->
            (m +:+ f) ∉ dom z))
   \/ (ret = (-1)%Z /\ o_out o' = o_out o +:+ status_text "011"
      /\ (exists tm, stage (share_ops u m f tm) t (o_tables o')) /\ o_redis o' = o_redis o)
   \/ (ret = (-2)%Z /\ o_out o' = o_out o +:+ status_text "012"
      /\ o_tables o' = t /\ redis_reshare (m +:+ f) (o_redis o) (o_redis o')
      /\ (existsb (is_share m f) (share_file_list t) = true
          \/ exists z, zset_of (o_redis o) FILE_PUBLIC_ZSET = Some z
                       /\ (same_scores z -> (m +:+ f) ∈ dom z)))).

(** Already shared: Redis or the tables say so.  Otherwise the check falls
    through, also when the lookup in the tables failed. *)
Lemma wp_share_check md5 filename (Q : unit -> obs -> Prop) (G : end_state -> obs -> Prop) o :
  plain md5 = true -> plain filename = true -> (slen md5 + slen filename <= 330)%Z ->
  (forall rs, G (both (-1)) (with_tables (o_tables o) rs o)) ->
  (forall r rs, redis_reshare (md5 +:+ filename) (o_redis o) r ->
     existsb (is_share md5 filename) (share_file_list (o_tables o)) = true
     \/ (exists z, zset_of (o_redis o) FILE_PUBLIC_ZSET = Some z
                   /\ (same_scores z -> (md5 +:+ filename) ∈ dom z)) ->
     G (both (-2)) (with_redis r (with_tables (o_tables o) rs o))) ->
  (forall rs, (forall z, zset_of (o_redis o) FILE_PUBLIC_ZSET = Some z -> same_scores z ->
                 (md5 +:+ filename) ∉ dom z) -> Q tt (with_tables (o_tables o) rs o)) ->
  wp (share_check md5 filename (md5 +:+ filename)) Q G o.
Proof.
  intros Hm Hf Hlen HF HS HQ. unfold share_check. wp_binds.
  pose proof (with_tables_id o) as Hid. pose proof (with_redis_id o) as Hrd.
  apply wp_zset_exit; [slen_lia| |].
  { intros _. zeq. wp_binds. rewrite <- Hid. apply HF. }
  intros z n Hz Hn0 Hn1. destruct (Z.eqb_spec (int32 n) 1) as [E1|E1].
  { wp_log. rewrite <- Hrd, <- Hid. apply HS; [by left|]. right. exists z. split; [done|].
    intros Hs. destruct (decide (md5 +:+ filename ∈ dom z)); [done|].
    rewrite Hn1 in E1 by done. done. }
  destruct (Z.eqb_spec (int32 n) 0) as [E0|E0]; [|wp_binds; rewrite <- Hid; apply HF].
  assert (forall z', zset_of (o_redis o) FILE_PUBLIC_ZSET = Some z' -> same_scores z' ->
            (md5 +:+ filename) ∉ dom z') as Hnot.
  { intros z' Hz' Hs Hd. simplify_eq. rewrite Hn1, decide_True in E0 by done. done. }
  wp_sql s1 Hs1 Hl1. eapply wp_select_one; [exact Hs1|intros t rs Ht; exact Ht|..].
  - zeq. wp_binds. by apply HQ.
  - intros _. zeq. wp_binds. by apply HQ.
  - intros Hl. zeq. wp_binds.
    assert (existsb (is_share md5 filename) (share_file_list (o_tables o)) = true) as Hex.
    { destruct (List.filter _ _) as [|r l] eqn:E; [done|]. apply (existsb_filter _ _ r).
      rewrite E. by left. }
    apply wp_zset_add; [slen_lia|done| |].
    + intros Hbad. obs_cbn. congruence.
    + intros z' Hz'. obs_cbn. simplify_eq. wp_log. apply HS; [|by left].
      right. exists z. done.
Qed.

Lemma wp_share_store user md5 filename (Q G : end_state -> obs -> Prop) o :
  names_ok user md5 filename = true -> tables_wf 1 (o_tables o) ->
  (forall tm k rs, G (both (-1))
     (with_tables (applied (firstn k (share_ops user md5 filename tm)) (o_tables o)) rs o)) ->
  (forall tm k rs, (k = 2 \/ k = 3)%nat -> Q (both 0)
     (with_redis (redis_share (md5 +:+ filename) filename (o_redis o))
        (with_tables (applied (firstn k (share_ops user md5 filename tm)) (o_tables o)) rs o))) ->
  wp (share_store user md5 filename (md5 +:+ filename)) Q G o.
Proof.
  intros Hn Hwf HG HQ. split_names Hn. unfold share_store.
  wp_sql s1 Hs1 Hl1. eapply wp_must; [done..|apply (HG EmptyString 0%nat)|].
  intros t1 rs1 [-> ->]. wp_binds. apply wp_call. intros tm o1 (-> & Htm & Hpl). wp_binds.
  wp_sql s2 Hs2 Hl2. eapply wp_must; [done..|apply (HG tm 1%nat)|].
  intros t2 rs2 [-> ->]. wp_sql s3 Hs3 Hl3.
  assert (forall k rs, (k = 2 \/ k = 3)%nat ->
    wp (rop_zset_add FILE_PUBLIC_ZSET 0 (md5 +:+ filename) ;;;
        rop_hash_set FILE_NAME_HASH (md5 +:+ filename) filename ;;; Ret (both 0)) Q G
       (with_tables (applied (firstn k (share_ops user md5 filename tm)) (o_tables o)) rs o)) as Hred.
  { intros k rs Hk. specialize (HQ tm k rs Hk). unfold redis_share in HQ. wp_binds.
    apply wp_zset_add; [slen_lia|done|..];
      [intros Hz|intros z Hz]; cbn [o_redis with_tables] in Hz; rewrite Hz in HQ; wp_binds;
      (apply wp_hash_set; [slen_lia|..]);
      [intros Hh|intros h Hh|intros Hh|intros h Hh];
      cbn [o_redis with_tables with_redis] in Hh; rewrite Hh in HQ; wp_binds; exact HQ. }
  apply (wp_count_up _ _ _ _ SelUserCount _ (both (-1)));
    [apply must_guarded; intros; vm_compute; reflexivity|by left|by left|done|done
    |vm_compute; reflexivity|vm_compute; done|..].
  - obs_cbn. change (tables_wf 0 (op_add_share user md5 tm filename
                      (op_set_shared 1 user md5 filename (o_tables o)))). solve_wf.
  - intros rs. apply (HG tm 2%nat).
  - intros rs. apply (Hred 3%nat). by right.
  - intros rs. apply (Hred 2%nat). by left.
Qed.

(** The failing END of [share_file]. *)
Lemma share_failed {X} user md5 filename (a b : bool) (G : X -> obs -> Prop) o o' :
  o_redis o' = o_redis o -> o_out o' = o_out o ->
  kept o (add_my (if b then -1 else 0) (add_rd (if a then -1 else 0) o')) ->
  (exists tm, stage (share_ops user md5 filename tm) (o_tables o) (o_tables o')) ->
  wp (finish share_codes (mkEnd (-1) a b)) (share_post user md5 filename o) G o'.
Proof.
  intros Hr Ho Hk Hs. end_block. split; [exact Hk|]. right; left. obs_cbn. rewrite Ho. auto.
Qed.

Lemma wp_share_file {X} cf user md5 filename (G : X -> obs -> Prop) o :
  conf_fits cf -> names_ok user md5 filename = true -> tables_wf 1 (o_tables o) ->
  wp (share_file cf user md5 filename) (share_post user md5 filename o) G o.
Proof.
  intros Hcf Hn Hwf. pose proof Hn as Hn'. split_names Hn'. unfold share_file. apply wp_at_END.
  apply wp_open_both; [done|..].
  1-2: apply share_failed; [done..|kept_tac|exists EmptyString; apply stage_start].
  wp_binds. apply (wp_sprintf _ _ _ (md5 +:+ filename)); [apply format_ss|slen_lia|]. wp_binds.
  apply wp_share_check; [done..|slen_lia| | |]; obs_cbn.
  - intros rs. apply share_failed; [done..|kept_tac|exists EmptyString; apply stage_start].
  - intros r rs Hr Hs. end_block. split; [kept_tac|]. right; right. obs_cbn. auto.
  - intros rs Hnot. apply wp_share_store; [done..|by apply (wf_le 1)| |]; obs_cbn.
    + intros tm k rs'. apply share_failed; [done..|kept_tac|exists tm, k; done].
    + intros tm k rs' Hk. end_block. split; [kept_tac|]. left. obs_cbn.
      repeat split; auto. exists tm. destruct Hk as [->| ->]; auto.
Qed.


(** ** del_file *)

(** A file that Redis may report as shared has its name in the hash. *)
Definition redis_linked (fileid : string) (r : gmap string rval) : Prop :=
  exists h, hash_of r FILE_NAME_HASH = Some h
    /\ (fileid ∈ dom h
        \/ forall z, zset_of r FILE_PUBLIC_ZSET = Some z -> same_scores z /\ fileid ∉ dom z).

(** The outcome of the lookup: in Redis ([flag] = 1), or the status column. *)
Definition looked_up (u m f : string) (o : obs) (share flag : Z) : Prop :=
  (flag = 1%Z /\ share = 1%Z
   /\ exists z, zset_of (o_redis o) FILE_PUBLIC_ZSET = Some z
                /\ (same_scores z -> (m +:+ f) ∈ dom z))
  \/ (flag = 0%Z
      /\ (forall z, zset_of (o_redis o) FILE_PUBLIC_ZSET = Some z -> same_scores z ->
            (m +:+ f) ∉ dom z)
      /\ ((share = 0%Z /\ existsb (is_ufl u m f) (user_file_list (o_tables o)) = false)
          \/ exists r, In r (user_file_list (o_tables o)) /\ is_ufl u m f r = true
                       /\ share = l_shared_status r)).

Lemma wp_del_lookup user md5 filename (Q : Z * Z * string -> obs -> Prop)
    (G : end_state -> obs -> Prop) o :
  names_ok user md5 filename = true -> tables_wf 0 (o_tables o) ->
  (forall rs, G (both (-1)) (with_tables (o_tables o) rs o)) ->
  (forall share flag tmp rs, looked_up user md5 filename o share flag ->
     Q (share, flag, tmp) (with_tables (o_tables o) rs o)) ->
  wp (del_lookup user md5 filename (md5 +:+ filename)) Q G o.
Proof.
  intros Hn Hwf HG HQ. split_names Hn. unfold del_lookup. wp_binds.
  pose proof (with_tables_id o) as Hid.
  apply wp_zset_exit; [slen_lia| |].
  { intros _. zeq. wp_binds. rewrite <- Hid. apply HG. }
  intros z n Hz Hn0 Hn1. destruct (Z.eqb_spec (int32 n) 1) as [E1|E1].
  { wp_binds. rewrite <- Hid. apply HQ. left. repeat split. exists z. split; [done|].
    intros Hs. destruct (decide (md5 +:+ filename ∈ dom z)); [done|].
    rewrite Hn1 in E1 by done. done. }
  destruct (Z.eqb_spec (int32 n) 0) as [E0|E0]; [|wp_binds; rewrite <- Hid; apply HG].
  assert (forall z', zset_of (o_redis o) FILE_PUBLIC_ZSET = Some z' -> same_scores z' ->
            (md5 +:+ filename) ∉ dom z') as Hnot.
  { intros z' Hz' Hs Hd. simplify_eq. rewrite Hn1, decide_True in E0 by done. done. }
  wp_sql s1 Hs1 Hl1.
  apply (wp_select_num s1 SelSharedStatus [AStr user; AStr md5; AStr filename] l_shared_status
           (List.filter (is_ufl user md5 filename) (user_file_list (o_tables o))));
    [done|done| |lia|..].
  - intros r [Hr _]%filter_In. apply Hwf, Hr.
  - zeq. unfold SQL_MAX_LEN in Hl1. wp_log. apply HG.
  - intros HL. zeq. wp_binds. apply HQ. right. repeat split; [done|]. left. split; [done|].
    apply existsb_false_iff. intros x Hx. destruct (is_ufl user md5 filename x) eqn:E; [|done].
    assert (In x []) as []. rewrite <- HL. by apply filter_In.
  - intros r Hr. zeq. wp_binds. apply filter_In in Hr as [Hr Hp]. apply HQ. right.
    repeat split; [done|]. right. exists r. repeat split; try done.
    apply atoi_small. apply Hwf, Hr.
Qed.

Definition unshare_ops (u m f : string) : list (tables -> tables) :=
  [op_del_share u m f; op_bump SHARE_USER (-1)].

Lemma wp_del_unshare user md5 filename flag tmp (Q : string -> obs -> Prop)
    (G : end_state -> obs -> Prop) o :
  names_ok user md5 filename = true -> tables_wf 0 (o_tables o) ->
  (flag = 1%Z -> exists h, hash_of (o_redis o) FILE_NAME_HASH = Some h
                           /\ (md5 +:+ filename) ∈ dom h) ->
  (forall k rs, G (both (-1))
     (with_tables (applied (firstn k (unshare_ops user md5 filename)) (o_tables o)) rs o)) ->
  (forall tmp rs, Q tmp
     (with_redis (if (flag =? 1)%Z then redis_unshare (md5 +:+ filename) (o_redis o) else o_redis o)
        (with_tables (applied (unshare_ops user md5 filename) (o_tables o)) rs o))) ->
  wp (del_unshare user md5 filename (md5 +:+ filename) flag tmp) Q G o.
Proof.
  intros Hn Hwf Hlink HG HQ. split_names Hn. unfold del_unshare.
  wp_sql s1 Hs1 Hl1. eapply wp_must; [done..|apply (HG 0%nat)|]. intros t1 rs1 [-> ->].
  wp_sql s2 Hs2 Hl2.
  assert (tables_wf 0 (op_del_share user md5 filename (o_tables o))) as Hwf1 by solve_wf.
  eapply (wp_must_select_num _ s2 _ _ c_count); [done..| | |apply (HG 1%nat)|].
  { intros t rs Ht. exact Ht. }
  { intros r Hr. by apply (small_filter_cnt SHARE_USER (op_del_share user md5 filename (o_tables o))). }
  intros r Hr. obs_cbn.
  pose proof (small_filter_cnt SHARE_USER (op_del_share user md5 filename (o_tables o)) r Hwf1 Hr) as Hsm.
  rewrite atoi_small by done. destruct (small_long (c_count r) (-1) Hsm ltac:(auto)) as [Hi Hl].
  change (c_count r - 1)%Z with (c_count r + -1)%Z. rewrite Hi.
  wp_sql s3 Hs3 Hl3. eapply wp_must; [done..|apply (HG 1%nat)|]. intros t2 rs2 [Ht2 ->].
  assert (t2 = op_bump SHARE_USER (-1) (op_del_share user md5 filename (o_tables o))) as ->.
  { rewrite Ht2. exact (cnt_found SHARE_USER _ r (-1) Hwf1 Hr). }
  wp_binds. destruct (Z.eqb_spec flag 1) as [Ef|Ef]; [|wp_binds; apply (HQ _ None)].
  destruct (Hlink Ef) as (h & Hh & Hd). specialize (HQ (dec_string (c_count r)) None).
  unfold redis_unshare in HQ. wp_binds.
  apply wp_zset_zrem; [slen_lia|..]; [intros Hz|intros z Hz]; cbn [o_redis with_tables] in Hz;
    rewrite Hz in HQ; wp_binds; (eapply (wp_hash_del _ _ h); [|done|wp_binds]);
    obs_cbn; rewrite ?hash_of_put_zset in * by done; rewrite ?Hh in HQ; try done; exact HQ.
Qed.

Lemma wp_del_owned user md5 filename tmp (Q : string -> obs -> Prop)
    (G : end_state -> obs -> Prop) o :
  names_ok user md5 filename = true -> tables_wf 0 (o_tables o) ->
  (forall k rs, G (both (-1))
     (with_tables (applied (firstn k [op_dec user; op_del_ufl user md5 filename]) (o_tables o)) rs o)) ->
  (forall tmp rs, Q tmp
     (with_tables (applied [op_dec user; op_del_ufl user md5 filename] (o_tables o)) rs o)) ->
  wp (del_owned user md5 filename tmp) Q G o.
Proof.
  intros Hn Hwf HG HQ. split_names Hn. unfold del_owned.
  wp_sql s1 Hs1 Hl1. eapply (wp_must_select_num _ s1 _ _ c_count); [done..| | |apply (HG 0%nat)|].
  { intros t rs Ht. exact Ht. }
  { intros r Hr. by apply (small_filter_cnt user (o_tables o)). }
  intros r Hr. pose proof (small_filter_cnt user (o_tables o) r Hwf Hr) as Hsm.
  rewrite atoi_small by done. destruct (small_long (c_count r) (-1) Hsm ltac:(auto)) as [Hi Hl].
  assert (forall o1, o1 = with_tables (op_dec user (o_tables o)) None o ->
    wp (sql_cmd <- sql DelUserFile [AStr user; AStr md5; AStr filename] ;;
        must FAILED sql_cmd (both (-1)) ;;; Ret (dec_string (c_count r))) Q G o1) as Hrow.
  { intros o1 ->. wp_sql s2 Hs2 Hl2. eapply wp_must; [done..|apply (HG 1%nat)|].
    intros t rs [-> ->]. wp_binds. apply HQ. }
  wp_binds. pose proof (dec_found user (o_tables o) r Hwf Hr) as Hdec.
  destruct (Z.eqb_spec (c_count r) 1) as [E|E].
  - wp_sql s2 Hs2 Hl2. eapply wp_must; [done..|apply (HG 0%nat)|]. intros t rs [-> ->].
    apply Hrow. by rewrite Hdec.
  - change (c_count r - 1)%Z with (c_count r + -1)%Z. rewrite Hi.
    wp_sql s2 Hs2 Hl2. eapply wp_must; [done..|apply (HG 0%nat)|]. intros t rs [Ht ->].
    apply Hrow. rewrite Hdec, <- (cnt_found user (o_tables o) r (-1) Hwf Hr). by rewrite Ht.
Qed.

(** The last reference: the counter of the file is 1. *)
Definition last_ref (m : string) (t : tables) : bool :=
  existsb (fun r => is_file m r && (f_count r =? 1)%Z) (file_info t).

Definition stored_ops (m : string) (last : bool) : list (tables -> tables) :=
  op_ref m (-1) :: if last then [op_del_file m] else [].

(** FastDFS after a deletion: the file under its id is gone. *)
Definition dfs_deleted (m : string) (t : tables) (d d' : gmap string string) : Prop :=
  exists r, In r (file_info t) /\ is_file m r = true /\ d' = delete (f_file_id r) d.

Definition ids_ok (t : tables) : Prop :=
  forall r, In r (file_info t) -> shell_word (f_file_id r) = true.

Lemma wp_remove_file fileid (Q : Z -> obs -> Prop) (G : end_state -> obs -> Prop) o :
  conf_ok o -> shell_word fileid = true -> (slen fileid < 512)%Z ->
  (forall r, (r <> 0)%Z -> Q r o) ->
  (forall r, Q r (with_dfs (delete fileid (o_dfs o)) o)) ->
  wp (remove_file_from_storage fileid) Q G o.
Proof.
  intros Hc Hw Hlen HF HQ. unfold remove_file_from_storage. wp_binds.
  assert (forall v, v = EmptyString \/ shell_word v = true -> (slen v < 256)%Z ->
    wp (cmd <- sprintf 2048 "fdfs_delete_file %s %s" [AStr v; AStr fileid] ;;
        ret <- call (System cmd) ;;
        LOG "remove_file_from_storage ret = %d" [AInt (int32 ret)] ;;; Ret (int32 ret)) Q G o) as Hrun.
  { intros v Hv Hlv. wp_binds. apply (wp_sprintf _ _ _ (delete_cmd v fileid)).
    - unfold delete_cmd. rewrite <- (string_app_nil_r fileid) at 2. reflexivity.
    - unfold delete_cmd. change (slen ("fdfs_delete_file " +:+ v +:+ " " +:+ fileid) < 2048)%Z.
      rewrite !slen_app. change (slen "fdfs_delete_file ") with 17%Z. change (slen " ") with 1%Z. lia.
    - wp_binds. apply wp_call. intros r o' [Hr Hspec]. specialize (Hspec v fileid eq_refl Hw).
      rewrite int32_small by done. unfold is_int in Hr. wp_log. destruct Hv as [Hv|Hv].
      + destruct (proj1 Hspec Hv) as [Hne ->]. auto.
      + destruct (proj2 Hspec Hv) as [[Hne ->]| ->]; auto. }
  eapply wp_config; [done|simpl; tauto|lia|..].
  - apply Hrun; [by left|done].
  - intros c v Hcont Hitem Hlv. apply Hrun; [|done]. right.
    specialize (Hc c Hcont) as [_ Hcl]%andb_prop. by rewrite Hitem in Hcl.
Qed.

Lemma last_found m t r :
  tables_wf 0 t -> In r (List.filter (is_file m) (file_info t)) ->
  last_ref m t = (f_count r =? 1)%Z.
Proof.
  intros Hwf [Hin Hp]%filter_In. unfold last_ref. destruct (Z.eqb_spec (f_count r) 1) as [E|E].
  - apply existsb_exists. exists r. rewrite Hp, E. done.
  - apply existsb_false_iff. intros x Hx. destruct (is_file m x) eqn:Ex; [|done]. simpl.
    destruct (unique_row (is_file m) (file_info t) r x) as []; try done; [apply Hwf|].
    by apply Z.eqb_neq.
Qed.

Lemma in_ref_filter m d t r :
  In r (List.filter (is_file m) (file_info (op_ref m d t))) ->
  exists r0, In r0 (file_info t) /\ is_file m r0 = true /\ f_file_id r = f_file_id r0.
Proof.
  intros [(y & Hy & Hr)%in_update Hp]%filter_In. exists y. split; [done|].
  destruct Hr as [->| ->]; done.
Qed.

Lemma wp_del_stored md5 tmp (Q G : end_state -> obs -> Prop) o :
  plain md5 = true -> (slen md5 <= 330)%Z -> tables_wf 1 (o_tables o) ->
  conf_ok o -> ids_ok (o_tables o) ->
  let ops := stored_ops md5 (last_ref md5 (o_tables o)) in
  (forall k rs, G (both (-1)) (with_tables (applied (firstn k ops) (o_tables o)) rs o)) ->
  (forall d rs, last_ref md5 (o_tables o) = true -> dfs_deleted md5 (o_tables o) (o_dfs o) d ->
     G (both (-1)) (with_dfs d (with_tables (applied ops (o_tables o)) rs o))) ->
  (forall d rs,
     (if last_ref md5 (o_tables o) then dfs_deleted md5 (o_tables o) (o_dfs o) d else d = o_dfs o) ->
     Q (both 0) (with_dfs d (with_tables (applied ops (o_tables o)) rs o))) ->
  wp (del_stored md5 tmp) Q G o.
Proof.
  intros Hm Hlen Hwf Hc Hids ops HG HGd HQ. unfold del_stored.
  pose proof (wf_le 1 0 _ ltac:(lia) Hwf) as Hwf0.
  wp_sql s1 Hs1 Hl1. eapply (wp_must_select_num _ s1 _ _ f_count); [done..| | |apply (HG 0%nat)|].
  { intros t rs Ht. exact Ht. }
  { intros r [Hr _]%filter_In. apply Hwf0, Hr. }
  intros r Hr. assert (small 0 (f_count r)) as Hsm by (apply filter_In in Hr as [Hr _]; apply Hwf0, Hr).
  rewrite atoi_small by done. destruct (small_long (f_count r) (-1) Hsm ltac:(auto)) as [Hi Hl].
  change (f_count r - 1)%Z with (f_count r + -1)%Z. rewrite Hi.
  pose proof (last_found md5 _ r Hwf0 Hr) as Hlast.
  wp_sql s2 Hs2 Hl2. eapply wp_must; [done..|apply (HG 0%nat)|]. intros t1 rs1 [Ht1 ->].
  assert (t1 = op_ref md5 (-1) (o_tables o)) as ->.
  { rewrite Ht1. exact (ref_found md5 _ r (-1) Hwf0 Hr). }
  subst ops. rewrite Hlast in *.
  replace (f_count r + -1 =? 0)%Z with (f_count r =? 1)%Z
    by (destruct (Z.eqb_spec (f_count r) 1), (Z.eqb_spec (f_count r + -1) 0); lia).
  destruct (f_count r =? 1)%Z eqn:E; [|wp_binds; by apply HQ].
  wp_sql s3 Hs3 Hl3.
  apply (wp_must_select _ s3 SelFileId [AStr md5] f_file_id
           (List.filter (is_file md5) (file_info (op_ref md5 (-1) (o_tables o)))));
    [done..| |apply (HG 1%nat)|].
  { intros x (x0 & Hx0 & _ & ->)%in_ref_filter. apply Hwf0, Hx0. }
  intros x Hx. destruct (in_ref_filter _ _ _ _ Hx) as (x0 & Hx0 & Hp0 & Hid).
  wp_sql s4 Hs4 Hl4. eapply wp_must; [done..|apply (HG 1%nat)|]. intros t2 rs2 [-> ->]. wp_binds.
  rewrite Hid. apply wp_remove_file; [exact Hc|by apply Hids|apply Hwf0, Hx0|..].
  - intros ret Hret. destruct (Z.eqb_spec ret 0); [done|]. zeq. wp_log. apply (HG 2%nat).
  - intros ret. assert (dfs_deleted md5 (o_tables o) (o_dfs o) (delete (f_file_id x0) (o_dfs o))) as Hd.
    { by exists x0. }
    destruct (ret =? 0)%Z; zeq; [wp_binds; by apply HQ|wp_log; by apply HGd].
Qed.

Definition del_ops (u m f : string) (share last : bool) : list (tables -> tables) :=
  (if share then unshare_ops u m f else [])
  ++ [op_dec u; op_del_ufl u m f] ++ stored_ops m last.

(** After a failure: a prefix of the operations with all stored files in place,
    or all of them when only the delete tool complained. *)
Definition del_partial (u m f : string) (share : bool) (t : tables) (d : gmap string string)
    (t' : tables) (d' : gmap string string) : Prop :=
  (d' = d /\ stage (del_ops u m f share (last_ref m t)) t t')
  \/ (last_ref m t = true /\ dfs_deleted m t d d'
      /\ t' = applied (del_ops u m f share (last_ref m t)) t).

(** The outcomes of [del_file]. *)
Definition del_post (u m f : string) (o : obs) (ret : Z) (o' : obs) : Prop :=
  let t := o_tables o in
  let last := last_ref m t in
  o_files o' = o_files o /\ o_my o' = o_my o /\ o_rd o' = o_rd o /\
  ((ret = 0%Z /\ o_out o' = o_out o +:+ status_text "013"
      /\ exists share flag, looked_up u m f o share flag
         /\ o_tables o' = applied (del_ops u m f (share =? 1)%Z last) t
         /\ o_redis o' = (if (flag =? 1)%Z then redis_unshare (m +:+ f) (o_redis o) else o_redis o)
         /\ (if last then dfs_deleted m t (o_dfs o) (o_dfs o') else o_dfs o' = o_dfs o))
   \/ (ret = (-1)%Z /\ o_out o' = o_out o +:+ status_text "014"
      /\ (o_redis o' = o_redis o \/ o_redis o' = redis_unshare (m +:+ f) (o_redis o))
      /\ exists share, del_partial u m f share t (o_dfs o) (o_tables o') (o_dfs o'))).

Lemma file_info_dec u t : file_info (op_dec u t) = file_info t.
Proof. unfold op_dec. by destruct (existsb _ _). Qed.

(** The rows of file_info when the reference count is reached. *)
Lemma file_info_before u m f (share : bool) t :
  file_info (applied ((if share then unshare_ops u m f else []) ++ [op_dec u; op_del_ufl u m f]) t)
  = file_info t.
Proof.
  rewrite applied_app. cbn [applied fold_left]. unfold op_del_ufl. cbn [file_info set_user_file_list].
  rewrite file_info_dec. by destruct share.
Qed.

(** From the user's row on, once the share is settled. *)
Lemma wp_del_rest user md5 filename (share : bool) tmp (Q G : end_state -> obs -> Prop) o t0 :
  names_ok user md5 filename = true -> conf_ok o -> ids_ok t0 ->
  tables_wf 3 t0 ->
  o_tables o = applied (if share then unshare_ops user md5 filename else []) t0 ->
  let ops := del_ops user md5 filename share (last_ref md5 t0) in
  (forall t d rs, del_partial user md5 filename share t0 (o_dfs o) t d ->
     G (both (-1)) (with_dfs d (with_tables t rs o))) ->
  (forall d rs,
     (if last_ref md5 t0 then dfs_deleted md5 t0 (o_dfs o) d else d = o_dfs o) ->
     Q (both 0) (with_dfs d (with_tables (applied ops t0) rs o))) ->
  wp (tmp <- del_owned user md5 filename tmp ;; del_stored md5 tmp) Q G o.
Proof.
  intros Hn Hc Hids Hwf Ht ops HG HQ. pose proof Hn as Hn'. split_names Hn'.
  assert (tables_wf 2 (o_tables o)) as Hwf2.
  { rewrite Ht. destruct share; cbn [applied unshare_ops fold_left]; solve_wf. }
  assert (forall t rs, stage ops t0 t -> G (both (-1)) (with_tables t rs o)) as HG'.
  { intros t rs Hs. assert (with_dfs (o_dfs o) (with_tables t rs o) = with_tables t rs o) as <-
      by obs_eq. apply HG. by left. }
  set (pre := (if share then unshare_ops user md5 filename else [])) in *.
  set (own := [op_dec user; op_del_ufl user md5 filename]).
  assert (ops = (pre ++ own) ++ stored_ops md5 (last_ref md5 t0)) as Hops by (by rewrite <- app_assoc).
  wp_binds. apply wp_del_owned; [done|solve_wf| |].
  { intros k rs. apply HG'. rewrite Ht. apply stage_mid. }
  intros tmp' rs0. fold own. set (o1 := with_tables (applied own (o_tables o)) rs0 o).
  assert (o_tables o1 = applied (pre ++ own) t0) as Ht1.
  { rewrite applied_app, <- Ht. reflexivity. }
  assert (file_info (o_tables o1) = file_info t0) as Hfi.
  { rewrite Ht1. apply file_info_before. }
  assert (last_ref md5 (o_tables o1) = last_ref md5 t0) as Hlast by (unfold last_ref; by rewrite Hfi).
  assert (forall d, dfs_deleted md5 (o_tables o1) (o_dfs o) d <-> dfs_deleted md5 t0 (o_dfs o) d) as Hdd.
  { intros d. unfold dfs_deleted. by rewrite Hfi. }
  apply wp_del_stored; [done|slen_lia| |exact Hc| |rewrite Hlast, ?Ht1..].
  - cbn [o_tables with_tables o1 applied own fold_left]. solve_wf.
  - intros r. rewrite Hfi. apply Hids.
  - intros k rs. apply (HG' _ rs). rewrite Hops. apply stage_right.
  - intros d rs Hl Hd. rewrite <- applied_app, <- Hops. apply (HG _ d rs). right.
    split; [done|]. split; [|done]. apply Hdd. by rewrite Ht1.
  - intros d rs Hd. rewrite <- applied_app, <- Hops. apply (HQ d rs).
    destruct (last_ref md5 t0); [|done]. apply Hdd. by rewrite Ht1.
Qed.

(** The failing END of [del_file]. *)
Lemma del_failed {X} user md5 filename (a b : bool) (G : X -> obs -> Prop) o o' :
  o_out o' = o_out o -> o_files o' = o_files o ->
  o_my (add_my (if b then -1 else 0) o') = o_my o ->
  o_rd (add_rd (if a then -1 else 0) o') = o_rd o ->
  (o_redis o' = o_redis o \/ o_redis o' = redis_unshare (md5 +:+ filename) (o_redis o)) ->
  (exists share, del_partial user md5 filename share (o_tables o) (o_dfs o) (o_tables o') (o_dfs o')) ->
  wp (finish del_codes (mkEnd (-1) a b)) (del_post user md5 filename o) G o'.
Proof.
  intros Ho Hfl Hmy Hrd Hr Hs. end_block. unfold del_post. obs_cbn.
  repeat split; try done. right. rewrite Ho. auto.
Qed.

(** A file the lookup found in Redis has its name in the hash. *)
Lemma linked_flag user md5 filename o share flag :
  redis_linked (md5 +:+ filename) (o_redis o) -> looked_up user md5 filename o share flag ->
  flag = 1%Z ->
  exists h, hash_of (o_redis o) FILE_NAME_HASH = Some h /\ (md5 +:+ filename) ∈ dom h.
Proof.
  intros (h & Hh & Hlink) Hlk ->. exists h. split; [done|]. destruct Hlink as [|Hno]; [done|].
  destruct Hlk as [(_ & _ & z & Hz & Hin)|(? & _)]; [|done].
  destruct (Hno z Hz) as [Hs Hni]. by destruct (Hni (Hin Hs)).
Qed.

Lemma wp_del_file {X} cf user md5 filename (G : X -> obs -> Prop) o :
  conf_fits cf -> conf_ok o -> names_ok user md5 filename = true ->
  tables_wf 3 (o_tables o) -> ids_ok (o_tables o) ->
  redis_linked (md5 +:+ filename) (o_redis o) ->
  wp (del_file cf user md5 filename) (del_post user md5 filename o) G o.
Proof.
  intros Hcf Hc Hn Hwf Hids Hlink. pose proof Hn as Hn'. split_names Hn'.
  unfold del_file. apply wp_at_END. apply wp_open_both; [done|..].
  1-2: apply del_failed; obs_cbn;
    [done|done|lia|lia|by left|exists true; left; split; [done|apply stage_start]].
  wp_binds. apply (wp_sprintf _ _ _ (md5 +:+ filename)); [apply format_ss|slen_lia|]. wp_binds.
  apply wp_del_lookup; [done|solve_wf|..]; obs_cbn.
  { intros rs. apply del_failed; obs_cbn;
      [done|done|lia|lia|by left|exists true; left; split; [done|apply stage_start]]. }
  intros share flag tmp rs Hlook.
  assert (looked_up user md5 filename o share flag) as Hlk by exact Hlook. clear Hlook. wp_binds.
  pose proof (linked_flag _ _ _ _ _ _ Hlink Hlk) as Hflag.
  set (r' := if (flag =? 1)%Z then redis_unshare (md5 +:+ filename) (o_redis o) else o_redis o).
  assert (r' = o_redis o \/ r' = redis_unshare (md5 +:+ filename) (o_redis o)) as Hr'.
  { subst r'. destruct (flag =? 1)%Z; auto. }
  assert (forall tmp' o1,
    o1 = with_redis r' (with_tables (applied (if (share =? 1)%Z then
           unshare_ops user md5 filename else []) (o_tables o)) (o_result o1) (add_my 1 (add_rd 1 o))) ->
    wp (tmp0 <- del_owned user md5 filename tmp' ;; del_stored md5 tmp0)
       (fun x => wp (finish del_codes x) (del_post user md5 filename o) G)
       (fun x => wp (finish del_codes x) (del_post user md5 filename o) G) o1) as Hrest.
  { intros tmp' o1 ->. apply (wp_del_rest _ _ _ (share =? 1)%Z _ _ _ _ (o_tables o)); try done.
    - intros t d rs' Hs. apply del_failed; obs_cbn;
        [done|done|lia|lia|done|by exists (share =? 1)%Z].
    - intros d rs' Hd. end_block. unfold del_post. obs_cbn. repeat split; try done; try lia.
      left. repeat split. by exists share, flag. }
  destruct (Z.eqb_spec share 1) as [Es|Es].
  - apply wp_del_unshare; [done|solve_wf|done| |].
    + intros k rs'. apply del_failed; obs_cbn;
        [done|done|lia|lia|by left|exists true; left; split; [done|apply stage_left]].
    + intros tmp' rs'. apply Hrest. done.
  - apply wp_ret, Hrest. destruct Hlk as [(_ & Hbad & _)|(-> & _)]; [destruct (Es Hbad)|].
    subst r'. zeq. clear. obs_eq.
Qed.


(** ** pv_file *)

Definition pv_post (u m f : string) (o : obs) (ret : Z) (o' : obs) : Prop :=
  kept o o' /\ o_redis o' = o_redis o /\
  ((ret = 0%Z /\ o_out o' = o_out o +:+ status_text "016"
      /\ exists r, In r (user_file_list (o_tables o)) /\ is_ufl u m f r = true
                   /\ o_tables o' = op_pv u m f (l_pv r + 1) (o_tables o))
   \/ (ret = (-1)%Z /\ o_out o' = o_out o +:+ status_text "017" /\ o_tables o' = o_tables o)).

Lemma wp_pv_file {X} cf user md5 filename (G : X -> obs -> Prop) o :
  names_ok user md5 filename = true -> tables_wf 0 (o_tables o) ->
  wp (pv_file cf user md5 filename) (pv_post user md5 filename o) G o.
Proof.
  intros Hn Hwf. split_names Hn. unfold pv_file. apply wp_at_END.
  apply wp_open_mysql.
  { end_block. split; [kept_tac|]. obs_cbn. split; [done|]. by right. }
  wp_sql s1 Hs1 Hl1.
  apply (wp_must_select_num _ s1 SelPv [AStr user; AStr md5; AStr filename] l_pv
           (List.filter (is_ufl user md5 filename) (user_file_list (o_tables o)))); [done..| | |].
  { intros r [Hr _]%filter_In. apply Hwf, Hr. }
  { end_block. split; [kept_tac|]. obs_cbn. split; [done|]. by right. }
  intros r Hr. apply filter_In in Hr as [Hr Hp].
  assert (small 0 (l_pv r)) as Hsm by apply Hwf, Hr.
  rewrite atoi_small by done. destruct (small_long (l_pv r) 1 Hsm ltac:(auto)) as [-> Hl].
  wp_sql s2 Hs2 Hl2. eapply wp_must; [done..| |].
  { end_block. split; [kept_tac|]. obs_cbn. split; [done|]. by right. }
  intros t rs [-> ->]. end_block. split; [kept_tac|]. obs_cbn. split; [done|]. left.
  repeat split. by exists r.
Qed.

(** ** Requests *)

(** A request the loop can take: the command fits its buffer, the body fits
    [buf] and the log message, and reading the fields gives buffers [b']. *)
Definition request_ok (b : bufs) (rq : request) (cmd : string) (b' : bufs) : Prop :=
  (exists q, rq_query rq = Some q /\ query_parse_key_value q "cmd" = Ok cmd)
  /\ (slen cmd < 20)%Z
  /\ (0 < Z.min (content_len rq) (slen (rq_body rq)) < 4080)%Z
  /\ (exists r, get_json_info (X := Empty_set) (body_text rq) (set_cmd cmd b) = Ret (r, b'))
  /\ names_ok (b_user b') (b_md5 b') (b_filename b') = true
  /\ (slen (b_token b') < 128)%Z.

(** What the dispatched handler does. *)
Definition dispatched (cmd u m f : string) (o o' : obs) : Prop :=
  if streq cmd "share" then exists ret, share_post u m f o ret o'
  else if streq cmd "del" then exists ret, del_post u m f o ret o'
  else if streq cmd "pv" then exists ret, pv_post u m f o ret o'
  else o' = o.

Lemma wp_dispatch {X} cf cmd u m f (b : bufs) (Q : bufs -> obs -> Prop) (G : X -> obs -> Prop) o :
  conf_fits cf -> conf_ok o -> names_ok u m f = true -> tables_wf 3 (o_tables o) ->
  ids_ok (o_tables o) -> redis_linked (m +:+ f) (o_redis o) ->
  (forall o', dispatched cmd u m f o o' -> Q b o') ->
  wp ((if streq cmd "share" then share_file cf u m f ;;; Ret tt
       else if streq cmd "del" then del_file cf u m f ;;; Ret tt
       else if streq cmd "pv" then pv_file cf u m f ;;; Ret tt
       else Ret tt) ;;; Ret b) Q G o.
Proof.
  intros Hcf Hc Hn Hwf Hids Hlink HQ. unfold dispatched in HQ. wp_binds.
  destruct (streq cmd "share"); [|destruct (streq cmd "del"); [|destruct (streq cmd "pv")]];
    wp_binds; [| | |by apply HQ].
  - eapply wp_mono; [apply wp_share_file; [done..|solve_wf]| |done]. intros ret o' H.
    wp_binds. apply HQ. eauto.
  - eapply wp_mono; [apply wp_del_file; done| |done]. intros ret o' H. wp_binds. apply HQ. eauto.
  - eapply wp_mono; [apply wp_pv_file; [done|solve_wf]| |done]. intros ret o' H.
    wp_binds. apply HQ. eauto.
Qed.

(** C7: authorisation of the requests of dealfile_cgi.  A request whose fields
    are read into the buffers [b'] reaches a handler only when Redis holds, for
    the user of [b'], exactly the token of [b'], and then the handler of its
    command runs with the fields of [b'] (an unknown command does nothing);
    otherwise the response is the header and status 111, and neither the tables
    nor the stored files change.  No run crashes. *)
Theorem handle_authorised (cf : conf) (b b' : bufs) (rq : request) (cmd : string) (o : obs) :
  conf_fits cf -> conf_ok o -> tables_wf 3 (o_tables o) -> ids_ok (o_tables o) ->
  tokens_fit (o_redis o) -> redis_linked (b_md5 b' +:+ b_filename b') (o_redis o) ->
  request_ok b rq cmd b' ->
  wp (handle (X := Empty_set) cf b rq)
     (fun b'' o' => b'' = b' /\
        ((o_redis o !! b_user b' = Some (VStr (b_token b'))
          /\ dispatched cmd (b_user b') (b_md5 b') (b_filename b')
               (with_out (o_out o +:+ HEADER) o) o')
         \/ (kept o o' /\ o_tables o' = o_tables o
             /\ o_out o' = o_out o +:+ HEADER +:+ status_text "111")))
     (fun _ _ => False) o.
Proof.
  intros Hcf Hc Hwf Hids Htok Hlink ((q & Hq & Hcmd) & Hclen & Hlen & (r & Hjson) & Hn & Htl).
  unfold handle. wp_binds. unfold query_value. rewrite Hq, Hcmd. apply wp_strcpy; [done|].
  wp_binds. wp_log. apply wp_printf_const; [reflexivity|]. wp_binds.
  destruct (Z.leb_spec (content_len rq) 0); [lia|]. wp_binds. unfold read_body.
  destruct (Z.eqb_spec (Z.min (content_len rq) (slen (rq_body rq))) 0); [lia|].
  destruct (Z.leb_spec 4096 (Z.min (content_len rq) (slen (rq_body rq)))); [lia|]. wp_binds.
  fold (body_text rq). pose proof (body_text_len rq) as Hbl.
  apply (wp_log_fits _ _ 10); [vm_compute; reflexivity|solve_args|solve_len|].
  wp_binds. rewrite Hjson. wp_binds.
  pose proof Hn as Hn'. split_names Hn'. wp_log.
  apply wp_verify_token; [exact Hc|exact Htok|].
  intros ret o' [(-> & -> & Hu')|(-> & Ho')]; zeq.
  - apply wp_dispatch; [done..|]. intros o' Hd. split; [done|]. by left.
  - apply wp_bind, wp_print_status; [vm_compute; reflexivity|]. wp_binds.
    split; [done|]. right. destruct Ho' as [->| ->]; repeat split; obs_cbn; by rewrite string_app_assoc.
Qed.
End DealFile.

(** ** On the sample database *)

#[local] Existing Instance binary_collation.

Lemma linked_no_zset fileid r :
  r !! FILE_PUBLIC_ZSET = None -> r !! FILE_NAME_HASH = None -> redis_linked fileid r.
Proof.
  intros Hz Hh. exists ∅. unfold hash_of, zset_of. rewrite Hz, Hh. split; [done|]. right.
  intros z [= <-]. split; [by intros ? ? ? ?; rewrite lookup_empty|]. by rewrite dom_empty_L.
Qed.

Lemma two_linked fileid : redis_linked fileid (o_redis two_obs).
Proof. by apply linked_no_zset. Qed.

Lemma two_tokens_fit : tokens_fit (o_redis two_obs).
Proof.
  intros u v. cbn [o_redis two_obs with_dfs demo_obs]. unfold two_tokens.
  rewrite lookup_insert_Some, lookup_singleton_Some.
  intros [[_ [= <-]]|[_ [_ [= <-]]]]; done.
Qed.

Lemma two_ids : ids_ok (o_tables two_obs).
Proof. intros r [<-|[<-|[]]]; reflexivity. Qed.

Lemma two_conf_ok : conf_ok two_obs.
Proof. apply (demo_conf_ok two_users two_tokens). Qed.



Definition demo_request (cmd : string) (body : string) : request :=
  mkRequest (Some ("cmd=" +:+ cmd)) (Some (dec_string (slen body))) body.

(** The body of a request of dealfile_cgi. *)
Definition file_body (user token md5 filename : string) : string :=
  json_text [("user", str user); ("token", str token); ("md5", str md5); ("filename", str filename)].

Definition empty_bufs : bufs := mkBufs EmptyString EmptyString EmptyString EmptyString EmptyString.

(** Bob counts a download of his file. *)
Lemma handle_authorised_witness :
  let rq := demo_request "pv" (file_body "bob" "tb" "m1" "a.txt") in
  let b' := mkBufs "pv" "bob" "tb" "m1" "a.txt" in
  returned (X := Empty_set) (handle demo_cf empty_bufs rq) two_obs = Some b'
  /\ run_ends (X := Empty_set) (handle demo_cf empty_bufs rq) two_obs
       (fun b'' _ => b'' = b').
Proof.
  intros rq b'. split; [vm_compute; reflexivity|].
  eapply (wp_run_ends _ _ (fun _ _ => False) _ b'); [|vm_compute; reflexivity].
  eapply wp_mono; [apply (handle_authorised demo_cf empty_bufs b' rq "pv" two_obs)| |].
  - reflexivity.
  - apply two_conf_ok.
  - apply wf_b_spec. vm_compute. reflexivity.
  - apply two_ids.
  - apply two_tokens_fit.
  - apply two_linked.
  - split; [eexists; split; vm_compute; reflexivity|]. split; [reflexivity|].
    split; [vm_compute; done|]. split; [eexists; vm_compute; reflexivity|]. done.
  - intros b'' o' [-> _]. reflexivity.
  - done.
Defined.

(** ** Defects *)

(** [del_file] does not look for the user's row before it counts down: when
    Eve, who has a file of her own, deletes the file of Bob, she gets code 013,
    the file's row is gone from file_info and its content from FastDFS, while
    Bob's row still refers to it. *)
Theorem del_file_not_owner :
  run_ends (X := Empty_set) (del_file demo_cf "eve" "m1" "a.txt") two_obs
    (fun ret o' =>
       ret = 0%Z
       /\ existsb (is_file "m1") (file_info (o_tables o')) = false
       /\ o_dfs o' !! "group1/M00/00/00/f1" = None
       /\ existsb (is_ufl "bob" "m1" "a.txt") (user_file_list (o_tables o')) = true).
Proof. vm_compute. repeat split. Qed.

(** The buffers of [main] keep their content and the result of
    [get_json_info] is ignored: after a request of Bob, a request with any
    unparsable body and the command del deletes the file Bob's request named,
    with Bob's token. *)
Theorem stale_buffers_reused :
  run_ends (X := Empty_set)
    (main empty_bufs [demo_request "pv" (file_body "bob" "tb" "m1" "a.txt");
                      demo_request "del" "?"]) two_obs
    (fun _ o' => existsb (is_ufl "bob" "m1" "a.txt") (user_file_list (o_tables o')) = false).
Proof. vm_compute. reflexivity. Qed.
