(* ===== verification/Md5Cgi.v ===== *)
(** * md5_cgi: instant upload of a file the server has already
    (src/src/cgi/md5_cgi.c) *)

From S2P Require Import Prelude CLib UtilCgi Sql Tables CProg Mysql Redis CJson Config Sim Demo.
From S2P Require Import Auth Handler Samples.

Definition FAILED : string := "%s 操作失败： %s".

Definition read_config {X} : prog X conf :=
  let* (_, mysql_user) := get_config_value CONFIG_PATH "mysql" "user" 128 EmptyString in
  let* (_, mysql_pwd) := get_config_value CONFIG_PATH "mysql" "password" 128 EmptyString in
  let* (_, mysql_db) := get_config_value CONFIG_PATH "mysql" "database" 128 EmptyString in
  LOG0 "mysql:[user=%s,pwd=%s,database=%s]" [AStr mysql_user; AStr mysql_pwd; AStr mysql_db] ;;;
  Ret (mkConf mysql_user mysql_pwd mysql_db EmptyString EmptyString).

(** The buffers of one request; all are zeroed for each request. *)
Record md5_bufs := mkMd5 { m_user : string; m_token : string; m_md5 : string; m_filename : string }.

(** On failure the caller drops the request, so the buffers are not returned. *)
Definition get_md5_info {X} (buf : string) : prog X (Z * md5_bufs) :=
  let none := ((-1)%Z, mkMd5 EmptyString EmptyString EmptyString EmptyString) in
  at_END
    (root <- json_parse buf ;;
     match root with
     | None => LOG "cJSON_Parse err" [] ;;; Goto none
     | Some root =>
         user <- json_field 128 root "user" none ;;
         md5 <- json_field 256 root "md5" none ;;
         filename <- json_field 128 root "fileName" none ;;
         token <- json_field 256 root "token" none ;;
         Ret (0%Z, mkMd5 user token md5 filename)
     end)
    Ret.

Definition md5_codes (ret : Z) : option string :=
  if (ret =? 0)%Z then Some "006" else if (ret =? -2)%Z then Some "005" else Some "007".

Definition deal_md5 {X} (cf : conf) (user md5 filename : string) : prog X Z :=
  at_END
    (conn <- msql_conn (mysql_user cf) (mysql_pwd cf) (mysql_db cf) ;;
     if negb conn then LOG "msql_conn err" [] ;;; Goto (mkEnd (-1) false false) else
     let fin r := mkEnd r false true in
     mysql_query "set names utf8" ;;;
     sql_cmd <- sql SelFileCount [AStr md5] ;;
     let* (ret2, tmp) := process_result_one sql_cmd (Some (512%Z, EmptyString)) in
     if (ret2 =? 0)%Z then
       let count := atoi tmp in
       sql_cmd <- sql SelUserFile [AStr user; AStr md5; AStr filename] ;;
       let* (ret2, _) := process_result_one sql_cmd None in
       if (ret2 =? 2)%Z then
         LOG "%s[filename:%s, md5:%s]已存在" [AStr user; AStr filename; AStr md5] ;;;
         Goto (fin (-2)%Z)
       else
         add_reference (fun s => must FAILED s (fin (-1)%Z)) user md5 filename count tmp ;;;
         Ret (fin 0%Z)
     else if (ret2 =? 1)%Z then Goto (fin (-3)%Z)
     else Ret (fin 0%Z))
    (finish md5_codes).

(** One iteration of the loop of [main]. *)
Definition handle {X} (cf : conf) (rq : request) : prog X unit :=
  content_type ;;;
  let len := content_len rq in
  if (len <=? 0)%Z then
    printf ("No data from standard input.<p>" +:+ nl) [] ;;;
    LOG "len = 0, No data from standard input" []
  else
    buf <- read_body 4096 len rq ;;
    match buf with
    | None => LOG "fread(buf, 1, len, stdin) err" []
    | Some buf =>
        LOG "buf = %s" [AStr buf] ;;;
        let* (ret, b) := get_md5_info buf in
        if negb (ret =? 0)%Z then LOG "get_md5_info() err" []
        else
          LOG "user = %s, token = %s, md5 = %s, filename = %s"
            [AStr (m_user b); AStr (m_token b); AStr (m_md5 b); AStr (m_filename b)] ;;;
          ret <- verify_token (m_user b) (m_token b) ;;
          if (ret =? 0)%Z then deal_md5 cf (m_user b) (m_md5 b) (m_filename b) ;;; Ret tt
          else print_status "111"
    end.

Fixpoint serve {X} (cf : conf) (rqs : list request) : prog X unit :=
  match rqs with
  | [] => Ret tt
  | rq :: rqs => handle cf rq ;;; serve cf rqs
  end.

Definition main {X} (rqs : list request) : prog X unit := cf <- read_config ;; serve cf rqs.

Section Md5Cgi.
Context {coll : Collation}.

(** The outcomes of [deal_md5]. *)
Definition md5_post (u m f : string) (o : obs) (ret : Z) (o' : obs) : Prop :=
  let t := o_tables o in
  kept o o' /\ o_redis o' = o_redis o /\
  ((ret = 0%Z /\ o_out o' = o_out o +:+ status_text "006"
      /\ ((exists tm k, (k = 2 \/ k = 3)%nat
             /\ o_tables o' = applied (firstn k (ref_ops u m f tm)) t
             /\ existsb (is_file m) (file_info t) = true)
          \/ o_tables o' = t))
   \/ (ret = (-1)%Z /\ o_out o' = o_out o +:+ status_text "007"
      /\ ref_partial u m f t (o_tables o'))
   \/ (ret = (-2)%Z /\ o_out o' = o_out o +:+ status_text "005" /\ o_tables o' = t
      /\ existsb (is_ufl u m f) (user_file_list t) = true)
   \/ (ret = (-3)%Z /\ o_out o' = o_out o +:+ status_text "007" /\ o_tables o' = t
      /\ existsb (is_file m) (file_info t) = false)).

Lemma wp_deal_md5 {X} cf user md5 filename (G : X -> obs -> Prop) o :
  names_ok user md5 filename = true -> tables_wf 1 (o_tables o) ->
  wp (deal_md5 cf user md5 filename) (md5_post user md5 filename o) G o.
Proof.
  intros Hn Hwf. pose proof Hn as Hn'. split_names Hn'. unfold deal_md5. apply wp_at_END.
  assert (forall (b : bool) o', o_redis o' = o_redis o -> o_out o' = o_out o ->
            kept o (add_my (if b then -1 else 0) o') ->
            ref_partial user md5 filename (o_tables o) (o_tables o') ->
            wp (finish md5_codes (mkEnd (-1) false b)) (md5_post user md5 filename o) G o') as HF.
  { intros b o' Hr Ho Hk Hs. end_block. split; [rewrite add_rd_0; exact Hk|]. obs_cbn.
    rewrite Ho. split; [done|]. right; left. auto. }
  apply wp_open_mysql.
  { apply HF; [done..|kept_tac|by left]. }
  wp_sql s1 Hs1 Hl1.
  apply (wp_select_num s1 SelFileCount [AStr md5] f_count
           (List.filter (is_file md5) (file_info (o_tables o)))); [done|done| |lia|..].
  { intros r [Hr _]%filter_In. apply (wf_le 1 0) in Hwf; [|lia]. apply Hwf, Hr. }
  - zeq. end_block. split; [kept_tac|]. obs_cbn. split; [done|]. left. auto.
  - intros HL. zeq. end_block. split; [kept_tac|]. obs_cbn. split; [done|]. do 3 right.
    repeat split. by apply filter_nil_existsb.
  - intros r Hr. zeq. wp_sql s2 Hs2 Hl2.
    assert (forall (o1 : obs), o1 = with_tables (o_tables o) None (add_my 1 o) ->
      wp (add_reference (fun s => must FAILED s (mkEnd (-1) false true)) user md5 filename
            (atoi (dec_string (f_count r))) (dec_string (f_count r)) ;;; Ret (mkEnd 0 false true))
         (fun x => wp (finish md5_codes x) (md5_post user md5 filename o) G)
         (fun x => wp (finish md5_codes x) (md5_post user md5 filename o) G) o1) as Hadd.
    { intros o1 ->. rewrite atoi_small
        by (apply filter_In in Hr as [Hr _]; apply (wf_le 1 0) in Hwf; [apply Hwf, Hr|lia]).
      wp_binds. eapply wp_add_reference;
        [apply must_guarded; intros; vm_compute; reflexivity|exact Hn|exact Hwf|exact Hr|..].
      - intros tm k rs. apply HF; [done..|kept_tac|right; split; [by apply (existsb_filter _ _ r)|by exists tm, k]].
      - intros tm k rs Hk. end_block. split; [kept_tac|]. obs_cbn. split; [done|]. left.
        repeat split. left. exists tm, k. repeat split; [done|]. by apply (existsb_filter _ _ r). }
    eapply wp_select_one; [exact Hs2|intros t rs Ht; exact Ht|..].
    + zeq. by apply Hadd.
    + intros _. zeq. by apply Hadd.
    + clear Hadd HF. intros Hne. zeq. wp_log. end_block. split; [kept_tac|]. obs_cbn. split; [done|].
      right; right; left. repeat split. by eapply map_filter_not_nil.
Qed.


(** When the first SELECT fails, the value -1 is none of the tested ones
    and [ret] is still 0: whatever the tables hold, the program can answer 006
    (the upload is done) without having stored anything. *)
Theorem deal_md5_lookup_failed (cf : conf) (user md5 filename : string) (o : obs) :
  names_ok user md5 filename = true ->
  can (deal_md5 (X := Empty_set) cf user md5 filename)
    (fun ret o' => ret = 0%Z /\ o_tables o' = o_tables o
                   /\ o_out o' = o_out o +:+ status_text "006") (fun _ _ => False) o.
Proof.
  intros Hn. split_names Hn. unfold deal_md5. apply can_at_END.
  apply can_bind. unfold msql_conn. apply can_bind.
  eapply (can_call MysqlInit _ _ _ true); [reflexivity|]. cbn [negb].
  apply can_bind. eapply (can_call (MysqlRealConnect _ _ _) _ _ _ true); [reflexivity|]. cbn [negb can].
  apply can_bind. eapply (can_call (MysqlQuery _) _ _ _ 1%Z); [cbn [ev_spec]; rewrite parse_set_names; by left|].
  destruct (sql_returns (X := end_state) SelFileCount [AStr md5]) as (s & -> & Hs);
    [solve_sql_ok|solve_args|solve_sql_len|].
  apply can_bind. cbn [can]. apply can_bind. unfold process_result_one. apply can_bind.
  eapply (can_call (MysqlQuery _) _ _ _ 1%Z); [cbn [ev_spec]; rewrite Hs; by left|]. zeq. cbn [can].
  unfold finish. cbn [e_ret md5_codes]. zeq.
  apply can_bind. change (print_status "006") with (@call Empty_set (Printf (status_text "006"))).
  eapply (can_call (Printf _) _ _ _ tt); [reflexivity|]. apply can_bind. cbn [e_redis can].
  apply can_bind. cbn [e_conn]. eapply (can_call MysqlClose _ _ _ tt); [reflexivity|]. cbn [can].
  obs_cbn. auto.
Qed.
End Md5Cgi.

#[local] Existing Instance binary_collation.


Lemma deal_md5_lookup_failed_witness :
  can (deal_md5 (X := Empty_set) demo_cf "eve" "m1" "a.txt")
    (fun ret o' => ret = 0%Z /\ o_tables o' = o_tables two_obs
                   /\ o_out o' = o_out two_obs +:+ status_text "006") (fun _ _ => False) two_obs.
Proof. apply (deal_md5_lookup_failed demo_cf "eve" "m1" "a.txt" two_obs). reflexivity. Defined.
