(* ===== verification/DealShareFile.v ===== *)
(** * dealsharefile_cgi: downloading, cancelling and saving shared files
    (src/src/cgi/dealsharefile_cgi.c)

    The program has no token: whoever sends a request acts as the user the
    request names. *)

From S2P Require Import Prelude CLib UtilCgi Sql Tables CProg Mysql Redis CJson Config Sim Demo.
From S2P Require Import Auth Handler Samples DealFile.

Definition FAILED1 : string := "%s 操作失败".

Definition read_config {X} : prog X conf :=
  let* (_, mysql_user) := get_config_value CONFIG_PATH "mysql" "user" 128 EmptyString in
  let* (_, mysql_pwd) := get_config_value CONFIG_PATH "mysql" "password" 128 EmptyString in
  let* (_, mysql_db) := get_config_value CONFIG_PATH "mysql" "database" 128 EmptyString in
  LOG0 "mysql:[user=%s,pwd=%s,database=%s]" [AStr mysql_user; AStr mysql_pwd; AStr mysql_db] ;;;
  let* (_, redis_ip) := get_config_value CONFIG_PATH "redis" "ip" 30 EmptyString in
  let* (_, redis_port) := get_config_value CONFIG_PATH "redis" "port" 10 EmptyString in
  LOG "redis:[ip=%s,port=%s]" [AStr redis_ip; AStr redis_port] ;;;
  Ret (mkConf mysql_user mysql_pwd mysql_db redis_ip redis_port).

(** The buffers of [main]. *)
Record bufs := mkBufs { b_cmd : string; b_user : string; b_md5 : string; b_filename : string }.

Definition get_json_info {X} (buf : string) (b : bufs) : prog X (Z * bufs) :=
  at_END
    (root <- json_parse buf ;;
     match root with
     | None => LOG "cJSON_Parse err" [] ;;; Goto ((-1)%Z, b)
     | Some root =>
         user <- json_field 128 root "user" ((-1)%Z, b) ;;
         let b := mkBufs (b_cmd b) user (b_md5 b) (b_filename b) in
         md5 <- json_field 256 root "md5" ((-1)%Z, b) ;;
         let b := mkBufs (b_cmd b) user md5 (b_filename b) in
         filename <- json_field 256 root "filename" ((-1)%Z, b) ;;
         Ret (0%Z, mkBufs (b_cmd b) user md5 filename)
     end)
    Ret.

Definition pv_codes (ret : Z) : option string := if (ret =? 0)%Z then Some "016" else Some "017".

(** Redis after the tables: the score goes up, or the file is imported. *)
Definition pv_redis (filename fileid : string) (pv : Z) : prog end_state end_state :=
  ret2 <- rop_zset_exit FILE_PUBLIC_ZSET fileid ;;
  if (ret2 =? 1)%Z then
    ret <- rop_zset_increment FILE_PUBLIC_ZSET fileid ;;
    (if negb (ret =? 0)%Z then LOG "rop_zset_increment 操作失败" [] else Ret tt) ;;;
    Ret (both ret)
  else if (ret2 =? 0)%Z then
    rop_zset_add FILE_PUBLIC_ZSET (int32 (pv + 1)) fileid ;;;
    rop_hash_set FILE_NAME_HASH fileid filename ;;;
    Ret (both 0)
  else Goto (both (-1)).

Definition pv_file {X} (cf : conf) (md5 filename : string) : prog X Z :=
  at_END
    (redis_conn <- rop_connectdb_nopwd (redis_ip cf) (redis_port cf) ;;
     if negb redis_conn then LOG0 "redis connected error" [] ;;; Goto (mkEnd (-1) false false) else
     fileid <- sprintf 1024 "%s%s" [AStr md5; AStr filename] ;;
     conn <- msql_conn (mysql_user cf) (mysql_pwd cf) (mysql_db cf) ;;
     if negb conn then LOG "msql_conn err" [] ;;; Goto (mkEnd (-1) true false) else
     mysql_query "set names utf8" ;;;
     sql_cmd <- sql SelSharePv [AStr md5; AStr filename] ;;
     tmp <- must_select FAILED1 sql_cmd EmptyString (both (-1)) ;;
     let pv := atoi tmp in
     sql_cmd <- sql UpdSharePv [AInt (int32 (pv + 1)); AStr md5; AStr filename] ;;
     must1 FAILED1 sql_cmd (both (-1)) ;;;
     pv_redis filename fileid pv)
    (finish pv_codes).

Definition cancel_codes (ret : Z) : option string :=
  if (ret =? 0)%Z then Some "018" else Some "019".

(** The tables: the flag, the number of shares, the share row. *)
Definition cancel_tables (user md5 filename : string) : prog end_state unit :=
  sql_cmd <- sql ClearShared [AStr user; AStr md5; AStr filename] ;;
  must1 FAILED1 sql_cmd (both (-1)) ;;;
  sql_cmd <- sql SelUserCount [AStr SHARE_USER] ;;
  tmp <- must_select FAILED1 sql_cmd EmptyString (both (-1)) ;;
  let count := atoi tmp in
  sql_cmd <- (if (count =? 1)%Z then sql DelUserCount [AStr SHARE_USER]
              else sql UpdUserCount [AInt (int32 (count - 1)); AStr SHARE_USER]) ;;
  must1 FAILED1 sql_cmd (both (-1)) ;;;
  sql_cmd <- sql DelShare [AStr user; AStr md5; AStr filename] ;;
  must1 FAILED1 sql_cmd (both (-1)).

Definition cancel_share_file {X} (cf : conf) (user md5 filename : string) : prog X Z :=
  at_END
    (redis_conn <- rop_connectdb_nopwd (redis_ip cf) (redis_port cf) ;;
     if negb redis_conn then LOG0 "redis connected error" [] ;;; Goto (mkEnd (-1) false false) else
     conn <- msql_conn (mysql_user cf) (mysql_pwd cf) (mysql_db cf) ;;
     if negb conn then LOG "msql_conn err" [] ;;; Goto (mkEnd (-1) true false) else
     mysql_query "set names utf8" ;;;
     fileid <- sprintf 1024 "%s%s" [AStr md5; AStr filename] ;;
     cancel_tables user md5 filename ;;;
     ret <- rop_zset_zrem FILE_PUBLIC_ZSET fileid ;;
     if negb (ret =? 0)%Z then LOG "rop_zset_zrem 操作失败" [] ;;; Goto (both ret) else
     ret <- rop_hash_del FILE_NAME_HASH fileid ;;
     if negb (ret =? 0)%Z then LOG "rop_hash_del 操作失败" [] ;;; Goto (both ret) else
     Ret (both ret))
    (finish cancel_codes).

Definition save_codes (ret : Z) : option string :=
  if (ret =? 0)%Z then Some "020"
  else if (ret =? -1)%Z then Some "022"
  else if (ret =? -2)%Z then Some "021" else None.

Definition save_file {X} (cf : conf) (user md5 filename : string) : prog X Z :=
  at_END
    (conn <- msql_conn (mysql_user cf) (mysql_pwd cf) (mysql_db cf) ;;
     if negb conn then LOG "msql_conn err" [] ;;; Goto (mkEnd (-1) false false) else
     let fin r := mkEnd r false true in
     mysql_query "set names utf8" ;;;
     sql_cmd <- sql SelUserFile [AStr user; AStr md5; AStr filename] ;;
     let* (ret2, _) := process_result_one sql_cmd None in
     if (ret2 =? 2)%Z then
       LOG "%s[filename:%s, md5:%s]已存在" [AStr user; AStr filename; AStr md5] ;;;
       Goto (fin (-2)%Z)
     else
       sql_cmd <- sql SelFileCount [AStr md5] ;;
       tmp <- must_select FAILED1 sql_cmd EmptyString (fin (-1)%Z) ;;
       add_reference (fun s => must1 FAILED1 s (fin (-1)%Z)) user md5 filename (atoi tmp) tmp ;;;
       Ret (fin 0%Z))
    (finish save_codes).

(** One iteration of the loop of [main]: the new buffers. *)
Definition handle {X} (cf : conf) (b : bufs) (rq : request) : prog X bufs :=
  cmd <- query_value 20 (rq_query rq) "cmd" (b_cmd b) ;;
  let b := mkBufs cmd (b_user b) (b_md5 b) (b_filename b) in
  LOG "cmd = %s" [AStr cmd] ;;;
  content_type ;;;
  let len := content_len rq in
  if (len <=? 0)%Z then
    printf ("No data from standard input.<p>" +:+ nl) [] ;;;
    LOG "len = 0, No data from standard input" [] ;;; Ret b
  else
    buf <- read_body 4096 len rq ;;
    match buf with
    | None => LOG "fread(buf, 1, len, stdin) err" [] ;;; Ret b
    | Some buf =>
        LOG "buf = %s" [AStr buf] ;;;
        let* (_, b) := get_json_info buf b in
        LOG "user = %s, md5 = %s, filename = %s"
          [AStr (b_user b); AStr (b_md5 b); AStr (b_filename b)] ;;;
        (if streq cmd "pv" then pv_file cf (b_md5 b) (b_filename b) ;;; Ret tt
         else if streq cmd "cancel"
         then cancel_share_file cf (b_user b) (b_md5 b) (b_filename b) ;;; Ret tt
         else if streq cmd "save" then save_file cf (b_user b) (b_md5 b) (b_filename b) ;;; Ret tt
         else Ret tt) ;;;
        Ret b
    end.

Fixpoint serve {X} (cf : conf) (b : bufs) (rqs : list request) : prog X bufs :=
  match rqs with
  | [] => Ret b
  | rq :: rqs => b <- handle cf b rq ;; serve cf b rqs
  end.

Definition main {X} (b : bufs) (rqs : list request) : prog X bufs :=
  cf <- read_config ;; serve cf b rqs.

Section DealShareFile.
Context {coll : Collation}.

(** ** save_file *)

Definition save_post (u m f : string) (o : obs) (ret : Z) (o' : obs) : Prop :=
  let t := o_tables o in
  kept o o' /\ o_redis o' = o_redis o /\
  ((ret = 0%Z /\ o_out o' = o_out o +:+ status_text "020"
      /\ existsb (is_file m) (file_info t) = true
      /\ exists tm k, (k = 2 \/ k = 3)%nat /\ o_tables o' = applied (firstn k (ref_ops u m f tm)) t)
   \/ (ret = (-1)%Z /\ o_out o' = o_out o +:+ status_text "022"
      /\ ref_partial u m f t (o_tables o'))
   \/ (ret = (-2)%Z /\ o_out o' = o_out o +:+ status_text "021" /\ o_tables o' = t
      /\ existsb (is_ufl u m f) (user_file_list t) = true)).

Lemma save_failed {X} u m f (b : bool) (G : X -> obs -> Prop) o o' :
  o_redis o' = o_redis o -> o_out o' = o_out o -> kept o (add_my (if b then -1 else 0) o') ->
  ref_partial u m f (o_tables o) (o_tables o') ->
  wp (finish save_codes (mkEnd (-1) false b)) (save_post u m f o) G o'.
Proof.
  intros Hr Ho Hk Hs. end_block. split; [rewrite add_rd_0; exact Hk|]. obs_cbn.
  rewrite Ho. split; [done|]. right; left. auto.
Qed.

Lemma wp_save_file {X} cf user md5 filename (G : X -> obs -> Prop) o :
  names_ok user md5 filename = true -> tables_wf 1 (o_tables o) ->
  wp (save_file cf user md5 filename) (save_post user md5 filename o) G o.
Proof.
  intros Hn Hwf. pose proof Hn as Hn'. split_names Hn'. unfold save_file. apply wp_at_END.
  pose proof (wf_le 1 0 _ ltac:(lia) Hwf) as Hwf0. apply wp_open_mysql.
  { apply save_failed; [done..|kept_tac|by left]. }
  wp_sql s1 Hs1 Hl1.
  assert (forall o1, o1 = with_tables (o_tables o) None (add_my 1 o) ->
    wp (sql_cmd <- sql SelFileCount [AStr md5] ;;
        tmp <- must_select FAILED1 sql_cmd EmptyString (mkEnd (-1) false true) ;;
        add_reference (fun s => must1 FAILED1 s (mkEnd (-1) false true)) user md5 filename (atoi tmp) tmp ;;;
        Ret (mkEnd 0 false true))
       (fun x => wp (finish save_codes x) (save_post user md5 filename o) G)
       (fun x => wp (finish save_codes x) (save_post user md5 filename o) G) o1) as Hadd.
  { intros o1 ->. wp_sql s2 Hs2 Hl2.
    apply (wp_must_select_num _ s2 SelFileCount [AStr md5] f_count
             (List.filter (is_file md5) (file_info (o_tables o)))); [done..| | |].
    - intros r [Hr _]%filter_In. apply Hwf0, Hr.
    - apply save_failed; [done..|kept_tac|by left].
    - intros r Hr. rewrite atoi_small by (apply filter_In in Hr as [Hr _]; apply Hwf0, Hr).
      wp_binds. eapply wp_add_reference;
        [apply must1_guarded; intros; vm_compute; reflexivity|exact Hn|exact Hwf|exact Hr|..].
      + intros tm k rs. apply save_failed; [done..|kept_tac|right; split; [by apply (existsb_filter _ _ r)|by exists tm, k]].
      + intros tm k rs Hk. end_block. split; [kept_tac|]. obs_cbn. split; [done|]. left.
        repeat split; [by apply (existsb_filter _ _ r)|]. by exists tm, k. }
  eapply wp_select_one; [exact Hs1|intros t rs Ht; exact Ht|..].
  - zeq. by apply Hadd.
  - intros _. zeq. by apply Hadd.
  - clear Hadd. intros Hne. zeq. wp_log. end_block. split; [kept_tac|]. obs_cbn. split; [done|].
    right; right. repeat split. by eapply map_filter_not_nil.
Qed.

(** ** cancel_share_file *)

Definition cancel_ops (u m f : string) : list (tables -> tables) :=
  [op_set_shared 0 u m f; op_dec SHARE_USER; op_del_share u m f].

(** A shared file has its name in the hash. *)
Definition redis_named (fileid : string) (r : gmap string rval) : Prop :=
  exists h, hash_of r FILE_NAME_HASH = Some h
    /\ forall z, zset_of r FILE_PUBLIC_ZSET = Some z -> fileid ∈ dom z -> fileid ∈ dom h.

Definition cancel_post (u m f : string) (o : obs) (ret : Z) (o' : obs) : Prop :=
  let t := o_tables o in
  kept o o' /\
  ((ret = 0%Z /\ o_out o' = o_out o +:+ status_text "018"
      /\ o_tables o' = applied (cancel_ops u m f) t
      /\ o_redis o' = redis_unshare (m +:+ f) (o_redis o)
      /\ exists z, zset_of (o_redis o) FILE_PUBLIC_ZSET = Some z /\ (m +:+ f) ∈ dom z)
   \/ (ret = (-1)%Z /\ o_out o' = o_out o +:+ status_text "019"
      /\ stage (cancel_ops u m f) t (o_tables o')
      /\ (o_redis o' = o_redis o
          \/ exists z, zset_of (o_redis o) FILE_PUBLIC_ZSET = Some z /\ ((m +:+ f) ∉ dom z)
                       /\ o_redis o' = put_zset FILE_PUBLIC_ZSET (delete (m +:+ f) z) (o_redis o)))).

Lemma wp_cancel_tables user md5 filename (Q : unit -> obs -> Prop) (G : end_state -> obs -> Prop) o :
  names_ok user md5 filename = true -> tables_wf 0 (o_tables o) ->
  (forall k rs, G (both (-1))
     (with_tables (applied (firstn k (cancel_ops user md5 filename)) (o_tables o)) rs o)) ->
  (forall rs, Q tt (with_tables (applied (cancel_ops user md5 filename) (o_tables o)) rs o)) ->
  wp (cancel_tables user md5 filename) Q G o.
Proof.
  intros Hn Hwf HG HQ. split_names Hn. unfold cancel_tables.
  assert (guarded (fun s => must1 FAILED1 s (both (-1))) (both (-1))) as Hsend.
  { apply must1_guarded. intros. vm_compute. reflexivity. }
  wp_sql s1 Hs1 Hl1. eapply Hsend; [done..|apply (HG 0%nat)|]. intros t1 rs1 [-> ->].
  set (t1 := op_set_shared 0 user md5 filename (o_tables o)).
  assert (tables_wf 0 t1) as Hwf1 by (subst t1; solve_wf).
  wp_sql s2 Hs2 Hl2.
  apply (wp_must_select_num _ s2 SelUserCount [AStr SHARE_USER] c_count
           (List.filter (is_cnt SHARE_USER) (user_file_count t1))); [done..| |apply (HG 1%nat)|].
  { intros r Hr. by apply (small_filter_cnt SHARE_USER t1). }
  intros r Hr. pose proof (small_filter_cnt SHARE_USER t1 r Hwf1 Hr) as Hsm.
  rewrite atoi_small by done. destruct (small_long (c_count r) (-1) Hsm ltac:(auto)) as [Hi Hl].
  assert (forall o1, o1 = with_tables (op_dec SHARE_USER t1) None o ->
    wp (sql_cmd <- sql DelShare [AStr user; AStr md5; AStr filename] ;;
        must1 FAILED1 sql_cmd (both (-1))) Q G o1) as Hrow.
  { intros o1 ->. wp_sql s3 Hs3 Hl3. eapply Hsend; [done..|apply (HG 2%nat)|].
    intros t rs [-> ->]. apply HQ. }
  wp_binds. pose proof (dec_found SHARE_USER t1 r Hwf1 Hr) as Hdec.
  destruct (Z.eqb_spec (c_count r) 1) as [E|E].
  - wp_sql s3 Hs3 Hl3. eapply Hsend; [done..|apply (HG 1%nat)|]. intros t rs [-> ->].
    apply Hrow. by rewrite Hdec.
  - change (c_count r - 1)%Z with (c_count r + -1)%Z. rewrite Hi.
    wp_sql s3 Hs3 Hl3. eapply Hsend; [done..|apply (HG 1%nat)|]. intros t rs [Ht ->].
    apply Hrow. rewrite Hdec, <- (cnt_found SHARE_USER t1 r (-1) Hwf1 Hr). by rewrite Ht.
Qed.

Lemma cancel_failed {X} u m f (a b : bool) (G : X -> obs -> Prop) o o' :
  o_out o' = o_out o ->
  kept o (add_my (if b then -1 else 0) (add_rd (if a then -1 else 0) o')) ->
  stage (cancel_ops u m f) (o_tables o) (o_tables o') ->
  (o_redis o' = o_redis o
   \/ exists z, zset_of (o_redis o) FILE_PUBLIC_ZSET = Some z /\ ((m +:+ f) ∉ dom z)
        /\ o_redis o' = put_zset FILE_PUBLIC_ZSET (delete (m +:+ f) z) (o_redis o)) ->
  wp (finish cancel_codes (mkEnd (-1) a b)) (cancel_post u m f o) G o'.
Proof.
  intros Ho Hk Hs Hr. end_block. split; [exact Hk|]. right. obs_cbn. rewrite Ho. auto.
Qed.

Lemma wp_cancel_share_file {X} cf user md5 filename (G : X -> obs -> Prop) o :
  conf_fits cf -> names_ok user md5 filename = true -> tables_wf 0 (o_tables o) ->
  redis_named (md5 +:+ filename) (o_redis o) ->
  wp (cancel_share_file cf user md5 filename) (cancel_post user md5 filename o) G o.
Proof.
  intros Hcf Hn Hwf (h & Hh & Hnamed). pose proof Hn as Hn'. split_names Hn'.
  unfold cancel_share_file. apply wp_at_END. apply wp_open_both; [done|..].
  1-2: apply cancel_failed; [done|kept_tac|apply stage_start|by left].
  wp_binds. apply (wp_sprintf _ _ _ (md5 +:+ filename)); [apply format_ss|slen_lia|]. wp_binds.
  apply wp_cancel_tables; [done..| |].
  { intros k rs. apply cancel_failed; [done|kept_tac|by exists k|by left]. }
  intros rs. wp_binds. apply wp_zset_zrem; [slen_lia|..].
  { intros _. zeq. wp_log. apply cancel_failed; [done|kept_tac|apply stage_end|by left]. }
  intros z Hz. cbn [o_redis with_tables add_my add_rd] in Hz.
  destruct (decide (md5 +:+ filename ∈ dom z)) as [Hd|Hd]; zeq.
  - wp_binds. apply (wp_hash_del _ _ h); [|by eapply Hnamed|].
    { cbn [o_redis with_tables add_my add_rd with_redis]. by rewrite hash_of_put_zset. }
    zeq. end_block. split; [kept_tac|]. left. cbn [o_redis with_tables add_my add_rd with_redis with_out o_out].
    repeat split; [|by exists z]. unfold redis_unshare. by rewrite Hz, hash_of_put_zset, Hh.
  - wp_log. apply cancel_failed; [done|kept_tac|apply stage_end|]. right. by exists z.
Qed.

(** ** pv_file *)

(** Redis after a download of a file imported from the tables. *)
Definition redis_import (fileid filename : string) (score : Z) (r : gmap string rval)
    : gmap string rval :=
  let r1 := match zset_of r FILE_PUBLIC_ZSET with
            | Some z => <[FILE_PUBLIC_ZSET := VZset (<[fileid := score]> z)]> r
            | None => r
            end in
  match hash_of r1 FILE_NAME_HASH with
  | Some h => <[FILE_NAME_HASH := VHash (<[fileid := filename]> h)]> r1
  | None => r1
  end.

(** The scores can be counted up. *)
Definition scores_fit (r : gmap string rval) : Prop :=
  forall z m, zset_of r FILE_PUBLIC_ZSET = Some z -> is_long (default 0%Z (z !! m) + 1)%Z.

(** The outcomes of [pv_file]: a failure before the tables changed; a file that
    Redis did not report, imported; a file that Redis did report, whose score
    went up although the code says failure; a wrong reply of Redis. *)
Definition spv_post (m f : string) (o : obs) (ret : Z) (o' : obs) : Prop :=
  let t := o_tables o in
  let updated (r : share_row) :=
    In r (share_file_list t) /\ is_share m f r = true
    /\ o_tables o' = op_spv m f (s_pv r + 1) t in
  kept o o' /\
  ((ret = 0%Z /\ o_out o' = o_out o +:+ status_text "016"
      /\ (exists r, updated r
            /\ o_redis o' = redis_import (m +:+ f) f (s_pv r + 1) (o_redis o))
      /\ exists z, zset_of (o_redis o) FILE_PUBLIC_ZSET = Some z
                   /\ (same_scores z -> ((m +:+ f) ∉ dom z)))
   \/ (ret = (-1)%Z /\ o_out o' = o_out o +:+ status_text "017"
      /\ ((o_tables o' = t /\ o_redis o' = o_redis o)
          \/ (exists r, updated r)
             /\ (o_redis o' = o_redis o
                 \/ exists z, zset_of (o_redis o) FILE_PUBLIC_ZSET = Some z
                    /\ (same_scores z -> (m +:+ f) ∈ dom z)
                    /\ o_redis o' = <[FILE_PUBLIC_ZSET := VZset
                         (<[m +:+ f := (default 0 (z !! (m +:+ f)) + 1)%Z]> z)]> (o_redis o))))).

Lemma wp_pv_redis md5 filename pv (Q G : end_state -> obs -> Prop) o :
  (slen md5 + slen filename <= 330)%Z -> small 0 pv -> scores_fit (o_redis o) ->
  G (both (-1)) o ->
  (forall z, zset_of (o_redis o) FILE_PUBLIC_ZSET = Some z ->
     (same_scores z -> ((md5 +:+ filename) ∉ dom z)) ->
     Q (both 0) (with_redis (redis_import (md5 +:+ filename) filename (pv + 1) (o_redis o)) o)) ->
  (forall z, zset_of (o_redis o) FILE_PUBLIC_ZSET = Some z ->
     (same_scores z -> (md5 +:+ filename) ∈ dom z) ->
     Q (both (-1)) (with_redis (<[FILE_PUBLIC_ZSET := VZset
        (<[md5 +:+ filename := (default 0 (z !! (md5 +:+ filename)) + 1)%Z]> z)]> (o_redis o)) o)) ->
  wp (pv_redis filename (md5 +:+ filename) pv) Q G o.
Proof.
  intros Hlen Hpv Hsc HG HQ HQi. unfold pv_redis. wp_binds. apply wp_zset_exit; [slen_lia| |].
  { intros _. zeq. wp_binds. exact HG. }
  intros z n Hz Hn0 Hn1. destruct (Z.eqb_spec (int32 n) 1) as [E1|E1].
  { wp_binds. apply wp_zset_increment; [slen_lia|congruence|]. intros z' Hz'. simplify_eq.
    split; [by apply Hsc|]. zeq. wp_log. apply HQi; [done|]. intros Hs.
    destruct (decide (md5 +:+ filename ∈ dom z)); [done|]. rewrite Hn1 in E1 by done. done. }
  destruct (Z.eqb_spec (int32 n) 0) as [E0|E0]; [|wp_binds; exact HG].
  destruct (small_long pv 1 Hpv ltac:(auto)) as [-> Hl].
  specialize (HQ z Hz). unfold redis_import in HQ. rewrite Hz in HQ. wp_binds.
  apply wp_zset_add; [slen_lia|done|congruence|]. intros z' Hz'. simplify_eq. wp_binds.
  assert (same_scores z -> (md5 +:+ filename) ∉ dom z) as Hnot.
  { intros Hs Hd. rewrite Hn1, decide_True in E0 by done. done. }
  specialize (HQ Hnot).
  apply wp_hash_set; [slen_lia|intros Hh|intros h Hh]; cbn [o_redis with_redis] in Hh;
    rewrite Hh in HQ; wp_binds; exact HQ.
Qed.

Lemma wp_share_pv_file {X} cf md5 filename (G : X -> obs -> Prop) o :
  conf_fits cf -> names_ok EmptyString md5 filename = true -> tables_wf 0 (o_tables o) ->
  scores_fit (o_redis o) ->
  wp (pv_file cf md5 filename) (spv_post md5 filename o) G o.
Proof.
  intros Hcf Hn Hwf Hsc. split_names Hn. unfold conf_fits in Hcf.
  assert (slen EmptyString = 0%Z) as He by done.
  assert (forall (a b : bool) o', o_out o' = o_out o -> o_redis o' = o_redis o ->
    kept o (add_my (if b then -1 else 0) (add_rd (if a then -1 else 0) o')) ->
    o_tables o' = o_tables o ->
    wp (finish pv_codes (mkEnd (-1) a b)) (spv_post md5 filename o) G o') as HF.
  { intros a b o' Ho Hr Hk Ht. end_block. split; [exact Hk|]. right. obs_cbn. rewrite Ho. auto. }
  unfold pv_file. apply wp_at_END. wp_binds. apply wp_connectdb_nopwd; [lia|].
  intros [|]; cbn [negb]; wp_binds.
  2:{ apply wp_LOG0 with (ps := default [] (pieces_of "redis connected error"));
        [vm_compute; reflexivity..|constructor|vm_compute; reflexivity|].
      apply HF; [done..|kept_tac|done]. }
  apply (wp_sprintf _ _ _ (md5 +:+ filename)); [apply format_ss|slen_lia|]. wp_binds.
  apply wp_msql_conn. intros [|]; cbn [negb]; wp_binds; [|wp_log; apply HF; [done..|kept_tac|done]].
  apply wp_set_names. intros _. wp_sql s1 Hs1 Hl1.
  apply (wp_must_select_num _ s1 SelSharePv [AStr md5; AStr filename] s_pv
           (List.filter (is_share md5 filename) (share_file_list (o_tables o)))); [done..| | |].
  { intros r [Hr _]%filter_In. apply Hwf, Hr. }
  { apply HF; [done..|kept_tac|done]. }
  intros r [Hr Hp]%filter_In. assert (small 0 (s_pv r)) as Hsm by apply Hwf, Hr.
  rewrite atoi_small by done. destruct (small_long (s_pv r) 1 Hsm ltac:(auto)) as [-> Hl].
  wp_sql s2 Hs2 Hl2. eapply (must1_guarded FAILED1); [intros; vm_compute; reflexivity|done..| |].
  { apply HF; [done..|kept_tac|done]. }
  intros t rs [-> ->]. apply wp_pv_redis; [slen_lia|done|exact Hsc|..]; clear HF.
  - end_block. split; [kept_tac|]. right. obs_cbn. repeat split. right. split; [by exists r|by left].
  - intros z Hz Hnot. end_block. split; [kept_tac|]. left. obs_cbn. repeat split; [by exists r|by exists z].
  - intros z Hz Hin. end_block. split; [kept_tac|]. right. obs_cbn. repeat split. right.
    split; [by exists r|]. right. by exists z.
Qed.

(** C14: saving a shared file to one's own files.  With code 020 the server had
    the file, and the reference count, the user's rows and the user's counter
    (unless its lookup failed) went up; with code 021 the user has the file
    already and nothing changed; with code 022 the tables hold a prefix of the
    operations.  Redis and the stored files never change, and the connection is
    closed. *)
Theorem save_file_spec (cf : conf) (user md5 filename : string) (o : obs) :
  names_ok user md5 filename = true -> tables_wf 1 (o_tables o) ->
  wp (save_file (X := Empty_set) cf user md5 filename)
     (save_post user md5 filename o) (fun _ _ => False) o.
Proof. apply wp_save_file. Qed.


(** Counting the download of a shared file, on every path: see [spv_post]
    for the four outcomes. *)
Theorem share_pv_file_spec (cf : conf) (md5 filename : string) (o : obs) :
  conf_fits cf -> names_ok EmptyString md5 filename = true -> tables_wf 0 (o_tables o) ->
  scores_fit (o_redis o) ->
  wp (pv_file (X := Empty_set) cf md5 filename)
     (spv_post md5 filename o) (fun _ _ => False) o.
Proof. apply wp_share_pv_file. Qed.

(** [rop_zset_increment] expects the text OK, ZINCRBY answers the new
    score: the download of a file that is in Redis' set never gets code 016,
    in no run. *)
Theorem share_download_reports_failure (cf : conf) (md5 filename : string) (o : obs) (z : gmap string Z) :
  conf_fits cf -> names_ok EmptyString md5 filename = true -> tables_wf 0 (o_tables o) ->
  scores_fit (o_redis o) ->
  zset_of (o_redis o) FILE_PUBLIC_ZSET = Some z -> same_scores z -> (md5 +:+ filename) ∈ dom z ->
  wp (pv_file (X := Empty_set) cf md5 filename)
     (fun ret o' => ret = (-1)%Z /\ o_out o' = o_out o +:+ status_text "017")
     (fun _ _ => False) o.
Proof.
  intros Hcf Hn Hwf Hsc Hz Hs Hin. 
  apply (wp_mono _ (spv_post md5 filename o) _ (fun _ _ => False)); [by apply wp_share_pv_file| |done].
  intros ret o' (_ & [(_ & _ & _ & z' & Hz' & Hnot)|(-> & -> & _)]); [|done].
  simplify_eq. by destruct (Hnot Hs).
Qed.
End DealShareFile.

(** ** On the sample database *)

#[local] Existing Instance binary_collation.

(** Bob's file is shared: a row, the number of shares, the Redis records. *)
Definition shared_users : tables :=
  mkTables [] (file_info two_users)
    [mkUfl "bob" "m1" NOW "a.txt" 1 3; mkUfl "eve" "m2" NOW "b.txt" 0 0]
    [mkShare "bob" "m1" NOW "a.txt" 4]
    [mkCnt "bob" 1; mkCnt "eve" 1; mkCnt SHARE_USER 1].

Definition shared_redis : gmap string rval :=
  {[ FILE_PUBLIC_ZSET := VZset {[ "m1a.txt" := 4%Z ]};
     FILE_NAME_HASH := VHash {[ "m1a.txt" := "a.txt" ]} ]}.

Definition shared_obs : obs := with_dfs demo_dfs (demo_obs shared_users shared_redis).

Lemma shared_zset : zset_of (o_redis shared_obs) FILE_PUBLIC_ZSET = Some {[ "m1a.txt" := 4%Z ]}.
Proof. vm_compute. reflexivity. Qed.

Lemma shared_named fileid : redis_named fileid (o_redis shared_obs).
Proof.
  exists {[ "m1a.txt" := "a.txt" ]}. split; [vm_compute; reflexivity|].
  intros z. rewrite shared_zset. intros [= <-]. by rewrite !dom_singleton_L.
Qed.

Lemma shared_scores : scores_fit (o_redis shared_obs).
Proof.
  intros z m. rewrite shared_zset. intros [= <-]. destruct (decide (m = "m1a.txt")) as [->|Hne].
  - rewrite lookup_singleton_eq. done.
  - rewrite lookup_singleton_ne by done. done.
Qed.

Lemma save_file_spec_witness :
  returned (X := Empty_set) (save_file demo_cf "eve" "m1" "a.txt") shared_obs = Some 0%Z
  /\ run_ends (X := Empty_set) (save_file demo_cf "eve" "m1" "a.txt") shared_obs
       (save_post "eve" "m1" "a.txt" shared_obs).
Proof.
  split; [vm_compute; reflexivity|].
  eapply (wp_run_ends _ _ (fun _ _ => False) _ 0%Z); [|vm_compute; reflexivity].
  apply (save_file_spec demo_cf "eve" "m1" "a.txt" shared_obs); [reflexivity|].
  apply wf_b_spec. vm_compute. reflexivity.
Defined.


Lemma share_pv_file_spec_witness :
  returned (X := Empty_set) (pv_file demo_cf "m1" "a.txt") shared_obs = Some (-1)%Z
  /\ run_ends (X := Empty_set) (pv_file demo_cf "m1" "a.txt") shared_obs
       (spv_post "m1" "a.txt" shared_obs).
Proof.
  split; [vm_compute; reflexivity|].
  eapply (wp_run_ends _ _ (fun _ _ => False) _ (-1)%Z); [|vm_compute; reflexivity].
  apply (share_pv_file_spec demo_cf "m1" "a.txt" shared_obs).
  - reflexivity.
  - reflexivity.
  - apply wf_b_spec. vm_compute. reflexivity.
  - apply shared_scores.
Defined.

Lemma share_download_reports_failure_witness :
  run_ends (X := Empty_set) (pv_file demo_cf "m1" "a.txt") shared_obs
    (fun ret o' => ret = (-1)%Z /\ o_out o' = o_out shared_obs +:+ status_text "017").
Proof.
  eapply (wp_run_ends _ _ (fun _ _ => False) _ (-1)%Z); [|vm_compute; reflexivity].
  apply (share_download_reports_failure demo_cf "m1" "a.txt" shared_obs {[ "m1a.txt" := 4%Z ]}).
  - reflexivity.
  - reflexivity.
  - apply wf_b_spec. vm_compute. reflexivity.
  - apply shared_scores.
  - apply shared_zset.
  - intros m1 m2 s1 s2. rewrite !lookup_singleton_Some. by intros [_ <-] [_ <-].
  - rewrite dom_singleton_L. by apply elem_of_singleton.
Defined.

(** ** Defects *)

(** Nothing checks that the user shares the file: when Eve cancels the share
    of Bob's file she gets code 018, the number of shares and the Redis records
    are gone, and Bob's share row and flag are still there. *)
Theorem cancel_foreign_share :
  run_ends (X := Empty_set) (cancel_share_file demo_cf "eve" "m1" "a.txt") shared_obs
    (fun ret o' =>
       ret = 0%Z
       /\ existsb (is_cnt SHARE_USER) (user_file_count (o_tables o')) = false
       /\ o_redis o' !! FILE_PUBLIC_ZSET = None
       /\ existsb (is_ushare "bob" "m1" "a.txt") (share_file_list (o_tables o')) = true).
Proof. vm_compute. repeat split. Qed.

(** A share that is in the tables but not in Redis is put into the set
    without its name in the hash when somebody tries to share the file; the
    owner's cancellation then runs into the log call of [rop_hash_del] that has
    more conversions than arguments: undefined behaviour. *)
Theorem repaired_share_crashes :
  let o := demo_obs shared_users ∅ in
  match run (X := Empty_set)
          (DealFile.share_file demo_cf "eve" "m1" "a.txt") o with
  | Some (inl ret, o1) =>
      ret = (-2)%Z
      /\ crashes (X := Empty_set) (cancel_share_file demo_cf "bob" "m1" "a.txt") o1 = true
  | _ => False
  end.
Proof. vm_compute. split; reflexivity. Qed.
