(* ===== verification/Upload.v ===== *)
(** * upload_cgi: uploads (src/src/cgi/upload_cgi.c)

    The parser of the multipart body, the local copy of the file, the two
    FastDFS tools and the rows of the tables.  The buffers of [main] are zeroed
    at the end of every request, so a request starts with empty ones. *)

From S2P Require Import Prelude CLib UtilCgi Sql Tables CProg Mysql Redis CJson Config Sim Demo.
From S2P Require Import Auth Handler Samples.

Definition FILE_NAME_LEN : Z := 256.
Definition TEMP_BUF_MAX_LEN : Z := 512.
Definition FILE_URL_LEN : Z := 512.
Definition HOST_NAME_LEN : Z := 30.
Definition USER_NAME_LEN : Z := 128.
Definition MD5_LEN : Z := 256.
Definition SUFFIX_LEN : Z := 8.

Definition read_config {X} : prog X conf :=
  let* (_, mysql_user) := get_config_value CONFIG_PATH "mysql" "user" 128 EmptyString in
  let* (_, mysql_pwd) := get_config_value CONFIG_PATH "mysql" "password" 128 EmptyString in
  let* (_, mysql_db) := get_config_value CONFIG_PATH "mysql" "database" 128 EmptyString in
  LOG0 "mysql:[user=%s,pwd=%s,database=%s]" [AStr mysql_user; AStr mysql_pwd; AStr mysql_db] ;;;
  Ret (mkConf mysql_user mysql_pwd mysql_db EmptyString EmptyString).

(** ** The body of the request *)

(** [strstr] in the part of [file_buf] that was read: [Err] is NULL (a NUL byte
    comes first), [Undef] a read past the data, which has no terminator.  The
    search stops at the first occurrence. *)
Fixpoint buf_strstr (s needle : string) : outcome nat :=
  if String.prefix needle s then Ok O
  else match s with
       | EmptyString => Undef
       | String c s' =>
           if Ascii.eqb c NUL then Err
           else match buf_strstr s' needle with Ok i => Ok (S i) | r => r end
       end.

Definition buf_strchr (s : string) (c : ascii) : outcome nat :=
  buf_strstr s (String c EmptyString).

(** A pointer that is used without a test for NULL. *)
Definition found {X} (r : outcome nat) : prog X nat :=
  match r with Ok i => Ret i | Err | Undef => Crash end.

(** [strncpy (dst, src, n); dst[n] = '\0'] with [char dst[cap]], for the text
    before an occurrence (which has no NUL byte). *)
Definition copy_n {X} (cap : Z) (src : string) (n : nat) : prog X string :=
  if (Z.of_nat n <? cap)%Z then Ret (stake n src) else Crash.

(** A field name="value": the value, trimmed, and the text from the closing
    quote on. *)
Definition quoted_field {X} (cap : Z) (name begin : string) : prog X (string * string) :=
  i <- found (buf_strstr begin name) ;;
  let q := sdrop (i + String.length name + 1) begin in
  k <- found (buf_strchr q DQUOTE) ;;
  v <- copy_n cap q k ;;
  Ret (trim_space v, sdrop k q).

(** [memstr (begin, len, boundary)] where only [data] of the [len] bytes was
    read from the request. *)
Definition buf_memstr {X} (data : string) (len : Z) (boundary : string) : prog X (option nat) :=
  match memstr data (Z.min len (slen data)) boundary with
  | Some i => Ret (Some i)
  | None =>
      if ((slen data <? len) && (slen boundary <=? len))%Z && negb (streq boundary EmptyString)
      then Crash else Ret None
  end.

(** What the body says. *)
Record form := mkForm {
  fm_user : string; fm_filename : string; fm_md5 : string; fm_size : Z }.
Definition no_form : form := mkForm EmptyString EmptyString EmptyString 0.

(** The fields of the header line at [begin]. *)
Definition header_fields {X} (begin : string) : prog X form :=
  let* (user, k) := quoted_field USER_NAME_LEN "user=" begin in
  let* (filename, k) := quoted_field FILE_NAME_LEN "filename=" k in
  let* (md5, k) := quoted_field MD5_LEN "md5=" k in
  i <- found (buf_strstr k "size=") ;;
  let q := sdrop (i + String.length "size=") k in
  n <- found (buf_strstr q CRLF) ;;
  tmp <- copy_n 256 q n ;;
  Ret (mkForm user filename md5 (strtol tmp)).

(** The content of the file between [begin] and the next boundary, written to
    the local file; [ftruncate] and [write] fail for a negative length. *)
Definition save_content (begin : string) (len : Z) (boundary : string) (fm : form)
    : prog (Z * form) (Z * form) :=
  p <- buf_memstr begin (int32 len) boundary ;;
  match p with
  | None => LOG "memstr(begin, len, boundary) error" [] ;;; Goto ((-1)%Z, no_form)
  | Some p =>
      let n := (Z.of_nat p - 2)%Z in
      fd <- call (OpenWrite (fm_filename fm)) ;;
      if negb fd then LOG "open %s error" [AStr (fm_filename fm)] ;;; Goto ((-1)%Z, no_form) else
      (if (n <? 0)%Z then Ret tt
       else call (WriteFile (fm_filename fm) (stake (Z.to_nat n) begin))) ;;;
      Ret (0%Z, fm)
  end.

Definition recv_save_file {X} (len : Z) (stdin : string) : prog X (Z * form) :=
  let fail := ((-1)%Z, no_form) in
  file_buf <- call (Malloc len) ;;
  if negb file_buf then LOG "malloc error! file size is to big!!!!" [] ;;; Ret fail else
  let file_buf := stake (Z.to_nat len) stdin in
  at_END
    (if (int32 (slen file_buf) =? 0)%Z
     then LOG "fread(file_buf, 1, len, stdin) err" [] ;;; Goto fail else
     match buf_strstr file_buf CRLF with
     | Undef => Crash
     | Err => LOG "wrong no boundary!" [] ;;; Goto fail
     | Ok i =>
         boundary <- copy_n TEMP_BUF_MAX_LEN file_buf i ;;
         LOG "boundary: [%s]" [AStr boundary] ;;;
         let begin := sdrop (i + 2) file_buf in
         let len := (len - Z.of_nat (i + 2))%Z in
         match buf_strstr begin CRLF with
         | Undef => Crash
         | Err => LOG "ERROR: get context text error, no filename?" [] ;;; Goto fail
         | Ok j =>
             content_text <- copy_n TEMP_BUF_MAX_LEN begin j ;;
             let p := sdrop (j + 2) begin in
             let len := (len - Z.of_nat (j + 2))%Z in
             fm <- header_fields begin ;;
             n <- found (buf_strstr p CRLF) ;;
             save_content (sdrop (n + 4) p) (len - Z.of_nat (n + 4))%Z boundary fm
         end
     end)
    Ret.

(** ** FastDFS *)

(** [read (fd[0], buf, TEMP_BUF_MAX_LEN)] into a zeroed [buf] of that size,
    which is then used as a C string. *)
Definition read_pipe {X} (out : string) : prog X string :=
  let s := cstr (stake (Z.to_nat TEMP_BUF_MAX_LEN) out) in
  if (slen s <? TEMP_BUF_MAX_LEN)%Z then Ret s else Crash.

(** The return value and the content of [fileid].  The child of a failed
    [execlp] returns like the parent. *)
Definition upload_to_dstorage {X} (filename fileid : string) : prog X (Z * string) :=
  ok <- call Pipe ;;
  if negb ok then LOG "pip error" [] ;;; Ret ((-1)%Z, fileid) else
  pid <- call (Fork "fdfs_upload_file") ;;
  match pid with
  | ForkFailed => LOG "fork error" [] ;;; Ret ((-1)%Z, fileid)
  | ForkChild =>
      get_config_value CONFIG_PATH "dfs_path" "client" 256 EmptyString ;;;
      LOG "execlp fdfs_upload_file error" [] ;;; Ret (0%Z, fileid)
  | ForkParent =>
      let* (_, fdfs_cli_conf_path) :=
        get_config_value CONFIG_PATH "dfs_path" "client" 256 EmptyString in
      out <- call (RunTool "fdfs_upload_file" fdfs_cli_conf_path filename) ;;
      fileid <- read_pipe out ;;
      let fileid := trim_space fileid in
      if (slen fileid =? 0)%Z then LOG "[upload FAILED!]" [] ;;; Ret ((-1)%Z, fileid) else
      LOG "get [%s] success!" [AStr fileid] ;;; Ret (0%Z, fileid)
  end.

(** The return value and the content of [fdfs_file_url]. *)
Definition make_file_url {X} (fileid fdfs_file_url : string) : prog X (Z * string) :=
  ok <- call Pipe ;;
  if negb ok then LOG "pip error" [] ;;; Ret ((-1)%Z, fdfs_file_url) else
  pid <- call (Fork "fdfs_file_info") ;;
  match pid with
  | ForkFailed => LOG "fork error" [] ;;; Ret ((-1)%Z, fdfs_file_url)
  | ForkChild =>
      get_config_value CONFIG_PATH "dfs_path" "client" 256 EmptyString ;;;
      LOG "execlp fdfs_file_info error" [] ;;; Ret (0%Z, fdfs_file_url)
  | ForkParent =>
      let* (_, fdfs_cli_conf_path) :=
        get_config_value CONFIG_PATH "dfs_path" "client" 256 EmptyString in
      out <- call (RunTool "fdfs_file_info" fdfs_cli_conf_path fileid) ;;
      fdfs_file_stat_buf <- read_pipe out ;;
      match strstr fdfs_file_stat_buf SOURCE_IP with
      | None => Crash
      | Some p =>
          let q := sdrop (p + String.length SOURCE_IP) fdfs_file_stat_buf in
          match strstr q nl with
          | None => Crash
          | Some k =>
              fdfs_file_host_name <- copy_n HOST_NAME_LEN q k ;;
              let* (_, port) :=
                get_config_value CONFIG_PATH "storage_web_server" "port" 20 EmptyString in
              fdfs_file_url <- strcpy FILE_URL_LEN
                (fdfs_file_url +:+ "http://" +:+ fdfs_file_host_name +:+ ":" +:+ port
                 +:+ "/" +:+ fileid) ;;
              LOG "file url is: %s" [AStr fdfs_file_url] ;;;
              Ret (0%Z, fdfs_file_url)
          end
      end
  end.

(** ** The tables *)

Definition store_fileinfo_to_mysql {X} (cf : conf) (user filename md5 : string) (size : Z)
    (fileid fdfs_file_url : string) : prog X Z :=
  at_END
    (conn <- msql_conn (mysql_user cf) (mysql_pwd cf) (mysql_db cf) ;;
     if negb conn then LOG "msql_conn connect err" [] ;;; Goto (mkEnd (-1) false false) else
     let fin r := mkEnd r false true in
     mysql_query "set names utf8" ;;;
     suffix <- strcpy SUFFIX_LEN (get_file_suffix filename) ;;
     sql_cmd <- sql InsFileInfo
       [AStr md5; AStr fileid; AStr fdfs_file_url; AInt size; AStr suffix; AInt 1] ;;
     must "%s 插入失败: %s" sql_cmd (fin (-1)%Z) ;;;
     LOG "%s 文件信息插入成功" [AStr sql_cmd] ;;;
     create_time <- call Now ;;
     sql_cmd <- sql InsUserFile
       [AStr user; AStr md5; AStr create_time; AStr filename; AInt 0; AInt 0] ;;
     must "%s 操作失败: %s" sql_cmd (fin (-1)%Z) ;;;
     sql_cmd <- sql SelUserCount [AStr user] ;;
     count_up (fun s => must "%s 操作失败: %s" s (fin (-1)%Z)) InsUserCountSp user sql_cmd
       EmptyString ;;;
     Ret (fin 0%Z))
    (finish (fun _ => None)).

(** ** The program *)

(** The stages of a request after the file was received: FastDFS, the local
    copy, the address, the tables. *)
Definition publish (cf : conf) (fm : form) : prog Z Z :=
  LOG "%s成功上传[%s, 大小: %ld, md5码: %s]到本地"
    [AStr (fm_user fm); AStr (fm_filename fm); AInt (fm_size fm); AStr (fm_md5 fm)] ;;;
  let* (r, fileid) := upload_to_dstorage (fm_filename fm) EmptyString in
  if (r <? 0)%Z then Goto (-1)%Z else
  call (Unlink (fm_filename fm)) ;;;
  let* (r, fdfs_file_url) := make_file_url fileid EmptyString in
  if (r <? 0)%Z then Goto (-1)%Z else
  r <- store_fileinfo_to_mysql cf (fm_user fm) (fm_filename fm) (fm_md5 fm) (fm_size fm)
         fileid fdfs_file_url ;;
  if (r <? 0)%Z then Goto (-1)%Z else Ret 0%Z.

Definition store_upload (cf : conf) (len : Z) (body : string) : prog Z Z :=
  let* (r, fm) := recv_save_file len body in
  if (r <? 0)%Z then Goto (-1)%Z else publish cf fm.

Definition upload_len (rq : request) : Z :=
  match rq_length rq with Some s => strtol s | None => 0 end.

(** The code at END: the status of the upload. *)
Definition respond {X} (ret : Z) : prog X Z :=
  print_status (if (ret =? 0)%Z then "008" else "009") ;;; Ret ret.

(** One iteration of the loop of [main]: the value of [ret]. *)
Definition handle {X} (cf : conf) (rq : request) : prog X Z :=
  content_type ;;;
  let len := upload_len rq in
  if (len <=? 0)%Z then
    printf ("No data from standard input" +:+ nl) [] ;;;
    LOG "len = 0, No data from standard input" [] ;;; Ret (-1)%Z
  else
    at_END (store_upload cf len (rq_body rq)) respond.

Fixpoint serve {X} (cf : conf) (rqs : list request) : prog X unit :=
  match rqs with
  | [] => Ret tt
  | rq :: rqs => handle cf rq ;;; serve cf rqs
  end.

Definition main {X} (rqs : list request) : prog X unit := cf <- read_config ;; serve cf rqs.

(** ** Parsing a well-formed body *)

(** No byte [c] and no NUL in the text. *)
Definition lacks (c : ascii) (s : string) : bool :=
  sforall (fun d => negb (Ascii.eqb d c) && negb (Ascii.eqb d NUL)) s.

Lemma buf_strstr_first c n pre rest :
  lacks c pre = true ->
  buf_strstr (pre +:+ String c n +:+ rest) (String c n) = Ok (String.length pre).
Proof.
  induction pre as [|d pre IH].
  - intros _. rewrite string_app_nil_l. pose proof (CLib.prefix_app (String c n) rest) as Hp.
    rewrite string_app_cons in *. cbn [buf_strstr]. by rewrite Hp.
  - unfold lacks. cbn [sforall]. intros [[Hc Hn]%andb_prop Hpre]%andb_prop.
    apply negb_true_iff in Hn. rewrite string_app_cons. cbn [buf_strstr].
    assert (String.prefix (String c n) (String d (pre +:+ String c n +:+ rest)) = false) as ->.
    { cbn [String.prefix]. destruct (ascii_dec c d) as [->|]; [|done].
      by rewrite Ascii.eqb_refl in Hc. }
    by rewrite Hn, IH.
Qed.

Lemma sdrop_app_plus a b n : sdrop (String.length a + n) (a +:+ b) = sdrop n b.
Proof. by rewrite <- sdrop_sdrop, sdrop_app. Qed.

Lemma quoted_field_value {X} cap c n pre v rest :
  lacks c pre = true -> lacks DQUOTE v = true -> (slen v < cap)%Z ->
  quoted_field (X := X) cap (String c n) (pre +:+ String c n +:+ quoted v +:+ rest)
  = Ret (trim_space v, String DQUOTE rest).
Proof.
  intros Hp Hv Hl. unfold quoted_field. rewrite buf_strstr_first by done. cbn [found bind].
  rewrite <- Nat.add_assoc, sdrop_app_plus, sdrop_app_plus.
  unfold quoted. rewrite !string_app_cons. cbn [sdrop]. unfold buf_strchr.
  rewrite <- string_app_assoc. rewrite buf_strstr_first by done. cbn [found bind].
  unfold copy_n. destruct (Z.ltb_spec (Z.of_nat (String.length v)) cap); [|unfold slen in *; lia].
  cbn [bind]. by rewrite stake_app, sdrop_app.
Qed.

(** The header line of a file, and the body with one part. *)
Definition form_header (user filename md5 : string) (size : Z) : string :=
  "Content-Disposition: form-data; user=" +:+ quoted user
  +:+ "; filename=" +:+ quoted filename +:+ "; md5=" +:+ quoted md5
  +:+ "; size=" +:+ dec_string size.

Definition form_body (boundary header ctype content tail : string) : string :=
  boundary +:+ CRLF +:+ header +:+ CRLF +:+ ctype +:+ CRLF +:+ CRLF
  +:+ content +:+ CRLF +:+ boundary +:+ tail.

(** Texts without line breaks and quotes that fit their buffers. *)
Definition field_ok (cap : Z) (s : string) : bool :=
  lacks CR s && lacks DQUOTE s && (slen s <? cap)%Z.

Definition form_ok (boundary user filename md5 : string) (size : Z) (ctype : string) : bool :=
  lacks CR boundary && negb (streq boundary EmptyString) && (slen boundary <? TEMP_BUF_MAX_LEN)%Z
  && field_ok USER_NAME_LEN user && field_ok FILE_NAME_LEN filename && field_ok MD5_LEN md5
  && ((LONG_MIN <=? size) && (size <=? LONG_MAX))%Z
  && (slen (form_header user filename md5 size) <? TEMP_BUF_MAX_LEN)%Z && lacks CR ctype.

Lemma dec_string_lacks z : lacks CR (dec_string z) = true.
Proof.
  assert (forall n, lacks CR (dec_digits (dec_fuel n) n EmptyString) = true) as H.
  { intros n. eapply sforall_impl; [|by apply dec_digits_isdigit].
    intros c Hc. destruct (Ascii.eqb_spec c CR); [by subst|].
    destruct (Ascii.eqb_spec c NUL); [by subst|done]. }
  unfold dec_string. destruct (z <? 0)%Z; [|apply H]. unfold lacks. simpl. apply H.
Qed.

Lemma lacks_app c a b : lacks c (a +:+ b) = lacks c a && lacks c b.
Proof. apply sforall_app. Qed.

Lemma lacks_quoted v : lacks CR v = true -> lacks CR (quoted v) = true.
Proof. intros H. unfold quoted. change (lacks CR (v +:+ String DQUOTE EmptyString) = true).
  by rewrite lacks_app, H. Qed.

Lemma header_lacks user filename md5 size :
  lacks CR user = true -> lacks CR filename = true -> lacks CR md5 = true ->
  lacks CR (form_header user filename md5 size) = true.
Proof.
  intros Hu Hf Hm. unfold form_header. rewrite !lacks_app, !lacks_quoted, dec_string_lacks by done.
  done.
Qed.

Lemma header_fields_parse {X} user filename md5 size rest :
  field_ok USER_NAME_LEN user = true -> field_ok FILE_NAME_LEN filename = true ->
  field_ok MD5_LEN md5 = true -> is_long size ->
  header_fields (X := X) (form_header user filename md5 size +:+ CRLF +:+ rest)
  = Ret (mkForm (trim_space user) (trim_space filename) (trim_space md5) size).
Proof.
  unfold field_ok. intros Hu Hf Hm Hs. split_andb. unfold header_fields, form_header.
  change "Content-Disposition: form-data; user="
    with ("Content-Disposition: form-data; " +:+ "user=").
  change "; filename=" with ("; " +:+ "filename="). change "; md5=" with ("; " +:+ "md5=").
  change "; size=" with ("; " +:+ "size="). rewrite <- !string_app_assoc.
  change "user=" with (String "u" "ser=") at 1. change "user=" with (String "u" "ser=").
  rewrite quoted_field_value by (done || lia). cbn [bind].
  rewrite <- !string_app_cons.
  change "filename=" with (String "f" "ilename=").
  rewrite quoted_field_value by (done || lia). cbn [bind].
  rewrite <- !string_app_cons.
  change "md5=" with (String "m" "d5=").
  rewrite quoted_field_value by (done || lia). cbn [bind].
  rewrite <- !string_app_cons.
  change "size=" with (String "s" "ize=").
  rewrite buf_strstr_first by done. cbn [found bind]. rewrite sdrop_app_plus, sdrop_app.
  change CRLF with (String CR (String LF EmptyString)).
  rewrite buf_strstr_first by apply dec_string_lacks. cbn [found bind]. unfold copy_n.
  pose proof (dec_string_long size Hs). unfold slen in *.
  destruct (Z.ltb_spec (Z.of_nat (String.length (dec_string size))) 256); [|lia].
  cbn [bind]. by rewrite stake_app, strtol_dec_string.
Qed.

(** The first occurrence of the boundary in binary data. *)
Lemma memstr_loop_first n pre sub rest i :
  sub <> EmptyString -> (String.length pre < n)%nat ->
  (forall j, (j < String.length pre)%nat ->
     String.prefix sub (sdrop j (pre +:+ sub +:+ rest)) = false) ->
  memstr_loop n (pre +:+ sub +:+ rest) sub i = Some (i + String.length pre)%nat.
Proof.
  intros Hsub. revert n i. induction pre as [|c pre IH]; intros [|n] i Hn Hmin; simpl in Hn; try lia.
  - rewrite string_app_nil_l. cbn [memstr_loop]. destruct sub as [|d sub]; [done|].
    rewrite CLib.prefix_app. change (char_at (String d sub +:+ rest) 0) with d.
    change (char_at (String d sub) 0) with d. rewrite Ascii.eqb_refl. f_equal. simpl. lia.
  - cbn [memstr_loop]. specialize (Hmin 0%nat ltac:(simpl; lia)) as H0. cbn [sdrop] in H0.
    rewrite H0, andb_false_r. rewrite string_app_cons. cbn [sdrop]. rewrite IH; [|lia|].
    + f_equal. simpl. lia.
    + intros j Hj. specialize (Hmin (S j) ltac:(simpl; lia)).
      by rewrite string_app_cons in Hmin.
Qed.

Lemma buf_memstr_first {X} pre sub rest :
  sub <> EmptyString -> (slen (pre +:+ sub +:+ rest) <= INT_MAX)%Z ->
  (forall j, (j < String.length pre)%nat ->
     String.prefix sub (sdrop j (pre +:+ sub +:+ rest)) = false) ->
  buf_memstr (X := X) (pre +:+ sub +:+ rest) (slen (pre +:+ sub +:+ rest)) sub
  = Ret (Some (String.length pre)).
Proof.
  intros Hsub Hlen Hmin. unfold buf_memstr. rewrite Z.min_id. unfold memstr.
  assert (0 < slen sub)%Z by (destruct sub; [done|slen_lia]).
  destruct (Z.leb_spec (slen (pre +:+ sub +:+ rest)) 0); [slen_lia|].
  destruct sub as [|d sub'] eqn:E; [done|]. rewrite <- E in *.
  rewrite memstr_loop_first; [done|done| |done].
  unfold slen in *. rewrite !string_length_app. lia.
Qed.

(** The boundary does not occur in the content or across its end. *)
Definition boundary_free (boundary content tail : string) : Prop :=
  forall j, (j < String.length (content +:+ CRLF))%nat ->
    String.prefix boundary (sdrop j ((content +:+ CRLF) +:+ boundary +:+ tail)) = false.

Lemma int32_slen s : (slen s <= INT_MAX)%Z -> int32 (slen s) = slen s.
Proof.
  intros. apply int32_small. pose proof (slen_nonneg s). unfold is_int, INT_MIN, INT_MAX in *. lia.
Qed.

(** A line of the body. *)
Lemma line_find line rest :
  lacks CR line = true -> buf_strstr (line +:+ CRLF +:+ rest) CRLF = Ok (String.length line).
Proof. apply buf_strstr_first. Qed.

Lemma line_rest line rest : sdrop (String.length line + 2) (line +:+ CRLF +:+ rest) = rest.
Proof. by rewrite sdrop_app_plus. Qed.

Lemma line_rest2 line rest : sdrop (String.length line + 4) (line +:+ CRLF +:+ CRLF +:+ rest) = rest.
Proof. by rewrite sdrop_app_plus. Qed.

Lemma copy_line {X} cap line rest :
  (slen line < cap)%Z -> copy_n (X := X) cap (line +:+ rest) (String.length line) = Ret line.
Proof.
  intros H. unfold copy_n. rewrite stake_app.
  destruct (Z.ltb_spec (Z.of_nat (String.length line)) cap); [done|unfold slen in *; lia].
Qed.

Lemma slen_trim s : (slen (trim_space s) <= slen s)%Z.
Proof.
  destruct (trim_space_shape s) as (a & b & Hs & _). rewrite Hs at 2. slen_lia.
Qed.

Section Parse.
Context {coll : Collation}.

(** What [save_content] does with the data after the header. *)
Lemma wp_save_content boundary content tail fm (Q G : Z * form -> obs -> Prop) o :
  boundary <> EmptyString -> (slen (fm_filename fm) <= 256)%Z ->
  (slen ((content +:+ CRLF) +:+ boundary +:+ tail) <= INT_MAX)%Z ->
  boundary_free boundary content tail ->
  G ((-1)%Z, no_form) o ->
  (forall c, disk_copy content c ->
     Q (0%Z, fm) (with_files (<[fm_filename fm := c]> (o_files o)) o)) ->
  wp (save_content ((content +:+ CRLF) +:+ boundary +:+ tail)
        (slen ((content +:+ CRLF) +:+ boundary +:+ tail)) boundary fm) Q G o.
Proof.
  intros Hb Hf Hlen Hfree HG HQ. unfold save_content.
  rewrite int32_slen by exact Hlen.
  rewrite buf_memstr_first by done. wp_binds. rewrite string_length_app.
  apply wp_call. intros [|] o1 ->; cbn [negb]; [|wp_log; exact HG].
  destruct (Z.ltb_spec (Z.of_nat (String.length content + String.length CRLF) - 2) 0); [simpl in *; lia|].
  wp_binds. apply wp_call. intros _ o2 (c & Hc & ->). wp_binds.
  replace (Z.to_nat (Z.of_nat (String.length content + String.length CRLF) - 2))
    with (String.length content) in Hc by (simpl; lia).
  rewrite <- !string_app_assoc, stake_app in Hc. specialize (HQ c Hc).
  replace (with_files (<[fm_filename fm:=c]> (o_files (with_files _ o))) (with_files _ o))
    with (with_files (<[fm_filename fm:=c]> (o_files o)) o); [exact HQ|].
  obs_eq. by rewrite insert_insert_eq.
Qed.

Lemma form_body_length boundary header ctype content tail :
  slen (form_body boundary header ctype content tail)
  = (Z.of_nat (String.length boundary + 2) + Z.of_nat (String.length header + 2)
     + Z.of_nat (String.length ctype + 4) + slen ((content +:+ CRLF) +:+ boundary +:+ tail))%Z.
Proof.
  unfold form_body, slen. rewrite !string_length_app. cbn [String.length CRLF]. lia.
Qed.

(** A well-formed body: the fields are read, the content is saved. *)
Lemma wp_recv_save_file {X} boundary user filename md5 size ctype content tail
    (Q : Z * form -> obs -> Prop) (G : X -> obs -> Prop) o :
  form_ok boundary user filename md5 size ctype = true ->
  boundary_free boundary content tail ->
  let body := form_body boundary (form_header user filename md5 size) ctype content tail in
  let fm := mkForm (trim_space user) (trim_space filename) (trim_space md5) size in
  (slen body <= INT_MAX)%Z ->
  Q ((-1)%Z, no_form) o ->
  (forall c, disk_copy content c ->
     Q (0%Z, fm) (with_files (<[fm_filename fm := c]> (o_files o)) o)) ->
  wp (recv_save_file (slen body) body) Q G o.
Proof.
  intros Hok Hfree body fm Hlen HF HQ. unfold form_ok in Hok. split_andb.
  repeat match goal with H : field_ok _ _ = true |- _ =>
    let H' := fresh "K" in pose proof H as H'; unfold field_ok in H'; revert H end. intros. split_andb.
  assert (Hhdr : lacks CR (form_header user filename md5 size) = true) by (by apply header_lacks).
  set (header := form_header user filename md5 size) in *.
  pose proof (form_body_length boundary header ctype content tail) as Hblen.
  unfold recv_save_file. wp_binds. apply wp_call. intros [|] o1 [-> _]; cbn [negb];
    [|wp_log; exact HF].
  assert (Z.to_nat (slen body) = String.length body) as -> by (unfold slen; lia).
  rewrite stake_all by done. apply wp_at_END.
  destruct (Z.eqb_spec (int32 (slen body)) 0) as [E|E].
  { rewrite int32_slen in E by exact Hlen. unfold body in E. rewrite Hblen in E.
    pose proof (slen_nonneg ((content +:+ CRLF) +:+ boundary +:+ tail)). lia. }
  unfold body, form_body. rewrite line_find by done. cbv beta iota. rewrite copy_line by lia.
  unfold TEMP_BUF_MAX_LEN in *. wp_log. rewrite line_rest, line_find by done. cbv beta iota.
  rewrite copy_line by lia. unfold header. rewrite header_fields_parse by (done || (unfold is_long; lia)).
  fold header. wp_binds. rewrite line_rest, line_find by done. cbn [found]. wp_binds. rewrite line_rest2.
  rewrite !string_app_assoc. rewrite <- (string_app_assoc (content +:+ CRLF)).
  match goal with |- wp (save_content _ ?l _ _) _ _ _ =>
    replace l with (slen ((content +:+ CRLF) +:+ boundary +:+ tail)) end.
  - apply wp_save_content; [| | |done|done|done].
    + intros ->. done.
    + cbn [fm_filename]. pose proof (slen_trim filename). unfold FILE_NAME_LEN in *. lia.
    + unfold body in Hlen. lia.
  - rewrite !slen_app. change (slen CRLF) with 2%Z. unfold slen. lia.
Qed.
End Parse.

(** ** FastDFS and the tables *)

Lemma word_char_facts c :
  word_char c = true ->
  isspace c = false /\ Ascii.eqb c NUL = false /\ plain_char c = true.
Proof. destruct c as [[] [] [] [] [] [] [] []]; vm_compute; auto. Qed.

Lemma shell_word_plain s : sforall word_char s = true -> plain s = true /\ no_nul s = true.
Proof.
  intros H. split; (eapply sforall_impl; [|exact H]); intros c Hc;
    destruct (word_char_facts c Hc) as (_ & H1 & H2); [done|by rewrite H1].
Qed.

Lemma shell_word_trimmed s : shell_word s = true -> trimmed s.
Proof.
  intros [Hne Hw]%andb_prop. right.
  assert (0 < String.length s)%nat as Hl by (destruct s; [done|simpl; lia]).
  split; (eapply word_char_facts, sforall_char_at_inv; [exact Hw|lia]).
Qed.

(** The text the upload tool prints is read back as the file id. *)
Lemma read_fileid {X} fid :
  shell_word fid = true -> (slen fid <= 127)%Z ->
  exists s, read_pipe (X := X) (fid +:+ nl) = Ret s /\ trim_space s = fid.
Proof.
  intros Hw Hl. exists (fid +:+ nl).
  assert (no_nul (fid +:+ nl) = true) as Hn.
  { unfold no_nul. rewrite sforall_app. apply andb_prop in Hw as [_ Hw].
    destruct (shell_word_plain fid Hw) as [_ Hn]. unfold no_nul in Hn. by rewrite Hn. }
  split.
  - unfold read_pipe, TEMP_BUF_MAX_LEN. rewrite stake_all, cstr_id
      by (done || (rewrite string_length_app; unfold slen in Hl; simpl; lia)).
    rewrite slen_app. change (slen nl) with 1%Z.
    destruct (Z.ltb_spec (slen fid + 1) 512); [done|lia].
  - change (fid +:+ nl) with (EmptyString +:+ fid +:+ nl).
    apply trim_space_around; [done|done|by apply shell_word_trimmed].
Qed.

Definition file_url (ip port fid : string) : string :=
  "http://" +:+ ip +:+ ":" +:+ port +:+ "/" +:+ fid.

Definition tools_installed (o : obs) : Prop :=
  installed "fdfs_upload_file" o /\ installed "fdfs_file_info" o.

Section Upload.
Context {coll : Collation}.

Lemma wp_upload_to_dstorage {X} filename c (Q : Z * string -> obs -> Prop) (G : X -> obs -> Prop) o :
  conf_ok o -> installed "fdfs_upload_file" o -> sforall word_char filename = true ->
  o_files o !! filename = Some c ->
  (forall s, Q ((-1)%Z, s) o) ->
  (forall fid s, o_dfs o !! fid = None -> Q ((-1)%Z, s) (with_dfs (<[fid := c]> (o_dfs o)) o)) ->
  (forall fid, o_dfs o !! fid = None -> shell_word fid = true -> (slen fid <= 127)%Z ->
     Q (0%Z, fid) (with_dfs (<[fid := c]> (o_dfs o)) o)) ->
  wp (upload_to_dstorage filename EmptyString) Q G o.
Proof.
  intros Hc Hi Hw Hf H0 H1 HQ. unfold upload_to_dstorage. wp_binds.
  apply wp_call. intros [|] o1 ->; cbn [negb]; [|wp_log; apply H0].
  wp_binds. apply wp_call. intros [| |] o1 [-> Hfork]; [wp_log; apply H0|by destruct Hfork|].
  wp_binds. eapply wp_setting; [done|simpl; tauto|lia|done|]. intros _ conf _ _.
  wp_binds. apply wp_call. intros out o1 Hout. cbn [ev_spec tool_spec] in Hout.
  change (streq "fdfs_upload_file" "fdfs_upload_file") with true in Hout.
  assert (forall o', (forall s, Q ((-1)%Z, s) o') ->
            wp (fileid <- read_pipe EmptyString ;;
                if (slen (trim_space fileid) =? 0)%Z
                then LOG "[upload FAILED!]" [] ;;; Ret ((-1)%Z, trim_space fileid)
                else LOG "get [%s] success!" [AStr (trim_space fileid)] ;;; Ret (0%Z, trim_space fileid))
               Q G o') as Hempty.
  { intros o' Ho'. change (read_pipe EmptyString) with (@Ret X string EmptyString). wp_binds.
    change (slen (trim_space EmptyString) =? 0)%Z with true. cbv iota. wp_log. apply Ho'. }
  destruct Hout as [[-> ->]|(fid & c' & Hfc & Hfresh & -> & Hl & Hword & [->| ->])].
  - by apply Hempty.
  - rewrite Hf in Hfc. injection Hfc as <-. specialize (Hword Hw).
    destruct (read_fileid (X := X) fid Hword Hl) as (s & Hs & Ht). unfold nl in Hs. rewrite Hs.
    wp_binds. rewrite Ht. destruct (Z.eqb_spec (slen fid) 0) as [E|E].
    + apply andb_prop in Hword as [Hne _]. destruct fid; [done|]. revert E. slen_lia.
    + wp_log. by apply HQ.
  - rewrite Hf in Hfc. injection Hfc as <-. apply Hempty. intros s. by apply H1.
Qed.

(** The tool may fail, and then the program crashes. *)
Lemma wpc_make_file_url {X} fid (Q : Z * string -> obs -> Prop) (G : X -> obs -> Prop) C o :
  conf_ok o -> installed "fdfs_file_info" o -> (slen fid <= 127)%Z -> C o ->
  (forall s, Q ((-1)%Z, s) o) ->
  (forall ip port, sforall (fun c => isdigit c || Ascii.eqb c ".") ip = true ->
     (slen ip <= 15)%Z -> (slen port < 10)%Z ->
     (port = EmptyString \/ exists c, o_files o !! CONFIG_PATH = Some c
        /\ config_item c "storage_web_server" "port" = Ok port) ->
     Q (0%Z, file_url ip port fid) o) ->
  wpc (make_file_url fid EmptyString) Q G C o.
Proof.
  intros Hc Hi Hl HC H0 HQ. unfold make_file_url. apply wpc_bind, wp_wpc, wp_call.
  intros [|] o1 ->; cbn [negb]; [|apply wp_wpc; wp_log; apply H0].
  apply wpc_bind, wp_wpc, wp_call. intros [| |] o1 [-> Hfork];
    [apply wp_wpc; wp_log; apply H0|by destruct Hfork|].
  apply wpc_bind, wp_wpc. eapply wp_setting; [done|simpl; tauto|lia|done|]. intros _ conf _ _.
  apply wpc_bind, wp_wpc, wp_call. intros out o1 Hout. cbn [ev_spec tool_spec] in Hout.
  change (streq "fdfs_file_info" "fdfs_upload_file") with false in Hout.
  change (streq "fdfs_file_info" "fdfs_file_info") with true in Hout. cbv iota in Hout.
  destruct Hout as (-> & Hol & Hon & Hip).
  assert (read_pipe (X := X) out = Ret out) as ->.
  { unfold read_pipe, TEMP_BUF_MAX_LEN. rewrite stake_all, cstr_id by (done || (unfold slen in Hol; lia)).
    destruct (Z.ltb_spec (slen out) 512); [done|lia]. }
  cbn [bind]. destruct Hip as [->|(ip & i & post & -> & Hq & Hil & Hid)]; [exact HC|].
  rewrite Hq. assert (strstr (ip +:+ String LF post) nl = Some (String.length ip)) as ->.
  { change (ip +:+ String LF post) with (ip +:+ nl +:+ post). apply strstr_first.
    intros j Hj. clear -Hid Hj. revert j Hj. induction ip as [|d ip IH]; intros j Hj; [simpl in Hj; lia|].
    cbn [sforall] in Hid. apply andb_prop in Hid as [Hd Hid]. rewrite string_app_cons.
    destruct j as [|j]; [|simpl in *; apply IH; [done|lia]]. cbn [sdrop].
    unfold nl. cbn [String.prefix]. destruct (ascii_dec LF d) as [<-|]; [done|done]. }
  unfold copy_n, HOST_NAME_LEN. rewrite stake_app.
  destruct (Z.ltb_spec (Z.of_nat (String.length ip)) 30); [|unfold slen in Hil; lia].
  cbn [bind]. apply wp_wpc. wp_binds. eapply wp_config; [done|simpl; tauto|lia| |].
  all: cbn [bind]; unfold FILE_URL_LEN.
  - wp_binds. apply wp_strcpy; [slen_lia|]. wp_log. apply (HQ ip EmptyString); try done. by left.
  - intros c v Hcf Hv Hvl. wp_binds. apply wp_strcpy; [slen_lia|]. wp_log.
    apply HQ; try done. right. eauto.
Qed.

(** The operations on the tables. *)
Definition op_add_file (m fid url : string) (size : Z) (ty : string) (t : tables) : tables :=
  set_file_info (file_info t ++ [mkFile m fid url size ty 1]) t.

Definition upload_ops (fm : form) (fid url ty tm : string) : list (tables -> tables) :=
  [op_add_file (fm_md5 fm) fid url (fm_size fm) ty;
   op_add_ufl (fm_user fm) (fm_md5 fm) tm (fm_filename fm);
   op_inc (fm_user fm)].

Lemma wf_add_file n m fid url size ty t :
  small n 1 -> (slen fid < 512)%Z -> existsb (is_file m) (file_info t) = false ->
  tables_wf n t -> tables_wf n (op_add_file m fid url size ty t).
Proof.
  intros H1s Hl Hex (H1 & H2 & H3 & H4 & H5 & H6). unfold tables_wf, op_add_file.
  cbn [users file_info user_file_list share_file_list user_file_count set_file_info].
  split_and!; try done.
  - intros m'. rewrite count_if_app, count_if_cons, count_if_nil. specialize (H2 m').
    destruct (is_file m' (mkFile m fid url size ty 1)) eqn:E; [|lia].
    rewrite (count_if_zero (is_file m')); [lia|]. intros x Hx. rewrite existsb_false_iff in Hex.
    specialize (Hex x Hx). unfold is_file in *. simpl in E. by rewrite <- (ceq_trans_r _ m m').
  - intros r [?|[<-|[]]]%in_app_or; auto.
Qed.

Lemma sforall_sdrop p n s : sforall p s = true -> sforall p (sdrop n s) = true.
Proof.
  revert s. induction n as [|n IH]; intros [|c s]; cbn [sdrop sforall]; try done.
  intros [_ H]%andb_prop. by apply IH.
Qed.

Lemma plain_suffix f : sforall word_char f = true -> plain (get_file_suffix f) = true.
Proof.
  intros H. unfold get_file_suffix. destruct (Ascii.eqb _ _); [|done].
  destruct (_ =? 0)%nat; [done|]. by apply sforall_sdrop, shell_word_plain.
Qed.

(** The parsed names fit the statements. *)
Definition form_names (fm : form) : bool :=
  names_ok (fm_user fm) (fm_md5 fm) (fm_filename fm) && (slen (fm_md5 fm) <=? 64)%Z
  && sforall word_char (fm_filename fm) && ((LONG_MIN <=? fm_size fm) && (fm_size fm <=? LONG_MAX))%Z
  && negb (existsb (streq (fm_filename fm))
        [CONFIG_PATH; tool_path "fdfs_upload_file"; tool_path "fdfs_file_info"]).

Lemma wpc_store_fileinfo {X} cf fm fid url (Q : Z -> obs -> Prop) (G : X -> obs -> Prop)
    (C : obs -> Prop) o :
  form_names fm = true -> shell_word fid = true -> (slen fid <= 127)%Z ->
  plain url = true -> (slen url <= 160)%Z -> tables_wf 1 (o_tables o) ->
  (forall o', o_tables o' = o_tables o -> o_dfs o' = o_dfs o -> C o') ->
  (forall rs, Q (-1)%Z (with_tables (o_tables o) rs o)) ->
  (forall tm k rs, existsb (is_file (fm_md5 fm)) (file_info (o_tables o)) = false ->
     (k = 1 \/ k = 2)%nat -> Q (-1)%Z (with_tables (applied (firstn k
       (upload_ops fm fid url (get_file_suffix (fm_filename fm)) tm)) (o_tables o)) rs o)) ->
  (forall tm k rs, existsb (is_file (fm_md5 fm)) (file_info (o_tables o)) = false ->
     (k = 2 \/ k = 3)%nat -> Q 0%Z (with_tables (applied (firstn k
       (upload_ops fm fid url (get_file_suffix (fm_filename fm)) tm)) (o_tables o)) rs o)) ->
  wpc (store_fileinfo_to_mysql cf (fm_user fm) (fm_filename fm) (fm_md5 fm) (fm_size fm) fid url)
    Q G C o.
Proof.
  intros Hfm Hw Hl Hurl Hul Hwf HC HF HP HQ. unfold form_names in Hfm. split_andb.
  match goal with H : names_ok _ _ _ = true |- _ => split_names H end.
  unfold store_fileinfo_to_mysql. apply wpc_at_END.
  assert (forall r rs t, Q r (with_tables t rs o) ->
    wpc (finish (X := X) (fun _ => None) (mkEnd r false true)) Q G C
        (with_tables t rs (add_my 1 o))) as Hfin.
  { intros r rs t Hr. apply wp_wpc. unfold finish. cbn [e_ret e_redis e_conn]. wp_binds.
    apply wp_call. intros ? o' ->. wp_binds.
    replace (add_my (-1) (with_tables t rs (add_my 1 o))) with (with_tables t rs o) by obs_eq.
    exact Hr. }
  apply wpc_bind, wp_wpc, wp_msql_conn. intros [|]; cbn [negb].
  2:{ apply wp_wpc. wp_log. unfold finish. cbn [e_ret e_redis e_conn]. apply wp_wpc. wp_binds.
      rewrite <- (with_tables_id o). apply HF. }
  apply wpc_bind, wp_wpc, wp_set_names. intros _. unfold strcpy, SUFFIX_LEN.
  destruct (Z.ltb_spec (slen (get_file_suffix (fm_filename fm))) 8) as [Hs|Hs];
    [|apply HC; reflexivity].
  set (ty := get_file_suffix (fm_filename fm)) in *. cbn [bind]. apply wp_wpc.
  assert (plain ty = true) as Hty by (by apply plain_suffix).
  apply andb_prop in Hw as [_ [Hplain _]%shell_word_plain].
  wp_sql s1 Hs1 Hl1. eapply wp_must; [exact Hs1|exact Hl1|intros; vm_compute; reflexivity| |].
  { apply Hfin, HF. }
  intros t1 rs1 (Hex & -> & ->). unfold SQL_MAX_LEN in *. wp_log.
  apply wp_call. intros tm o1 (-> & Htm & Hpl). wp_binds.
  wp_sql s2 Hs2 Hl2. eapply wp_must; [exact Hs2|exact Hl2|intros; vm_compute; reflexivity| |].
  { apply Hfin, (HP tm 1%nat); auto. }
  intros t2 rs2 [-> ->]. wp_sql s3 Hs3 Hl3.
  apply (wp_count_up _ _ _ _ SelUserCount _ (mkEnd (-1) false true));
    [apply must_guarded; intros; vm_compute; reflexivity|by left|by right|done|done|done|slen_lia|..].
  - change (tables_wf 0 (op_add_ufl (fm_user fm) (fm_md5 fm) tm (fm_filename fm)
      (op_add_file (fm_md5 fm) fid url (fm_size fm) ty (o_tables o)))).
    apply wf_add_ufl; [unfold small, INT_MIN, INT_MAX; lia|].
    apply wf_add_file; [unfold small, INT_MIN, INT_MAX; lia|lia|done|].
    by apply (wf_le 1); [lia|].
  - intros rs. apply Hfin, (HP tm 2%nat); auto.
  - intros rs. wp_binds. apply Hfin, (HQ tm 3%nat); auto.
  - intros rs. wp_binds. apply Hfin, (HQ tm 2%nat); auto.
Qed.

(** ** A request *)

(** At most one new file in FastDFS. *)
Definition dfs_grew (o o' : obs) : Prop :=
  o_dfs o' = o_dfs o
  \/ exists fid c, o_dfs o !! fid = None /\ o_dfs o' = <[fid := c]> (o_dfs o).

(** The content [c] is stored under a new id and the tables hold the first [k]
    of the upload's operations on a checksum that was not there. *)
Definition recorded (fm : form) (c : string) (ks : list nat) (o o' : obs) : Prop :=
  exists fid ip port tm k,
    o_dfs o !! fid = None /\ shell_word fid = true /\ (slen fid <= 127)%Z
    /\ o_dfs o' = <[fid := c]> (o_dfs o)
    /\ existsb (is_file (fm_md5 fm)) (file_info (o_tables o)) = false
    /\ In k ks
    /\ o_tables o' = applied (firstn k (upload_ops fm fid (file_url ip port fid)
                                         (get_file_suffix (fm_filename fm)) tm)) (o_tables o).

(** What else stays: Redis, the connections, the other local files. *)
Definition rest_kept (filename : string) (o o' : obs) : Prop :=
  o_redis o' = o_redis o /\ o_my o' = o_my o /\ o_rd o' = o_rd o
  /\ forall p, p <> filename -> o_files o' !! p = o_files o !! p.

Definition publish_post (fm : form) (c : string) (o : obs) (ret : Z) (o' : obs) : Prop :=
  rest_kept (fm_filename fm) o o' /\ o_out o' = o_out o /\
  ((ret = 0%Z /\ recorded fm c [2; 3]%nat o o')
   \/ (ret = (-1)%Z /\ ((o_tables o' = o_tables o /\ dfs_grew o o') \/ recorded fm c [1; 2]%nat o o'))).

(** A crash leaves the tables. *)
Definition crash_post (o o' : obs) : Prop := o_tables o' = o_tables o /\ dfs_grew o o'.

Lemma plain_ip ip :
  sforall (fun c => isdigit c || Ascii.eqb c ".") ip = true -> plain ip = true.
Proof.
  apply sforall_impl. intros c. destruct c as [[] [] [] [] [] [] [] []]; vm_compute; done.
Qed.

(** The configured port denotes itself inside an SQL text. *)
Definition port_plain (o : obs) : Prop :=
  forall c v, o_files o !! CONFIG_PATH = Some c ->
    config_item c "storage_web_server" "port" = Ok v -> plain v = true.

Lemma form_names_files fm p :
  form_names fm = true -> In p [CONFIG_PATH; tool_path "fdfs_upload_file"; tool_path "fdfs_file_info"] ->
  p <> fm_filename fm.
Proof.
  unfold form_names. intros [_ H]%andb_prop Hin ->. apply negb_true_iff in H.
  rewrite existsb_false_iff in H. specialize (H _ Hin). by rewrite streq_refl in H.
Qed.

(** Failures before the tables are touched. *)
Lemma publish_failed fm c o o' :
  rest_kept (fm_filename fm) o o' -> o_out o' = o_out o -> crash_post o o' ->
  publish_post fm c o (-1) o'.
Proof. intros Hk Ho Hc. split; [done|]. split; [done|]. right. auto. Qed.

(** After the file [fid] is in FastDFS: the local copy goes, the tables grow. *)
Lemma wpc_publish_stored cf fm c fid (Q G : Z -> obs -> Prop) (C : obs -> Prop) o :
  form_names fm = true -> conf_ok o -> port_plain o -> installed "fdfs_file_info" o ->
  tables_wf 1 (o_tables o) ->
  o_dfs o !! fid = None -> shell_word fid = true -> (slen fid <= 127)%Z ->
  (forall o', crash_post o o' -> C o') ->
  (forall ret o', publish_post fm c o ret o' -> Q ret o' /\ G ret o') ->
  wpc (let* (r, fdfs_file_url) := make_file_url fid EmptyString in
       if (r <? 0)%Z then Goto (-1)%Z else
       r <- store_fileinfo_to_mysql cf (fm_user fm) (fm_filename fm) (fm_md5 fm) (fm_size fm)
              fid fdfs_file_url ;;
       if (r <? 0)%Z then Goto (-1)%Z else Ret 0%Z) Q G C (with_dfs (<[fid := c]> (o_dfs o)) o).
Proof.
  intros Hfm Hc Hpp Hi Hwf Hfresh Hw Hl HC HQ. set (o1 := with_dfs _ o).
  assert (forall o', o_dfs o' = o_dfs o1 -> dfs_grew o o') as Hgrew.
  { intros o' Hd. right. by exists fid, c. }
  apply wpc_bind. eapply wpc_make_file_url; [done..|by apply HC; split; [|apply Hgrew]| |].
  - intros s. apply wp_wpc, wp_goto, HQ, publish_failed; [by split_and!|done|by split; [|apply Hgrew]].
  - intros ip port Hip Hil Hpl Hport. change (0 <? 0)%Z with false. cbv iota.
    assert (plain port = true) as Hpp'.
    { destruct Hport as [->|(x & Hx & Hv)]; [done|]. by eapply Hpp. }
    apply wpc_bind. pose proof Hw as [_ [Hpf _]%shell_word_plain]%andb_prop.
    assert (forall ks k tm rs, existsb (is_file (fm_md5 fm)) (file_info (o_tables o)) = false ->
      In k ks -> recorded fm c ks o (with_tables (applied (firstn k (upload_ops fm fid
        (file_url ip port fid) (get_file_suffix (fm_filename fm)) tm)) (o_tables o1)) rs o1)) as Hrec.
    { intros ks k tm rs Hex Hk. exists fid, ip, port, tm, k. by split_and!. }
    eapply wpc_store_fileinfo; [done..| | |done| | | |].
    + unfold file_url, plain. rewrite !sforall_app.
      pose proof (plain_ip ip Hip) as Hpi. unfold plain in *. by rewrite Hpi, Hpp', Hpf.
    + unfold file_url. slen_lia.
    + intros o' Ht Hd. apply HC. split; [done|by apply Hgrew].
    + intros rs. apply wp_wpc, wp_goto, HQ, publish_failed; [by split_and!|done|by split; [|apply Hgrew]].
    + intros tm k rs Hex Hk. apply wp_wpc, wp_goto, HQ. split; [by split_and!|]. split; [done|]. right.
      split; [done|]. right. apply Hrec; [done|]. destruct Hk as [->| ->]; simpl; auto.
    + intros tm k rs Hex Hk. apply wp_wpc, wp_ret, HQ. split; [by split_and!|]. split; [done|]. left.
      split; [done|]. apply Hrec; [done|]. destruct Hk as [->| ->]; simpl; auto.
Qed.

(** Outcomes do not depend on which other state has the same tables, Redis,
    FastDFS and local files but the uploaded one. *)
Lemma publish_post_files fm c fl o ret o' :
  (forall p, p <> fm_filename fm -> fl !! p = o_files o !! p) ->
  publish_post fm c (with_files fl o) ret o' -> publish_post fm c o ret o'.
Proof.
  intros Hfl ((H1 & H2 & H3 & H4) & H5 & H6). split; [|done]. split_and!; try done.
  intros p Hp. rewrite H4 by done. by apply Hfl.
Qed.

Lemma wpc_publish cf fm c (Q G : Z -> obs -> Prop) (C : obs -> Prop) o :
  form_names fm = true -> conf_ok o -> port_plain o -> tools_installed o ->
  o_files o !! fm_filename fm = Some c -> tables_wf 1 (o_tables o) ->
  (forall o', crash_post o o' -> C o') ->
  (forall ret o', publish_post fm c o ret o' -> Q ret o' /\ G ret o') ->
  wpc (publish cf fm) Q G C o.
Proof.
  intros Hfm Hc Hpp [Hi1 Hi2] Hf Hwf HC HQ. pose proof Hfm as Hfm'. unfold form_names in Hfm'.
  split_andb. match goal with H : names_ok _ _ _ = true |- _ => split_names H end.
  unfold publish. apply wpc_bind, wp_wpc. wp_log.
  apply wpc_bind, wp_wpc. apply (wp_upload_to_dstorage _ c); [done..| | |].
  - intros s. apply wp_wpc, wp_goto, HQ, publish_failed; [by split_and!|done|split; [done|by left]].
  - intros fid s Hfresh. apply wp_wpc, wp_goto, HQ, publish_failed; [by split_and!|done|].
    split; [done|]. right. by exists fid, c.
  - intros fid Hfresh Hw Hl. change (0 <? 0)%Z with false. cbv iota.
    apply wpc_bind, wp_wpc, wp_call. intros [] o2 Hun. cbn [ev_spec] in Hun.
    assert (exists fl, o2 = with_dfs (<[fid := c]> (o_dfs o)) (with_files fl o)
              /\ forall p, p <> fm_filename fm -> fl !! p = o_files o !! p) as (fl & Ho2 & Hfl).
    { destruct Hun as [E|E]; rewrite E; [exists (o_files o); split; [by destruct o|done]|].
      exists (delete (fm_filename fm) (o_files o)). split; [done|]. intros p Hp.
      by rewrite lookup_delete_ne by done. }
    rewrite Ho2. clear Ho2 Hun o2.
    assert (forall p, In p [CONFIG_PATH; tool_path "fdfs_upload_file"; tool_path "fdfs_file_info"] ->
              fl !! p = o_files o !! p) as Hin.
    { intros p Hp. apply Hfl. by apply form_names_files. }
    apply (wpc_publish_stored cf fm c fid Q G C (with_files fl o)); try done.
    + intros x. cbn. rewrite Hin by (simpl; tauto). apply Hc.
    + intros x v. cbn. rewrite Hin by (simpl; tauto). apply Hpp.
    + unfold installed in *. cbn [o_files with_files]. by rewrite Hin by (simpl; tauto).
    + intros ret o' Hp. apply HQ. by eapply publish_post_files.
Qed.

(** ** Any body *)

(** The fields the parser finds. *)
Definition form_of (file_buf : string) : option form :=
  match buf_strstr file_buf CRLF with
  | Ok i =>
      match header_fields (X := Empty_set) (sdrop (i + 2) file_buf) with
      | Ret fm => Some fm
      | _ => None
      end
  | _ => None
  end.

Lemma quoted_field_cases {X} cap name begin :
  quoted_field (X := X) cap name begin = Crash
    /\ quoted_field (X := Empty_set) cap name begin = Crash
  \/ exists v k, quoted_field (X := X) cap name begin = Ret (v, k)
       /\ quoted_field (X := Empty_set) cap name begin = Ret (v, k) /\ (slen v < cap)%Z.
Proof.
  unfold quoted_field. destruct (buf_strstr begin name) as [i| |]; cbn [found bind]; [|by left..].
  destruct (buf_strchr _ _) as [k| |]; cbn [found bind]; [|by left..].
  unfold copy_n. destruct (Z.ltb_spec (Z.of_nat k) cap); cbn [bind]; [|by left]. right.
  eexists _, _. split; [reflexivity|]. split; [reflexivity|].
  set (w := stake k _). pose proof (slen_trim w).
  assert (slen w <= Z.of_nat k)%Z; [|lia]. unfold slen, w. rewrite stake_length. lia.
Qed.

Lemma header_fields_cases {X} begin :
  header_fields (X := X) begin = Crash
  \/ exists fm, header_fields (X := X) begin = Ret fm
       /\ header_fields (X := Empty_set) begin = Ret fm /\ (slen (fm_filename fm) < 256)%Z.
Proof.
  unfold header_fields.
  destruct (quoted_field_cases (X := X) USER_NAME_LEN "user=" begin)
    as [[-> ->]|(user & k1 & -> & -> & _)]; cbn [bind]; [by left|].
  destruct (quoted_field_cases (X := X) FILE_NAME_LEN "filename=" k1)
    as [[-> ->]|(filename & k2 & -> & -> & Hf)]; cbn [bind]; [by left|].
  destruct (quoted_field_cases (X := X) MD5_LEN "md5=" k2)
    as [[-> ->]|(md5 & k3 & -> & -> & _)]; cbn [bind]; [by left|].
  destruct (buf_strstr k3 "size=") as [i| |]; cbn [found bind]; [|by left..].
  destruct (buf_strstr (sdrop _ k3) CRLF) as [n| |]; cbn [found bind]; [|by left..].
  unfold copy_n. destruct (Z.of_nat n <? 256)%Z; cbn [bind]; [|by left]. right.
  eexists. by split_and!.
Qed.

Lemma wpc_save_content begin len boundary fm (Q G : Z * form -> obs -> Prop) (C : obs -> Prop) o :
  (slen (fm_filename fm) < 256)%Z -> C o -> G ((-1)%Z, no_form) o ->
  (forall c, Q (0%Z, fm) (with_files (<[fm_filename fm := c]> (o_files o)) o)) ->
  wpc (save_content begin len boundary fm) Q G C o.
Proof.
  intros Hf HC HG HQ. unfold save_content, buf_memstr.
  destruct (memstr _ _ _) as [p|]; cbn [bind].
  - apply wpc_bind, wp_wpc, wp_call. intros [|] o1 ->; cbn [negb];
      [|apply wp_wpc; wp_log; exact HG].
    destruct (Z.of_nat p - 2 <? 0)%Z; cbn [bind]; [apply HQ|].
    apply wpc_bind, wp_wpc, wp_call. intros [] o2 (c & _ & ->). cbn [wpc].
    replace (with_files (<[fm_filename fm:=c]> (o_files (with_files _ o))) (with_files _ o))
      with (with_files (<[fm_filename fm:=c]> (o_files o)) o); [apply HQ|].
    obs_eq. by rewrite insert_insert_eq.
  - destruct (_ && _); cbn [bind]; [exact HC|]. apply wp_wpc. wp_log. exact HG.
Qed.

Lemma wpc_recv_save_file {X} len stdin (Q : Z * form -> obs -> Prop) (G : X -> obs -> Prop)
    (C : obs -> Prop) o :
  C o -> Q ((-1)%Z, no_form) o ->
  (forall fm c, form_of (stake (Z.to_nat len) stdin) = Some fm ->
     Q (0%Z, fm) (with_files (<[fm_filename fm := c]> (o_files o)) o)) ->
  wpc (recv_save_file len stdin) Q G C o.
Proof.
  intros HC HF HQ. unfold recv_save_file. apply wpc_bind, wp_wpc, wp_call.
  intros [|] o1 [-> _]; cbn [negb]; [|apply wp_wpc; wp_log; exact HF].
  unfold form_of in HQ. set (buf := stake (Z.to_nat len) stdin) in *. apply wpc_at_END.
  destruct (int32 (slen buf) =? 0)%Z; [apply wp_wpc; wp_log; exact HF|].
  destruct (buf_strstr buf CRLF) as [i| |]; [|apply wp_wpc; wp_log; exact HF|exact HC].
  unfold copy_n at 1. destruct (Z.ltb_spec (Z.of_nat i) TEMP_BUF_MAX_LEN) as [Hi|];
    cbn [bind]; [|exact HC].
  assert (slen (stake i buf) < 512)%Z as Hb.
  { unfold slen, TEMP_BUF_MAX_LEN in *. rewrite stake_length. lia. }
  apply wpc_bind, wp_wpc. wp_log. set (begin := sdrop (i + 2) buf) in *.
  destruct (buf_strstr begin CRLF) as [j| |]; [|apply wp_wpc; wp_log; exact HF|exact HC].
  unfold copy_n. destruct (Z.of_nat j <? TEMP_BUF_MAX_LEN)%Z; cbn [bind]; [|exact HC].
  destruct (header_fields_cases (X := Z * form) begin) as [->|(fm & -> & E & Hf)]; cbn [bind]; [exact HC|].
  rewrite E in HQ.
  destruct (buf_strstr (sdrop (j + 2) begin) CRLF) as [n| |]; cbn [found bind]; [|exact HC..].
  apply wpc_save_content; [done|done|exact HF|]. intros c. by apply HQ.
Qed.

(** ** One request *)

Definition NO_DATA : string := "No data from standard input" +:+ nl.

(** The outcome of a request whose form and saved content satisfy [P]. *)
Definition upload_post (P : form -> string -> Prop) (rq : request) (o : obs) (ret : Z) (o' : obs)
    : Prop :=
  o_redis o' = o_redis o /\ o_my o' = o_my o /\ o_rd o' = o_rd o /\
  ((ret = 0%Z /\ o_out o' = o_out o +:+ HEADER +:+ status_text "008"
      /\ exists fm c, P fm c /\ recorded fm c [2; 3]%nat o o')
   \/ (ret = (-1)%Z
      /\ o_out o' = o_out o +:+ HEADER
           +:+ (if (upload_len rq <=? 0)%Z then NO_DATA else status_text "009")
      /\ ((o_tables o' = o_tables o /\ dfs_grew o o')
          \/ exists fm c, P fm c /\ recorded fm c [1; 2]%nat o o'))).

(** The environment of the program. *)
Definition upload_env (o : obs) : Prop :=
  conf_ok o /\ port_plain o /\ tools_installed o /\ tables_wf 1 (o_tables o).

Lemma env_saved fm c o :
  form_names fm = true -> upload_env o ->
  upload_env (with_files (<[fm_filename fm := c]> (o_files o)) o).
Proof.
  intros Hfm (Hc & Hp & [Hi1 Hi2] & Hwf).
  assert (forall p, In p [CONFIG_PATH; tool_path "fdfs_upload_file"; tool_path "fdfs_file_info"] ->
            <[fm_filename fm := c]> (o_files o) !! p = o_files o !! p) as Hin.
  { intros p Hp'. apply lookup_insert_ne. intros E. by apply (form_names_files fm p). }
  split; [|split; [|split; [|exact Hwf]]].
  - intros x. cbn [o_files with_files]. rewrite Hin by (simpl; tauto). apply Hc.
  - intros x v. cbn [o_files with_files]. rewrite Hin by (simpl; tauto). apply Hp.
  - split; unfold installed in *; cbn [o_files with_files]; by rewrite Hin by (simpl; tauto).
Qed.

Lemma wp_respond {X} ret (Q : Z -> obs -> Prop) (G : X -> obs -> Prop) o :
  Q ret (with_out (o_out o +:+ status_text (if (ret =? 0)%Z then "008" else "009")) o) ->
  wp (respond ret) Q G o.
Proof.
  intros HQ. unfold respond. wp_binds.
  apply wp_print_status; [by destruct (ret =? 0)%Z; vm_compute|]. wp_binds. exact HQ.
Qed.

(** The response to a request whose stages ended in [o']. *)
Lemma wp_respond_post {X} P rq o o' ret (G : X -> obs -> Prop) :
  (upload_len rq <=? 0)%Z = false ->
  o_redis o' = o_redis o -> o_my o' = o_my o -> o_rd o' = o_rd o ->
  o_out o' = o_out o +:+ HEADER ->
  (ret = 0%Z /\ (exists fm c, P fm c /\ recorded fm c [2; 3]%nat o o')
   \/ ret = (-1)%Z /\ (crash_post o o' \/ exists fm c, P fm c /\ recorded fm c [1; 2]%nat o o')) ->
  wp (respond ret) (upload_post P rq o) G o'.
Proof.
  intros Hl Hr Hm Hd Ho Hcase. apply wp_respond. unfold upload_post. rewrite Hl, Ho. obs_cbn.
  split; [done|]. split; [done|]. split; [done|].
  destruct Hcase as [[-> H]|[-> H]]; [left|right]; zeq; (split; [done|]);
    (split; [symmetry; apply string_app_assoc|exact H]).
Qed.

Lemma wpc_handle {X} (P : form -> string -> Prop) cf rq (G : X -> obs -> Prop) o :
  upload_env o -> (forall fm c, P fm c -> form_names fm = true) ->
  (forall (Q : Z * form -> obs -> Prop) (G' : Z -> obs -> Prop) C o1, C o1 ->
     Q ((-1)%Z, no_form) o1 ->
     (forall fm c, P fm c -> Q (0%Z, fm) (with_files (<[fm_filename fm := c]> (o_files o1)) o1)) ->
     wpc (recv_save_file (upload_len rq) (rq_body rq)) Q G' C o1) ->
  wpc (handle cf rq) (upload_post P rq o) G (crash_post o) o.
Proof.
  intros Henv HP Hrecv. unfold handle. apply wpc_bind, wp_wpc.
  apply wp_printf_const; [vm_compute; reflexivity|]. set (o1 := with_out (o_out o +:+ HEADER) o).
  destruct (upload_len rq <=? 0)%Z eqn:El.
  { apply wp_wpc. unfold upload_post. rewrite El. wp_binds. apply wp_printf_const; [vm_compute; reflexivity|]. wp_log.
    split_and!; try done. right. split; [done|]. split; [symmetry; apply string_app_assoc|]. left.
    split; [done|by left]. }
  apply wpc_at_END. unfold store_upload. apply wpc_bind, Hrecv.
  - split; [done|by left].
  - change (-1 <? 0)%Z with true. cbv iota. apply wp_wpc, wp_goto, wp_wpc.
    apply wp_respond_post; [done..|]. right. split; [done|]. left. split; [done|by left].
  - intros fm c Hfc. change (0 <? 0)%Z with false. cbv iota.
    destruct (env_saved fm c o1 (HP fm c Hfc) Henv) as (Hc & Hp & Hi & Hwf).
    apply (wpc_publish _ fm c); try done; [by eapply HP|cbn; apply lookup_insert_eq|].
    intros ret o' ((H1 & H2 & H3 & _) & Ho & Hcase).
    assert (wp (respond ret) (upload_post P rq o) G o'); [|split; by apply wp_wpc].
    apply wp_respond_post; [done..|].
    destruct Hcase as [[-> Hr]|[-> [Hr|Hr]]]; [left|right|right]; (split; [done|]);
      [|by left|right]; by exists fm, c.
Qed.



(** The names the parser finds in a request fit. *)
Definition request_ok (rq : request) : Prop :=
  forall fm, form_of (stake (Z.to_nat (upload_len rq)) (rq_body rq)) = Some fm -> form_names fm = true.

Definition any_form (rq : request) (fm : form) (c : string) : Prop :=
  form_of (stake (Z.to_nat (upload_len rq)) (rq_body rq)) = Some fm.

(** Any body at all. *)
Lemma wpc_handle_any {X} cf rq (G : X -> obs -> Prop) o :
  upload_env o -> request_ok rq ->
  wpc (handle cf rq) (upload_post (any_form rq) rq o) G (crash_post o) o.
Proof.
  intros Henv Hrq. apply wpc_handle; [done|intros fm c H; by apply Hrq|].
  intros Q G' C o1 HC HF HQ. by apply wpc_recv_save_file.
Qed.

(** ** Defects *)

(** When the tool cannot be executed, the child of the [fork] does not stop:
    it returns from [upload_to_dstorage] with success and an empty file id, and
    goes on with the request as a second server process. *)
Theorem child_reports_success (filename : string) (o : obs) :
  ~ installed "fdfs_upload_file" o ->
  can (upload_to_dstorage (X := Empty_set) filename EmptyString)
    (fun r o' => r = (0%Z, EmptyString) /\ o' = o) (fun _ _ => False) o.
Proof.
  intros Hi. unfold upload_to_dstorage. apply can_bind.
  eapply (can_call Pipe _ _ _ true); [reflexivity|]. cbn [negb]. apply can_bind.
  eapply (can_call (Fork _) _ _ _ ForkChild); [by split|]. apply can_bind.
  unfold get_config_value. apply can_bind. eapply (can_call (ReadFile _) _ _ _ None).
  - split; [reflexivity|by right].
  - change (LOG (X := Empty_set) "fopen err" []) with (@Ret Empty_set unit tt).
    change (LOG (X := Empty_set) "execlp fdfs_upload_file error" []) with (@Ret Empty_set unit tt).
    cbn [bind can]. done.
Qed.

(** The result of fdfs_file_info is used without a test: when the query
    fails, the program runs into undefined behaviour, whatever the file id, after
    the file was stored in FastDFS and before it is recorded. *)
Theorem failed_query_crashes (fileid : string) (o : obs)
    (Q : Z * string -> obs -> Prop) (G : Empty_set -> obs -> Prop) :
  ~ wp (make_file_url fileid EmptyString) Q G o.
Proof.
  intros H. unfold make_file_url in H. apply wp_bind in H. specialize (H true o eq_refl).
  cbn [negb] in H. apply wp_bind in H.
  assert (ev_spec (Fork "fdfs_file_info") o ForkParent o) as Hf by (split; [done|intros E; discriminate E]).
  specialize (H ForkParent o Hf). clear Hf.
  apply wp_bind in H. unfold get_config_value in H. apply wp_bind in H.
  specialize (H None o (conj eq_refl (or_intror eq_refl))).
  change (LOG (X := Empty_set) "fopen err" []) with (@Ret Empty_set unit tt) in H. cbn [bind wp] in H.
  specialize (H EmptyString o). apply H. split; [done|]. split; [done|]. split; [done|]. by left.
Qed.
End Upload.

#[local] Existing Instance binary_collation.

(** A server with the tools installed. *)
Definition up_obs : obs :=
  with_files {[ CONFIG_PATH := demo_config; tool_path "fdfs_upload_file" := "ELF";
                tool_path "fdfs_file_info" := "ELF" ]} two_obs.

Lemma up_obs_env : upload_env up_obs.
Proof.
  assert (forall c, o_files up_obs !! CONFIG_PATH = Some c -> c = demo_config) as Hc.
  { intros c. change (o_files up_obs !! CONFIG_PATH) with (Some demo_config). by intros [= <-]. }
  split; [|split; [|split]].
  - intros c ->%Hc. vm_compute. reflexivity.
  - intros c v ->%Hc.
    replace (config_item demo_config "storage_web_server" "port") with (Ok "80")
      by (vm_compute; reflexivity). by intros [= <-].
  - split; vm_compute; eauto.
  - apply wf_b_spec. vm_compute. reflexivity.
Qed.

Definition up_body (filename md5 : string) : string :=
  form_body "------WebKitFormBoundary" (form_header "bob" filename md5 5)
    "Content-Type: application/octet-stream" "hello" "--".
Definition up_request (filename md5 : string) : request :=
  mkRequest None (Some (dec_string (slen (up_body filename md5)))) (up_body filename md5).

(** [boundary_free], decided. *)
Definition boundary_free_b (boundary content tail : string) : bool :=
  forallb (fun j => negb (String.prefix boundary (sdrop j ((content +:+ CRLF) +:+ boundary +:+ tail))))
    (seq 0 (String.length (content +:+ CRLF))).

Lemma boundary_free_b_spec b c t : boundary_free_b b c t = true -> boundary_free b c t.
Proof.
  unfold boundary_free_b. rewrite forallb_forall. intros H j Hj. apply negb_true_iff, H.
  apply in_seq. lia.
Qed.



Lemma child_reports_success_witness :
  can (upload_to_dstorage (X := Empty_set) "c.txt" EmptyString)
    (fun r o' => r = (0%Z, EmptyString) /\ o' = two_obs) (fun _ _ => False) two_obs.
Proof.
  apply (child_reports_success "c.txt" two_obs). intros [c Hc]. vm_compute in Hc. discriminate.
Defined.

(** The file name of the request is a path of the server: uploading a file
    named like the configuration file replaces the configuration and then
    deletes it; a suffix of eight characters overflows its buffer. *)
Theorem upload_name_defects :
  run_ends (X := Empty_set) (handle demo_cf (up_request CONFIG_PATH "m9")) up_obs
    (fun ret o' => ret = 0%Z /\ o_files o' !! CONFIG_PATH = None)
  /\ crashes (X := Empty_set) (handle demo_cf (up_request "notes.markdown" "m9")) up_obs = true.
Proof. vm_compute. auto. Qed.
