(* ===== verification/Listing.v ===== *)
(** * Listings as JSON: what myfiles_cgi and sharefiles_cgi share

    Building the object {"files": [...]} from rows, printing and logging it,
    reading integers of a request, and the page of an ordered join that a
    SELECT with LIMIT returns. *)

From S2P Require Import Prelude CLib UtilCgi Sql Tables CProg Mysql Redis CJson Config Auth Handler.
From Stdlib Require Import Permutation Sorted Floats.SpecFloat.

(** [child = cJSON_GetObjectItem (root, name); if (NULL == child) goto END;
    *p = child->valueint]. *)
Definition json_int {X} (root : cJSON) (name : string) (e : X) : prog X Z :=
  match cJSON_GetObjectItem root name with
  | None => LOG "cJSON_GetObjectItem err" [] ;;; Goto e
  | Some child => Ret (j_valueint child)
  end.

(** [if (row[i] != NULL) cJSON_AddStringToObject (item, name, row[i])]. *)
Definition add_str (name : string) (v : option string) (item : cJSON) : cJSON :=
  match v with Some s => cJSON_AddStringToObject item name s | None => item end.

(** [if (row[i] != NULL) cJSON_AddNumberToObject (item, name, f (row[i]))]. *)
Definition add_num (name : string) (f : string -> Z) (v : option string) (item : cJSON) : cJSON :=
  match v with Some s => cJSON_AddNumberToObject item name (f s) | None => item end.

(** The object printed for a list of items. *)
Definition files_object (items : list cJSON) : cJSON :=
  cJSON_AddItemToObject cJSON_CreateObject "files"
    (fold_left cJSON_AddItemToArray items cJSON_CreateArray).

(** The text of the object ([%s] prints NULL as "(null)"). *)
Definition files_text (items : list cJSON) : string :=
  match cJSON_Print (files_object items) with Some s => s | None => "(null)" end.

(** The items of all rows; a row with too few columns is read out of bounds. *)
Fixpoint items_of {X} (item : row -> option cJSON) (rows : list row) : prog X (list cJSON) :=
  match rows with
  | [] => Ret []
  | r :: rows =>
      match item r with
      | None => Crash
      | Some c => l <- items_of item rows ;; Ret (c :: l)
      end
  end.

(** [printf ("%s", out)]. *)
Definition print_text {X} (s : string) : prog X unit := printf "%s" [AStr s].

(** The code at END of the listings: the text, or the status 015. *)
Definition list_END {X} (e : end_state) (out : string) : prog X Z :=
  (if (e_ret e =? 0)%Z then print_text out else print_status "015") ;;;
  (if e_redis e then rop_disconnect else Ret tt) ;;;
  (if e_conn e then mysql_close else Ret tt) ;;;
  Ret (e_ret e).

Lemma items_of_map {X A} (f : row -> option cJSON) (cols : A -> row) (g : A -> cJSON) l :
  (forall a, In a l -> f (cols a) = Some (g a)) ->
  items_of (X := X) f (List.map cols l) = Ret (List.map g l).
Proof.
  induction l as [|a l IH]; intros H; [done|]. cbn [items_of List.map].
  rewrite (H a) by (simpl; auto). rewrite IH by (intros; apply H; simpl; auto). done.
Qed.

Lemma format_s s : format "%s" [AStr s] = Some s.
Proof.
  unfold format. change (pieces_of "%s") with (Some [PStr]). cbn [render option_map].
  by rewrite string_app_nil_r.
Qed.

Lemma format_s_nl s : format ("%s" +:+ nl) [AStr s] = Some (s +:+ nl).
Proof.
  unfold format. change (pieces_of ("%s" +:+ nl)) with (Some [PStr; PLit LF]).
  cbn [render option_map]. done.
Qed.

Section Rules.
Context {coll : Collation}.

Lemma wp_print_text {X} s (Q : unit -> obs -> Prop) (G : X -> obs -> Prop) o :
  Q tt (with_out (o_out o +:+ s) o) -> wp (print_text s) Q G o.
Proof.
  intros HQ. unfold print_text, printf. rewrite format_s. apply wp_call. intros [] o' ->. exact HQ.
Qed.

(** Logging a text of any length: the buffer of the log has 4096 bytes. *)
Lemma wpc_LOG_text {X} s (Q : unit -> obs -> Prop) (G : X -> obs -> Prop) (C : obs -> Prop) o :
  ((slen s < 4095)%Z -> Q tt o) -> ((4095 <= slen s)%Z -> C o) ->
  wpc (LOG "%s" [AStr s]) Q G C o.
Proof.
  intros HQ HC. unfold LOG, LOG0. rewrite format_s_nl, slen_app. change (slen nl) with 1%Z.
  unfold LOG_BUF. destruct (Z.ltb_spec (slen s + 1) 4096); cbn [wpc]; [apply HQ|apply HC]; lia.
Qed.

Lemma wp_close {X} e (Q : Z -> obs -> Prop) (G : X -> obs -> Prop) o :
  Q (e_ret e) (add_my (if e_conn e then -1 else 0) (add_rd (if e_redis e then -1 else 0) o)) ->
  wp ((if e_redis e then rop_disconnect else Ret tt) ;;;
      (if e_conn e then mysql_close else Ret tt) ;;; Ret (e_ret e)) Q G o.
Proof.
  intros HQ. destruct (e_redis e), (e_conn e); rewrite ?add_my_0, ?add_rd_0 in HQ; wp_binds.
  - apply wp_disconnect. wp_binds. apply wp_call. intros ? o' ->. wp_binds. exact HQ.
  - apply wp_disconnect. wp_binds. exact HQ.
  - apply wp_call. intros ? o' ->. wp_binds. exact HQ.
  - exact HQ.
Qed.

Lemma wp_list_END {X} e out (Q : Z -> obs -> Prop) (G : X -> obs -> Prop) o :
  Q (e_ret e)
    (with_out (o_out o +:+ (if (e_ret e =? 0)%Z then out else status_text "015"))
       (add_my (if e_conn e then -1 else 0) (add_rd (if e_redis e then -1 else 0) o))) ->
  wp (list_END e out) Q G o.
Proof.
  intros HQ. rewrite closed_obs in HQ. unfold list_END. apply wp_bind.
  destruct (e_ret e =? 0)%Z.
  - apply wp_print_text, wp_close. exact HQ.
  - apply wp_print_status; [vm_compute; reflexivity|]. apply wp_close. exact HQ.
Qed.

(** The column of the sizes is a BIGINT. *)
Definition sizes_ok (t : tables) : Prop := forall r, In r (file_info t) -> is_long (f_size r).

(** A listing of the tables, where [shows t text] says that [text] may be shown:
    it is printed, or the response is status 015; nothing is changed. *)
Definition listed (shows : tables -> string -> Prop) (o : obs) (ret : Z) (o' : obs) : Prop :=
  kept o o' /\ o_tables o' = o_tables o /\ o_redis o' = o_redis o /\
  ((ret = 0%Z /\ exists text, shows (o_tables o) text
      /\ (slen text < 4095)%Z /\ o_out o' = o_out o +:+ text)
   \/ (ret = (-1)%Z /\ o_out o' = o_out o +:+ status_text "015")).

(** ... or it is too long for the log. *)
Definition overlong (shows : tables -> string -> Prop) (o o' : obs) : Prop :=
  o_tables o' = o_tables o /\ o_redis o' = o_redis o
  /\ exists text, shows (o_tables o) text /\ (4095 <= slen text)%Z.

Lemma list_failed {X} shows (b : bool) (G : X -> obs -> Prop) C o rs :
  wpc (list_END (X := X) (mkEnd (-1) false b) EmptyString) (listed shows o) G C
      (if b then with_tables (o_tables o) rs (add_my 1 o) else o).
Proof.
  apply wp_wpc, wp_list_END. cbn [e_ret e_redis e_conn]. zeq.
  destruct b; (split; [kept_tac|]); obs_cbn; (split; [done|]); (split; [done|]); right; done.
Qed.

(** Printing the rows made from [ps]. *)
Lemma wpc_show_rows {X A} shows (item : row -> option cJSON) (cols : A -> row) (json : A -> cJSON) ps
    (G : X -> obs -> Prop) o :
  (forall p, In p ps -> item (cols p) = Some (json p)) ->
  shows (o_tables o) (files_text (List.map json ps)) ->
  let post := fun e : end_state * string =>
    wpc (list_END (X := X) (fst e) (snd e)) (listed shows o) G (overlong shows o) in
  wpc (items <- items_of item (List.map cols ps) ;;
       LOG "%s" [AStr (files_text items)] ;;; Ret (mkEnd 0 false true, files_text items))
      post post (overlong shows o) (with_tables (o_tables o) None (add_my 1 o)).
Proof.
  intros Hitem Hsh post. rewrite (items_of_map item cols json) by exact Hitem.
  cbn [bind]. set (text := files_text (List.map json ps)) in *.
  apply wpc_bind, wpc_LOG_text; intros Htext.
  - cbn [wpc]. unfold post. apply wp_wpc, wp_list_END. cbn [e_ret e_redis e_conn fst snd]. zeq.
    split; [kept_tac|]. obs_cbn. split; [done|]. split; [done|]. left. split; [done|]. by exists text.
  - split; [done|]. split; [done|]. by exists text.
Qed.

(** The number of files of [user], or 0, is shown as [text]; nothing is changed. *)
Definition counted (user : string) (text : Z -> string) (o o' : obs) : Prop :=
  kept o o' /\ o_tables o' = o_tables o /\ o_redis o' = o_redis o
  /\ exists line, o_out o' = o_out o +:+ text line
       /\ (line = 0%Z \/ exists r, In r (user_file_count (o_tables o)) /\ is_cnt user r = true
                          /\ line = c_count r).

Lemma wp_count_line {X} cf user (text : Z -> string) (show : Z -> prog X unit)
    (Q : unit -> obs -> Prop) (G : X -> obs -> Prop) o :
  plain user = true -> (slen user < 128)%Z -> tables_wf 0 (o_tables o) ->
  (forall line (Q' : unit -> obs -> Prop) (G' : X -> obs -> Prop) o1, is_long line ->
     Q' tt (with_out (o_out o1 +:+ text line) o1) -> wp (show line) Q' G' o1) ->
  (forall o', counted user text o o' -> Q tt o') ->
  wp (at_END (X := bool * Z)
        (conn <- msql_conn (mysql_user cf) (mysql_pwd cf) (mysql_db cf) ;;
         if negb conn then LOG "msql_conn err" [] ;;; Goto (false, 0%Z) else
         mysql_query "set names utf8" ;;;
         sql_cmd <- sql SelUserCountDq [AStr user] ;;
         let* (ret2, tmp) := process_result_one sql_cmd (Some (512%Z, EmptyString)) in
         if negb (ret2 =? 0)%Z then LOG "%s 操作失败" [AStr sql_cmd] ;;; Goto (true, 0%Z) else
         Ret (true, atol tmp))
        (fun e => (if fst e then mysql_close else Ret tt) ;;; LOG "line = %ld" [AInt (snd e)] ;;;
                  show (snd e))) Q G o.
Proof.
  intros Hu Hl Hwf Hshow HQ. apply wp_at_END.
  assert (forall (b : bool) line rs, is_long line ->
    (line = 0%Z \/ exists r, In r (user_file_count (o_tables o)) /\ is_cnt user r = true
                     /\ line = c_count r) ->
    wp ((if b then mysql_close else Ret tt) ;;; LOG "line = %ld" [AInt line] ;;; show line) Q G
       (if b then with_tables (o_tables o) rs (add_my 1 o) else o)) as Hend.
  { intros b line rs Hlong Hline.
    assert (forall o1, o1 = (if b then with_tables (o_tables o) rs o else o) ->
      wp (LOG (X := X) "line = %ld" [AInt line] ;;; show line) Q G o1) as H.
    { intros o1 ->. wp_log. apply Hshow; [done|]. apply HQ.
      destruct b; (split; [kept_tac|]); obs_cbn; (split; [done|]); (split; [done|]); by exists line. }
    destruct b; apply wp_bind; [apply wp_call; intros ? o' ->|apply wp_ret]; apply H; [obs_eq|reflexivity]. }
  wp_binds. apply wp_msql_conn. intros [|]; cbn [negb].
  2:{ wp_log. apply (Hend false 0%Z None); [done|by left]. }
  wp_binds. apply wp_set_names. intros _. wp_sql s Hs Hsl.
  apply (wp_select_num s SelUserCountDq [AStr user] c_count
           (List.filter (is_cnt user) (user_file_count (o_tables o)))); [done|done| |lia|..].
  - intros r Hr. by eapply small_filter_cnt.
  - zeq. unfold SQL_MAX_LEN in Hsl. wp_log. apply (Hend true 0%Z None); [done|by left].
  - intros _. zeq. unfold SQL_MAX_LEN in Hsl. wp_log. apply (Hend true 0%Z None); [done|by left].
  - intros r Hr. zeq. wp_binds. pose proof (small_filter_cnt _ _ _ Hwf Hr) as Hsm.
    assert (is_long (c_count r)) as Hlong.
    { unfold small, is_long, INT_MIN, INT_MAX, LONG_MIN, LONG_MAX in *. lia. }
    unfold atol. rewrite strtol_dec_string by exact Hlong. cbn [fst snd].
    apply (Hend true (c_count r) None); [done|]. right. exists r. apply filter_In in Hr as [? ?]. done.
Qed.
End Rules.

(** ** Pages *)

Section Pages.
Context {A : Type}.
Implicit Types (pv : A -> Z) (l : list A).

Definition ordered_by (o : pv_order) pv l : Prop :=
  match o with
  | Unordered => True
  | Ascending => StronglySorted (fun a b => (pv a <= pv b)%Z) l
  | Descending => StronglySorted (fun a b => (pv b <= pv a)%Z) l
  end.

(** Rows [start .. start + count) of some arrangement of [l] in the order. *)
Definition page (o : pv_order) pv (start count : Z) l (p : list A) : Prop :=
  (0 <= start)%Z /\ (0 <= count)%Z /\
  exists l', Permutation l' l /\ ordered_by o pv l'
    /\ p = firstn (Z.to_nat count) (skipn (Z.to_nat start) l').

Lemma StronglySorted_map {B} (f : A -> B) (R : B -> B -> Prop) l :
  StronglySorted R (List.map f l) -> StronglySorted (fun a b => R (f a) (f b)) l.
Proof.
  induction l as [|x l IH]; [constructor|]. cbn [List.map]. inversion 1 as [|? ? Hs Hf]; subst.
  constructor; [auto|]. apply List.Forall_map. exact Hf.
Qed.

(** The result set of a SELECT over rows made from [l] is made from a page. *)
Lemma selects_limit_page o pv (cols : A -> row) start count l rs :
  selects_limit rs o start count (List.map (fun a => (pv a, cols a)) l) ->
  exists p, page o pv start count l p /\ rs = Some (List.map cols p).
Proof.
  intros (Hs & Hc & l' & Hp & Ho & ->).
  apply Permutation_map_inv in Hp as (l2 & -> & Hp2).
  exists (firstn (Z.to_nat count) (skipn (Z.to_nat start) l2)). split.
  - split; [done|]. split; [done|]. exists l2. split; [by apply Permutation_sym|]. split; [|done].
    destruct o; simpl in *; [done|..]; by apply StronglySorted_map in Ho.
  - f_equal. rewrite skipn_map, firstn_map, List.map_map. done.
Qed.

Lemma page_in o pv start count l p x : page o pv start count l p -> In x p -> In x l.
Proof.
  intros (_ & _ & l' & Hp & _ & ->) Hx. eapply Permutation_in; [exact Hp|]. by eapply in_window.
Qed.
End Pages.
