(* ===== verification/MyFiles.v ===== *)
(** * myfiles_cgi: a user's files (src/src/cgi/myfiles_cgi.c) *)

From S2P Require Import Prelude CLib UtilCgi Sql Tables CProg Mysql Redis Float64 CJson Config Sim Demo.
From S2P Require Import Auth Handler Samples Listing.
From Stdlib Require Import Permutation.

Definition read_config {X} : prog X conf :=
  let* (_, mysql_user) := get_config_value CONFIG_PATH "mysql" "user" 128 EmptyString in
  let* (_, mysql_pwd) := get_config_value CONFIG_PATH "mysql" "password" 128 EmptyString in
  let* (_, mysql_db) := get_config_value CONFIG_PATH "mysql" "database" 128 EmptyString in
  LOG0 "mysql:[user=%s,pwd=%s,database=%s]" [AStr mysql_user; AStr mysql_pwd; AStr mysql_db] ;;;
  Ret (mkConf mysql_user mysql_pwd mysql_db EmptyString EmptyString).

(** The buffers of [main], which keep their content between requests. *)
Record bufs := mkBufs { b_cmd : string; b_user : string; b_token : string }.

Definition get_count_json_info {X} (buf : string) (b : bufs) : prog X (Z * bufs) :=
  at_END
    (root <- json_parse buf ;;
     match root with
     | None => LOG "cJSON_Parse err" [] ;;; Goto ((-1)%Z, b)
     | Some root =>
         user <- json_field 128 root "user" ((-1)%Z, b) ;;
         let b := mkBufs (b_cmd b) user (b_token b) in
         token <- json_field 128 root "token" ((-1)%Z, b) ;;
         Ret (0%Z, mkBufs (b_cmd b) user token)
     end)
    Ret.

(** The object {"num": ..., "code": ...}. *)
Definition count_object (num : Z) (token_flag : Z) : cJSON :=
  let token := if (token_flag =? 0)%Z then "110" else "111" in
  cJSON_AddStringToObject
    (cJSON_AddStringToObject cJSON_CreateObject "num" (dec_string num)) "code" token.

Definition return_login_status {X} (num : Z) (token_flag : Z) : prog X unit :=
  match cJSON_Print (count_object num token_flag) with
  | Some out => printf out []
  | None => Ret tt
  end.

Definition get_user_files_count {X} (cf : conf) (user : string) (ret : Z) : prog X unit :=
  at_END (X := bool * Z)
    (conn <- msql_conn (mysql_user cf) (mysql_pwd cf) (mysql_db cf) ;;
     if negb conn then LOG "msql_conn err" [] ;;; Goto (false, 0%Z) else
     mysql_query "set names utf8" ;;;
     sql_cmd <- sql SelUserCountDq [AStr user] ;;
     let* (ret2, tmp) := process_result_one sql_cmd (Some (512%Z, EmptyString)) in
     if negb (ret2 =? 0)%Z then LOG "%s 操作失败" [AStr sql_cmd] ;;; Goto (true, 0%Z) else
     Ret (true, atol tmp))
    (fun e =>
       (if fst e then mysql_close else Ret tt) ;;;
       LOG "line = %ld" [AInt (snd e)] ;;;
       return_login_status (snd e) ret).

(** The values of [start] and [count] are those of the variables before the
    call unless the request has them. *)
Definition get_fileslist_json_info {X} (buf : string) (b : bufs) (start count : Z)
    : prog X (Z * bufs * Z * Z) :=
  at_END
    (root <- json_parse buf ;;
     match root with
     | None => LOG "cJSON_Parse err" [] ;;; Goto ((-1)%Z, b, start, count)
     | Some root =>
         user <- json_field 128 root "user" ((-1)%Z, b, start, count) ;;
         let b := mkBufs (b_cmd b) user (b_token b) in
         token <- json_field 128 root "token" ((-1)%Z, b, start, count) ;;
         let b := mkBufs (b_cmd b) user token in
         start <- json_int root "start" ((-1)%Z, b, start, count) ;;
         count <- json_int root "count" ((-1)%Z, b, start, count) ;;
         Ret (0%Z, b, start, count)
     end)
    Ret.

(** The object of one row of the join. *)
Definition file_item (r : row) : option cJSON :=
  match r with
  | r0 :: r1 :: r2 :: r3 :: r4 :: r5 :: r6 :: r7 :: r8 :: _ =>
      Some (add_str "type" r8 (add_num "size" atol r7 (add_str "url" r6
             (add_num "pv" atol r5 (add_num "share_status" atoi r4 (add_str "filename" r3
               (add_str "time" r2 (add_str "md5" r1 (add_str "user" r0 cJSON_CreateObject)))))))))
  | _ => None
  end.

Definition list_sql {X} (cmd user : string) (start count : Z) : prog X string :=
  if streq cmd "normal" then sql SelFiles [AStr user; AInt start; AInt count]
  else if streq cmd "pvasc" then sql SelFilesAsc [AStr user; AInt start; AInt count]
  else if streq cmd "pvdesc" then sql SelFilesDesc [AStr user; AInt start; AInt count]
  else Ret EmptyString.

Definition get_user_filelist {X} (cf : conf) (cmd user : string) (start count : Z) : prog X Z :=
  let fail conn := (mkEnd (-1) false conn, EmptyString) in
  at_END (X := end_state * string)
    (conn <- msql_conn (mysql_user cf) (mysql_pwd cf) (mysql_db cf) ;;
     if negb conn then LOG "msql_conn err" [] ;;; Goto (fail false) else
     mysql_query "set names utf8" ;;;
     sql_cmd <- list_sql cmd user start count ;;
     LOG "%s 在操作" [AStr sql_cmd] ;;;
     r <- mysql_query sql_cmd ;;
     if negb (r =? 0)%Z then
       err <- call MysqlError ;;
       LOG "%s 操作失败：%s" [AStr sql_cmd; AStr err] ;;; Goto (fail true)
     else
     res_set <- call MysqlStoreResult ;;
     match res_set with
     | None =>
         err <- call MysqlError ;;
         LOG "smysql_store_result error: %s!" [AStr err] ;;; Goto (fail true)
     | Some [] =>
         err <- call MysqlError ;;
         LOG "mysql_num_rows(res_set) failed: %s" [AStr err] ;;; Goto (fail true)
     | Some rows =>
         items <- items_of file_item rows ;;
         let out := files_text items in
         LOG "%s" [AStr out] ;;;
         Ret (mkEnd 0 false true, out)
     end)
    (fun e => list_END (fst e) (snd e)).

(** One iteration of the loop of [main]: the new buffers. *)
Definition handle {X} (cf : conf) (b : bufs) (rq : request) : prog X bufs :=
  cmd <- query_value 20 (rq_query rq) "cmd" (b_cmd b) ;;
  let b := mkBufs cmd (b_user b) (b_token b) in
  LOG "cmd = %s" [AStr cmd] ;;;
  content_type ;;;
  let len := content_len rq in
  if (len <=? 0)%Z then
    printf ("No data from standard input.<p>" +:+ nl) [] ;;;
    LOG "len = 0, No data from standard input" [] ;;; Ret b
  else
    buf <- read_body 4096 len rq ;;
    match buf with
    | None => LOG "fread(buf, 1, len, stdin) err" [] ;;; Ret b
    | Some buf =>
        LOG "buf = %s" [AStr buf] ;;;
        if streq cmd "count" then
          let* (_, b) := get_count_json_info buf b in
          ret <- verify_token (b_user b) (b_token b) ;;
          get_user_files_count cf (b_user b) ret ;;;
          Ret b
        else
          start <- call Uninit ;;
          count <- call Uninit ;;
          let* (_, b, start, count) := get_fileslist_json_info buf b start count in
          LOG "user = %s, token = %s, start = %d, count = %d"
            [AStr (b_user b); AStr (b_token b); AInt start; AInt count] ;;;
          ret <- verify_token (b_user b) (b_token b) ;;
          (if (ret =? 0)%Z then get_user_filelist cf cmd (b_user b) start count ;;; Ret tt
           else print_status "111") ;;;
          Ret b
    end.

Fixpoint serve {X} (cf : conf) (b : bufs) (rqs : list request) : prog X bufs :=
  match rqs with
  | [] => Ret b
  | rq :: rqs => b <- handle cf b rq ;; serve cf b rqs
  end.

Definition main {X} (b : bufs) (rqs : list request) : prog X bufs :=
  cf <- read_config ;; serve cf b rqs.

Section MyFiles.
Context {coll : Collation}.

(** ** The list of files *)

(** The files of a user: the user's rows with the rows of their checksums. *)
Definition files_of (u : string) (t : tables) : list (ufl_row * file_row) :=
  List.flat_map (fun f =>
    List.map (fun l => (l, f))
      (List.filter (fun l => ceq (l_user l) u && ceq (f_md5 f) (l_md5 l)) (user_file_list t)))
    (file_info t).

Definition file_pv (p : ufl_row * file_row) : Z := l_pv (fst p).
Definition file_columns (p : ufl_row * file_row) : row := ufl_cols (fst p) ++ file_cols (snd p).

Lemma join_files u t :
  join_ufl u t = List.map (fun p => (file_pv p, file_columns p)) (files_of u t).
Proof.
  unfold join_ufl, files_of. rewrite !flat_map_concat_map, concat_map, List.map_map. f_equal.
  apply map_ext. intros f. by rewrite List.map_map.
Qed.

(** The object shown for a file. *)
Definition file_json (p : ufl_row * file_row) : cJSON :=
  let '(l, f) := p in
  Demo.obj [("user", Demo.str (l_user l)); ("md5", Demo.str (l_md5 l)); ("time", Demo.str (l_createtime l));
       ("filename", Demo.str (l_filename l)); ("share_status", cJSON_CreateNumber (f64_of_Z (l_shared_status l)));
       ("pv", cJSON_CreateNumber (f64_of_Z (l_pv l))); ("url", Demo.str (f_url f));
       ("size", cJSON_CreateNumber (f64_of_Z (f_size f))); ("type", Demo.str (f_type f))].

Lemma file_item_json u t p :
  tables_wf 0 t -> sizes_ok t -> In p (files_of u t) ->
  file_item (file_columns p) = Some (file_json p).
Proof.
  intros Hwf Hs Hin. destruct p as [l f]. unfold files_of in Hin.
  apply in_flat_map in Hin as (f' & Hf & Hin). apply in_map_iff in Hin as (l' & [= -> ->] & Hl).
  apply filter_In in Hl as [Hl _]. destruct Hwf as (_ & _ & _ & _ & Hwf & _).
  destruct (Hwf l Hl) as [H1 H2]. unfold file_columns, ufl_cols, file_cols, num.
  cbn [fst snd app file_item add_str add_num]. rewrite atoi_small by done. unfold atol.
  rewrite !strtol_dec_string; [done|by apply Hs|].
  unfold small, INT_MIN, INT_MAX, LONG_MIN, LONG_MAX in *. lia.
Qed.

Definition order_of (cmd : string) : option pv_order :=
  if streq cmd "normal" then Some Unordered
  else if streq cmd "pvasc" then Some Ascending
  else if streq cmd "pvdesc" then Some Descending else None.

(** What is shown: a page of the user's files in the order of the command. *)
Definition shows (cmd u : string) (start count : Z) (t : tables) (text : string) : Prop :=
  exists ord ps, order_of cmd = Some ord /\ ps <> []
    /\ page ord file_pv start count (files_of u t) ps /\ text = files_text (List.map file_json ps).

Definition list_post (cmd u : string) (start count : Z) : obs -> Z -> obs -> Prop :=
  listed (shows cmd u start count).
Definition list_crash (cmd u : string) (start count : Z) : obs -> obs -> Prop :=
  overlong (shows cmd u start count).

(** The statement is one of the three SELECTs, or empty. *)
Lemma wp_list_sql {X} cmd u start count (Q : string -> obs -> Prop) (G : X -> obs -> Prop) o :
  plain u = true -> (slen u < 128)%Z -> is_int start -> is_int count ->
  (order_of cmd = None -> Q EmptyString o) ->
  (forall s k ord, order_of cmd = Some ord -> parse_sql s = Some (k, [AStr u; AInt start; AInt count]) ->
     (slen s < SQL_MAX_LEN)%Z ->
     (forall t t' rs, stmt_spec k [AStr u; AInt start; AInt count] t t' rs ->
        t' = t /\ selects_limit rs ord start count (join_ufl u t)) -> Q s o) ->
  wp (list_sql cmd u start count) Q G o.
Proof.
  intros Hu Hl Hs Hc H0 HQ. unfold list_sql, order_of in *.
  assert (is_long start) by auto with hf_core. assert (is_long count) by auto with hf_core.
  destruct (streq cmd "normal"); [|destruct (streq cmd "pvasc"); [|destruct (streq cmd "pvdesc")]].
  4:{ wp_binds. auto. }
  all: wp_sql s Hs' Hl'; eapply HQ; [done|exact Hs'|exact Hl'|]; intros t t' rs Ht; exact Ht.
Qed.

Lemma wpc_get_user_filelist {X} cf cmd u start count (G : X -> obs -> Prop) o :
  plain u = true -> (slen u < 128)%Z -> is_int start -> is_int count ->
  tables_wf 0 (o_tables o) -> sizes_ok (o_tables o) ->
  wpc (get_user_filelist cf cmd u start count) (list_post cmd u start count o) G
      (list_crash cmd u start count o) o.
Proof.
  intros Hu Hl Hs Hc Hwf Hsz. unfold get_user_filelist. apply wpc_at_END.
  set (F := fun e : end_state * string => list_END (X := X) (fst e) (snd e)).
  set (C := list_crash cmd u start count o).
  assert (forall b rs, wpc (F (mkEnd (-1) false b, EmptyString)) (list_post cmd u start count o) G C
            (if b then with_tables (o_tables o) rs (add_my 1 o) else o)) as HF.
  { intros b rs. apply list_failed. }
  apply wpc_bind, wp_wpc, wp_msql_conn. intros [|]; cbn [negb];
    [|apply wp_wpc; wp_log; apply (HF false None)].
  apply wpc_bind, wp_wpc, wp_set_names. intros _. apply wpc_bind, wp_wpc, wp_list_sql; try done.
  - intros _. apply wpc_bind, wp_wpc. wp_log.
    apply wpc_bind, wp_wpc, wp_call. intros r o1 Hev. cbn [ev_spec] in Hev.
    change (parse_sql EmptyString) with (@None (sql_kind * list arg)) in Hev.
    change (streq EmptyString EmptyString) with true in Hev. cbv iota in Hev.
    destruct Hev as [Hr ->]. destruct (Z.eqb_spec r 0); [done|]. cbn [negb].
    apply wp_wpc. wp_binds. apply wp_call. intros err o2 [-> Herr]. wp_log. apply (HF true None).
  - intros s k ord Hord Hp Hsl Hspec. unfold SQL_MAX_LEN in Hsl. apply wpc_bind, wp_wpc. wp_log.
    apply wpc_bind, wp_wpc. eapply wp_query; [exact Hp| |].
    { intros r Hr. destruct (Z.eqb_spec r 0); [done|]. cbn [negb].
      apply wp_wpc. wp_binds. apply wp_call. intros err o2 [-> Herr]. wp_log. apply (HF true None). }
    intros t rs Ht. apply Hspec in Ht as [-> Hsel]. zeq. obs_cbn. rewrite join_files in Hsel.
    apply selects_limit_page in Hsel as (ps & Hpage & ->).
    apply wpc_bind, wp_wpc, wp_call. intros res o1 [-> Hres]. obs_cbn.
    destruct Hres as [->| ->].
    2:{ apply wp_wpc. wp_binds. apply wp_call. intros err o2 [-> Herr]. wp_log. apply (HF true None). }
    destruct ps as [|p ps]; cbn [List.map].
    { apply wp_wpc. wp_binds. apply wp_call. intros err o2 [-> Herr]. wp_log. apply (HF true None). }
    change (file_columns p :: List.map file_columns ps) with (List.map file_columns (p :: ps)).
    apply (wpc_show_rows (shows cmd u start count) file_item file_columns file_json); [|by exists ord, (p :: ps)].
    intros q Hq. eapply file_item_json; [exact Hwf|exact Hsz|by eapply page_in].
Qed.

(** C10: the list of a user's files.  With result 0 the response is the JSON text of
    a page of the user's files: the rows [start], ..., [start + count - 1] of the
    user's rows joined with the rows of their checksums, in the order of the
    command (any order, by downloads ascending or descending), every file with
    its name, checksum, time, address, size, type, shared flag and downloads; and
    the page is not empty.  Otherwise the response is status 015.  Nothing is
    changed and the connection is closed.  The only crash is the overflow of the
    log buffer by a page of 4095 bytes or more. *)
Theorem filelist_spec (cf : conf) (cmd user : string) (start count : Z) (o : obs) :
  plain user = true -> (slen user < 128)%Z -> is_int start -> is_int count ->
  tables_wf 0 (o_tables o) -> sizes_ok (o_tables o) ->
  wpc (get_user_filelist (X := Empty_set) cf cmd user start count)
      (list_post cmd user start count o) (fun _ _ => False)
      (list_crash cmd user start count o) o.
Proof. apply wpc_get_user_filelist. Qed.

(** ** The number of files *)

Definition count_text (num token_flag : Z) : string :=
  default EmptyString (cJSON_Print (count_object num token_flag)).

Definition no_percent (s : string) : bool := sforall (fun c => negb (Ascii.eqb c "%")) s.

Lemma parse_fmt_plain n s :
  (String.length s < n)%nat -> no_percent s = true ->
  exists ps, parse_fmt n s = Some ps /\ render ps [] = Some s.
Proof.
  revert s. induction n as [|n IH]; intros s Hn Hp; [lia|].
  destruct s as [|c s]; [by exists []|]. unfold no_percent in Hp. cbn [sforall] in Hp.
  apply andb_prop in Hp as [Hc Hp]. simpl in Hn.
  destruct (IH s) as (ps & Hps & Hr); [lia|done|]. exists (PLit c :: ps).
  cbn [parse_fmt]. rewrite Hc, Hps. split; [done|]. cbn [render]. by rewrite Hr.
Qed.

Lemma format_no_percent s : no_percent s = true -> format s [] = Some s.
Proof.
  intros H. unfold format, pieces_of.
  destruct (parse_fmt_plain (S (String.length s)) s) as (ps & -> & ->); [lia|done|done].
Qed.

Lemma dec_string_digits z :
  sforall (fun c => negb (needs_escape c) && negb (Ascii.eqb c "%")) (dec_string z) = true.
Proof.
  assert (forall n, sforall (fun c => negb (needs_escape c) && negb (Ascii.eqb c "%"))
                      (dec_digits (dec_fuel n) n EmptyString) = true) as H.
  { intros n. eapply sforall_impl; [|by apply (dec_digits_isdigit _ _ EmptyString)].
    intros c. destruct c as [[] [] [] [] [] [] [] []]; vm_compute; done. }
  unfold dec_string. destruct (z <? 0)%Z; [|apply H]. cbn [sforall]. by rewrite H.
Qed.

Lemma count_text_printed num flag :
  cJSON_Print (count_object num flag) = Some (count_text num flag)
  /\ no_percent (count_text num flag) = true.
Proof.
  assert (print_string_ptr (dec_string num) = quoted (dec_string num)) as Hq.
  { unfold print_string_ptr. rewrite (sforall_impl _ _ _ ltac:(intros c [H _]%andb_prop; exact H)
      (dec_string_digits num)). done. }
  assert (no_percent (dec_string num) = true) as Hn.
  { eapply sforall_impl; [|apply (dec_string_digits num)]. by intros c [_ H]%andb_prop. }
  unfold count_text, cJSON_Print, count_object. destruct (flag =? 0)%Z;
    cbn -[print_string_ptr dec_string no_percent]; rewrite Hq; (split; [reflexivity|]);
    unfold quoted, no_percent in *; repeat (cbn [sforall]; rewrite sforall_app);
    cbn [sforall]; rewrite Hn; vm_compute; reflexivity.
Qed.

Definition count_post (user : string) (flag : Z) : obs -> obs -> Prop :=
  counted user (fun line => count_text line flag).

Lemma wp_get_user_files_count {X} cf user flag (Q : unit -> obs -> Prop) (G : X -> obs -> Prop) o :
  plain user = true -> (slen user < 128)%Z -> tables_wf 0 (o_tables o) ->
  (forall o', count_post user flag o o' -> Q tt o') ->
  wp (get_user_files_count cf user flag) Q G o.
Proof.
  intros Hu Hl Hwf HQ. unfold get_user_files_count.
  apply (wp_count_line cf user (fun line => count_text line flag)
           (fun line => return_login_status line flag)); [done..| |exact HQ].
  intros line Q' G' o1 _ HQ'. destruct (count_text_printed line flag) as [Hp Hn].
  unfold return_login_status. rewrite Hp. apply wp_printf_const; [by apply format_no_percent|exact HQ'].
Qed.

(** ** Requests *)

(** A request for a list: the command fits its buffer, the body fits [buf] and
    the log message, and has all the fields. *)
Definition list_request (b : bufs) (rq : request) (cmd : string) (b' : bufs) (start count : Z) : Prop :=
  (exists q, rq_query rq = Some q /\ query_parse_key_value q "cmd" = Ok cmd)
  /\ (slen cmd < 20)%Z /\ streq cmd "count" = false
  /\ (0 < Z.min (content_len rq) (slen (rq_body rq)) < 4080)%Z
  /\ (forall s0 c0, get_fileslist_json_info (X := Empty_set) (body_text rq)
        (mkBufs cmd (b_user b) (b_token b)) s0 c0 = Ret (0%Z, b', start, count))
  /\ plain (b_user b') = true /\ (slen (b_user b') < 128)%Z /\ (slen (b_token b') < 128)%Z
  /\ is_int start /\ is_int count.

(** The list of files is shown to its user only: a request for a list reaches
    [get_user_filelist], with the user of the request, only when Redis holds
    exactly the token of the request for that user; otherwise the response is the
    header and status 111.  The tables are never changed. *)
Theorem filelist_authorised (cf : conf) (b b' : bufs) (rq : request) (cmd : string)
    (start count : Z) (o : obs) :
  conf_ok o -> tables_wf 0 (o_tables o) -> sizes_ok (o_tables o) -> tokens_fit (o_redis o) ->
  list_request b rq cmd b' start count ->
  let o1 := with_out (o_out o +:+ HEADER) o in
  wpc (handle (X := Empty_set) cf b rq)
      (fun b'' o' => b'' = b' /\ o_tables o' = o_tables o /\
         ((o_redis o !! b_user b' = Some (VStr (b_token b'))
           /\ exists ret, list_post cmd (b_user b') start count o1 ret o')
          \/ (kept o o' /\ o_out o' = o_out o +:+ HEADER +:+ status_text "111")))
      (fun _ _ => False) (list_crash cmd (b_user b') start count o1) o.
Proof.
  intros Hc Hwf Hsz Htok ((q & Hq & Hcmd) & Hclen & Hnc & Hlen & Hjson & Hu & Hul & Htl & Hs & Hn) o1.
  unfold handle. apply wpc_bind, wp_wpc. unfold query_value. rewrite Hq, Hcmd. apply wp_strcpy; [done|].
  apply wpc_bind, wp_wpc. wp_log. apply wpc_bind, wp_wpc, wp_printf_const; [reflexivity|].
  destruct (Z.leb_spec (content_len rq) 0); [lia|]. unfold read_body.
  destruct (Z.eqb_spec (Z.min (content_len rq) (slen (rq_body rq))) 0); [lia|].
  destruct (Z.leb_spec 4096 (Z.min (content_len rq) (slen (rq_body rq)))); [lia|]. cbn [bind].
  fold (body_text rq). pose proof (body_text_len rq) as Hbl. apply wpc_bind, wp_wpc.
  apply (wp_log_fits _ _ 10); [vm_compute; reflexivity|solve_args|solve_len|].
  rewrite Hnc. apply wpc_bind, wp_wpc, wp_call. intros s0 o2 [-> _].
  apply wpc_bind, wp_wpc, wp_call. intros c0 o2 [-> _].
  cbn [b_user b_token]. rewrite Hjson. cbn [bind].
  assert (is_long start) by auto with hf_core. assert (is_long count) by auto with hf_core.
  apply wpc_bind, wp_wpc. wp_log. apply wpc_bind, wp_wpc.
  apply wp_verify_token; [exact Hc|exact Htok|].
  intros ret o' [(-> & -> & Hu')|(-> & Ho')]; zeq; apply wpc_bind.
  - apply wpc_bind. eapply wpc_mono;
      [by apply (wpc_get_user_filelist _ _ _ _ _ (fun _ _ => False))| |done|done].
    intros ret o' Hpost. cbn [wpc]. split; [done|]. split; [apply Hpost|]. left.
    split; [done|]. by exists ret.
  - apply wp_wpc, wp_print_status; [vm_compute; reflexivity|]. cbn [wpc].
    split; [done|]. destruct Ho' as [->| ->]; (split; [done|]); right; obs_cbn;
      (split; [done|]); symmetry; apply string_app_assoc.
Qed.
End MyFiles.

#[local] Existing Instance binary_collation.

Lemma two_sizes : sizes_ok two_users.
Proof. intros r [<-|[<-|[]]]; done. Qed.

Lemma filelist_spec_witness :
  returned (X := Empty_set) (get_user_filelist demo_cf "pvdesc" "bob" 0 10) two_obs = Some 0%Z
  /\ wpc (get_user_filelist (X := Empty_set) demo_cf "pvdesc" "bob" 0 10)
       (list_post "pvdesc" "bob" 0 10 two_obs) (fun _ _ => False)
       (list_crash "pvdesc" "bob" 0 10 two_obs) two_obs.
Proof.
  split; [vm_compute; reflexivity|].
  apply (filelist_spec demo_cf "pvdesc" "bob" 0 10 two_obs); try reflexivity.
  - done.
  - done.
  - apply wf_b_spec. vm_compute. reflexivity.
  - apply two_sizes.
Defined.

(** A request of myfiles_cgi. *)
Definition list_rq (cmd user token : string) : request :=
  let body := json_text [("user", str user); ("token", str token);
    ("start", cJSON_CreateNumber (f64_of_Z 0)); ("count", cJSON_CreateNumber (f64_of_Z 10))] in
  mkRequest (Some ("cmd=" +:+ cmd)) (Some (dec_string (slen body))) body.
Definition no_bufs : bufs := mkBufs EmptyString EmptyString EmptyString.

Lemma filelist_authorised_witness :
  returned (X := Empty_set) (handle demo_cf no_bufs (list_rq "normal" "bob" "tb")) two_obs
    = Some (mkBufs "normal" "bob" "tb")
  /\ wpc (handle (X := Empty_set) demo_cf no_bufs (list_rq "normal" "bob" "tb"))
      (fun b'' o' => b'' = mkBufs "normal" "bob" "tb" /\ o_tables o' = two_users /\
         ((o_redis two_obs !! "bob" = Some (VStr "tb")
           /\ exists ret, list_post "normal" "bob" 0 10 (with_out (o_out two_obs +:+ HEADER) two_obs) ret o')
          \/ (kept two_obs o' /\ o_out o' = o_out two_obs +:+ HEADER +:+ status_text "111")))
      (fun _ _ => False)
      (list_crash "normal" "bob" 0 10 (with_out (o_out two_obs +:+ HEADER) two_obs)) two_obs.
Proof.
  split; [vm_compute; reflexivity|].
  apply (filelist_authorised demo_cf no_bufs (mkBufs "normal" "bob" "tb")
           (list_rq "normal" "bob" "tb") "normal" 0 10 two_obs).
  - apply (demo_conf_ok two_users two_tokens).
  - apply wf_b_spec. vm_compute. reflexivity.
  - apply two_sizes.
  - intros u v. unfold two_obs, two_tokens. cbn [o_redis with_dfs demo_obs].
    rewrite lookup_insert_Some, lookup_singleton_Some.
    by intros [[_ [= <-]]|[_ [_ [= <-]]]].
  - split; [eexists; split; vm_compute; reflexivity|]. split; [reflexivity|]. split; [reflexivity|].
    split; [vm_compute; done|]. split; [intros s0 c0; vm_compute; reflexivity|]. done.
Defined.

(** ** Defects *)

(** The number of files is told to everybody: with a wrong token Eve gets the
    number of Bob's files next to the status 111. *)
Theorem count_without_token :
  run_ends (X := Empty_set) (handle demo_cf no_bufs (list_rq "count" "bob" "wrong")) two_obs
    (fun _ o' => o_out o' = HEADER +:+ count_text 1 (-1)).
Proof. vm_compute. reflexivity. Qed.

(** Bob with [n] files of usual lengths. *)
Definition many_files (n : nat) : tables :=
  let md5 i := "0cc175b9c0f1b6a831c399e2697726" +:+ dec_string (Z.of_nat (10 + i)) in
  mkTables []
    (List.map (fun i => mkFile (md5 i) ("group1/M00/00/00/wKgfbViy2Z2AJ-FTAaM3As-g3Z" +:+ dec_string (Z.of_nat i))
       ("http://192.168.31.109:80/group1/M00/00/00/wKgfbViy2Z2AJ-FTAaM3As-g3Z" +:+ dec_string (Z.of_nat i))
       27473666 "mp4" 1) (seq 0 n))
    (List.map (fun i => mkUfl "bob" (md5 i) NOW ("holiday-" +:+ dec_string (Z.of_nat i) +:+ ".mp4") 0 0) (seq 0 n))
    [] [mkCnt "bob" (Z.of_nat n)].

(** The text of a list is logged through a buffer of 4096 bytes: ten files of
    usual lengths are shown, sixteen overflow the buffer. *)
Theorem long_list_crashes :
  returned (X := Empty_set) (get_user_filelist demo_cf "normal" "bob" 0 10)
    (demo_obs (many_files 10) two_tokens) = Some 0%Z
  /\ crashes (X := Empty_set) (get_user_filelist demo_cf "normal" "bob" 0 20)
       (demo_obs (many_files 16) two_tokens) = true.
Proof. vm_compute. auto. Qed.
