(* ===== verification/ClientView.v ===== *)
(** * What a client reads from a listing

    The listing of myfiles_cgi passes through three components: the rows are put
    into a tree (src/src/cgi/myfiles_cgi.c), [cJSON_Print] writes the tree, and
    the client parses the text with a JSON parser, here [cJSON_Parse] with
    [cJSON_GetObjectItem] (src/src/common/cJSON.c).  The client gets the rows of
    the page back, column by column. *)

From S2P Require Import Prelude CLib Tables Sql CProg Float64 CJson CJsonRound Sim Demo Handler Listing Samples MyFiles.
From Stdlib Require Import Floats.SpecFloat.

Section ClientView.
Context {coll : Collation}.

(** The columns a client sees. *)
Record entry := mkEntry {
  v_user : string; v_md5 : string; v_time : string; v_filename : string;
  v_share_status : Z; v_pv : Z; v_url : string; v_size : Z; v_type : string }.

Definition entry_of (p : ufl_row * file_row) : entry :=
  let '(l, f) := p in
  mkEntry (l_user l) (l_md5 l) (l_createtime l) (l_filename l) (l_shared_status l) (l_pv l)
    (f_url f) (f_size f) (f_type f).

Definition text_at (c : cJSON) (name : string) : option string :=
  match cJSON_GetObjectItem c name with Some i => j_valuestring i | None => None end.
Definition int_at (c : cJSON) (name : string) : option Z := option_map j_valueint (cJSON_GetObjectItem c name).
(** A size may exceed an [int]. *)
Definition size_at (c : cJSON) (name : string) : option Z :=
  match cJSON_GetObjectItem c name with Some i => f64_trunc (j_valuedouble i) | None => None end.

(** [cJSON_GetObjectItem (item, ...)->valuestring], [->valueint] and
    [->valuedouble]. *)
Definition read_entry (c : cJSON) : option entry :=
  match text_at c "user", text_at c "md5", text_at c "time", text_at c "filename",
        int_at c "share_status", int_at c "pv", text_at c "url", size_at c "size", text_at c "type" with
  | Some u, Some m, Some t, Some n, Some s, Some p, Some a, Some z, Some k => Some (mkEntry u m t n s p a z k)
  | _, _, _, _, _, _, _, _, _ => None
  end.

(** Parse the text, take the member "files", read its elements. *)
Definition read_listing (text : string) : option (list entry) :=
  match cJSON_Parse text with
  | POk root _ =>
      match cJSON_GetObjectItem root "files" with
      | Some files => mapM read_entry (j_child files)
      | None => None
      end
  | _ => None
  end.

(** Text columns are C strings, flags and counters fit an [int], sizes 53 bits. *)
Definition readable (p : ufl_row * file_row) : Prop :=
  let e := entry_of p in
  Forall (fun s => no_nul s = true) [v_user e; v_md5 e; v_time e; v_filename e; v_url e; v_type e]
  /\ is_int (v_share_status e) /\ is_int (v_pv e) /\ fits53 (v_size e).

Lemma file_json_text p : readable p -> text_tree (file_json p) /\ j_string (file_json p) = None.
Proof.
  destruct p as [l f]. intros (Hs & H1 & H2 & H3). cbn in Hs, H1, H2, H3.
  rewrite !Forall_cons_iff in Hs. destruct Hs as (? & ? & ? & ? & ? & ? & _). split; [|done].
  assert (forall z, is_int z -> fits53 z) as Hi by (unfold is_int, INT_MIN, INT_MAX, fits53; lia).
  unfold file_json, Demo.obj, Demo.str, cJSON_CreateNumber. cbn -[f64_of_Z int_of_f64].
  apply text_object; repeat apply Forall_cons; try apply Forall_nil; try done;
    try (constructor; by auto); eexists; split; done.
Qed.

Lemma read_file_json p : readable p -> read_entry (file_json p) = Some (entry_of p).
Proof.
  destruct p as [l f]. intros (_ & H1 & H2 & H3). cbn in H1, H2, H3.
  unfold file_json, Demo.obj, Demo.str, cJSON_CreateNumber. rewrite !(int_of_f64_of_Z (l_shared_status l)), !(int_of_f64_of_Z (l_pv l)) by done.
  match goal with |- ?e = _ => change e with
    (match f64_trunc (f64_of_Z (f_size f)) with
     | Some z => Some (mkEntry (l_user l) (l_md5 l) (l_createtime l) (l_filename l) (l_shared_status l) (l_pv l)
                         (f_url f) z (f_type f))
     | None => None
     end) end.
  by rewrite f64_trunc_of_Z.
Qed.

Lemma add_items items a :
  fold_left cJSON_AddItemToArray items a = set_child (j_child a ++ items) a.
Proof.
  revert a. induction items as [|c items IH]; intros [ty vs vi vd nm ch]; cbn [fold_left];
    [by rewrite app_nil_r|]. rewrite IH. unfold cJSON_AddItemToArray, set_child. cbn. by rewrite <- app_assoc.
Qed.

Lemma files_object_eq items :
  files_object items = Item cJSON_Object None 0 (S754_zero false) None
    [Item cJSON_Array None 0 (S754_zero false) (Some "files") items].
Proof. unfold files_object. rewrite add_items. reflexivity. Qed.

Lemma files_object_text ps :
  Forall readable ps -> text_tree (files_object (List.map file_json ps)).
Proof.
  intros Hps. rewrite files_object_eq. apply text_object; (apply Forall_cons; [|apply Forall_nil]); [|by exists "files"].
  apply text_array; apply Forall_map; eapply Forall_impl; try exact Hps; intros p Hp; by apply file_json_text.
Qed.

Lemma read_entries ps :
  Forall readable ps -> mapM read_entry (List.map file_json ps) = Some (List.map entry_of ps).
Proof.
  induction 1 as [|p ps Hp Hps IH]; [done|]. cbn [List.map]. simpl. by rewrite read_file_json, IH.
Qed.

(** Trees of text values have a print-out. *)
Lemma entries_print d f ch :
  Forall (fun c => exists s, print_value c (S d) f = Some s) ch -> exists s, print_entries d f ch = Some s.
Proof.
  induction 1 as [|c ch [sc Hc] Hch [r Hr]]; [by eexists|]. cbn [print_entries]. rewrite Hc, Hr. by eexists.
Qed.

Lemma members_print d f ch :
  Forall (fun c => exists s, print_value c (S d) f = Some s) ch ->
  Forall (fun c => exists n, j_string c = Some n /\ no_nul n = true) ch -> exists s, print_members d f ch = Some s.
Proof.
  induction 1 as [|c ch [sc Hc] Hch IH]; intros Hn; [by eexists|]. inversion Hn as [|? ? (n & Hnm & _) Hn']; subst.
  destruct (IH Hn') as [r Hr]. cbn [print_members]. rewrite Hnm, Hc, Hr. by eexists.
Qed.

Lemma text_tree_prints c d f : text_tree c -> exists s, print_value c d f = Some s.
Proof.
  revert d f. induction c as [ty vs vi vd nm ch IH] using cJSON_tree_ind. intros d f Ht.
  assert (Forall text_tree ch -> Forall (fun c => exists s, print_value c (S d) f = Some s) ch) as Hch.
  { intros Hall. rewrite Forall_forall in *. auto. }
  inversion Ht as [| | |? ? Hs|? ? Hz|? ? Hall Hn|? ? Hall Hn]; subst; try by eexists.
  - cbn [print_value j_type]. rewrite print_whole by done. by eexists.
  - rewrite print_array_eq. destruct (entries_print d f ch (Hch Hall)) as [s ->]. by eexists.
  - destruct ch as [|c ch]; [by eexists|]. rewrite print_object_eq.
    destruct (members_print d f (c :: ch) (Hch Hall) Hn) as [s ->]. by eexists.
Qed.

Lemma listing_reads ps : Forall readable ps -> read_listing (files_text (List.map file_json ps)) = Some (List.map entry_of ps).
Proof.
  intros Hps. pose proof (files_object_text ps Hps) as Ht.
  destruct (text_tree_prints _ 0%nat true Ht) as [s Hs]. unfold read_listing, files_text, cJSON_Print. rewrite Hs.
  pose proof (text_tree_reparses _ Ht) as Hr.
  assert (cJSON_Parse s = POk (files_object (List.map file_json ps)) EmptyString) as ->.
  { rewrite <- (string_app_nil_r s) at 1. by apply (parse_printed _ true). }
  rewrite files_object_eq. change (cJSON_GetObjectItem _ "files") with
    (Some (Item cJSON_Array None 0 (S754_zero false) (Some "files") (List.map file_json ps))).
  by apply read_entries.
Qed.

(** C11: end to end, what myfiles_cgi prints for a user is, to a client that
    parses it, a page of that user's files: user, checksum, time, name, shared
    flag, downloads, address, size and type of every row come back as they are in
    the tables, in the order of the command (names and addresses may need escape
    sequences; sizes may have
    53 bits). *)
Theorem filelist_read_back (cf : conf) (cmd user : string) (start count : Z) (o : obs) :
  plain user = true -> (slen user < 128)%Z -> is_int start -> is_int count ->
  tables_wf 0 (o_tables o) -> sizes_ok (o_tables o) ->
  Forall readable (files_of user (o_tables o)) ->
  wpc (get_user_filelist (X := Empty_set) cf cmd user start count)
      (fun ret o' => ret = 0%Z ->
         exists text ord ps, o_out o' = o_out o +:+ text /\ order_of cmd = Some ord
           /\ page ord file_pv start count (files_of user (o_tables o)) ps /\ ps <> []
           /\ read_listing text = Some (List.map entry_of ps))
      (fun _ _ => False) (list_crash cmd user start count o) o.
Proof.
  intros Hu Hl Hs Hc Hwf Hsz Hr. eapply wpc_mono;
    [by apply (wpc_get_user_filelist cf cmd user start count (fun _ _ => False))| |by intros ? ? []|by auto].
  intros ret o' (_ & _ & _ & [(_ & text & (ord & ps & Hord & Hne & Hpage & ->) & _ & Hout)|[-> _]]) Hret; [|done].
  exists (files_text (List.map file_json ps)), ord, ps. do 4 (split; [done|]).
  apply listing_reads. rewrite Forall_forall in *. intros p Hp. apply Hr. by eapply page_in.
Qed.
End ClientView.

#[local] Existing Instance binary_collation.

Lemma two_readable user : Forall readable (files_of user two_users).
Proof.
  apply Forall_forall. intros p Hp. unfold files_of in Hp. apply in_flat_map in Hp as (f & Hf & Hp).
  apply in_map_iff in Hp as (l & <- & [Hl _]%filter_In).
  destruct Hf as [<-|[<-|[]]], Hl as [<-|[<-|[]]]; (split; [repeat constructor|done]).
Qed.

Lemma filelist_read_back_witness :
  wpc (get_user_filelist (X := Empty_set) demo_cf "pvdesc" "bob" 0 10)
      (fun ret o' => ret = 0%Z ->
         exists text ord ps, o_out o' = o_out two_obs +:+ text /\ order_of "pvdesc" = Some ord
           /\ page ord file_pv 0 10 (files_of "bob" two_users) ps /\ ps <> []
           /\ read_listing text = Some (List.map entry_of ps))
      (fun _ _ => False) (list_crash "pvdesc" "bob" 0 10 two_obs) two_obs
  /\ returned (X := Empty_set) (get_user_filelist demo_cf "pvdesc" "bob" 0 10) two_obs = Some 0%Z.
Proof.
  split; [|vm_compute; reflexivity].
  apply (filelist_read_back demo_cf "pvdesc" "bob" 0 10 two_obs); try reflexivity; try done.
  - apply wf_b_spec. vm_compute. reflexivity.
  - apply two_sizes.
  - apply two_readable.
Defined.
