(* ===== verification/ShareFiles.v ===== *)
(** * sharefiles_cgi: shared files and their ranking (src/src/cgi/sharefiles_cgi.c) *)

From S2P Require Import Prelude CLib UtilCgi Sql Tables CProg Mysql Redis Float64 CJson Config Sim Demo.
From S2P Require Import Auth Handler Samples Listing.
From Stdlib Require Import Permutation Sorted.

Definition read_config {X} : prog X conf :=
  let* (_, mysql_user) := get_config_value CONFIG_PATH "mysql" "user" 128 EmptyString in
  let* (_, mysql_pwd) := get_config_value CONFIG_PATH "mysql" "password" 128 EmptyString in
  let* (_, mysql_db) := get_config_value CONFIG_PATH "mysql" "database" 128 EmptyString in
  LOG0 "mysql:[user=%s,pwd=%s,database=%s]" [AStr mysql_user; AStr mysql_pwd; AStr mysql_db] ;;;
  let* (_, redis_ip) := get_config_value CONFIG_PATH "redis" "ip" 30 EmptyString in
  let* (_, redis_port) := get_config_value CONFIG_PATH "redis" "port" 10 EmptyString in
  LOG "redis:[ip=%s,port=%s]" [AStr redis_ip; AStr redis_port] ;;;
  Ret (mkConf mysql_user mysql_pwd mysql_db redis_ip redis_port).

Definition get_share_files_count {X} (cf : conf) : prog X unit :=
  at_END (X := bool * Z)
    (conn <- msql_conn (mysql_user cf) (mysql_pwd cf) (mysql_db cf) ;;
     if negb conn then LOG "msql_conn err" [] ;;; Goto (false, 0%Z) else
     mysql_query "set names utf8" ;;;
     sql_cmd <- sql SelUserCountDq [AStr SHARE_USER] ;;
     let* (ret2, tmp) := process_result_one sql_cmd (Some (512%Z, EmptyString)) in
     if negb (ret2 =? 0)%Z then LOG "%s 操作失败" [AStr sql_cmd] ;;; Goto (true, 0%Z) else
     Ret (true, atol tmp))
    (fun e =>
       (if fst e then mysql_close else Ret tt) ;;;
       LOG "line = %ld" [AInt (snd e)] ;;;
       printf "%ld" [AInt (snd e)]).

Definition get_fileslist_json_info {X} (buf : string) (start count : Z) : prog X (Z * Z * Z) :=
  at_END
    (root <- json_parse buf ;;
     match root with
     | None => LOG "cJSON_Parse err" [] ;;; Goto ((-1)%Z, start, count)
     | Some root =>
         start <- json_int root "start" ((-1)%Z, start, count) ;;
         count <- json_int root "count" ((-1)%Z, start, count) ;;
         Ret (0%Z, start, count)
     end)
    Ret.

(** The object of one row of the join. *)
Definition share_item (r : row) : option cJSON :=
  match r with
  | r0 :: r1 :: r2 :: r3 :: r4 :: r5 :: r6 :: r7 :: _ =>
      Some (add_str "type" r7 (add_num "size" atol r6 (add_str "url" r5 (add_num "pv" atol r4
             (cJSON_AddNumberToObject
               (add_str "filename" r3 (add_str "time" r2 (add_str "md5" r1
                 (add_str "user" r0 cJSON_CreateObject)))) "share_status" 1)))))
  | _ => None
  end.

Definition get_share_filelist {X} (cf : conf) (start count : Z) : prog X Z :=
  let fail conn := (mkEnd (-1) false conn, EmptyString) in
  at_END (X := end_state * string)
    (conn <- msql_conn (mysql_user cf) (mysql_pwd cf) (mysql_db cf) ;;
     if negb conn then LOG "msql_conn err" [] ;;; Goto (fail false) else
     mysql_query "set names utf8" ;;;
     sql_cmd <- sql SelShareFiles [AInt start; AInt count] ;;
     LOG "%s 在操作" [AStr sql_cmd] ;;;
     r <- mysql_query sql_cmd ;;
     if negb (r =? 0)%Z then
       err <- call MysqlError ;;
       LOG "%s 操作失败: %s" [AStr sql_cmd; AStr err] ;;; Goto (fail true)
     else
     res_set <- call MysqlStoreResult ;;
     match res_set with
     | None => LOG "smysql_store_result error!" [] ;;; Goto (fail true)
     | Some [] => LOG "mysql_num_rows(res_set) failed" [] ;;; Goto (fail true)
     | Some rows =>
         items <- items_of share_item rows ;;
         let out := files_text items in
         LOG "%s" [AStr out] ;;;
         Ret (mkEnd 0 false true, out)
     end)
    (fun e => list_END (fst e) (snd e)).

(** ** The ranking *)

(** What the code at END needs: the handles, [ret], the text. *)
Definition rank_fail (ret : Z) (redis conn : bool) : end_state * string :=
  (mkEnd ret redis conn, EmptyString).

(** Importing the rows of share_file_list into Redis. *)
Fixpoint import_rows (rows : list row) : prog (end_state * string) unit :=
  match rows with
  | [] => Ret tt
  | r :: rows =>
      match r with
      | Some md5 :: Some filename :: Some pv :: _ =>
          fileid <- sprintf 1024 "%s%s" [AStr md5; AStr filename] ;;
          rop_zset_add FILE_PUBLIC_ZSET (atoi pv) fileid ;;;
          rop_hash_set FILE_NAME_HASH fileid filename ;;;
          import_rows rows
      | _ :: _ :: _ :: _ =>
          LOG "mysql_fetch_row(res_set)) failed" [] ;;; Goto (rank_fail (-1) true true)
      | _ => Crash
      end
  end.

(** Redis is emptied and filled again from MySQL. *)
Definition resync : prog (end_state * string) unit :=
  rop_del_key FILE_PUBLIC_ZSET ;;;
  rop_del_key FILE_NAME_HASH ;;;
  sql_cmd <- strcpy SQL_MAX_LEN (sql_template SelRanking) ;;
  LOG "%s 在操作" [AStr sql_cmd] ;;;
  r <- mysql_query sql_cmd ;;
  if negb (r =? 0)%Z then
    err <- call MysqlError ;;
    LOG "%s 操作失败: %s" [AStr sql_cmd; AStr err] ;;; Goto (rank_fail (-1) true true)
  else
  res_set <- call MysqlStoreResult ;;
  match res_set with
  | None => LOG "smysql_store_result error!" [] ;;; Goto (rank_fail (-1) true true)
  | Some [] => LOG "mysql_num_rows(res_set) failed" [] ;;; Goto (rank_fail (-1) true true)
  | Some rows => import_rows rows
  end.

(** The objects of the members read from the set. *)
Fixpoint rank_items (members : list string) : prog (end_state * string) (list cJSON) :=
  match members with
  | [] => Ret []
  | m :: members =>
      let* (ret, filename) := rop_hash_get FILE_NAME_HASH m 1024 in
      if negb (ret =? 0)%Z then
        LOG "rop_hash_get 操作失败" [] ;;; Goto (rank_fail (-1) true true)
      else
      let item := cJSON_AddStringToObject cJSON_CreateObject "filename" filename in
      score <- rop_zset_get_score FILE_PUBLIC_ZSET m ;;
      if (score =? -1)%Z then
        LOG "rop_zset_get_score 操作失败" [] ;;; Goto (rank_fail (-1) true true)
      else
      let item := cJSON_AddNumberToObject item "pv" score in
      items <- rank_items members ;;
      Ret (item :: items)
  end.

(** Reading the members from [start] on and printing them. *)
Definition read_ranking (start count : Z) : prog (end_state * string) (end_state * string) :=
  value <- call (Malloc ((count mod 18446744073709551616) * VALUES_ID_SIZE)) ;;
  if negb value then Goto (rank_fail (-1) true true) else
  let end_ := int32 (int32 (start + count) - 1) in
  let* (ret, members) := rop_zset_zrevrange FILE_PUBLIC_ZSET start end_ count in
  if negb (ret =? 0)%Z then
    LOG "rop_zset_zrevrange 操作失败" [] ;;; Goto (rank_fail ret true true)
  else
  items <- rank_items members ;;
  let out := files_text items in
  LOG "%s" [AStr out] ;;;
  Ret (mkEnd 0 true true, out).

Definition get_ranking_filelist {X} (cf : conf) (start count : Z) : prog X Z :=
  at_END (X := end_state * string)
    (redis_conn <- rop_connectdb_nopwd (redis_ip cf) (redis_port cf) ;;
     if negb redis_conn then LOG0 "redis connected error" [] ;;; Goto (rank_fail (-1) false false) else
     conn <- msql_conn (mysql_user cf) (mysql_pwd cf) (mysql_db cf) ;;
     if negb conn then LOG "msql_conn err" [] ;;; Goto (rank_fail (-1) true false) else
     mysql_query "set names utf8" ;;;
     sql_cmd <- sql SelUserCountDq [AStr SHARE_USER] ;;
     let* (ret2, tmp) := process_result_one sql_cmd (Some (512%Z, EmptyString)) in
     if negb (ret2 =? 0)%Z then
       LOG "%s 操作失败" [AStr sql_cmd] ;;; Goto (rank_fail (-1) true true)
     else
     let sql_num := atoi tmp in
     redis_num <- rop_zset_zcard FILE_PUBLIC_ZSET ;;
     if (redis_num =? -1)%Z then
       LOG "rop_zset_zcard 操作失败" [] ;;; Goto (rank_fail (-1) true true)
     else
     LOG "sql_num = %d, redis_num = %d" [AInt sql_num; AInt redis_num] ;;;
     (if negb (redis_num =? sql_num)%Z then resync else Ret tt) ;;;
     read_ranking start count)
    (fun e => list_END (fst e) (snd e)).

(** One iteration of the loop of [main]: the content of [cmd]. *)
Definition handle {X} (cf : conf) (cmd0 : string) (rq : request) : prog X string :=
  cmd <- query_value 20 (rq_query rq) "cmd" cmd0 ;;
  LOG "cmd = %s" [AStr cmd] ;;;
  content_type ;;;
  if streq cmd "count" then get_share_files_count cf ;;; Ret cmd
  else
    let len := content_len rq in
    if (len <=? 0)%Z then
      printf ("No data from standard input.<p>" +:+ nl) [] ;;;
      LOG "len = 0, No data from standard input" [] ;;; Ret cmd
    else
      buf <- read_body 4096 len rq ;;
      match buf with
      | None => LOG "fread(buf, 1, len, stdin) err" [] ;;; Ret cmd
      | Some buf =>
          LOG "buf = %s" [AStr buf] ;;;
          start <- call Uninit ;;
          count <- call Uninit ;;
          let* (_, start, count) := get_fileslist_json_info buf start count in
          LOG "start = %d, count = %d" [AInt start; AInt count] ;;;
          (if streq cmd "normal" then get_share_filelist cf start count ;;; Ret tt
           else if streq cmd "pvdesc" then get_ranking_filelist cf start count ;;; Ret tt
           else Ret tt) ;;;
          Ret cmd
      end.

Fixpoint serve {X} (cf : conf) (cmd : string) (rqs : list request) : prog X string :=
  match rqs with
  | [] => Ret cmd
  | rq :: rqs => cmd <- handle cf cmd rq ;; serve cf cmd rqs
  end.

Definition main {X} (cmd : string) (rqs : list request) : prog X string :=
  cf <- read_config ;; serve cf cmd rqs.

Section ShareFiles.
Context {coll : Collation}.

(** ** The list of shared files *)

(** The shared files with the rows of their checksums. *)
Definition shares_of (t : tables) : list (share_row * file_row) :=
  List.flat_map (fun f =>
    List.map (fun l => (l, f)) (List.filter (fun l => ceq (f_md5 f) (s_md5 l)) (share_file_list t)))
    (file_info t).

Definition share_pv (p : share_row * file_row) : Z := s_pv (fst p).
Definition share_columns (p : share_row * file_row) : row := share_cols (fst p) ++ file_cols (snd p).

Lemma join_shares t :
  join_share t = List.map (fun p => (share_pv p, share_columns p)) (shares_of t).
Proof.
  unfold join_share, shares_of. rewrite !flat_map_concat_map, concat_map, List.map_map. f_equal.
  apply map_ext. intros f. by rewrite List.map_map.
Qed.

(** The object shown for a shared file. *)
Definition share_json (p : share_row * file_row) : cJSON :=
  let '(l, f) := p in
  Demo.obj [("user", Demo.str (s_user l)); ("md5", Demo.str (s_md5 l)); ("time", Demo.str (s_createtime l));
       ("filename", Demo.str (s_filename l)); ("share_status", cJSON_CreateNumber (f64_of_Z 1));
       ("pv", cJSON_CreateNumber (f64_of_Z (s_pv l))); ("url", Demo.str (f_url f));
       ("size", cJSON_CreateNumber (f64_of_Z (f_size f))); ("type", Demo.str (f_type f))].

Lemma share_item_json t p :
  tables_wf 0 t -> sizes_ok t -> In p (shares_of t) ->
  share_item (share_columns p) = Some (share_json p).
Proof.
  intros Hwf Hs Hin. destruct p as [l f]. unfold shares_of in Hin.
  apply in_flat_map in Hin as (f' & Hf & Hin). apply in_map_iff in Hin as (l' & [= -> ->] & Hl).
  apply filter_In in Hl as [Hl _]. destruct Hwf as (_ & _ & _ & _ & _ & Hwf).
  specialize (Hwf l Hl). unfold share_columns, share_cols, file_cols, num.
  cbn [fst snd app share_item add_str add_num]. unfold atol.
  rewrite !strtol_dec_string; [done|by apply Hs|].
  unfold small, INT_MIN, INT_MAX, LONG_MIN, LONG_MAX in *. lia.
Qed.

(** What is shown: a page of the shared files. *)
Definition shows_shares (start count : Z) (t : tables) (text : string) : Prop :=
  exists ps, ps <> [] /\ page Unordered share_pv start count (shares_of t) ps
    /\ text = files_text (List.map share_json ps).

Lemma wpc_get_share_filelist {X} cf start count (G : X -> obs -> Prop) o :
  is_int start -> is_int count -> tables_wf 0 (o_tables o) -> sizes_ok (o_tables o) ->
  wpc (get_share_filelist cf start count) (listed (shows_shares start count) o) G
      (overlong (shows_shares start count) o) o.
Proof.
  intros Hs Hc Hwf Hsz. unfold get_share_filelist. apply wpc_at_END.
  set (F := fun e : end_state * string => list_END (X := X) (fst e) (snd e)).
  set (C := overlong (shows_shares start count) o).
  assert (forall b rs, wpc (F (mkEnd (-1) false b, EmptyString)) (listed (shows_shares start count) o) G C
            (if b then with_tables (o_tables o) rs (add_my 1 o) else o)) as HF.
  { intros b rs. apply list_failed. }
  assert (is_long start) by auto with hf_core. assert (is_long count) by auto with hf_core.
  apply wpc_bind, wp_wpc, wp_msql_conn. intros [|]; cbn [negb];
    [|apply wp_wpc; wp_log; apply (HF false None)].
  apply wpc_bind, wp_wpc, wp_set_names. intros _. apply wpc_bind, wp_wpc. wp_sql s Hp Hsl.
  unfold SQL_MAX_LEN in Hsl. apply wpc_bind, wp_wpc. wp_log.
  apply wpc_bind, wp_wpc. eapply wp_query; [exact Hp| |].
  { intros r Hr. destruct (Z.eqb_spec r 0); [done|]. cbn [negb].
    apply wp_wpc. wp_binds. apply wp_call. intros err o2 [-> Herr]. wp_log. apply (HF true None). }
  intros t rs [-> Hsel]. zeq. obs_cbn. rewrite join_shares in Hsel.
  apply selects_limit_page in Hsel as (ps & Hpage & ->).
  apply wpc_bind, wp_wpc, wp_call. intros res o1 [-> Hres]. obs_cbn.
  destruct Hres as [->| ->]; [|apply wp_wpc; wp_log; apply (HF true None)].
  destruct ps as [|p ps]; cbn [List.map]; [apply wp_wpc; wp_log; apply (HF true None)|].
  change (share_columns p :: List.map share_columns ps) with (List.map share_columns (p :: ps)).
  apply (wpc_show_rows (shows_shares start count) share_item share_columns share_json); [|by exists (p :: ps)].
  intros q Hq. eapply share_item_json; [exact Hwf|exact Hsz|by eapply page_in].
Qed.

(** ** The ranking in Redis *)

(** The member of the sorted set and the field of the hash of a shared file. *)
Definition share_id (r : share_row) : string := s_md5 r +:+ s_filename r.

Definition ranks (l : list share_row) : gmap string Z :=
  list_to_map (List.map (fun r => (share_id r, s_pv r)) l).
Definition names (l : list share_row) : gmap string string :=
  list_to_map (List.map (fun r => (share_id r, s_filename r)) l).

(** [r'] is [r] with the scores [z] and the names [h]. *)
Definition caches (z : gmap string Z) (h : gmap string string) (r r' : gmap string rval) : Prop :=
  zset_of r' FILE_PUBLIC_ZSET = Some z /\ hash_of r' FILE_NAME_HASH = Some h
  /\ forall k, k <> FILE_PUBLIC_ZSET -> k <> FILE_NAME_HASH -> r' !! k = r !! k.

(** ... the scores and the names of the shared files. *)
Definition mirrors (t : tables) : gmap string rval -> gmap string rval -> Prop :=
  caches (ranks (share_file_list t)) (names (share_file_list t)).

(** The two columns identify a shared file and fit the buffers. *)
Definition shares_fit (t : tables) : Prop :=
  NoDup (List.map share_id (share_file_list t))
  /\ forall r, In r (share_file_list t) ->
       (slen (share_id r) < 1024)%Z /\ no_nul (share_id r) = true.

Definition rank_fits (r : gmap string rval) : Prop :=
  (forall z m s, zset_of r FILE_PUBLIC_ZSET = Some z -> z !! m = Some s ->
     (slen m < 1024)%Z /\ no_nul m = true /\ is_int s)
  /\ (forall h f v, hash_of r FILE_NAME_HASH = Some h -> h !! f = Some v ->
     (slen v < 1024)%Z /\ no_nul v = true).

Lemma caches_add z h r r' id pv name :
  caches z h r r' ->
  caches (<[id := pv]> z) (<[id := name]> h) r
    (<[FILE_NAME_HASH := VHash (<[id := name]> h)]> (<[FILE_PUBLIC_ZSET := VZset (<[id := pv]> z)]> r')).
Proof.
  intros (_ & _ & Hk). split; [|split].
  - unfold zset_of. rewrite lookup_insert_ne by done. by rewrite lookup_insert_eq.
  - unfold hash_of. by rewrite lookup_insert_eq.
  - intros k H1 H2. rewrite !lookup_insert_ne by done. auto.
Qed.

Lemma caches_empty r :
  caches ∅ ∅ r (delete FILE_NAME_HASH (delete FILE_PUBLIC_ZSET r)).
Proof.
  split; [|split].
  - unfold zset_of. rewrite lookup_delete_ne by done. by rewrite lookup_delete_eq.
  - unfold hash_of. by rewrite lookup_delete_eq.
  - intros k H1 H2. by rewrite !lookup_delete_ne by done.
Qed.

(** Inserting rows with different keys one after the other, in any order. *)
Lemma inserts_all {A V} (key : A -> string) (val : A -> V) (l l' : list A) :
  NoDup (List.map key l) -> Permutation l' l ->
  fold_left (fun m r => <[key r := val r]> m) l' (∅ : gmap string V)
  = list_to_map (List.map (fun r => (key r, val r)) l).
Proof.
  intros Hnd Hp.
  assert (forall k, fold_left (fun m r => <[key r := val r]> m) k (∅ : gmap string V)
            = list_to_map (List.map (fun r => (key r, val r)) (rev k))) as ->.
  { intros k. rewrite <- fold_left_rev_right. induction (rev k) as [|r k' IH]; [done|].
    cbn [List.map list_to_map fold_right]. by rewrite IH. }
  apply list_to_map_proper.
  - change (NoDup (List.map fst (List.map (fun r => (key r, val r)) (rev l')))).
    rewrite List.map_map. cbn [fst].
    assert (Permutation (List.map key (rev l')) (List.map key l)) as ->; [|exact Hnd].
    apply Permutation_map. by rewrite <- Permutation_rev.
  - apply Permutation_map. by rewrite <- Permutation_rev.
Qed.

(** The row of the ranking statement. *)
Definition rank_cols (r : share_row) : row := [Some (s_md5 r); Some (s_filename r); num (s_pv r)].

Lemma slen_share_id r :
  (slen (share_id r) = slen (s_md5 r) + slen (s_filename r))%Z.
Proof. apply slen_app. Qed.

Lemma wp_import_rows l r0 z h (Q : unit -> obs -> Prop) G o :
  (forall r, In r l -> (slen (share_id r) < 1024)%Z /\ small 0 (s_pv r)) ->
  caches z h r0 (o_redis o) ->
  (forall r', caches (fold_left (fun m r => <[share_id r := s_pv r]> m) l z)
                     (fold_left (fun m r => <[share_id r := s_filename r]> m) l h) r0 r' ->
     Q tt (with_redis r' o)) ->
  wp (import_rows (List.map rank_cols l)) Q G o.
Proof.
  revert z h o. induction l as [|r l IH]; intros z h o Hl Hc HQ.
  - apply wp_ret. rewrite <- (with_redis_id o). by apply HQ.
  - destruct (Hl r (or_introl eq_refl)) as [Hlen Hpv]. rewrite slen_share_id in Hlen.
    pose proof (slen_nonneg (s_md5 r)). pose proof (slen_nonneg (s_filename r)).
    cbn [List.map rank_cols num import_rows]. apply wp_bind.
    apply (wp_sprintf _ _ _ (share_id r)); [apply format_ss|by rewrite slen_share_id|].
    rewrite atoi_small by done. apply wp_bind. apply wp_zset_add.
    { rewrite slen_share_id, slen_FILE_PUBLIC_ZSET. lia. }
    { unfold small, is_long, INT_MIN, INT_MAX, LONG_MIN, LONG_MAX in *. lia. }
    { destruct Hc as (-> & _). done. }
    intros z' Hz'. assert (z' = z) as -> by (destruct Hc as (Hz & _); congruence).
    apply wp_bind. apply wp_hash_set.
    { rewrite slen_share_id, slen_FILE_NAME_HASH. lia. }
    { cbn [with_redis o_redis]. unfold hash_of. rewrite lookup_insert_ne by done.
      destruct Hc as (_ & Hh & _). unfold hash_of in Hh. by rewrite Hh. }
    intros h' Hh'. assert (h' = h) as ->.
    { cbn [with_redis o_redis] in Hh'. unfold hash_of in Hh'. rewrite lookup_insert_ne in Hh' by done.
      destruct Hc as (_ & Hh & _). unfold hash_of in Hh. congruence. }
    apply (IH (<[share_id r := s_pv r]> z) (<[share_id r := s_filename r]> h)).
    + intros x Hx. apply Hl. by right.
    + by apply caches_add.
    + intros r' Hr'. apply HQ. exact Hr'.
Qed.

Lemma parse_ranking : parse_sql (sql_template SelRanking) = Some (SelRanking, []).
Proof. vm_compute. reflexivity. Qed.

Lemma slen_ranking : (slen (sql_template SelRanking) < SQL_MAX_LEN)%Z.
Proof. reflexivity. Qed.

(** Emptied and not filled again: the statement failed or there is no row. *)
Definition emptied (r : gmap string rval) : gmap string rval :=
  delete FILE_NAME_HASH (delete FILE_PUBLIC_ZSET r).

(** All or nothing: Redis mirrors the shared files, or the jump is taken with
    both keys deleted. *)
Lemma wp_resync (Q : unit -> obs -> Prop) G o :
  shares_fit (o_tables o) -> tables_wf 0 (o_tables o) ->
  (forall rs, G (rank_fail (-1) true true)
     (with_tables (o_tables o) rs (with_redis (emptied (o_redis o)) o))) ->
  (forall rs r', share_file_list (o_tables o) <> [] -> mirrors (o_tables o) (o_redis o) r' ->
     Q tt (with_tables (o_tables o) rs (with_redis r' o))) ->
  wp resync Q G o.
Proof.
  intros [Hnd Hfit] (_ & _ & _ & _ & _ & Hpv) HG HQ. unfold resync.
  pose proof parse_ranking as Hs. pose proof slen_ranking as Hl.
  generalize dependent (sql_template SelRanking). intros s Hs Hl.
  wp_binds. apply wp_del_key. intros _. wp_binds. apply wp_del_key. intros _. wp_binds.
  apply wp_strcpy; [exact Hl|]. unfold SQL_MAX_LEN in Hl. wp_log.
  eapply wp_query; [exact Hs| |].
  { intros r Hr. destruct (Z.eqb_spec r 0); [done|]. cbn [negb]. wp_binds. apply wp_call.
    intros err o1 [-> Herr]. wp_log. apply (HG None). }
  intros t rs (-> & l' & -> & _ & Hp). zeq. obs_cbn. wp_binds. apply wp_call.
  intros res o1 [-> Hres]. obs_cbn. destruct Hres as [->| ->]; [|wp_log; apply (HG None)].
  apply Permutation_map_inv in Hp as (l & -> & Hp). rewrite List.map_map. cbn [snd].
  destruct l as [|x l]; cbn [List.map]; [wp_log; apply (HG None)|].
  set (l1 := x :: l) in *. change (wp (import_rows (List.map rank_cols l1)) Q G
    (with_tables (o_tables o) None (with_redis (emptied (o_redis o)) o))).
  eapply wp_import_rows; [|apply caches_empty|].
  - intros r Hr. assert (In r (share_file_list (o_tables o))) as Hin.
    { eapply Permutation_in; [apply Permutation_sym, Hp|exact Hr]. }
    split; [by apply Hfit|by apply Hpv].
  - intros r' Hr'. apply (HQ None r').
    + intros E. rewrite E in Hp. by apply Permutation_nil in Hp.
    + unfold mirrors, ranks, names. erewrite <- !inserts_all; [exact Hr'|exact Hnd| |exact Hnd|];
        by apply Permutation_sym.
Qed.

(** The object of a place of the ranking. *)
Definition rank_json (name : string) (pv : Z) : cJSON :=
  Demo.obj [("filename", Demo.str name); ("pv", cJSON_CreateNumber (f64_of_Z pv))].
Definition rank_entry (h : gmap string string) (p : string * Z) : cJSON :=
  rank_json (default EmptyString (h !! fst p)) (snd p).

(** The names kept in Redis. *)
Definition stored_names (r : gmap string rval) : gmap string string :=
  default ∅ (hash_of r FILE_NAME_HASH).

Lemma wp_rank_items z ps (Q : list cJSON -> obs -> Prop) G o :
  let h := stored_names (o_redis o) in
  zset_of (o_redis o) FILE_PUBLIC_ZSET = Some z -> rank_fits (o_redis o) -> (forall m s, In (m, s) ps -> z !! m = Some s) ->
  G (rank_fail (-1) true true) o ->
  (Forall (fun p => is_Some (h !! fst p)) ps -> Q (List.map (rank_entry h) ps) o) ->
  wp (rank_items (List.map fst ps)) Q G o.
Proof.
  intros h Hz Hfit. revert Q. induction ps as [|[m s] ps IH]; intros Q Hin HG HQ; [by apply HQ|].
  assert (z !! m = Some s) as Hm by (apply Hin; by left).
  destruct Hfit as [Hzf Hhf]. destruct (Hzf z m s Hz Hm) as (Hlen & _ & Hint).
  cbn [List.map fst rank_items]. apply wp_bind. apply wp_hash_get_small.
  - rewrite slen_FILE_NAME_HASH. lia.
  - done.
  - intros h' v. apply Hhf.
  - zeq. wp_log. exact HG.
  - intros h' v Hh' Hv. assert (h' = h) as -> by (unfold h, stored_names; by rewrite Hh'). zeq. apply wp_bind.
    apply wp_zset_get_score; [rewrite slen_FILE_PUBLIC_ZSET; lia|zeq; wp_log; exact HG|].
    intros z' s' Hz' Hs'. assert (z' = z) as -> by congruence. assert (s' = s) as -> by congruence.
    split; [exact Hint|]. destruct (Z.eqb_spec s (-1)); [wp_log; exact HG|].
    apply wp_bind, IH; [intros m' s'' H; apply Hin; by right|exact HG|].
    intros Hall. apply wp_ret. specialize (HQ ltac:(constructor; [by exists v|exact Hall])).
    cbn [List.map] in HQ. unfold rank_entry in HQ at 1. cbn [fst snd] in HQ.
    rewrite Hv in HQ. exact HQ.
Qed.

(** What is shown: a page of the members by descending score, with their names. *)
Definition shows_ranking (start count : Z) (r : gmap string rval) (text : string) : Prop :=
  exists z l, zset_of r FILE_PUBLIC_ZSET = Some z
    /\ Permutation l (map_to_list z) /\ StronglySorted rank_ge l
    /\ (0 <= count)%Z
    /\ let ps := firstn (Z.to_nat count) (skipn (Z.to_nat start) l) in
       Forall (fun p => is_Some (stored_names r !! fst p)) ps
       /\ text = files_text (List.map (rank_entry (stored_names r)) ps).

Lemma mirrors_fits t r r' : shares_fit t -> tables_wf 0 t -> mirrors t r r' -> rank_fits r'.
Proof.
  intros [Hnd Hfit] (_ & _ & _ & _ & _ & Hpv) (Hz & Hh & _). split.
  - intros z m s Hz' Hm. assert (z = ranks (share_file_list t)) as -> by congruence.
    apply elem_of_list_to_map_2, list_elem_of_In, in_map_iff in Hm as (x & [= <- <-] & Hx).
    destruct (Hfit x Hx) as [? ?]. specialize (Hpv x Hx). split; [done|]. split; [done|].
    unfold small, is_int in *. lia.
  - intros h f v Hh' Hf. assert (h = names (share_file_list t)) as -> by congruence.
    apply elem_of_list_to_map_2, list_elem_of_In, in_map_iff in Hf as (x & [= <- <-] & Hx).
    destruct (Hfit x Hx) as [Hl Hn]. rewrite slen_share_id in Hl.
    pose proof (slen_nonneg (s_md5 x)). split; [lia|].
    unfold share_id, no_nul in Hn. rewrite sforall_app in Hn. by apply andb_prop in Hn as [_ ?].
Qed.

(** Where Redis may be after a request: as before, emptied, or the mirror. *)
Definition refreshed (t : tables) (r r' : gmap string rval) : Prop :=
  r' = r \/ r' = emptied r \/ mirrors t r r'.

(** What a ranking is read from: Redis as it was, when it has as many members as
    the counter says, or the mirror of the shared files. *)
Definition current (t : tables) (r r' : gmap string rval) : Prop :=
  (r' = r /\ exists c z, In c (user_file_count t) /\ is_cnt SHARE_USER c = true
     /\ zset_of r FILE_PUBLIC_ZSET = Some z /\ int32 (Z.of_nat (size z)) = c_count c)
  \/ (share_file_list t <> [] /\ mirrors t r r').

Definition ranking_post (start count : Z) (o : obs) (ret : Z) (o' : obs) : Prop :=
  kept o o' /\ o_tables o' = o_tables o /\ refreshed (o_tables o) (o_redis o) (o_redis o') /\
  ((ret = 0%Z /\ current (o_tables o) (o_redis o) (o_redis o')
    /\ exists text, shows_ranking start count (o_redis o') text
         /\ (slen text < 4095)%Z /\ o_out o' = o_out o +:+ text)
   \/ (ret = (-1)%Z /\ o_out o' = o_out o +:+ status_text "015")).

Definition ranking_crash (start count : Z) (o o' : obs) : Prop :=
  o_tables o' = o_tables o /\ current (o_tables o) (o_redis o) (o_redis o')
  /\ exists text, shows_ranking start count (o_redis o') text /\ (4095 <= slen text)%Z.

(** Both connections open, with [r'] in Redis. *)
Definition opened (r' : gmap string rval) (rs : option (list row)) (o : obs) : obs :=
  with_tables (o_tables o) rs (with_redis r' (add_my 1 (add_rd 1 o))).

Lemma current_refreshed t r r' : current t r r' -> refreshed t r r'.
Proof. intros [[-> _]|[_ H]]; [by left|by right; right]. Qed.

Lemma ranking_failed {X} start count (G : X -> obs -> Prop) C o r' rs :
  refreshed (o_tables o) (o_redis o) r' ->
  wpc (list_END (X := X) (mkEnd (-1) true true) EmptyString) (ranking_post start count o) G C
      (opened r' rs o).
Proof.
  intros Hr. unfold opened. apply wp_wpc, wp_list_END. cbn [e_ret e_redis e_conn]. zeq.
  split; [kept_tac|]. obs_cbn. split; [done|]. split; [done|]. by right.
Qed.

(** A negative count does not get its memory. *)
Lemma malloc_count count :
  is_int count -> (0 <= (count mod 18446744073709551616) * VALUES_ID_SIZE <= LONG_MAX)%Z -> (0 <= count)%Z.
Proof.
  unfold is_int, INT_MIN, INT_MAX, VALUES_ID_SIZE, LONG_MAX. intros Hc Hm.
  destruct (Z.ltb_spec count 0) as [Hn|]; [|done].
  rewrite <- (Z.mod_add count 1) in Hm by lia. rewrite Z.mod_small in Hm by lia. lia.
Qed.

Lemma wpc_read_ranking {X} start count (G : X -> obs -> Prop) o r' rs :
  (0 <= start)%Z -> is_int count -> (start + count <= INT_MAX)%Z -> rank_fits r' ->
  current (o_tables o) (o_redis o) r' ->
  let post := fun e : end_state * string =>
    wpc (list_END (X := X) (fst e) (snd e)) (ranking_post start count o) G (ranking_crash start count o) in
  wpc (read_ranking start count) post post (ranking_crash start count o) (opened r' rs o).
Proof.
  intros Hs Hci Hmax Hfit Hcur post.
  assert (post (rank_fail (-1) true true) (opened r' rs o)) as HF
    by (apply ranking_failed, current_refreshed, Hcur).
  unfold read_ranking. apply wpc_bind, wp_wpc, wp_call. intros [|] o1 [-> Hm]; cbn [negb]; [|exact HF].
  pose proof (malloc_count count Hci (Hm eq_refl)) as Hc.
  rewrite (int32_small (start + count)), int32_small
    by (unfold is_int, INT_MIN, INT_MAX in *; lia).
  apply wpc_bind, wp_wpc, wp_zset_zrevrange; [done|done|done|done|..].
  - intros z m s Hz Hm'. destruct Hfit as [Hfit _]. destruct (Hfit z m s Hz Hm') as (? & ? & _). done.
  - intros _. zeq. apply wp_wpc. wp_log. exact HF.
  - intros z l Hz Hp Hsort. zeq. cbn [opened with_tables with_redis o_redis] in Hz.
    set (ps := firstn (Z.to_nat count) (skipn (Z.to_nat start) l)).
    apply wpc_bind, wp_wpc. eapply wp_rank_items; [exact Hz|exact Hfit| |exact HF|].
    { intros m s Hin%in_window. apply elem_of_map_to_list, list_elem_of_In. by rewrite <- Hp. }
    intros Hall. set (text := files_text (List.map (rank_entry (stored_names r')) ps)).
    assert (shows_ranking start count r' text) as Hsh.
    { exists z, l. split_and!; done. }
    apply wpc_bind, wpc_LOG_text; intros Htext.
    + cbn [wpc]. unfold post. apply wp_wpc, wp_list_END. cbn [e_ret e_redis e_conn fst snd]. zeq.
      unfold opened. split; [kept_tac|]. obs_cbn. split; [done|].
      split; [by apply current_refreshed|]. left. split; [done|]. split; [done|]. by exists text.
    + split; [done|]. split; [done|]. by exists text.
Qed.

Lemma wpc_get_ranking_filelist {X} cf start count (G : X -> obs -> Prop) o :
  conf_fits cf -> (0 <= start)%Z -> is_int count -> (start + count <= INT_MAX)%Z ->
  tables_wf 0 (o_tables o) -> shares_fit (o_tables o) -> rank_fits (o_redis o) ->
  wpc (get_ranking_filelist cf start count) (ranking_post start count o) G
      (ranking_crash start count o) o.
Proof.
  intros Hcf Hs Hc Hmax Hwf Hsf Hrf. unfold get_ranking_filelist. apply wpc_at_END.
  set (post := fun e : end_state * string =>
    wpc (list_END (X := X) (fst e) (snd e)) (ranking_post start count o) G (ranking_crash start count o)).
  assert (forall r' rs, refreshed (o_tables o) (o_redis o) r' ->
            post (rank_fail (-1) true true) (opened r' rs o)) as HF
    by (intros; by apply ranking_failed).
  unfold conf_fits in Hcf. apply wpc_bind, wp_wpc, wp_connectdb_nopwd; [lia|].
  intros [|]; cbn [negb].
  2:{ apply wp_wpc. wp_binds.
      apply wp_LOG0 with (ps := default [] (pieces_of "redis connected error"));
        [vm_compute; reflexivity..|constructor|vm_compute; reflexivity|]. wp_binds.
      apply wp_wpc, wp_list_END. cbn [rank_fail fst e_ret e_redis e_conn]. zeq.
      split; [kept_tac|]. obs_cbn. split; [done|]. split; [by left|]. by right. }
  apply wpc_bind, wp_wpc, wp_msql_conn. intros [|]; cbn [negb].
  2:{ apply wp_wpc. wp_log. apply wp_wpc, wp_list_END. cbn [rank_fail fst e_ret e_redis e_conn]. zeq.
      split; [kept_tac|]. obs_cbn. split; [done|]. split; [by left|]. by right. }
  apply wpc_bind, wp_wpc, wp_set_names. intros _. apply wpc_bind, wp_wpc. wp_sql s Hp Hsl.
  assert (forall rs, with_tables (o_tables o) rs (add_my 1 (add_rd 1 o)) = opened (o_redis o) rs o)
    as Hopen by (intros; unfold opened; obs_eq).
  unfold SQL_MAX_LEN in Hsl. apply wpc_bind, wp_wpc.
  apply (wp_select_num s SelUserCountDq [AStr SHARE_USER] c_count
           (List.filter (is_cnt SHARE_USER) (user_file_count (o_tables o)))); [done|done| |lia|..].
  - intros r Hr. by eapply small_filter_cnt.
  - zeq. apply wp_wpc. wp_log. obs_cbn. rewrite Hopen. apply HF. by left.
  - intros _. zeq. apply wp_wpc. wp_log. obs_cbn. rewrite Hopen. apply HF. by left.
  - intros r Hr. zeq. pose proof (small_filter_cnt _ _ _ Hwf Hr) as Hsm. rewrite atoi_small by done.
    obs_cbn. rewrite Hopen. apply wpc_bind, wp_wpc, wp_zset_zcard; [done|intros _; zeq; apply wp_wpc; wp_log; apply HF; by left|].
    intros z Hz. cbn [opened with_tables with_redis o_redis] in Hz. pose proof (int32_range (Z.of_nat (size z))) as Hi.
    set (n := int32 (Z.of_nat (size z))) in *. destruct (Z.eqb_spec n (-1)).
    { apply wp_wpc. wp_log. apply HF. by left. }
    apply wpc_bind, wp_wpc. unfold small, is_int in Hsm, Hi. wp_log. apply wpc_bind.
    destruct (Z.eqb_spec n (c_count r)) as [E|E]; cbn [negb].
    + cbn [wpc]. apply wpc_read_ranking; [done..|]. left. split; [done|].
      apply filter_In in Hr as [Hin Hp']. by exists r, z.
    + apply wp_wpc, wp_resync; [done|done|..].
      * intros rs. apply (HF _ rs). right. by left.
      * intros rs r' Hne Hr'. apply (wpc_read_ranking start count G o r' rs); [done..| |].
        -- by eapply mirrors_fits.
        -- by right.
Qed.


(** The place of a shared file in the ranking. *)
Definition rank_of (s : share_row) : cJSON := rank_json (s_filename s) (s_pv s).

Lemma sorted_ranks (l : list share_row) :
  StronglySorted rank_ge (List.map (fun r => (share_id r, s_pv r)) l) ->
  ordered_by Descending s_pv l.
Proof.
  intros H%StronglySorted_map. cbn [ordered_by]. clear -H.
  induction H as [|x l _ IH Hx]; constructor; [done|].
  eapply List.Forall_impl; [|exact Hx]. intros y [Hy|[Hy _]]; cbn [fst snd] in Hy; lia.
Qed.


(** ** The number of shared files *)

Lemma format_ld z : is_long z -> format "%ld" [AInt z] = Some (dec_string z).
Proof.
  intros _. unfold format. change (pieces_of "%ld") with (Some [PDec 0]). cbn [render option_map].
  by rewrite pad_dec_0, string_app_nil_r.
Qed.
Lemma wp_get_share_files_count {X} cf (Q : unit -> obs -> Prop) (G : X -> obs -> Prop) o :
  tables_wf 0 (o_tables o) ->
  (forall o', counted SHARE_USER dec_string o o' -> Q tt o') ->
  wp (get_share_files_count cf) Q G o.
Proof.
  intros Hwf HQ. unfold get_share_files_count.
  apply (wp_count_line cf SHARE_USER dec_string (fun line => printf "%ld" [AInt line]));
    [reflexivity|reflexivity|exact Hwf| |exact HQ].
  intros line Q' G' o1 Hlong HQ'. unfold printf. rewrite format_ld by exact Hlong.
  apply wp_call. intros [] o' ->. exact HQ'.
Qed.

(** ** Requests *)

(** The command fits its buffer; unless it is "count", the body fits [buf] and the
    log message and has both fields. *)
Definition share_request (rq : request) (cmd : string) (start count : Z) : Prop :=
  (exists q, rq_query rq = Some q /\ query_parse_key_value q "cmd" = Ok cmd)
  /\ (slen cmd < 20)%Z
  /\ (streq cmd "count" = false ->
        (0 < Z.min (content_len rq) (slen (rq_body rq)) < 4080)%Z
        /\ (forall s0 c0, get_fileslist_json_info (X := Empty_set) (body_text rq) s0 c0
                            = Ret (0%Z, start, count)))
  /\ is_int start /\ (0 <= start)%Z /\ is_int count /\ (start + count <= INT_MAX)%Z.

End ShareFiles.

#[local] Existing Instance binary_collation.

(** Bob and Eve share their files; Eve's is downloaded more often.  Redis knows
    nothing of it. *)
Definition two_shares : tables :=
  set_share_file_list [mkShare "bob" "m1" NOW "a.txt" 3; mkShare "eve" "m2" NOW "b.txt" 7]
    (set_user_file_count [mkCnt "bob" 1; mkCnt "eve" 1; mkCnt SHARE_USER 2] two_users).
Definition shares_obs : obs := demo_obs two_shares two_tokens.

Definition top_two : string := files_text [rank_json "b.txt" 7; rank_json "a.txt" 3].

Lemma two_shares_fit : shares_fit two_shares.
Proof.
  split; [apply (bool_decide_unpack _); vm_compute; exact I|].
  intros r [<-|[<-|[]]]; vm_compute; done.
Qed.

Lemma two_tokens_rank_fit : rank_fits two_tokens.
Proof.
  split.
  - intros z m s Hz. assert (zset_of two_tokens FILE_PUBLIC_ZSET = Some ∅) as E by (vm_compute; reflexivity).
    rewrite E in Hz. injection Hz as <-. by rewrite lookup_empty.
  - intros h f v Hh. assert (hash_of two_tokens FILE_NAME_HASH = Some ∅) as E by (vm_compute; reflexivity).
    rewrite E in Hh. injection Hh as <-. by rewrite lookup_empty.
Qed.

Lemma two_shares_wf : tables_wf 0 two_shares.
Proof. apply wf_b_spec. vm_compute. reflexivity. Qed.


(** Redis holding the two shared files. *)
Definition two_ranked : gmap string rval :=
  <[FILE_NAME_HASH := VHash (names (share_file_list two_shares))]>
    (<[FILE_PUBLIC_ZSET := VZset (ranks (share_file_list two_shares))]> two_tokens).

Lemma two_mirrors : mirrors two_shares two_tokens two_ranked.
Proof.
  split; [vm_compute; reflexivity|]. split; [vm_compute; reflexivity|].
  intros k H1 H2. unfold two_ranked. by rewrite !lookup_insert_ne.
Qed.

Lemma two_shown : shows_ranking 0 10 two_ranked top_two.
Proof.
  exists (ranks (share_file_list two_shares)), [("m2b.txt", 7%Z); ("m1a.txt", 3%Z)].
  split; [vm_compute; reflexivity|]. split.
  { unfold ranks. rewrite map_to_list_to_map; [apply perm_swap|].
    apply (bool_decide_unpack _). vm_compute. exact I. }
  split.
  { repeat constructor. }
  split; [done|]. split; [|vm_compute; reflexivity].
  repeat constructor; vm_compute; eauto.
Qed.


(** A request of sharefiles_cgi. *)
Definition share_rq (cmd : string) (start count : Z) : request :=
  let body := json_text [("start", cJSON_CreateNumber (f64_of_Z start));
                         ("count", cJSON_CreateNumber (f64_of_Z count))] in
  mkRequest (Some ("cmd=" +:+ cmd)) (Some (dec_string (slen body))) body.

