(* ===== verification/Ranking.v ===== *)
(** * The ranking and the shared files together

    sharefiles_cgi copies share_file_list into Redis only when the numbers
    differ; in between, dealfile_cgi and dealsharefile_cgi write every share,
    cancellation and download to both.  Redis is a mirror of the table after
    each of them that completes. *)

From S2P Require Import Prelude CLib UtilCgi Sql Tables CProg Redis CJson Config Sim Demo.
From S2P Require Import Auth Handler Samples Listing.
From S2P Require DealFile DealShareFile ShareFiles.
Import ShareFiles.

(** The operations that write both, as the programs run them. *)
Inductive share_op :=
| Share (user md5 filename : string)
| Cancel (user md5 filename : string)
| Download (md5 filename : string).

Definition op_prog {X} (cf : conf) (op : share_op) : prog X Z :=
  match op with
  | Share u m f => DealFile.share_file cf u m f
  | Cancel u m f => DealShareFile.cancel_share_file cf u m f
  | Download m f => DealShareFile.pv_file cf m f
  end.

(** ** Maps made from rows with different keys *)

Section Keyed.
Context {A V : Type} (key : A -> string) (val : A -> V).
Implicit Types l : list A.

Definition keyed l : gmap string V := list_to_map (List.map (fun r => (key r, val r)) l).

Lemma key_inj l x y :
  NoDup (List.map key l) -> In x l -> In y l -> key x = key y -> x = y.
Proof.
  induction l as [|z l IH]; [done|]. cbn [List.map]. intros [Hz Hnd]%list.NoDup_cons Hx Hy E.
  destruct Hx as [->|Hx], Hy as [->|Hy]; auto; exfalso; apply Hz.
  - rewrite E. by apply list_elem_of_In, in_map.
  - rewrite <- E. by apply list_elem_of_In, in_map.
Qed.

Lemma lookup_keyed l k v :
  NoDup (List.map key l) ->
  keyed l !! k = Some v <-> exists r, In r l /\ key r = k /\ val r = v.
Proof.
  intros Hnd. unfold keyed. split.
  - intros H. apply elem_of_list_to_map_2, list_elem_of_In, in_map_iff in H as (r & [= <- <-] & Hr).
    by exists r.
  - intros (r & Hr & <- & <-). apply elem_of_list_to_map_1.
    + change (NoDup (List.map fst (List.map (fun r => (key r, val r)) l))). by rewrite List.map_map.
    + apply list_elem_of_In, in_map_iff. by exists r.
Qed.

Lemma keyed_app l x : key x ∉ List.map key l -> keyed (l ++ [x]) = <[key x := val x]> (keyed l).
Proof.
  intros Hx. unfold keyed. rewrite List.map_app, list_to_map_app. cbn [List.map list_to_map fold_right fst snd].
  rewrite insert_empty. apply map_eq. intros k. destruct (decide (k = key x)) as [->|Hk].
  - rewrite lookup_insert_eq, lookup_union_r, lookup_singleton_eq; [done|].
    apply not_elem_of_list_to_map_1. intros H. apply Hx.
    change (key x ∈ List.map fst (List.map (fun r => (key r, val r)) l)) in H.
    by rewrite List.map_map in H.
  - by rewrite lookup_insert_ne, lookup_union_l by (done || by rewrite lookup_singleton_ne).
Qed.

Lemma NoDup_delete p l : NoDup (List.map key l) -> NoDup (List.map key (delete_where p l)).
Proof.
  induction l as [|x l IH]; [done|]. cbn [List.map]. intros [Hx Hnd]%list.NoDup_cons.
  unfold delete_where. cbn [List.filter]. destruct (p x); cbn [negb List.map]; [by apply IH|].
  apply list.NoDup_cons. split; [|by apply IH]. intros H. apply Hx.
  apply list_elem_of_In, in_map_iff in H as (y & Hy & [Hin _]%filter_In).
  apply list_elem_of_In, in_map_iff. by exists y.
Qed.

Lemma keyed_delete l k :
  NoDup (List.map key l) -> keyed (delete_where (fun r => streq (key r) k) l) = delete k (keyed l).
Proof.
  intros Hnd. apply map_eq. intros i. apply option_eq. intros v.
  rewrite lookup_delete_Some, !lookup_keyed; [| done |].
  - unfold delete_where. split.
    + intros (r & [Hr Hn]%filter_In & <- & <-). split; [|by exists r].
      intros ->. by rewrite streq_refl in Hn.
    + intros (Hne & r & Hr & <- & <-). exists r. split; [|done]. apply filter_In. split; [done|].
      destruct (streq (key r) k) eqn:E; [|done]. by apply streq_true in E.
  - by apply NoDup_delete.
Qed.

Lemma keyed_update l k g x :
  NoDup (List.map key l) -> (forall r, key (g r) = key r) -> In x l -> key x = k ->
  keyed (update_where (fun r => streq (key r) k) g l) = <[k := val (g x)]> (keyed l).
Proof.
  intros Hnd Hg Hx Hk. apply map_eq. intros i. apply option_eq. intros v.
  assert (List.map key (update_where (fun r => streq (key r) k) g l) = List.map key l) as Hkeys.
  { unfold update_where. rewrite List.map_map. apply List.map_ext. intros r. by destruct (streq _ _). }
  rewrite lookup_insert_Some, !lookup_keyed; [|done|by rewrite Hkeys].
  unfold update_where. split.
  - intros (r & (y & <- & Hy)%in_map_iff & Hi & <-). destruct (streq (key y) k) eqn:E.
    + apply streq_true in E. left. rewrite Hg in Hi. split; [congruence|].
      by rewrite (key_inj l y x) by congruence.
    + right. split; [|by exists y]. intros ->. by rewrite Hi, streq_refl in E.
  - intros [[<- <-]|(Hne & y & Hy & <- & <-)].
    + exists (g x). split; [|by rewrite Hg]. apply in_map_iff. exists x. by rewrite Hk, streq_refl.
    + exists y. split; [|done]. apply in_map_iff. exists y. split; [|done].
      destruct (streq (key y) k) eqn:E; [|done]. by apply streq_true in E.
Qed.
End Keyed.

Section Mirror.
Context {coll : Collation}.

(** The two keys hold exactly the shared files. *)
Definition mirrored (o : obs) : Prop :=
  let l := share_file_list (o_tables o) in
  NoDup (List.map share_id l)
  /\ zset_of (o_redis o) FILE_PUBLIC_ZSET = Some (ranks l)
  /\ hash_of (o_redis o) FILE_NAME_HASH = Some (names l).

(** The WHERE clause on checksum and name selects the row with this key. *)
Definition selected (m f : string) (t : tables) : Prop :=
  forall r, In r (share_file_list t) ->
    is_share m f r = streq (share_id r) (m +:+ f) /\ (share_id r = m +:+ f -> s_filename r = f).

(** A new share has a new key; a share is cancelled by the user who shared it. *)
Definition ready (op : share_op) (t : tables) : Prop :=
  match op with
  | Share u m f => names_ok u m f = true /\ (m +:+ f) ∉ List.map share_id (share_file_list t)
  | Cancel u m f => names_ok u m f = true /\ selected m f t
      /\ forall r, In r (share_file_list t) -> is_ushare u m f r = is_share m f r
  | Download m f => names_ok EmptyString m f = true /\ selected m f t
  end.

(** The operation came to its end: it reports success or, for a download, Redis
    was written (the code reports failure there). *)
Definition completed (op : share_op) (ret : Z) (o o' : obs) : Prop :=
  match op with
  | Share _ _ _ | Cancel _ _ _ => ret = 0%Z
  | Download _ _ => o_redis o' <> o_redis o
  end.

Lemma zset_of_put k z r : zset_of (put_zset k z r) k = Some z.
Proof.
  unfold zset_of, put_zset. destruct (decide (z = ∅)) as [->|]; [by rewrite lookup_delete_eq|].
  by rewrite lookup_insert_eq.
Qed.

Lemma hash_of_put k h r : hash_of (put_hash k h r) k = Some h.
Proof.
  unfold hash_of, put_hash. destruct (decide (h = ∅)) as [->|]; [by rewrite lookup_delete_eq|].
  by rewrite lookup_insert_eq.
Qed.

Lemma zset_of_put_hash k k' h r : k <> k' -> zset_of (put_hash k h r) k' = zset_of r k'.
Proof.
  intros Hne. unfold zset_of, put_hash. destruct (decide _).
  - by rewrite lookup_delete_ne.
  - by rewrite lookup_insert_ne.
Qed.

(** What the writes of the handlers leave in a mirror. *)
Lemma mirror_share (z : gmap string Z) h r id name :
  zset_of r FILE_PUBLIC_ZSET = Some z -> hash_of r FILE_NAME_HASH = Some h ->
  zset_of (redis_share id name r) FILE_PUBLIC_ZSET = Some (<[id := 0%Z]> z)
  /\ hash_of (redis_share id name r) FILE_NAME_HASH = Some (<[id := name]> h).
Proof.
  intros Hz Hh. unfold redis_share. rewrite Hz.
  assert (hash_of (<[FILE_PUBLIC_ZSET := VZset (<[id := 0%Z]> z)]> r) FILE_NAME_HASH = Some h) as ->.
  { unfold hash_of in *. by rewrite lookup_insert_ne. }
  unfold zset_of, hash_of. by rewrite lookup_insert_ne, !lookup_insert_eq.
Qed.

Lemma mirror_unshare (z : gmap string Z) h r id :
  zset_of r FILE_PUBLIC_ZSET = Some z -> hash_of r FILE_NAME_HASH = Some h ->
  zset_of (redis_unshare id r) FILE_PUBLIC_ZSET = Some (delete id z)
  /\ hash_of (redis_unshare id r) FILE_NAME_HASH = Some (delete id h).
Proof.
  intros Hz Hh. unfold redis_unshare. rewrite Hz, hash_of_put_zset by done. rewrite Hh.
  by rewrite zset_of_put_hash, zset_of_put, hash_of_put.
Qed.

Lemma share_tables u m f tm k t :
  (k = 2 \/ k = 3)%nat ->
  share_file_list (applied (firstn k (DealFile.share_ops u m f tm)) t)
  = share_file_list t ++ [mkShare u m tm f 0].
Proof.
  intros [->| ->]; [done|]. cbn [firstn DealFile.share_ops applied fold_left]. unfold op_inc.
  by destruct (existsb _ _).
Qed.

Lemma cancel_tables_list u m f t :
  share_file_list (applied (DealShareFile.cancel_ops u m f) t)
  = delete_where (is_ushare u m f) (share_file_list t).
Proof.
  cbn [DealShareFile.cancel_ops applied fold_left]. unfold op_del_share, op_dec.
  by destruct (existsb _ _).
Qed.

Lemma mirrored_shared u m f tm o o' :
  mirrored o -> (m +:+ f) ∉ List.map share_id (share_file_list (o_tables o)) ->
  share_file_list (o_tables o') = share_file_list (o_tables o) ++ [mkShare u m tm f 0] ->
  o_redis o' = redis_share (m +:+ f) f (o_redis o) -> mirrored o'.
Proof.
  intros (Hnd & Hz & Hh) Hni Ht Hr. set (l := share_file_list (o_tables o)) in *.
  unfold mirrored. rewrite Ht, Hr. split.
  { rewrite List.map_app. apply list.NoDup_app. split; [done|]. split; [|apply NoDup_singleton].
    intros x Hx. cbn [List.map]. rewrite list_elem_of_singleton. intros ->. by apply Hni. }
  destruct (mirror_share (ranks l) (names l) (o_redis o) (m +:+ f) f Hz Hh) as [-> ->].
  unfold ranks, names. fold (keyed share_id s_pv l) (keyed share_id s_filename l).
  fold (keyed share_id s_pv (l ++ [mkShare u m tm f 0]))
    (keyed share_id s_filename (l ++ [mkShare u m tm f 0])).
  by rewrite !keyed_app.
Qed.

Lemma mirrored_cancelled u m f o o' :
  mirrored o -> ready (Cancel u m f) (o_tables o) ->
  share_file_list (o_tables o') = delete_where (is_ushare u m f) (share_file_list (o_tables o)) ->
  o_redis o' = redis_unshare (m +:+ f) (o_redis o) -> mirrored o'.
Proof.
  intros (Hnd & Hz & Hh) (_ & Hsel & Hu) Ht Hr. set (l := share_file_list (o_tables o)) in *.
  assert (delete_where (is_ushare u m f) l = delete_where (fun r => streq (share_id r) (m +:+ f)) l) as E.
  { unfold delete_where. apply filter_ext_in. intros r Hin. rewrite (Hu r Hin).
    by rewrite (proj1 (Hsel r Hin)). }
  rewrite E in Ht. unfold mirrored. rewrite Ht, Hr. split; [by apply NoDup_delete|].
  destruct (mirror_unshare (ranks l) (names l) (o_redis o) (m +:+ f) Hz Hh) as [-> ->].
  by rewrite <- (keyed_delete share_id s_pv), <- (keyed_delete share_id s_filename).
Qed.

Lemma mirrored_counted m f r o o' z' h' :
  mirrored o -> selected m f (o_tables o) ->
  In r (share_file_list (o_tables o)) -> is_share m f r = true ->
  o_tables o' = op_spv m f (s_pv r + 1) (o_tables o) ->
  zset_of (o_redis o') FILE_PUBLIC_ZSET = Some z' -> hash_of (o_redis o') FILE_NAME_HASH = Some h' ->
  z' = <[m +:+ f := (s_pv r + 1)%Z]> (ranks (share_file_list (o_tables o))) ->
  h' = <[m +:+ f := f]> (names (share_file_list (o_tables o))) -> mirrored o'.
Proof.
  intros (Hnd & Hz & Hh) Hsel Hr Hp Ht Hz' Hh' -> ->. unfold mirrored. rewrite Ht, Hz', Hh'.
  unfold op_spv. cbn [share_file_list set_share_file_list]. set (l := share_file_list (o_tables o)) in *.
  assert (update_where (is_share m f) (set_spv (s_pv r + 1)) l
          = update_where (fun x => streq (share_id x) (m +:+ f)) (set_spv (s_pv r + 1)) l) as ->.
  { unfold update_where. apply map_ext_in. intros x Hx. by rewrite (proj1 (Hsel x Hx)). }
  destruct (Hsel r Hr) as [Hs Hf]. rewrite Hs in Hp. apply streq_true in Hp.
  split; [|split].
  - assert (List.map share_id (update_where (fun x => streq (share_id x) (m +:+ f)) (set_spv (s_pv r + 1)) l)
            = List.map share_id l) as ->; [|done].
    unfold update_where. rewrite List.map_map. apply List.map_ext. intros x. by destruct (streq (share_id x) _).
  - f_equal. symmetry. by apply (keyed_update share_id s_pv l _ (set_spv (s_pv r + 1)) r).
  - f_equal. etrans; [|symmetry; by apply (keyed_update share_id s_filename l _ (set_spv (s_pv r + 1)) r)].
    cbn [set_spv s_filename]. by rewrite (Hf Hp).
Qed.

(** The score and the name of the row with a key. *)
Lemma mirrored_row o m f r :
  mirrored o -> selected m f (o_tables o) -> In r (share_file_list (o_tables o)) ->
  is_share m f r = true ->
  ranks (share_file_list (o_tables o)) !! (m +:+ f) = Some (s_pv r)
  /\ names (share_file_list (o_tables o)) !! (m +:+ f) = Some f.
Proof.
  intros (Hnd & _) Hsel Hr Hp. destruct (Hsel r Hr) as [Hs Hf]. rewrite Hs in Hp.
  apply streq_true in Hp. split.
  - apply (lookup_keyed share_id s_pv); [done|]. by exists r.
  - apply (lookup_keyed share_id s_filename); [done|]. exists r. by rewrite (Hf Hp).
Qed.

Lemma mirrored_scores_fit o :
  mirrored o -> tables_wf 0 (o_tables o) -> DealShareFile.scores_fit (o_redis o).
Proof.
  intros (Hnd & Hz & _) (_ & _ & _ & _ & _ & Hpv) z m Hz'.
  assert (z = ranks (share_file_list (o_tables o))) as -> by congruence.
  destruct (ranks (share_file_list (o_tables o)) !! m) as [s|] eqn:E; cbn [default].
  - apply (lookup_keyed share_id s_pv) in E as (r & Hr & _ & <-); [|done]. specialize (Hpv r Hr).
    unfold small, is_long, INT_MIN, INT_MAX, LONG_MIN, LONG_MAX in *. simpl. lia.
  - done.
Qed.

Lemma mirrored_named o id : mirrored o -> DealShareFile.redis_named id (o_redis o).
Proof.
  intros (Hnd & Hz & Hh). exists (names (share_file_list (o_tables o))). split; [done|].
  intros z Hz'. assert (z = ranks (share_file_list (o_tables o))) as -> by congruence.
  intros [s Hs]%elem_of_dom. apply (lookup_keyed share_id s_pv) in Hs as (r & Hr & Hid & _); [|done].
  apply elem_of_dom. exists (s_filename r). apply (lookup_keyed share_id s_filename); [done|]. by exists r.
Qed.

Lemma download_mirrored m f o ret o' :
  mirrored o -> selected m f (o_tables o) -> o_redis o' <> o_redis o ->
  DealShareFile.spv_post m f o ret o' -> mirrored o'.
Proof.
  intros Hm Hsel Hne (_ & Hpost). pose proof Hm as (Hnd & Hz & Hh).
  destruct Hpost as [(_ & _ & (r & (Hr & Hp & Ht) & Hrd) & _)|(_ & _ & [[_ E]|[(r & Hr & Hp & Ht) Hrd]])];
    [|done|].
  - unfold DealShareFile.redis_import in Hrd. rewrite Hz in Hrd.
    set (r1 := <[FILE_PUBLIC_ZSET := _]> (o_redis o)) in Hrd.
    assert (hash_of r1 FILE_NAME_HASH = Some (names (share_file_list (o_tables o)))) as E.
    { unfold r1, hash_of in *. by rewrite lookup_insert_ne. }
    rewrite E in Hrd. eapply mirrored_counted; [done..| | |reflexivity|reflexivity]; rewrite Hrd.
    + unfold zset_of, r1. by rewrite lookup_insert_ne, lookup_insert_eq.
    + unfold hash_of. by rewrite lookup_insert_eq.
  - destruct Hrd as [E|(z & Hz' & _ & Hrd)]; [done|].
    assert (z = ranks (share_file_list (o_tables o))) as -> by congruence.
    destruct (mirrored_row o m f r Hm Hsel Hr Hp) as [Hs Hn]. rewrite Hs in Hrd. cbn [default] in Hrd.
    eapply mirrored_counted; [done..| | |reflexivity|reflexivity]; rewrite Hrd.
    + unfold zset_of. by rewrite lookup_insert_eq.
    + rewrite (insert_id _ _ _ Hn). unfold hash_of in *. by rewrite lookup_insert_ne.
Qed.

End Mirror.

#[local] Existing Instance binary_collation.

Definition ranked_obs : obs := demo_obs two_shares two_ranked.

Lemma ranked_mirrored : mirrored ranked_obs.
Proof. split; [apply two_shares_fit|]. split; vm_compute; reflexivity. Qed.

