(* ===== verification/System.v ===== *)
(** * The programs together: reference counts and stored files

    The CGI programs share the MySQL tables, Redis and FastDFS.  A state is
    [consistent] when the reference count of every file covers the users' rows
    that refer to it and every file of file_info is stored in FastDFS.  A step
    is one run of one operation of dealfile_cgi, md5_cgi, dealsharefile_cgi or
    upload_cgi, with any services failing at any point, to its end or into a
    crash; all steps keep the state consistent when files are deleted by their
    owners only (which the code does not check, see
    [DealFile.del_file_not_owner]). *)

From S2P Require Import Prelude CLib Sql Tables CProg Redis Config Sim Demo Auth Handler Samples.
From S2P Require DealFile Md5Cgi DealShareFile Upload.

Section System.
Context {coll : Collation}.

(** The users' rows that refer to checksum [m], and the references counted. *)
Definition owns (m : string) (l : ufl_row) : bool := ceq (l_md5 l) m.
Definition owners (m : string) (t : tables) : Z := count_if (owns m) (user_file_list t).
Fixpoint total (l : list file_row) : Z :=
  match l with [] => 0 | r :: l => f_count r + total l end.
Definition refs (m : string) (t : tables) : Z := total (List.filter (is_file m) (file_info t)).

Definition files_ok (d : gmap string string) (l : list file_row) : Prop :=
  (forall m, count_if (is_file m) l <= 1)%Z
  /\ List.NoDup (List.map f_file_id l)
  /\ (forall r, In r l -> shell_word (f_file_id r) = true /\ f_file_id r ∈ dom d).
Definition cnt_unique (t : tables) : Prop :=
  (forall u, count_if (is_cnt u) (user_file_count t) <= 1)%Z.
Definition covered (t : tables) : Prop := forall m, (owners m t <= refs m t)%Z.

Definition consistent (o : obs) : Prop :=
  cnt_unique (o_tables o) /\ files_ok (o_dfs o) (file_info (o_tables o)) /\ covered (o_tables o).

(** ** Operations that do not touch the files *)

Definition same_files (t t' : tables) : Prop :=
  (cnt_unique t -> cnt_unique t')
  /\ file_info t' = file_info t /\ forall m, owners m t' = owners m t.

Lemma same_files_refl t : same_files t t.
Proof. by split. Qed.

Lemma same_files_trans t1 t2 t3 : same_files t1 t2 -> same_files t2 t3 -> same_files t1 t3.
Proof.
  intros (H1 & F1 & M1) (H2 & F2 & M2). split; [auto|]. split; [congruence|].
  intros m. by rewrite M2.
Qed.

Lemma same_set_shared v u m f t : same_files t (op_set_shared v u m f t).
Proof. split; [done|]. split; [done|]. intros m'. by apply count_if_update. Qed.

Lemma same_pv u m f v t : same_files t (op_pv u m f v t).
Proof. split; [done|]. split; [done|]. intros m'. by apply count_if_update. Qed.

Lemma same_bump u d t : same_files t (op_bump u d t).
Proof.
  split; [|done]. intros H u'. unfold op_bump. cbn [user_file_count set_user_file_count].
  by rewrite count_if_update.
Qed.

Lemma same_inc u t : same_files t (op_inc u t).
Proof.
  unfold op_inc. destruct (existsb _ _) eqn:E; [apply same_bump|]. split; [|done]. intros H u'.
  cbn [user_file_count set_user_file_count]. rewrite count_if_app, count_if_cons, count_if_nil.
  specialize (H u'). destruct (is_cnt u' (mkCnt u 1)) eqn:Eu; [|lia].
  rewrite (count_if_zero (is_cnt u')); [lia|]. intros x Hx. rewrite existsb_false_iff in E.
  specialize (E x Hx). unfold is_cnt in *. simpl in Eu. by rewrite <- (ceq_trans_r _ u u').
Qed.

Lemma same_dec u t : same_files t (op_dec u t).
Proof.
  unfold op_dec. destruct (existsb _ _); [|apply same_bump]. split; [|done]. intros H u'.
  etrans; [apply count_if_delete|apply H].
Qed.

Definition keeps (f : tables -> tables) : Prop := forall t, same_files t (f t).

Lemma keeps_applied ops t : Forall keeps ops -> same_files t (applied ops t).
Proof.
  intros H. revert t. induction H as [|f ops Hf _ IH]; intros t; [apply same_files_refl|].
  eapply same_files_trans; [apply Hf|apply IH].
Qed.

Lemma keeps_stage ops t t' : Forall keeps ops -> stage ops t t' -> same_files t t'.
Proof. intros H [k ->]. by apply keeps_applied, Forall_take. Qed.

(** ** References *)

Lemma is_file_ceq m m' r : is_file m r = true -> is_file m' r = ceq m m'.
Proof. apply ceq_trans_l. Qed.

Lemma refs_ref m m' d t :
  refs m' (op_ref m d t)
  = (refs m' t + if ceq m m' then d * count_if (is_file m) (file_info t) else 0)%Z.
Proof.
  unfold refs, op_ref, update_where. cbn [file_info set_file_info].
  induction (file_info t) as [|r l IH]; [rewrite count_if_nil; destruct (ceq m m'); simpl; lia|].
  simpl. rewrite count_if_cons.
  destruct (is_file m r) eqn:E.
  - change (is_file m' (set_count (f_count r + d) r)) with (is_file m' r).
    rewrite (is_file_ceq m m' r E) in *. destruct (ceq m m'); simpl; lia.
  - destruct (is_file m' r); simpl; destruct (ceq m m'); lia.
Qed.

Lemma owners_add u m f tm m' t :
  owners m' (op_add_ufl u m tm f t) = (owners m' t + if ceq m m' then 1 else 0)%Z.
Proof.
  unfold owners, op_add_ufl. cbn [user_file_list set_user_file_list].
  rewrite count_if_app, count_if_cons, count_if_nil. unfold owns at 2. simpl. lia.
Qed.

(** The deleted rows of a user: at least one when the user owns the file. *)
Lemma owners_del u m f m' t :
  existsb (is_ufl u m f) (user_file_list t) = true ->
  (owners m' (op_del_ufl u m f t) <= owners m' t - if ceq m m' then 1 else 0)%Z.
Proof.
  intros (r & Hr & Hp)%existsb_exists. unfold owners, op_del_ufl, delete_where.
  cbn [user_file_list set_user_file_list]. rewrite count_if_filter_negb.
  pose proof (count_if_nonneg (fun x => owns m' x && is_ufl u m f x) (user_file_list t)).
  destruct (ceq m m') eqn:E; [|lia].
  assert (count_if (fun x => owns m' x && is_ufl u m f x) (user_file_list t) <> 0)%Z; [|lia].
  intros H0. pose proof (count_if_zero_inv _ _ _ H0 Hr) as Hf. simpl in Hf. rewrite Hp in Hf.
  unfold is_ufl in Hp. apply andb_prop in Hp as [Hp _]. apply andb_prop in Hp as [_ Hp].
  unfold owns in Hf. rewrite (ceq_trans_l _ _ _ Hp), E in Hf. done.
Qed.

Lemma file_count_one m t :
  (count_if (is_file m) (file_info t) <= 1)%Z -> existsb (is_file m) (file_info t) = true ->
  count_if (is_file m) (file_info t) = 1%Z.
Proof.
  intros Hu (r & Hr & Hp)%existsb_exists.
  destruct (Z.eq_dec (count_if (is_file m) (file_info t)) 0%Z) as [E|E].
  - by rewrite (count_if_zero_inv _ _ _ E Hr) in Hp.
  - pose proof (count_if_nonneg (is_file m) (file_info t)). lia.
Qed.

Lemma refs_row m t r :
  (count_if (is_file m) (file_info t) <= 1)%Z -> In r (file_info t) -> is_file m r = true ->
  refs m t = f_count r.
Proof.
  unfold refs, count_if. intros Hu Hr Hp.
  assert (In r (List.filter (is_file m) (file_info t))) as H by by apply filter_In.
  destruct (List.filter (is_file m) (file_info t)) as [|x [|y l]]; simpl in *; [done| |lia].
  destruct H as [->|[]]. lia.
Qed.

Lemma refs_none m t : existsb (is_file m) (file_info t) = false -> refs m t = 0%Z.
Proof.
  intros H. unfold refs. assert (List.filter (is_file m) (file_info t) = []) as ->; [|done].
  rewrite existsb_false_iff in H. destruct (List.filter _ _) as [|r l] eqn:E; [done|].
  assert (In r (r :: l)) as Hin by by left. rewrite <- E in Hin.
  apply filter_In in Hin as [Hin Hp]. by rewrite H in Hp.
Qed.

(** ** Files *)

Lemma files_ref m k d t :
  files_ok d (file_info t) -> files_ok d (file_info (op_ref m k t)).
Proof.
  intros (H1 & H2 & H3). unfold op_ref. cbn [file_info set_file_info].
  split; [|split].
  - intros m'. by rewrite count_if_update.
  - assert (List.map f_file_id (update_where (is_file m)
              (fun r => set_count (f_count r + k) r) (file_info t))
            = List.map f_file_id (file_info t)) as ->; [|done].
    unfold update_where. rewrite List.map_map. apply List.map_ext. intros r. by destruct (is_file m r).
  - intros r (y & Hy & [->| ->])%in_update; exact (H3 y Hy).
Qed.

Lemma NoDup_map_filter {A B} (f : A -> B) (p : A -> bool) l :
  List.NoDup (List.map f l) -> List.NoDup (List.map f (List.filter p l)).
Proof.
  induction l as [|x l IH]; simpl; [done|]. intros H.
  inversion H as [|? ? Hx Hl]; subst. destruct (p x); simpl; [|auto]. constructor; [|auto].
  rewrite in_map_iff in *. intros (y & Hy & [Hin _]%filter_In). apply Hx. eauto.
Qed.

Lemma files_del m d t : files_ok d (file_info t) -> files_ok d (file_info (op_del_file m t)).
Proof.
  intros (H1 & H2 & H3). unfold op_del_file. cbn [file_info set_file_info].
  split; [|split].
  - intros m'. etrans; [apply count_if_delete|apply H1].
  - by apply NoDup_map_filter.
  - intros r ?%in_delete. auto.
Qed.

(** Dropping the content of a file whose row goes. *)
Lemma files_drop m d d' t :
  files_ok d (file_info t) -> DealFile.dfs_deleted m t d d' ->
  files_ok d' (file_info (op_del_file m t)).
Proof.
  intros Hok (r & Hr & Hp & ->). destruct (files_del m d t Hok) as (H1 & H2 & H3).
  split; [done|]. split; [done|]. intros x Hx. destruct (H3 x Hx) as [Hw Hd]. split; [done|].
  apply elem_of_dom. rewrite lookup_delete_ne; [by apply elem_of_dom|]. intros E.
  apply filter_In in Hx as [Hx Hn]. destruct Hok as (_ & Hnd & _).
  assert (x = r) as ->; [|by rewrite Hp in Hn].
  clear -Hnd Hr Hx E. induction (file_info t) as [|y l IH]; [done|].
  simpl in Hnd. inversion Hnd as [|? ? Hni Hnd']; subst. destruct Hr as [->|Hr], Hx as [->|Hx]; auto.
  - destruct Hni. rewrite E. by apply in_map.
  - destruct Hni. rewrite <- E. by apply in_map.
Qed.
(** ** The operations keep the state consistent *)

Lemma consistent_same o o' :
  consistent o -> o_dfs o' = o_dfs o -> same_files (o_tables o) (o_tables o') -> consistent o'.
Proof.
  intros (Hc & Hf & Hm) Hd (Hc' & Hf' & Ho'). split; [auto|]. rewrite Hd, Hf'. split; [done|].
  intros m. rewrite Ho'. unfold refs. rewrite Hf'. apply Hm.
Qed.

Lemma consistent_step o o' t :
  consistent o -> o_dfs o' = o_dfs o -> files_ok (o_dfs o) (file_info t) -> covered t ->
  (cnt_unique (o_tables o) -> cnt_unique t) ->
  same_files t (o_tables o') -> consistent o'.
Proof.
  intros (Hc & _) Hd Hf Hm Hct Hs.
  apply (consistent_same (with_tables t None o)); [|done..]. by split; [auto|].
Qed.

(** A new owner of a file the server has. *)
Lemma consistent_ref u m f tm o o' :
  consistent o -> o_dfs o' = o_dfs o -> existsb (is_file m) (file_info (o_tables o)) = true ->
  stage (ref_ops u m f tm) (o_tables o) (o_tables o') -> consistent o'.
Proof.
  intros Hcons Hd Hex [k Hk]. destruct Hcons as (Hc & Hf & Hm) eqn:Hcons'. clear Hcons'.
  pose proof (file_count_one m _ (proj1 Hf m) Hex) as Hone.
  set (t1 := op_ref m 1 (o_tables o)) in *. set (t2 := op_add_ufl u m tm f t1).
  assert (covered t1) as Hm1.
  { intros m'. subst t1. rewrite refs_ref, Hone. specialize (Hm m').
    change (owners m' (op_ref m 1 (o_tables o))) with (owners m' (o_tables o)).
    destruct (ceq m m'); lia. }
  assert (covered t2) as Hm2.
  { intros m'. subst t2. rewrite owners_add. change (refs m' (op_add_ufl u m tm f t1)) with (refs m' t1).
    subst t1. rewrite refs_ref, Hone. specialize (Hm m').
    change (owners m' (op_ref m 1 (o_tables o))) with (owners m' (o_tables o)).
    destruct (ceq m m'); lia. }
  assert (files_ok (o_dfs o) (file_info t1)) as Hf1 by by apply files_ref.
  destruct k as [|[|[|k]]]; cbn [firstn ref_ops applied fold_left] in Hk.
  - apply (consistent_same o); [done..|]. rewrite Hk. apply same_files_refl.
  - apply (consistent_step o o' t1); [done..|]. rewrite Hk. apply same_files_refl.
  - apply (consistent_step o o' t2); [done..|]. rewrite Hk. apply same_files_refl.
  - apply (consistent_step o o' t2); [done..|]. rewrite Hk, firstn_nil. apply same_inc.
Qed.

(** The tables of a deletion before the file's own row is touched. *)
Lemma del_prefix u m f (share : bool) t k :
  same_files t (applied (firstn k ((if share then DealFile.unshare_ops u m f else []) ++ [op_dec u])) t).
Proof.
  apply keeps_applied, Forall_take, Forall_app. split; [destruct share|].
  - constructor; [by intros t'|]. constructor; [|constructor]. intros t'. apply same_bump.
  - constructor.
  - constructor; [|constructor]. intros t'. apply same_dec.
Qed.

Lemma del_prefix_users u m f (share : bool) t :
  user_file_list (applied ((if share then DealFile.unshare_ops u m f else []) ++ [op_dec u]) t)
  = user_file_list t.
Proof.
  rewrite applied_app. cbn [applied fold_left]. unfold op_dec.
  destruct (existsb _ _); destruct share; reflexivity.
Qed.

Lemma refs_ceq m m' t : ceq m m' = true -> refs m' t = refs m t.
Proof.
  intros E. unfold refs. f_equal. apply filter_ext. intros r. unfold is_file.
  by rewrite <- (ceq_trans_r _ _ _ E).
Qed.

Lemma refs_del_file m m' t :
  refs m' (op_del_file m t) = if ceq m m' then 0%Z else refs m' t.
Proof.
  unfold refs, op_del_file, delete_where. cbn [file_info set_file_info].
  induction (file_info t) as [|r l IH]; [by destruct (ceq m m')|]. simpl.
  destruct (is_file m r) eqn:E; simpl.
  - rewrite (is_file_ceq m m' r E), IH. by destruct (ceq m m').
  - destruct (is_file m' r) eqn:E'; simpl; rewrite IH; [|by destruct (ceq m m')].
    destruct (ceq m m') eqn:Em; [|done]. unfold is_file in *.
    by rewrite (ceq_trans_r _ _ _ Em), E' in E.
Qed.

(** The user's row, the reference count and the file's row go: each prefix. *)
Section Tail.
Variables (u m f : string) (d : gmap string string) (t : tables).
Hypothesis (Hf : files_ok d (file_info t)) (Hm : covered t).
Hypothesis (Hown : existsb (is_ufl u m f) (user_file_list t) = true).

Let t1 := op_del_ufl u m f t.
Let t2 := op_ref m (-1) t1.
Let t3 := op_del_file m t2.

Lemma tail_owners m' : (owners m' t1 <= refs m' t - if ceq m m' then 1 else 0)%Z.
Proof.
  pose proof (owners_del u m f m' t Hown) as H. specialize (Hm m'). subst t1.
  destruct (ceq m m'); lia.
Qed.

Lemma tail_file : existsb (is_file m) (file_info t) = true.
Proof.
  destruct (existsb (is_file m) (file_info t)) eqn:E; [done|].
  pose proof (tail_owners m) as H. rewrite (refs_none m t E), ceq_refl in H.
  pose proof (count_if_nonneg (owns m) (user_file_list t1)). unfold owners in H. lia.
Qed.

Lemma tail_refs m' : (refs m' t2 = refs m' t - if ceq m m' then 1 else 0)%Z.
Proof.
  subst t2. rewrite refs_ref. change (file_info t1) with (file_info t).
  change (refs m' t1) with (refs m' t).
  rewrite (file_count_one m t (proj1 Hf m) tail_file). destruct (ceq m m'); lia.
Qed.

Lemma tail_covered_1 : covered t1.
Proof.
  intros m'. change (refs m' t1) with (refs m' t). pose proof (tail_owners m').
  destruct (ceq m m'); lia.
Qed.

Lemma tail_covered_2 : covered t2.
Proof. intros m'. rewrite tail_refs. apply tail_owners. Qed.

Lemma tail_covered_3 : DealFile.last_ref m t = true -> covered t3.
Proof.
  intros (r & Hr & [Hp Hc]%andb_prop)%existsb_exists m'. apply Z.eqb_eq in Hc.
  subst t3. rewrite refs_del_file. change (owners m' (op_del_file m t2)) with (owners m' t1).
  pose proof (tail_owners m') as Ho. destruct (ceq m m') eqn:E.
  - rewrite (refs_ceq m m' t E), (refs_row m t r (proj1 Hf m) Hr Hp) in Ho. lia.
  - rewrite tail_refs, E. lia.
Qed.

Lemma tail_stage (last : bool) t' :
  (last = true -> DealFile.last_ref m t = true) ->
  stage (op_del_ufl u m f :: DealFile.stored_ops m last) t t' ->
  files_ok d (file_info t') /\ covered t' /\ user_file_count t' = user_file_count t.
Proof.
  intros Hl [k ->]. pose proof tail_covered_1. pose proof tail_covered_2.
  assert (files_ok d (file_info t2)) by by apply files_ref.
  unfold DealFile.stored_ops.
  destruct k as [|[|[|[|k]]]], last; cbn [firstn applied fold_left]; rewrite ?firstn_nil;
    cbn [applied fold_left]; try done.
  all: split; [by apply files_del|]; split; [by apply tail_covered_3, Hl|done].
Qed.

Lemma tail_dropped d' :
  DealFile.last_ref m t = true -> DealFile.dfs_deleted m t d d' ->
  files_ok d' (file_info t3) /\ covered t3.
Proof.
  intros Hl (r & Hr & Hp & ->). split; [|by apply tail_covered_3].
  apply (files_drop m d _ t2); [by apply files_ref|].
  exists (set_count (f_count r + -1) r). repeat split; [|done].
  change (In (set_count (f_count r + -1) r)
            (update_where (is_file m) (fun r => set_count (f_count r + -1) r) (file_info t))).
  apply in_map_iff. exists r. by rewrite Hp.
Qed.
End Tail.

(** A deletion by an owner: every prefix of its operations. *)
Lemma consistent_del u m f (share : bool) o o' :
  consistent o -> existsb (is_ufl u m f) (user_file_list (o_tables o)) = true ->
  DealFile.del_partial u m f share (o_tables o) (o_dfs o) (o_tables o') (o_dfs o') ->
  consistent o'.
Proof.
  intros (Hc & Hf & Hm) Hown Hpart. set (t := o_tables o) in *.
  set (pre := (if share then DealFile.unshare_ops u m f else []) ++ [op_dec u]).
  assert (DealFile.del_ops u m f share (DealFile.last_ref m t)
          = pre ++ op_del_ufl u m f :: DealFile.stored_ops m (DealFile.last_ref m t)) as Hops.
  { unfold DealFile.del_ops, pre. by rewrite <- app_assoc. }
  set (t0 := applied pre t).
  assert (same_files t t0) as Hs0.
  { subst t0. rewrite <- (firstn_all pre). apply del_prefix. }
  destruct Hs0 as (Hc0 & Hf0 & Ho0).
  assert (covered t0) as Hm0 by (intros m'; rewrite Ho0; unfold refs; rewrite Hf0; apply Hm).
  assert (files_ok (o_dfs o) (file_info t0)) as Hok0 by by rewrite Hf0.
  assert (DealFile.last_ref m t0 = DealFile.last_ref m t) as Hl0
    by (unfold DealFile.last_ref; by rewrite Hf0).
  assert (existsb (is_ufl u m f) (user_file_list t0) = true) as Hown0
    by (subst t0 pre; by rewrite del_prefix_users).
  destruct Hpart as [(Hd & k & Hk)|(Hl & Hdel & Hk)]; rewrite Hops in Hk.
  - destruct (Nat.le_gt_cases k (length pre)) as [Hle|Hgt].
    + rewrite take_app_le in Hk by done. apply (consistent_same o); [done..|].
      rewrite Hk. apply del_prefix.
    + rewrite take_app_ge, applied_app in Hk by lia.
      destruct (tail_stage u m f _ t0 Hok0 Hm0 Hown0 (DealFile.last_ref m t) (o_tables o'))
        as (Hf1 & Hm1 & Hn1); [by rewrite Hl0|by eexists|].
      unfold consistent, cnt_unique. rewrite Hd, Hn1. by split; [apply Hc0|].
  - rewrite applied_app, Hl in Hk. fold t0 in Hk.
    assert (DealFile.dfs_deleted m t0 (o_dfs o) (o_dfs o')) as Hdel0.
    { unfold DealFile.dfs_deleted. by rewrite Hf0. }
    rewrite <- Hl0 in Hl. unfold consistent. rewrite Hk.
    split; [by apply Hc0|]. by apply (tail_dropped u m f (o_dfs o) t0).
Qed.

(** ** Uploads *)

Lemma total_app l1 l2 : total (l1 ++ l2) = (total l1 + total l2)%Z.
Proof. induction l1; simpl; lia. Qed.

Lemma refs_add_file m fid url size ty m' t :
  refs m' (Upload.op_add_file m fid url size ty t) = (refs m' t + if ceq m m' then 1 else 0)%Z.
Proof.
  unfold refs, Upload.op_add_file. cbn [file_info set_file_info].
  rewrite List.filter_app, total_app. cbn [List.filter]. unfold is_file at 2. cbn [f_md5].
  destruct (ceq m m'); reflexivity.
Qed.

(** More files in FastDFS do no harm. *)
Lemma files_ok_insert d fid c l : files_ok d l -> files_ok (<[fid := c]> d) l.
Proof.
  intros (H1 & H2 & H3). split_and!; try done. intros r Hr. destruct (H3 r Hr). split; [done|].
  rewrite dom_insert. by apply elem_of_union_r.
Qed.

Lemma files_ok_add_file d m fid url size ty c t :
  files_ok d (file_info t) -> existsb (is_file m) (file_info t) = false ->
  d !! fid = None -> shell_word fid = true ->
  files_ok (<[fid := c]> d) (file_info (Upload.op_add_file m fid url size ty t)).
Proof.
  intros (H1 & H2 & H3) Hex Hfresh Hw. unfold Upload.op_add_file. cbn [file_info set_file_info].
  split_and!.
  - intros m'. rewrite count_if_app, count_if_cons, count_if_nil. specialize (H1 m').
    destruct (is_file m' (mkFile m fid url size ty 1)) eqn:E; [|lia].
    rewrite (count_if_zero (is_file m')); [lia|]. intros x Hx. rewrite existsb_false_iff in Hex.
    specialize (Hex x Hx). unfold is_file in *. simpl in E. by rewrite <- (ceq_trans_r _ m m').
  - rewrite List.map_app. cbn [List.map f_file_id]. apply NoDup_ListNoDup, list.NoDup_app.
    split_and!; [by apply NoDup_ListNoDup| |apply NoDup_singleton].
    intros x Hx ->%list_elem_of_singleton. apply list_elem_of_In, in_map_iff in Hx as (r & Hr & Hin).
    destruct (H3 r Hin) as [_ Hd]. rewrite Hr in Hd. by apply not_elem_of_dom in Hfresh.
  - intros r [Hr|[<-|[]]]%in_app_or; rewrite dom_insert.
    + destruct (H3 r Hr). split; [done|]. by apply elem_of_union_r.
    + cbn [f_file_id]. split; [done|]. apply elem_of_union_l. by apply elem_of_singleton.
Qed.

Lemma consistent_grew o o' :
  consistent o -> o_tables o' = o_tables o -> Upload.dfs_grew o o' -> consistent o'.
Proof.
  intros (Hc & Hf & Hm) Ht Hd. unfold consistent. rewrite Ht. split_and!; try done.
  destruct Hd as [->|(fid & c & _ & ->)]; [done|]. by apply files_ok_insert.
Qed.

(** The states of an upload are consistent. *)
Lemma consistent_recorded fm c ks o o' :
  consistent o -> Upload.recorded fm c ks o o' -> consistent o'.
Proof.
  intros (Hc & Hf & Hm) (fid & ip & port & tm & k & Hfresh & Hw & _ & Hd & Hex & _ & Ht).
  set (url := Upload.file_url ip port fid) in *. set (ty := UtilCgi.get_file_suffix _) in *.
  set (m := Upload.fm_md5 fm) in *. unfold Upload.upload_ops in Ht. fold m in Ht.
  set (t1 := Upload.op_add_file m fid url (Upload.fm_size fm) ty (o_tables o)).
  set (t2 := op_add_ufl (Upload.fm_user fm) m tm (Upload.fm_filename fm) t1).
  assert (files_ok (o_dfs o') (file_info t1)) as Hf1 by (rewrite Hd; by apply files_ok_add_file).
  assert (covered t1) as Hm1.
  { intros m'. subst t1. rewrite refs_add_file. specialize (Hm m').
    change (owners m' (Upload.op_add_file m fid url (Upload.fm_size fm) ty (o_tables o)))
      with (owners m' (o_tables o)). destruct (ceq m m'); lia. }
  assert (covered t2) as Hm2.
  { intros m'. subst t2. rewrite owners_add.
    change (refs m' (op_add_ufl (Upload.fm_user fm) m tm (Upload.fm_filename fm) t1)) with (refs m' t1).
    subst t1. rewrite refs_add_file. specialize (Hm m').
    change (owners m' (Upload.op_add_file m fid url (Upload.fm_size fm) ty (o_tables o)))
      with (owners m' (o_tables o)). destruct (ceq m m'); lia. }
  destruct k as [|[|[|k]]]; cbn [firstn applied fold_left] in Ht.
  - split_and!; rewrite ?Ht, ?Hd; try done. by apply files_ok_insert.
  - by split_and!; rewrite Ht.
  - by split_and!; rewrite Ht.
  - apply (consistent_same (with_tables t2 None o')); [by split_and!|done|].
    rewrite Ht, firstn_nil. apply same_inc.
Qed.

(** ** Runs and steps *)

(** The outcomes of the runs of a program that the services' contract allows. *)
Fixpoint runs {X A} (p : prog X A) (o : obs) (a : A) (o' : obs) : Prop :=
  match p with
  | Ret b => b = a /\ o = o'
  | Goto _ | Crash => False
  | Call e k => exists c o1, ev_spec e o c o1 /\ runs (k c) o1 a o'
  end.

(** The states in which a run crashes. *)
Fixpoint crashed {X A} (p : prog X A) (o o' : obs) : Prop :=
  match p with
  | Ret _ | Goto _ => False
  | Crash => o = o'
  | Call e k => exists c o1, ev_spec e o c o1 /\ crashed (k c) o1 o'
  end.

Lemma wpc_runs {X A} (p : prog X A) Q G C o a o' : wpc p Q G C o -> runs p o a o' -> Q a o'.
Proof.
  revert o. induction p as [b|x| |e k IH]; intros o; simpl; try done.
  - by intros H [<- <-].
  - intros H (c & o1 & He & Hr). eauto.
Qed.

Lemma wpc_crashed {X A} (p : prog X A) Q G C o o' : wpc p Q G C o -> crashed p o o' -> C o'.
Proof.
  revert o. induction p as [b|x| |e k IH]; intros o; simpl; try done.
  - by intros H <-.
  - intros H (c & o1 & He & Hr). eauto.
Qed.

(** One operation, with its arguments. *)
Inductive operation :=
| OpUpload (rq : request)
| OpShare (user md5 filename : string)
| OpDelete (user md5 filename : string)
| OpDownload (user md5 filename : string)
| OpInstantUpload (user md5 filename : string)
| OpSave (user md5 filename : string)
| OpCancel (user md5 filename : string)
| OpShareDownload (md5 filename : string).

Definition op_prog (cf : conf) (op : operation) : prog Empty_set Z :=
  match op with
  | OpUpload rq => Upload.handle cf rq
  | OpShare u m f => DealFile.share_file cf u m f
  | OpDelete u m f => DealFile.del_file cf u m f
  | OpDownload u m f => DealFile.pv_file cf u m f
  | OpInstantUpload u m f => Md5Cgi.deal_md5 cf u m f
  | OpSave u m f => DealShareFile.save_file cf u m f
  | OpCancel u m f => DealShareFile.cancel_share_file cf u m f
  | OpShareDownload m f => DealShareFile.pv_file cf m f
  end.

(** The operations the handlers' theorems cover, and a file is deleted by an
    owner only. *)
Definition allowed (op : operation) (o : obs) : Prop :=
  match op with
  | OpUpload rq => Upload.request_ok rq /\ Upload.port_plain o /\ Upload.tools_installed o
  | OpShare u m f | OpDownload u m f | OpInstantUpload u m f | OpSave u m f =>
      names_ok u m f = true
  | OpDelete u m f =>
      names_ok u m f = true /\ DealFile.redis_linked (m +:+ f) (o_redis o)
      /\ existsb (is_ufl u m f) (user_file_list (o_tables o)) = true
  | OpCancel u m f =>
      names_ok u m f = true /\ DealShareFile.redis_named (m +:+ f) (o_redis o)
  | OpShareDownload m f =>
      names_ok EmptyString m f = true /\ DealShareFile.scores_fit (o_redis o)
  end.

(** The numbers are away from the limits of [int], the file ids fit. *)
Definition bounded (t : tables) : Prop :=
  (forall r, In r (user_file_count t) -> small 3 (c_count r))
  /\ (forall r, In r (file_info t) -> small 3 (f_count r) /\ (slen (f_file_id r) < 512)%Z)
  /\ (forall r, In r (user_file_list t) -> small 3 (l_shared_status r) /\ small 3 (l_pv r))
  /\ (forall r, In r (share_file_list t) -> small 3 (s_pv r)).

Inductive step (cf : conf) : obs -> obs -> Prop :=
| step_op op ret o o' :
    conf_ok o -> bounded (o_tables o) -> allowed op o ->
    runs (op_prog cf op) o ret o' -> step cf o o'
| step_crash op o o' :
    conf_ok o -> bounded (o_tables o) -> allowed op o ->
    crashed (op_prog cf op) o o' -> step cf o o'.

Lemma consistent_ref_partial u m f o o' :
  consistent o -> o_dfs o' = o_dfs o -> ref_partial u m f (o_tables o) (o_tables o') ->
  consistent o'.
Proof.
  intros Hc Hd [Ht|(Hex & tm & Hs)]; [|by eapply consistent_ref].
  apply (consistent_same o); [done..|]. rewrite Ht. apply same_files_refl.
Qed.

Lemma ref_done u m f tm k t t' :
  (t' = applied (firstn k (ref_ops u m f tm)) t) -> existsb (is_file m) (file_info t) = true ->
  ref_partial u m f t t'.
Proof. intros -> Hex. right. split; [done|]. exists tm. by exists k. Qed.

Lemma consistent_wf o : consistent o -> bounded (o_tables o) -> tables_wf 3 (o_tables o).
Proof. intros (Hc & (Hf & _) & _) (H1 & H2 & H3 & H4). unfold tables_wf. by split_and!. Qed.

Lemma consistent_ids o : consistent o -> DealFile.ids_ok (o_tables o).
Proof. intros (_ & (_ & _ & H) & _) r Hr. by apply H. Qed.

(** The operations of dealfile_cgi. *)
Lemma share_consistent u m f o ret o' :
  consistent o -> DealFile.share_post u m f o ret o' -> consistent o'.
Proof.
  intros Hc (Hk & Hp). destruct Hk as (_ & Hd & _).
  assert (forall tm, Forall keeps (DealFile.share_ops u m f tm)) as Hops.
  { intros tm. constructor; [intros t; apply same_set_shared|].
    constructor; [by intros t|]. constructor; [intros t; apply same_inc|constructor]. }
  apply (consistent_same o); [done..|].
  destruct Hp as [(_ & _ & (tm & [-> | ->]) & _)|[(_ & _ & (tm & Hs) & _)|(_ & _ & -> & _)]].
  - by apply keeps_applied.
  - by apply keeps_applied, Forall_take.
  - by eapply keeps_stage.
  - apply same_files_refl.
Qed.

Lemma del_consistent u m f o ret o' :
  consistent o -> existsb (is_ufl u m f) (user_file_list (o_tables o)) = true ->
  DealFile.del_post u m f o ret o' -> consistent o'.
Proof.
  intros Hc Hown (_ & _ & _ & [(_ & _ & share & flag & _ & Ht & _ & Hd)|(_ & _ & _ & share & Hp)]).
  - apply (consistent_del u m f (share =? 1)%Z o); [done..|].
    destruct (DealFile.last_ref m (o_tables o)) eqn:El.
    + right. by rewrite El.
    + left. split; [done|]. rewrite Ht, El. apply stage_end.
  - by eapply consistent_del.
Qed.

Lemma pv_consistent u m f o ret o' :
  consistent o -> DealFile.pv_post u m f o ret o' -> consistent o'.
Proof.
  intros Hc ((_ & Hd & _) & _ & [(_ & _ & r & _ & _ & Ht)|(_ & _ & Ht)]);
    apply (consistent_same o); try done; rewrite Ht; [apply same_pv|apply same_files_refl].
Qed.

(** The operations of md5_cgi and dealsharefile_cgi. *)
Lemma md5_consistent u m f o ret o' :
  consistent o -> Md5Cgi.md5_post u m f o ret o' -> consistent o'.
Proof.
  intros Hc ((_ & Hd & _) & _ & Hp). apply (consistent_ref_partial u m f o); [done..|].
  destruct Hp as [(_ & _ & [(tm & k & _ & Ht & Hex)|Ht])|[(_ & _ & H)|[(_ & _ & Ht & _)|(_ & _ & Ht & _)]]];
    [by eapply ref_done|by left|done|by left..].
Qed.

Lemma save_consistent u m f o ret o' :
  consistent o -> DealShareFile.save_post u m f o ret o' -> consistent o'.
Proof.
  intros Hc ((_ & Hd & _) & _ & Hp). apply (consistent_ref_partial u m f o); [done..|].
  destruct Hp as [(_ & _ & Hex & tm & k & _ & Ht)|[(_ & _ & H)|(_ & _ & Ht & _)]];
    [by eapply ref_done|done|by left].
Qed.

Lemma cancel_consistent u m f o ret o' :
  consistent o -> DealShareFile.cancel_post u m f o ret o' -> consistent o'.
Proof.
  intros Hc ((_ & Hd & _) & Hp).
  assert (Forall keeps (DealShareFile.cancel_ops u m f)) as Hops.
  { constructor; [intros t; apply same_set_shared|].
    constructor; [intros t; apply same_dec|]. constructor; [by intros t|constructor]. }
  apply (consistent_same o); [done..|].
  destruct Hp as [(_ & _ & -> & _)|(_ & _ & Hs & _)]; [by apply keeps_applied|by eapply keeps_stage].
Qed.

Lemma spv_consistent m f o ret o' :
  consistent o -> DealShareFile.spv_post m f o ret o' -> consistent o'.
Proof.
  intros Hc ((_ & Hd & _) & Hp). apply (consistent_same o); [done..|].
  destruct Hp as [(_ & _ & (r & (_ & _ & ->) & _) & _)|(_ & _ & [(-> & _)|((r & _ & _ & ->) & _)])];
    [done|apply same_files_refl|done].
Qed.

Lemma upload_consistent rq o ret o' :
  consistent o -> Upload.upload_post (Upload.any_form rq) rq o ret o' -> consistent o'.
Proof.
  intros Hc (_ & _ & _ & [(_ & _ & fm & c & _ & Hr)|(_ & _ & [[Ht Hd]|(fm & c & _ & Hr)])]).
  - by eapply consistent_recorded.
  - by apply (consistent_grew o).
  - by eapply consistent_recorded.
Qed.

(** Every operation ends in the state its theorem describes, or crashes in a
    consistent one. *)
Lemma op_consistent cf op o :
  conf_fits cf -> consistent o -> conf_ok o -> bounded (o_tables o) -> allowed op o ->
  wpc (op_prog cf op) (fun _ => consistent) (fun _ _ => False) consistent o.
Proof.
  intros Hcf Hc Hconf Hb Ha.
  pose proof (consistent_wf _ Hc Hb) as Hwf. pose proof (consistent_ids _ Hc) as Hids.
  destruct op; cbn [op_prog allowed] in *.
  - destruct Ha as (Hrq & Hpp & Htools).
    eapply wpc_mono; [apply (Upload.wpc_handle_any cf rq (fun _ _ => False)); [|exact Hrq]|..].
    + split; [exact Hconf|]. split; [exact Hpp|]. split; [exact Htools|solve_wf].
    + intros ret o'. by apply upload_consistent.
    + intros x o' Hx. exact Hx.
    + intros o' [Ht Hd]. by apply (consistent_grew o).
  - apply wp_wpc. eapply wp_mono; [apply (DealFile.wp_share_file _ _ _ _ (fun _ _ => False))|..];
      [done..|solve_wf| |done]. intros ret o'. by apply share_consistent.
  - destruct Ha as (Hn & Hlink & Hown). apply wp_wpc.
    eapply wp_mono; [by apply (DealFile.wp_del_file _ _ _ _ (fun _ _ => False))| |done].
    intros ret o'. by apply del_consistent.
  - apply wp_wpc. eapply wp_mono; [apply (DealFile.wp_pv_file _ _ _ _ (fun _ _ => False))|..];
      [done..|solve_wf| |done]. intros ret o'. by apply pv_consistent.
  - apply wp_wpc. eapply wp_mono; [apply (Md5Cgi.wp_deal_md5 _ _ _ _ (fun _ _ => False))|..];
      [done..|solve_wf| |done]. intros ret o'. by apply md5_consistent.
  - apply wp_wpc. eapply wp_mono; [apply (DealShareFile.wp_save_file _ _ _ _ (fun _ _ => False))|..];
      [done..|solve_wf| |done]. intros ret o'. by apply save_consistent.
  - destruct Ha as (Hn & Hnamed). apply wp_wpc.
    eapply wp_mono; [apply (DealShareFile.wp_cancel_share_file _ _ _ _ (fun _ _ => False))|..];
      [done..|solve_wf|done| |done]. intros ret o'. by apply cancel_consistent.
  - destruct Ha as (Hn & Hsc). apply wp_wpc.
    eapply wp_mono; [apply (DealShareFile.wp_share_pv_file _ _ _ (fun _ _ => False))|..];
      [done..|solve_wf|done| |done]. intros ret o'. by apply spv_consistent.
Qed.

Lemma step_consistent cf o o' : conf_fits cf -> consistent o -> step cf o o' -> consistent o'.
Proof.
  intros Hcf Hc Hstep. destruct Hstep as [op ret o o' Hconf Hb Ha Hr|op o o' Hconf Hb Ha Hr].
  - eapply (wpc_runs (op_prog cf op) (fun _ => consistent)); [by apply op_consistent|exact Hr].
  - eapply (wpc_crashed (op_prog cf op)); [by apply op_consistent|exact Hr].
Qed.

Lemma steps_consistent cf o o' :
  conf_fits cf -> consistent o -> rtc (step cf) o o' -> consistent o'.
Proof. intros Hcf Hc Hr. induction Hr; [done|]. by eauto using step_consistent. Qed.

(** What consistency means for the users: their files are counted and stored. *)
Lemma consistent_stored o l :
  consistent o -> In l (user_file_list (o_tables o)) ->
  exists r c, In r (file_info (o_tables o)) /\ ceq (f_md5 r) (l_md5 l) = true
    /\ (1 <= f_count r)%Z /\ o_dfs o !! f_file_id r = Some c.
Proof.
  intros (_ & (Hu & _ & Hst) & Hm) Hl. specialize (Hm (l_md5 l)).
  assert (1 <= owners (l_md5 l) (o_tables o))%Z as Ho.
  { pose proof (count_if_nonneg (owns (l_md5 l)) (user_file_list (o_tables o))).
    assert (owners (l_md5 l) (o_tables o) <> 0)%Z; [|unfold owners in *; lia].
    intros E. pose proof (count_if_zero_inv _ _ _ E Hl) as Hf. unfold owns in Hf.
    by rewrite ceq_refl in Hf. }
  destruct (existsb (is_file (l_md5 l)) (file_info (o_tables o))) eqn:E.
  - apply existsb_exists in E as (r & Hr & Hp). rewrite (refs_row _ _ r (Hu _) Hr Hp) in Hm.
    destruct (Hst r Hr) as [_ [c Hc]%elem_of_dom]. exists r, c. repeat split; [done..|lia|done].
  - rewrite (refs_none _ _ E) in Hm. lia.
Qed.

(** C2: the reference counts.  Whatever sequence of operations of dealfile_cgi,
    md5_cgi, dealsharefile_cgi and upload_cgi runs, with the services failing at
    any point and runs of upload_cgi crashing, the state stays consistent: every reference count is at least the number of
    users' rows for that checksum, file_info has one row per checksum with
    distinct file ids, and each of these files is stored in FastDFS; provided
    that files are deleted by users who have them. *)
Theorem reference_counts (cf : conf) (o o' : obs) :
  conf_fits cf -> consistent o -> rtc (step cf) o o' -> consistent o'.
Proof. apply steps_consistent. Qed.

(** C1: no user loses a file: after any such sequence, each row of a user has
    its row in file_info with a positive reference count, and the content is in
    FastDFS. *)
Theorem files_never_lost (cf : conf) (o o' : obs) (l : ufl_row) :
  conf_fits cf -> consistent o -> rtc (step cf) o o' ->
  In l (user_file_list (o_tables o')) ->
  exists r c, In r (file_info (o_tables o')) /\ ceq (f_md5 r) (l_md5 l) = true
    /\ (1 <= f_count r)%Z /\ o_dfs o' !! f_file_id r = Some c.
Proof. intros Hcf Hc Hr. apply consistent_stored. by eapply steps_consistent. Qed.

(** ** Deciding consistency *)

Definition covered_b (t : tables) : bool :=
  forallb (fun r => (0 <=? f_count r)%Z) (file_info t)
  && forallb (fun l => (owners (l_md5 l) t <=? refs (l_md5 l) t)%Z) (user_file_list t).

Lemma total_nonneg l : (forall r, In r l -> (0 <= f_count r)%Z) -> (0 <= total l)%Z.
Proof.
  induction l as [|r l IH]; simpl; [lia|]. intros H. pose proof (H r (or_introl eq_refl)).
  assert (0 <= total l)%Z by (apply IH; auto). lia.
Qed.

Lemma covered_b_spec t : covered_b t = true -> covered t.
Proof.
  intros [H1 H2]%andb_prop m. rewrite forallb_forall in H1, H2.
  assert (0 <= refs m t)%Z.
  { apply total_nonneg. intros r [Hr _]%filter_In. specialize (H1 r Hr). lia. }
  destruct (Z_lt_le_dec 0 (owners m t)) as [Hp|Hp]; [|lia].
  apply count_if_pos_In in Hp as (l & Hl & Ho). specialize (H2 l Hl).
  unfold owns in Ho. rewrite (refs_ceq _ _ t Ho).
  assert (owners m t = owners (l_md5 l) t) as ->; [|lia].
  apply count_if_ext. intros x _. unfold owns. by rewrite (ceq_trans_r _ _ _ Ho).
Qed.

Lemma run_runs {X A} (p : prog X A) o a o' : run p o = Some (inl a, o') -> runs p o a o'.
Proof.
  revert o. induction p as [b|x| |e k IH]; intros o; simpl; try done; [by intros [= <- <-]|].
  destruct (sim e o) as [[b o1]|] eqn:E; [|done]. intros Hr. exists b, o1.
  split; [by apply sim_sound|auto].
Qed.
End System.

(** ** A run: Bob uploads a file, Eve saves it, Bob deletes his *)

#[local] Existing Instance binary_collation.

(** The state after a run. *)
Definition after (cf : conf) (op : operation) (o : obs) : obs :=
  match run (op_prog cf op) o with Some (_, o') => o' | None => o end.

Definition consistent_b (o : obs) : bool :=
  wf_b 3 (o_tables o) && covered_b (o_tables o)
  && bool_decide (NoDup (List.map f_file_id (file_info (o_tables o))))
  && forallb (fun r => shell_word (f_file_id r) && bool_decide (is_Some (o_dfs o !! f_file_id r)))
       (file_info (o_tables o)).

Lemma consistent_b_spec o : consistent_b o = true -> consistent o /\ bounded (o_tables o).
Proof.
  unfold consistent_b. intros H. split_andb. rewrite forallb_forall in *.
  match goal with Hw : wf_b _ _ = true |- _ =>
    destruct (wf_b_spec _ _ Hw) as (K1 & K2 & K3 & K4 & K5 & K6) end.
  split; [|by split_and!]. split; [done|]. split; [|by apply covered_b_spec].
  split; [done|]. split; [by apply NoDup_ListNoDup, (bool_decide_eq_true _)|].
  intros r Hr. specialize (H r Hr).
  apply andb_prop in H as [Hw Hd]. split; [done|]. apply elem_of_dom. by eapply bool_decide_eq_true.
Qed.

Definition upload_rq : request := Upload.up_request "c.txt" "m9".
Definition uploaded_obs : obs := after demo_cf (OpUpload upload_rq) Upload.up_obs.
Definition saved_obs : obs := after demo_cf (OpSave "eve" "m9" "c.txt") uploaded_obs.
Definition deleted_obs : obs := after demo_cf (OpDelete "bob" "m9" "c.txt") saved_obs.

Lemma after_runs op o a :
  returned (op_prog demo_cf op) o = Some a -> runs (op_prog demo_cf op) o a (after demo_cf op o).
Proof.
  unfold returned, after. intros H. apply run_runs.
  destruct (run (op_prog demo_cf op) o) as [[[b|x] o']|] eqn:E; try done. congruence.
Qed.

Lemma upload_rq_ok : Upload.request_ok upload_rq.
Proof.
  intros fm. assert (Upload.form_of (stake (Z.to_nat (Upload.upload_len upload_rq)) (rq_body upload_rq))
    = Some (Upload.mkForm "bob" "c.txt" "m9" 5)) as -> by (vm_compute; reflexivity).
  intros [= <-]. vm_compute. reflexivity.
Qed.

Lemma demo_conf_same o :
  o_files o !! CONFIG_PATH = o_files two_obs !! CONFIG_PATH -> conf_ok o.
Proof. intros H c. rewrite H. apply (demo_conf_ok two_users two_tokens). Qed.

Lemma demo_steps : rtc (step demo_cf) Upload.up_obs deleted_obs.
Proof.
  eapply rtc_l; [|eapply rtc_l; [|eapply rtc_l; [|apply rtc_refl]]].
  - eapply (step_op demo_cf (OpUpload upload_rq)).
    + apply Upload.up_obs_env.
    + apply consistent_b_spec. vm_compute. reflexivity.
    + split; [apply upload_rq_ok|]. split; apply Upload.up_obs_env.
    + apply after_runs. vm_compute. reflexivity.
  - eapply (step_op demo_cf (OpSave "eve" "m9" "c.txt")).
    + apply demo_conf_same. vm_compute. reflexivity.
    + apply consistent_b_spec. vm_compute. reflexivity.
    + reflexivity.
    + apply after_runs. vm_compute. reflexivity.
  - eapply (step_op demo_cf (OpDelete "bob" "m9" "c.txt")).
    + apply demo_conf_same. vm_compute. reflexivity.
    + apply consistent_b_spec. vm_compute. reflexivity.
    + split; [reflexivity|]. split; [|vm_compute; reflexivity].
      apply DealFile.linked_no_zset; vm_compute; reflexivity.
    + apply after_runs. vm_compute. reflexivity.
Qed.

Lemma reference_counts_witness : consistent deleted_obs.
Proof.
  apply (reference_counts demo_cf Upload.up_obs deleted_obs); [reflexivity| |apply demo_steps].
  apply consistent_b_spec. vm_compute. reflexivity.
Defined.

Lemma files_never_lost_witness :
  exists r c, In r (file_info (o_tables deleted_obs)) /\ ceq (f_md5 r) "m9" = true
    /\ (1 <= f_count r)%Z /\ o_dfs deleted_obs !! f_file_id r = Some c.
Proof.
  apply (files_never_lost demo_cf Upload.up_obs deleted_obs (mkUfl "eve" "m9" NOW "c.txt" 0 0));
    [reflexivity| |apply demo_steps|vm_compute; auto].
  apply consistent_b_spec. vm_compute. reflexivity.
Defined.
