(* ===== verification/Interleave.v ===== *)
(** * Several processes at once

    The web server runs several processes of every CGI program: their calls
    interleave.  A process has its own connections, result set and response;
    the tables, Redis, the files and FastDFS are shared.  A step is one call of
    one process, answered as the contract allows.

    One process alone behaves as [wp] says ([alone]).  Two processes do not
    behave like one after the other: the counters are read by one statement and
    written by another. *)

From S2P Require Import Prelude CLib Sql Tables CProg Redis Config Sim Demo Auth Handler Samples.
From S2P Require DealFile DealShareFile System.

(** What a process has for itself: the rest of its program, the result set of its
    connection, its response, its open connections. *)
Record session := mkSession {
  s_prog : prog Empty_set Z; s_result : option (list row); s_out : string; s_my : Z; s_rd : Z }.

(** The state a process sees: its own part and the shared part of [sh]. *)
Definition view (s : session) (sh : obs) : obs :=
  mkObs (o_tables sh) (s_result s) (o_redis sh) (s_out s) (o_files sh) (o_dfs sh) (s_my s) (s_rd s).
Definition session_at (p : prog Empty_set Z) (o : obs) : session :=
  mkSession p (o_result o) (o_out o) (o_my o) (o_rd o).
Definition start (p : prog Empty_set Z) : session := mkSession p None EmptyString 0 0.

Section Interleave.
Context {coll : Collation}.

Inductive istep : list session * obs -> list session * obs -> Prop :=
| istep_call ps sh i s e k a o' :
    ps !! i = Some s -> s_prog s = Call e k -> ev_spec e (view s sh) a o' ->
    istep (ps, sh) (<[i := session_at (k a) o']> ps, o').

Definition isteps : list session * obs -> list session * obs -> Prop := rtc istep.

(** ** One process alone *)

Lemma view_session p o : view (session_at p o) o = o.
Proof. by destruct o. Qed.

(** What [wp] says of the rest of the program stays true along the steps. *)
Lemma alone Q G s sh ps' sh' :
  wp (s_prog s) Q G (view s sh) -> isteps ([s], sh) (ps', sh') ->
  exists s', ps' = [s'] /\ wp (s_prog s') Q G (view s' sh').
Proof.
  intros Hwp H. remember ([s], sh) as c eqn:Ec. remember (ps', sh') as c' eqn:Ec'.
  revert s sh Ec Hwp. induction H as [c|c c1 c2 Hstep _ IH]; intros s sh -> Hwp.
  - injection Ec' as <- <-. by exists s.
  - inversion Hstep as [ps sh0 i s0 e k a o' Hi Hp He]; subst.
    destruct i as [|i]; [|done]. injection Hi as ->. cbn [insert list_insert] in *.
    eapply (IH eq_refl (session_at (k a) o') o'); [reflexivity|].
    rewrite view_session. rewrite Hp in Hwp. by apply Hwp.
Qed.

(** ** Running a schedule *)

(** One call of process [i] with the services of Sim.v. *)
Definition istep_run (i : nat) (c : list session * obs) : option (list session * obs) :=
  match fst c !! i with
  | Some s =>
      match s_prog s with
      | Call e k =>
          match sim e (view s (snd c)) with
          | Some (a, o') => Some (<[i := session_at (k a) o']> (fst c), o')
          | None => None
          end
      | _ => None
      end
  | None => None
  end.

Fixpoint schedule (turns : list nat) (c : list session * obs) : option (list session * obs) :=
  match turns with
  | [] => Some c
  | i :: turns => match istep_run i c with Some c' => schedule turns c' | None => None end
  end.

Lemma schedule_sound turns c c' : schedule turns c = Some c' -> isteps c c'.
Proof.
  revert c. induction turns as [|i turns IH]; intros c; cbn [schedule]; [intros [= ->]; apply rtc_refl|].
  unfold istep_run. destruct c as [ps sh]. cbn [fst snd].
  destruct (ps !! i) as [s|] eqn:Ei; [|done]. destruct (s_prog s) as [| | |e k] eqn:Ep; try done.
  destruct (sim e (view s sh)) as [[a o']|] eqn:Es; [|done]. intros H.
  eapply rtc_l; [|by apply IH]. eapply istep_call; [exact Ei|exact Ep|]. by apply sim_sound.
Qed.

(** The results of the processes, when all have ended. *)
Fixpoint results (ps : list session) : option (list Z) :=
  match ps with
  | [] => Some []
  | s :: ps =>
      match s_prog s, results ps with Ret z, Some zs => Some (z :: zs) | _, _ => None end
  end.
End Interleave.

#[local] Existing Instance binary_collation.

(** ** A lost update *)

(** Bob has a file; Eve and Amy save it at the same time, call by call in turn. *)
Definition two_saves : list session :=
  [start (DealShareFile.save_file demo_cf "eve" "m1" "a.txt");
   start (DealShareFile.save_file demo_cf "amy" "m1" "a.txt")].

Fixpoint in_turn (n : nat) : list nat := match n with O => [] | S n => 0%nat :: 1%nat :: in_turn n end.

Definition after_saves : list session * obs :=
  default (two_saves, two_obs) (schedule (in_turn 15) (two_saves, two_obs)).

(** The state after a deletion that reports success. *)
Definition deleted (user : string) (o : obs) : option obs :=
  match run (DealFile.del_file (X := Empty_set) demo_cf user "m1" "a.txt") o with
  | Some (inl 0%Z, o') => Some o'
  | _ => None
  end.

(** C39: two processes lose a file.  Eve and Amy save Bob's file at the same time
    and are both told that it is saved; the reference count, which each process
    reads and writes back in separate statements, went up once only.  When Bob
    and Eve delete their files, the stored file goes with them: Amy's row refers
    to a file that FastDFS has no more.  (One after the other, the operations
    keep every user's file, see [System.files_never_lost].) *)
Theorem concurrent_saves_lose_file :
  System.consistent two_obs
  /\ isteps (two_saves, two_obs) after_saves
  /\ results (fst after_saves) = Some [0; 0]%Z
  /\ System.owners "m1" (o_tables (snd after_saves)) = 3%Z
  /\ System.refs "m1" (o_tables (snd after_saves)) = 2%Z
  /\ exists o1 o2, deleted "bob" (snd after_saves) = Some o1 /\ deleted "eve" o1 = Some o2
       /\ In (mkUfl "amy" "m1" NOW "a.txt" 0 0) (user_file_list (o_tables o2))
       /\ o_dfs o2 !! "group1/M00/00/00/f1" = None.
Proof.
  split; [apply System.consistent_b_spec; vm_compute; reflexivity|].
  split; [apply (schedule_sound (in_turn 15)); vm_compute; reflexivity|].
  split; [vm_compute; reflexivity|]. split; [vm_compute; reflexivity|].
  split; [vm_compute; reflexivity|].
  destruct (deleted "bob" (snd after_saves)) as [o1|] eqn:E1; [|vm_compute in E1; discriminate].
  exists o1. destruct (deleted "eve" o1) as [o2|] eqn:E2.
  - exists o2. split; [done|]. split; [done|]. vm_compute in E1. injection E1 as <-.
    vm_compute in E2. injection E2 as <-. vm_compute. auto.
  - vm_compute in E1. injection E1 as <-. vm_compute in E2. discriminate.
Qed.

(** ** A crash *)

(** Bob's file is shared, and he asks twice for its deletion. *)
Definition two_deletes : list session :=
  [start (DealFile.del_file demo_cf "bob" "m1" "a.txt");
   start (DealFile.del_file demo_cf "bob" "m1" "a.txt")].

Definition after_deletes : list session * obs :=
  default (two_deletes, DealShareFile.shared_obs)
    (schedule (in_turn 11) (two_deletes, DealShareFile.shared_obs)).

(** A schedule that runs to its end is a run, whatever its last state looks like. *)
Lemma schedule_default turns c d :
  (if schedule turns c then true else false) = true -> isteps c (default d (schedule turns c)).
Proof. destruct (schedule turns c) eqn:E; [|done]. intros _. by apply (schedule_sound turns). Qed.

(** Process [i] has ended in undefined behaviour. *)
Definition crashed (i : nat) (ps : list session) : bool :=
  match ps !! i with
  | Some s => match s_prog s with Crash => true | _ => false end
  | None => false
  end.

(** The codes of the same two requests, one after the other. *)
Definition deletes_in_sequence (o : obs) : option (list Z) :=
  match run (DealFile.del_file (X := Empty_set) demo_cf "bob" "m1" "a.txt") o with
  | Some (inl z1, o1) =>
      match run (DealFile.del_file (X := Empty_set) demo_cf "bob" "m1" "a.txt") o1 with
      | Some (inl z2, _) => Some [z1; z2]
      | _ => None
      end
  | _ => None
  end.

(** C40: two requests to delete the same shared file crash when they are served
    at the same time.  Both processes find the file in Redis' set; the second one
    to remove the name from the hash gets the answer 0, and the log call of
    [rop_hash_del] has more conversions than arguments.  One after the other,
    the first request succeeds and the second ends with the failure code. *)
Theorem concurrent_deletes_crash :
  System.consistent DealShareFile.shared_obs
  /\ isteps (two_deletes, DealShareFile.shared_obs) after_deletes
  /\ crashed 1 (fst after_deletes) = true
  /\ deletes_in_sequence DealShareFile.shared_obs = Some [0; -1]%Z.
Proof.
  split; [apply System.consistent_b_spec; vm_compute; reflexivity|].
  split; [apply schedule_default; vm_compute; reflexivity|].
  split; vm_compute; reflexivity.
Qed.
