(* ===== verification/Rely.v ===== *)
(** * An invariant of the tables under interleaving

    A proof rule for processes whose calls interleave: between two calls of a
    process the others may do anything that keeps the invariant, and every call
    has to keep it.  With it, the handlers that take nothing away (they share and
    save files, take over known files and count downloads) are safe in any company
    of each other: keys stay unique, numbers stay in the range of [int], no
    process crashes and each answers with one of its codes.  A handler that takes
    records from Redis is not: see [Interleave.concurrent_deletes_crash]. *)

From S2P Require Import Prelude CLib UtilCgi Sql Tables CProg Mysql Redis Config Sim Demo Auth Handler Samples.
From S2P Require Import Interleave.
From S2P Require DealFile Md5Cgi DealShareFile.
From Stdlib Require Import Permutation.

Section Rule.
Context {coll : Collation}.
Variable Inv : tables -> Prop.

(** The own part of [o] with the shared part of [sh]. *)
Definition among (sh o : obs) : obs :=
  mkObs (o_tables sh) (o_result o) (o_redis sh) (o_out o) (o_files sh) (o_dfs sh) (o_my o) (o_rd o).

(** A service can answer. *)
Definition answerable (e : event) (o : obs) : Prop := exists a o', ev_spec e o a o'.

(** All runs from the own part of [o], with anything that keeps [Inv] done by
    others before every call, avoid crashes, are never stuck at a call, keep
    [Inv] and end in [Q] or [G]. *)
Fixpoint gwp {X A} (p : prog X A) (Q : A -> obs -> Prop) (G : X -> obs -> Prop) (o : obs) : Prop :=
  match p with
  | Ret a => Q a o
  | Goto x => G x o
  | Crash => False
  | Call e k => forall sh, Inv (o_tables sh) ->
      answerable e (among sh o)
      /\ forall a o', ev_spec e (among sh o) a o' -> Inv (o_tables o') /\ gwp (k a) Q G o'
  end.

Lemma gwp_bind {X A B} (m : prog X A) (f : A -> prog X B) Q G o :
  gwp m (fun a => gwp (f a) Q G) G o -> gwp (bind m f) Q G o.
Proof.
  revert o. induction m as [a|x| |e k IH]; intros o; simpl; try done.
  intros H sh Hsh. destruct (H sh Hsh) as [Hans Hk]. split; [done|].
  intros a o' He. destruct (Hk a o' He). auto.
Qed.

Lemma gwp_at_END {X Y A} (body : prog X X) (k : X -> prog Y A) Q G o :
  gwp body (fun x => gwp (k x) Q G) (fun x => gwp (k x) Q G) o -> gwp (at_END body k) Q G o.
Proof.
  revert o. induction body as [a|x| |e c IH]; intros o; simpl; try done.
  intros H sh Hsh. destruct (H sh Hsh) as [Hans Hk]. split; [done|].
  intros a o' He. destruct (Hk a o' He). auto.
Qed.

Lemma gwp_mono {X A} (p : prog X A) (Q Q' : A -> obs -> Prop) (G G' : X -> obs -> Prop) o :
  gwp p Q G o -> (forall a o', Q a o' -> Q' a o') -> (forall x o', G x o' -> G' x o') ->
  gwp p Q' G' o.
Proof.
  intros H HQ HG. revert o H. induction p as [a|x| |e k IH]; simpl; auto.
  intros o H sh Hsh. destruct (H sh Hsh) as [Hans Hk]. split; [done|].
  intros a o' He. destruct (Hk a o' He). auto.
Qed.

(** ** Soundness *)

(** Session [s] has come to its present point safely, and its result will be in [Q]. *)
Definition safe (Q : Z -> obs -> Prop) (s : session) : Prop :=
  exists o, s = session_at (s_prog s) o /\ gwp (s_prog s) Q (fun _ _ => False) o.

Lemma isteps_safe (Qs : nat -> Z -> obs -> Prop) ps sh ps' sh' :
  (forall i s, ps !! i = Some s -> safe (Qs i) s) -> Inv (o_tables sh) ->
  isteps (ps, sh) (ps', sh') ->
  Inv (o_tables sh') /\ forall i s, ps' !! i = Some s -> safe (Qs i) s.
Proof.
  intros Hps Hsh H. remember (ps, sh) as c eqn:Ec. remember (ps', sh') as c' eqn:Ec'.
  revert ps sh Ec Hps Hsh. induction H as [c|c c1 c2 Hstep _ IH]; intros ps sh -> Hps Hsh.
  - injection Ec' as <- <-. done.
  - inversion Hstep as [ps0 sh0 i s e k a o' Hi Hp He]; subst.
    destruct (Hps i s Hi) as (o & Hs & Hg). rewrite Hp in Hg.
    assert (view s sh = among sh o) as Hv by (rewrite Hs; reflexivity). rewrite Hv in He.
    destruct (Hg sh Hsh) as [_ Hk]. destruct (Hk a o' He) as [Hinv Hnext].
    apply (IH eq_refl _ _ eq_refl); [|exact Hinv].
    intros j s' Hj. destruct (decide (i = j)) as [->|Hne].
    + rewrite list_lookup_insert_eq in Hj by by eapply lookup_lt_Some. injection Hj as <-.
      exists o'. by split.
    + rewrite list_lookup_insert_ne in Hj by done. by apply Hps.
Qed.

(** The calls that the services answer in every state: those to MySQL, opening
    and closing, and the commands to Redis that put something in. *)
Definition always_answered (e : event) : bool :=
  match e with
  | MysqlInit | MysqlRealConnect _ _ _ | MysqlQuery _ | MysqlStoreResult | MysqlError | MysqlClose
  | Printf _ | Now | RedisConnect _ _ | RedisFree => true
  | RedisCommand [c; _; a; b] =>
      streq c "ZADD" || streq c "hset" || (streq c "zlexcount" && streq a b && String.prefix "[" a)
  | _ => false
  end.

Lemma redis_answers c k a b o :
  always_answered (RedisCommand [c; k; a; b]) = true -> answerable (RedisCommand [c; k; a; b]) o.
Proof.
  intros H. enough (exists rep rd, redis_spec [c; k; a; b] (o_redis o) rep rd
    /\ match rep with RError s => (slen s <= MSG_MAX)%Z | _ => True end) as (rep & rd & Hs & Hm).
  { exists (Some rep), (with_redis rd o), rep, rd. auto. }
  cbn [always_answered] in H. apply orb_prop in H as [[->%streq_true| ->%streq_true]%orb_prop|H].
  - destruct (zset_of (o_redis o) k) as [z|] eqn:E; [by eexists _, _; split; [by eapply spec_zadd|]|].
    exists (RError EmptyString), (o_redis o). split; [by apply spec_zadd_type|done].
  - destruct (hash_of (o_redis o) k) as [h|] eqn:E; [by eexists _, _; split; [by eapply spec_hset|]|].
    exists (RError EmptyString), (o_redis o). split; [by apply spec_hset_type|done].
  - apply andb_prop in H as [[->%streq_true <-%streq_true]%andb_prop (m & ->)%prefix_split].
    destruct (zset_of (o_redis o) k) as [z|] eqn:E.
    + exists (RInteger (if decide (m ∈ dom z) then 1 else 0)), (o_redis o). split; [|done].
      eapply spec_zlexcount; [done|by case_decide|done].
    + exists (RError EmptyString), (o_redis o). split; [by apply spec_zlexcount_type|done].
Qed.

(** MySQL may refuse any statement. *)
Lemma always_answers e o : always_answered e = true -> answerable e o.
Proof.
  destruct e as [| |s| | | | | | |argv| |s| | | | | | | | | | | |]; try done; intros H;
    [..|by destruct argv as [|c [|k [|a [|b [|]]]]]; try done; apply redis_answers| | |];
    unfold answerable; cbn [ev_spec].
  - by exists true, (add_my 1 o).
  - by exists true, o.
  - exists 1%Z, (with_tables (o_tables o) None o).
    destruct (parse_sql s) as [[k args]|]; [by left|].
    destruct (streq s EmptyString); [done|]. by exists (o_tables o), None.
  - exists None, (with_tables (o_tables o) None o). auto.
  - by exists EmptyString, o.
  - by exists tt, (add_my (-1) o).
  - by exists RcNull, o.
  - by exists tt, (add_rd (-1) o).
  - by exists tt, (with_out (o_out o +:+ s) o).
  - by exists NOW, o.
Qed.

Lemma gwp_call {X A} e (k : answer e -> prog X A) Q G o :
  always_answered e = true ->
  (forall sh, Inv (o_tables sh) -> forall a o', ev_spec e (among sh o) a o' ->
     Inv (o_tables o') /\ gwp (k a) Q G o') ->
  gwp (Call e k) Q G o.
Proof. intros He H sh Hsh. split; [by apply always_answers|by apply H]. Qed.

(** When no process can go on, all have ended. *)
Lemma stuck_ended (Q : nat -> Z -> obs -> Prop) ps sh :
  Inv (o_tables sh) -> (forall i s, ps !! i = Some s -> safe (Q i) s) ->
  (forall c, ~ istep (ps, sh) c) -> exists zs, results ps = Some zs.
Proof.
  intros Hsh Hsafe Hstuck.
  assert (forall i s, ps !! i = Some s -> exists z, s_prog s = Ret z) as Hret.
  { intros i s Hi. destruct (Hsafe i s Hi) as (o & Hs & Hg).
    destruct (s_prog s) as [z|[]| |e k] eqn:Ep; [by exists z|done|]. exfalso.
    destruct (Hg sh Hsh) as [(a & o' & He) _]. apply (Hstuck (<[i := session_at (k a) o']> ps, o')).
    apply (istep_call ps sh i s e k a o' Hi Ep). rewrite Hs. exact He. }
  clear Hsafe Hstuck. induction ps as [|s ps IH]; [by exists []|].
  destruct (Hret 0%nat s eq_refl) as [z Hz].
  destruct IH as [zs Hzs]; [intros i s' Hi; exact (Hret (S i) s' Hi)|].
  exists (z :: zs). cbn [results]. by rewrite Hz, Hzs.
Qed.
End Rule.

(** ** Termination *)

Section Ending.
Context {coll : Collation}.

(** The rest of a program after its first call. *)
Definition after_call {X A} (q p : prog X A) : Prop :=
  match p with Call e k => exists a, q = k a | _ => False end.

(** One call less, in one of the programs. *)
Inductive shorter : list session -> list session -> Prop :=
| shorter_at ps i s s' :
    ps !! i = Some s -> after_call (s_prog s') (s_prog s) -> shorter (<[i := s']> ps) ps.

Lemma shorter_cons s ps : Acc shorter ps -> Acc shorter (s :: ps).
Proof.
  intros Hps. revert s. induction Hps as [ps _ IHps].
  assert (forall p s, s_prog s = p -> Acc shorter (s :: ps)) as H; [|intros s; exact (H _ s eq_refl)].
  induction p as [z|x| |e k IHp]; intros s Hs; constructor; intros qs Hq;
    inversion Hq as [ps0 i s1 s' Hi Hc]; subst ps0 qs;
    (destruct i as [|i]; [injection Hi as <-; rewrite Hs in Hc|exact (IHps (<[i := s']> ps) (shorter_at ps i s1 s' Hi Hc) s)]).
  - destruct Hc.
  - destruct Hc.
  - destruct Hc.
  - destruct Hc as [a Ha]. exact (IHp a s' Ha).
Qed.

Lemma shorter_wf ps : Acc shorter ps.
Proof.
  induction ps as [|s ps IH]; [|by apply shorter_cons].
  constructor. intros qs Hq. by inversion Hq.
Qed.

(** Any processes, in any order of their calls, stop. *)
Lemma isteps_end ps sh : Acc (fun c' c => istep c c') (ps, sh).
Proof.
  revert sh. induction (shorter_wf ps) as [ps _ IH]. intros sh. constructor. intros c Hc.
  inversion Hc as [ps0 sh0 i s e k a o' Hi Hp He]; subst. apply IH.
  apply (shorter_at _ _ s); [done|]. rewrite Hp. by exists a.
Qed.
End Ending.

(** ** Statements *)

Section Handlers.
Context {coll : Collation}.

(** Keys are unique and the numbers are [int]s. *)
Definition in_range : tables -> Prop := tables_wf (-1).

Lemma small_int z : small (-1) z <-> is_int z.
Proof. unfold small, is_int. lia. Qed.

(** The own part without the result set: the response and the open connections. *)
Definition same_own (o o' : obs) : Prop :=
  o_out o' = o_out o /\ o_my o' = o_my o /\ o_rd o' = o_rd o.

Lemma same_own_trans o1 o2 o3 : same_own o1 o2 -> same_own o2 o3 -> same_own o1 o3.
Proof. unfold same_own. intros (? & ? & ?) (? & ? & ?). repeat split; congruence. Qed.

(** Programs that leave the own part alone. *)
Definition steady {X A} (p : prog X A) (Q : A -> Prop) (G : X -> Prop) : Prop :=
  forall o, gwp in_range p (fun a o' => Q a /\ same_own o o') (fun x o' => G x /\ same_own o o') o.

Lemma steady_bind {X A B} (m : prog X A) (f : A -> prog X B) (Q1 : A -> Prop) Q G :
  steady m Q1 G -> (forall a, Q1 a -> steady (f a) Q G) -> steady (bind m f) Q G.
Proof.
  intros Hm Hf o. apply gwp_bind. eapply gwp_mono; [apply (Hm o)| |done].
  intros a o' [Ha Ho]. eapply gwp_mono; [apply (Hf a Ha)|..];
    intros b o2 [Hb Hob]; (split; [done|by eapply same_own_trans]).
Qed.

Lemma steady_ret {X A} (a : A) (Q : A -> Prop) (G : X -> Prop) : Q a -> steady (Ret a) Q G.
Proof. intros H o. by split. Qed.

Lemma steady_goto {X A} (x : X) (Q : A -> Prop) (G : X -> Prop) : G x -> steady (Goto x) Q G.
Proof. intros H o. by split. Qed.

Lemma steady_call {X} e (Q : answer e -> Prop) (G : X -> Prop) :
  always_answered e = true ->
  (forall o a o', in_range (o_tables o) -> ev_spec e o a o' ->
     in_range (o_tables o') /\ Q a /\ same_own o o') ->
  steady (call e) Q G.
Proof. intros He0 H o. apply gwp_call; [done|]. intros sh Hsh a o' He. by destruct (H (among sh o) a o' Hsh He) as (? & ? & ?). Qed.

(** A log message that fits is no call. *)
Lemma log_ret {X} f args n :
  match pieces_of (f +:+ nl) with
  | Some ps => simple_fmt ps args && (lits_len ps <=? n)%Z
  | None => false
  end = true ->
  Forall arg_ok args -> (n + args_len args < LOG_BUF)%Z -> LOG (X := X) f args = Ret tt.
Proof.
  intros H1 H2 H3. unfold LOG, LOG0. destruct (pieces_of (f +:+ nl)) as [ps|] eqn:E; [|done].
  apply andb_prop in H1 as [Hf Hn].
  destruct (format_simple (f +:+ nl) ps args E Hf H2) as (s & -> & Hs).
  destruct (Z.ltb_spec (slen s) LOG_BUF); [done|lia].
Qed.

Lemma steady_log {X} f args n (G : X -> Prop) :
  match pieces_of (f +:+ nl) with
  | Some ps => simple_fmt ps args && (lits_len ps <=? n)%Z
  | None => false
  end = true ->
  Forall arg_ok args -> (n + args_len args < LOG_BUF)%Z -> steady (LOG f args) (fun _ => True) G.
Proof. intros H1 H2 H3 o. rewrite (log_ret f args n) by done. by split. Qed.

Lemma steady_sql {X} k args (G : X -> Prop) :
  sql_ok k args = true -> Forall arg_ok args ->
  (lits_len (sql_pieces k) + args_len args < SQL_MAX_LEN)%Z ->
  steady (sql k args) (fun s => parse_sql s = Some (k, args) /\ (slen s < SQL_MAX_LEN)%Z) G.
Proof.
  intros Hok Ha Hl o. pose proof Hok as [Hf _]%andb_prop.
  destruct (format_simple _ _ args (sql_pieces_of k) Hf Ha) as (s & Hs & Hlen).
  assert (sql (X := X) k args = Ret s) as ->.
  { unfold sql, sprintf, strcpy. rewrite Hs. destruct (Z.ltb_spec (slen s) SQL_MAX_LEN); [done|lia]. }
  split; [|done]. split; [by eapply parse_render_sql|lia].
Qed.

(** A statement that keeps the invariant. *)
Definition stable (k : sql_kind) (args : list arg) : Prop :=
  forall t t' rs, in_range t -> stmt_spec k args t t' rs -> in_range t'.

Lemma steady_query {X} s k args (G : X -> Prop) :
  parse_sql s = Some (k, args) -> stable k args -> steady (mysql_query s) (fun _ => True) G.
Proof.
  intros Hp Hst. apply steady_call; [done|]. intros o a o' Hin He. cbn [ev_spec] in He. rewrite Hp in He.
  destruct He as [[_ ->]|(_ & t & rs & Hs & ->)]; [done|]. split; [by eapply Hst|done].
Qed.

Lemma steady_error {X} (G : X -> Prop) :
  steady (call MysqlError) (fun err => (slen err <= MSG_MAX)%Z) G.
Proof. apply steady_call; [done|]. by intros o a o' Hin [-> H]. Qed.

Lemma steady_now {X} (G : X -> Prop) :
  steady (call Now) (fun s => slen s = 19%Z /\ plain s = true) G.
Proof. apply steady_call; [done|]. intros o a o' Hin (-> & H1 & H2). split; [done|]. by split. Qed.

(** A lookup: the value comes from a row of some tables in range. *)
Lemma steady_select {X} s k args (v : tables -> list row) buf (Q : Z * string -> Prop) (G : X -> Prop) :
  parse_sql s = Some (k, args) ->
  (forall t t' rs, stmt_spec k args t t' rs -> t' = t /\ selects rs (v t)) ->
  let old := match buf with Some (_, c) => c | None => EmptyString end in
  Q (-1, old)%Z -> Q (1, old)%Z ->
  match buf with
  | None => Q (2, old)%Z
  | Some (cap, _) => forall t r, in_range t -> In r (v t) ->
      exists x r', r = Some x :: r' /\ (slen x < cap)%Z /\ Q (0, x)%Z
  end ->
  steady (process_result_one s buf) Q G.
Proof.
  intros Hp Hsel old Hf He Hr o. unfold process_result_one. fold old. apply gwp_bind, gwp_call; [done|].
  intros sh Hsh r o1 Hev. cbn [ev_spec] in Hev. rewrite Hp in Hev.
  destruct Hev as [[Hne ->]|(-> & t & rs & Hs & ->)].
  { split; [done|]. cbn [gwp]. destruct (Z.eqb_spec r 0); [done|]. cbn [negb gwp]. by split. }
  apply Hsel in Hs as (-> & l & -> & Hperm). split; [done|]. cbn [gwp Z.eqb negb].
  apply gwp_bind, gwp_call; [done|]. intros sh2 Hsh2 res o2 [-> Hres]. split; [done|]. cbn [gwp].
  cbn [among with_tables o_result] in Hres.
  destruct Hres as [->| ->]; [|by split].
  destruct l as [|x l]; [by split|]. destruct buf as [[cap c]|]; [|by split].
  destruct (Hr (o_tables sh) x Hsh) as (y & r' & -> & Hy & HQ).
  { eapply Permutation_in; [exact Hperm|by left]. }
  unfold strcpy. destruct (Z.ltb_spec (slen y) cap); [|lia]. by split.
Qed.

Lemma steady_select_num {X A} s k args (g : A -> Z) (L : tables -> list A) old
    (Q : Z * string -> Prop) (G : X -> Prop) :
  parse_sql s = Some (k, args) ->
  (forall t t' rs, stmt_spec k args t t' rs ->
     t' = t /\ selects rs (List.map (fun r => [num (g r)]) (L t))) ->
  (forall t r, in_range t -> In r (L t) -> is_int (g r)) ->
  Q (-1, old)%Z -> Q (1, old)%Z -> (forall z, is_int z -> Q (0%Z, dec_string z)) ->
  steady (process_result_one s (Some (512%Z, old))) Q G.
Proof.
  intros Hp Hsel Hint Hf He Hz.
  apply (steady_select s k args (fun t => List.map (fun r => [num (g r)]) (L t))); [done..|].
  intros t r Hin (x & <- & Hx)%in_map_iff. exists (dec_string (g x)), []. split; [done|].
  specialize (Hint t x Hin Hx). pose proof (dec_string_int (g x) Hint). split; [lia|auto].
Qed.

(** ** The statements of the handlers keep the invariant *)

Ltac range_tac :=
  unfold in_range, tables_wf; cbn [users file_info user_file_list share_file_list user_file_count
    set_users set_file_info set_user_file_list set_share_file_list set_user_file_count];
  intros (H1 & H2 & H3 & H4 & H5 & H6); (split; [|split; [|split; [|split; [|split]]]]);
  try assumption.

Definition is_select (k : sql_kind) : bool :=
  match k with
  | SetNames | SelFileCount | SelUserFile | SelUserCount | SelPv | SelShare => true
  | _ => false
  end.

Lemma stable_select k args : is_select k = true -> stable k args.
Proof.
  intros Hk t t' rs Hin Hs.
  assert (t' = t) as ->; [|done].
  destruct k; try done; repeat (destruct args as [|[] args]; try done); apply Hs.
Qed.

Lemma stable_file_count n m : is_int n -> stable UpdFileCount [AInt n; AStr m].
Proof.
  intros Hn%small_int t t' rs Hin [-> _]. revert Hin. range_tac.
  - intros m'. by rewrite count_if_update.
  - intros r (y & Hy & [->| ->])%in_update; [auto|]. split; [done|]. by apply (H4 y Hy).
Qed.

Lemma stable_user_file u m tm f : stable InsUserFile [AStr u; AStr m; AStr tm; AStr f; AInt 0; AInt 0].
Proof.
  intros t t' rs Hin [-> _]. revert Hin. range_tac.
  intros r [?|[<-|[]]]%in_app_or; auto. by split.
Qed.

Lemma stable_user_count n u : is_int n -> stable UpdUserCount [AInt n; AStr u].
Proof.
  intros Hn%small_int t t' rs Hin [-> _]. revert Hin. range_tac.
  - intros u'. by rewrite count_if_update.
  - intros r (y & Hy & [->| ->])%in_update; [auto|]. done.
Qed.

(** The two spellings of the statement for a new counter. *)
Definition new_count (ins : sql_kind) : Prop := ins = InsUserCount \/ ins = InsUserCountSp.

Lemma stable_new_count ins u : new_count ins -> stable ins [AStr u; AInt 1].
Proof.
  intros Hins t t' rs Hin Hs.
  assert (existsb (is_cnt u) (user_file_count t) = false
    /\ t' = set_user_file_count (user_file_count t ++ [mkCnt u 1]) t) as [Hnew ->]
    by (destruct Hins as [->| ->]; destruct Hs as (? & ? & _); done).
  revert Hin. range_tac.
  - intros u'. rewrite count_if_app, count_if_cons, count_if_nil. specialize (H1 u').
    destruct (is_cnt u' (mkCnt u 1)) eqn:Eu; [|lia].
    rewrite (count_if_zero (is_cnt u')); [lia|]. intros x Hx. rewrite existsb_false_iff in Hnew.
    specialize (Hnew x Hx). unfold is_cnt in *. simpl in Eu. by rewrite <- (ceq_trans_r _ u u').
  - intros r [?|[<-|[]]]%in_app_or; auto. done.
Qed.

Lemma stable_pv n u m f : is_int n -> stable UpdPv [AInt n; AStr u; AStr m; AStr f].
Proof.
  intros Hn%small_int t t' rs Hin [-> _]. revert Hin. range_tac.
  intros r (y & Hy & [->| ->])%in_update; [auto|]. split; [apply (H5 y Hy)|done].
Qed.

Lemma stable_shared u m f : stable SetShared [AStr u; AStr m; AStr f].
Proof.
  intros t t' rs Hin [-> _]. revert Hin. range_tac.
  intros r (y & Hy & [->| ->])%in_update; [auto|]. split; [done|apply (H5 y Hy)].
Qed.

Lemma stable_share u m tm f : stable InsShare [AStr u; AStr m; AStr tm; AStr f; AInt 0].
Proof.
  intros t t' rs Hin [-> _]. revert Hin. range_tac. intros r [?|[<-|[]]]%in_app_or; auto. done.
Qed.

(** ** Guarded statements *)

Definition steady_send {X} (send : string -> prog X unit) (G : X -> Prop) : Prop :=
  forall s k args, parse_sql s = Some (k, args) -> (slen s < SQL_MAX_LEN)%Z -> stable k args ->
    steady (send s) (fun _ => True) G.

Lemma steady_must {X} fmt (e : X) (G : X -> Prop) :
  (forall s err : string, match pieces_of (fmt +:+ nl) with
   | Some ps => simple_fmt ps [AStr s; AStr err] && (lits_len ps <=? 400)%Z
   | None => false
   end = true) ->
  G e -> steady_send (fun s => must fmt s e) G.
Proof.
  intros Hfmt He s k args Hp Hs Hst. unfold must. eapply steady_bind; [by eapply steady_query|].
  intros r _. destruct (r =? 0)%Z; [by apply steady_ret|].
  eapply steady_bind; [apply steady_error|]. intros err Herr.
  eapply steady_bind; [|intros ? _; by apply steady_goto].
  apply (steady_log _ _ 400); [apply Hfmt|solve_args|]. unfold SQL_MAX_LEN in Hs. solve_len.
Qed.

Lemma steady_must1 {X} fmt (e : X) (G : X -> Prop) :
  (forall s : string, match pieces_of (fmt +:+ nl) with
   | Some ps => simple_fmt ps [AStr s] && (lits_len ps <=? 400)%Z
   | None => false
   end = true) ->
  G e -> steady_send (fun s => must1 fmt s e) G.
Proof.
  intros Hfmt He s k args Hp Hs Hst. unfold must1. eapply steady_bind; [by eapply steady_query|].
  intros r _. destruct (r =? 0)%Z; [by apply steady_ret|].
  eapply steady_bind; [|intros ? _; by apply steady_goto].
  apply (steady_log _ _ 400); [apply Hfmt|solve_args|]. unfold SQL_MAX_LEN in Hs. solve_len.
Qed.

Lemma steady_must_select {X A} fmt s k args (g : A -> Z) (L : tables -> list A) old (e : X) (G : X -> Prop) :
  parse_sql s = Some (k, args) -> (slen s < SQL_MAX_LEN)%Z ->
  match pieces_of (fmt +:+ nl) with
  | Some ps => simple_fmt ps [AStr s] && (lits_len ps <=? 400)%Z
  | None => false
  end = true ->
  (forall t t' rs, stmt_spec k args t t' rs ->
     t' = t /\ selects rs (List.map (fun r => [num (g r)]) (L t))) ->
  (forall t r, in_range t -> In r (L t) -> is_int (g r)) -> G e ->
  steady (must_select fmt s old e) (fun tmp => exists z, tmp = dec_string z /\ is_int z) G.
Proof.
  intros Hp Hs Hfmt Hsel Hint He. unfold must_select.
  apply (steady_bind _ _ (fun r => (fst r = 0%Z -> exists z, snd r = dec_string z /\ is_int z)) _ G).
  - apply (steady_select_num s k args g L); try done. intros z Hz _. by exists z.
  - intros [ret2 tmp] Hr. cbn [fst snd] in Hr. destruct (Z.eqb_spec ret2 0); [by apply steady_ret, Hr|].
    eapply steady_bind; [|intros ? _; by apply steady_goto].
    apply (steady_log _ _ 400); [exact Hfmt|solve_args|]. unfold SQL_MAX_LEN in Hs. solve_len.
Qed.

Lemma int32_long z : is_long (int32 z).
Proof. pose proof (int32_range z). auto with hf_core. Qed.

(** An SQL text of plain arguments. *)
Ltac steady_text s Hs Hl :=
  eapply steady_bind; [apply steady_sql; [solve_sql_ok|solve_args|solve_sql_len]|];
  intros s [Hs Hl].

Lemma count_in_range u t r :
  in_range t -> In r (List.filter (is_cnt u) (user_file_count t)) -> is_int (c_count r).
Proof. intros (_ & _ & H & _) [Hr _]%filter_In. by apply small_int, H. Qed.

Lemma ref_in_range m t r :
  in_range t -> In r (List.filter (is_file m) (file_info t)) -> is_int (f_count r).
Proof. intros (_ & _ & _ & H & _) [Hr _]%filter_In. by apply small_int, H. Qed.

Lemma steady_count_up {X} (send : string -> prog X unit) ins user s tmp (G : X -> Prop) :
  new_count ins -> steady_send send G -> parse_sql s = Some (SelUserCount, [AStr user]) -> (slen s < SQL_MAX_LEN)%Z ->
  plain user = true -> (slen user <= 330)%Z ->
  steady (count_up send ins user s tmp) (fun _ => True) G.
Proof.
  intros Hins Hsend Hp Hs Hu Hl. unfold count_up.
  apply (steady_bind _ _ (fun _ => True)).
  { by apply (steady_select_num s SelUserCount [AStr user] c_count
                (fun t => List.filter (is_cnt user) (user_file_count t)));
      [|intros t t' rs H|apply count_in_range|..]. }
  intros [ret2 tmp2] _. destruct (ret2 =? 1)%Z; [|destruct (ret2 =? 0)%Z].
  - destruct Hins as [->| ->]; steady_text s2 Hs2 Hl2;
      (eapply Hsend; [done..|apply stable_new_count; unfold new_count; auto]).
  - pose proof (int32_long (atoi tmp2 + 1)). steady_text s2 Hs2 Hl2.
    eapply Hsend; [done..|apply stable_user_count, int32_range].
  - apply (steady_bind _ _ (fun x => x = s)); [by apply steady_ret|]. intros ? ->.
    eapply Hsend; [done..|by apply stable_select].
Qed.

Lemma steady_add_reference {X} (send : string -> prog X unit) user md5 filename count tmp (G : X -> Prop) :
  steady_send send G -> names_ok user md5 filename = true ->
  steady (add_reference send user md5 filename count tmp) (fun _ => True) G.
Proof.
  intros Hsend Hn. split_names Hn. unfold add_reference. pose proof (int32_long (count + 1)).
  steady_text s1 Hs1 Hl1.
  eapply steady_bind; [eapply Hsend; [done..|apply stable_file_count, int32_range]|]. intros ? _.
  eapply steady_bind; [apply steady_now|]. intros tm [Htm Hpl].
  steady_text s2 Hs2 Hl2. eapply steady_bind; [eapply Hsend; [done..|apply stable_user_file]|].
  intros ? _. steady_text s3 Hs3 Hl3. apply steady_count_up; [by right|done..|slen_lia].
Qed.

(** ** Handlers *)

(** The state at END: the result has a status, the connections are open. *)
Definition ending (redis : bool) (codes : Z -> option string) (e : end_state) : Prop :=
  e_redis e = redis /\ e_conn e = true
  /\ exists code, codes (e_ret e) = Some code /\ status_ok code = true.

(** The answer of a handler: one status, connections as before. *)
Definition answered (codes : Z -> option string) (o : obs) (ret : Z) (o' : obs) : Prop :=
  exists code, codes ret = Some code /\ o_out o' = o_out o +:+ status_text code
    /\ o_my o' = o_my o /\ o_rd o' = o_rd o.

Definition one_if (b : bool) : Z := if b then 1 else 0.

(** The code at END closes what was opened since [o]. *)
Lemma gwp_finish {X} codes e code (G : X -> obs -> Prop) o o1 :
  codes (e_ret e) = Some code -> status_ok code = true ->
  o_out o1 = o_out o -> o_my o1 = (o_my o + one_if (e_conn e))%Z ->
  o_rd o1 = (o_rd o + one_if (e_redis e))%Z ->
  gwp in_range (finish codes e) (answered codes o) G o1.
Proof.
  intros Hc Hok Ho Hm Hr. unfold finish. rewrite Hc. unfold print_status, status_ok, status_text in *.
  destruct (return_status code) as [s|] eqn:Es; [|done]. unfold printf.
  destruct (format s []) as [s'|]; [|done]. apply streq_true in Hok as ->.
  apply gwp_bind, gwp_call; [done|]. intros sh Hsh [] o2 ->. split; [done|]. cbn [gwp]. apply gwp_bind.
  assert (forall o3, o_out o3 = o_out o +:+ s -> o_my o3 = o_my o1 -> o_rd o3 = o_rd o ->
    gwp in_range ((if e_conn e then mysql_close else Ret tt) ;;; Ret (e_ret e)) (answered codes o) G o3) as Hclose.
  { intros o3 H1 H2 H3. assert (status_text code = s) as Hst by (unfold status_text; by rewrite Es).
    apply gwp_bind. destruct (e_conn e); cbn [one_if] in Hm.
    - apply gwp_call; [done|]. intros sh2 Hsh2 [] o4 ->. split; [done|]. cbn [gwp]. exists code.
      rewrite Hst. repeat split; [done|done|cbn; lia|done].
    - cbn [gwp]. exists code. rewrite Hst. repeat split; [done|done|lia|done]. }
  destruct (e_redis e); cbn [one_if] in Hr; cbn [gwp].
  - apply gwp_bind, gwp_call; [done|]. intros sh2 Hsh2 [] o3 ->. split; [done|].
    assert (LOG (X := X) "[+][GMS_REDIS]Disconnect SUCCESS!" [] = Ret tt) as Hlog by (vm_compute; reflexivity).
    match goal with |- context [LOG ?f []] => change (LOG (X := X) f []) with (@Ret X unit tt) end.
    cbn [gwp]. apply Hclose; cbn [o_out o_my o_rd add_rd with_out among]; [by rewrite Ho|done|lia].
  - apply Hclose; cbn [o_out o_my o_rd with_out among]; [by rewrite Ho|done|lia].
Qed.

Lemma gwp_msql_conn {X} (u p d : string) (Q : bool -> obs -> Prop) (G : X -> obs -> Prop) o :
  (forall (b : bool) o', o_out o' = o_out o /\ o_my o' = (o_my o + if b then 1 else 0)%Z /\ o_rd o' = o_rd o ->
     Q b o') ->
  gwp in_range (msql_conn u p d) Q G o.
Proof.
  intros HQ. unfold msql_conn. apply gwp_bind, gwp_call; [done|]. intros sh Hsh [|] o1 ->; (split; [done|]).
  2:{ simpl. apply HQ. simpl. repeat split. lia. }
  apply (gwp_call in_range (MysqlRealConnect u p d)); [done|].
  intros sh2 Hsh2 [|] o2 ->; (split; [done|]); [by apply HQ|].
  apply (gwp_call in_range MysqlClose); [done|].
  intros sh3 Hsh3 [] o3 ->. split; [done|]. apply HQ. simpl. repeat split. lia.
Qed.

(** The statement that starts every handler, and its body. *)
Lemma gwp_body {X} redis codes (body : prog end_state end_state) (G : X -> obs -> Prop) o o1 :
  steady body (ending redis codes) (ending redis codes) ->
  o_out o1 = o_out o -> o_my o1 = (o_my o + 1)%Z -> o_rd o1 = (o_rd o + one_if redis)%Z ->
  gwp in_range (mysql_query "set names utf8" ;;; body)
    (fun x => gwp in_range (finish codes x) (answered codes o) G)
    (fun x => gwp in_range (finish (X := X) codes x) (answered codes o) G) o1.
Proof.
  intros Hbody H1 H2 H3. apply gwp_bind.
  eapply gwp_mono; [apply (steady_query _ _ _ (fun _ => False) parse_set_names)| |].
  - by apply stable_select.
  - intros r o3 (_ & K1 & K2 & K3).
    eapply gwp_mono; [apply (Hbody o3)|..]; intros e o4 ((Hr & Hc & code & Hcode & Hok) & H4 & H5 & H6);
      (apply (gwp_finish codes e code); [done|done|congruence|rewrite Hc; cbn [one_if]; lia|rewrite Hr; lia]).
  - by intros x o3 [[] _].
Qed.

(** Giving up before the body. *)
Lemma gwp_give_up {X} (msg : prog end_state unit) redis codes code (G : X -> obs -> Prop) o o1 :
  msg = Ret tt -> codes (-1)%Z = Some code -> status_ok code = true ->
  o_out o1 = o_out o -> o_my o1 = o_my o -> o_rd o1 = (o_rd o + one_if redis)%Z ->
  gwp in_range (msg ;;; Goto (mkEnd (-1) redis false))
    (fun x => gwp in_range (finish codes x) (answered codes o) G)
    (fun x => gwp in_range (finish (X := X) codes x) (answered codes o) G) o1.
Proof.
  intros -> Hc Hok H1 H2 H3. cbn [bind gwp].
  apply (gwp_finish codes (mkEnd (-1) redis false) code); [done..|cbn [e_conn one_if]; lia|done].
Qed.

Lemma gwp_handler {X} cf codes (body : prog end_state end_state) (G : X -> obs -> Prop) o :
  (exists code, codes (-1)%Z = Some code /\ status_ok code = true) ->
  steady body (ending false codes) (ending false codes) ->
  gwp in_range
    (at_END
      (conn <- msql_conn (mysql_user cf) (mysql_pwd cf) (mysql_db cf) ;;
       if negb conn then LOG "msql_conn err" [] ;;; Goto (mkEnd (-1) false false) else
       mysql_query "set names utf8" ;;; body)
      (finish codes))
    (answered codes o) G o.
Proof.
  intros (c1 & Hc1 & Hok1) Hbody. apply gwp_at_END.
  apply gwp_bind, gwp_msql_conn. intros [|] o1 (H1 & H2 & H3); cbn [negb].
  - apply (gwp_body false); [done..|]. cbn [one_if]. lia.
  - apply (gwp_give_up _ false codes c1); [vm_compute; reflexivity|done|done|done|lia|cbn [one_if]; lia].
Qed.

(** ** Redis *)

Ltac gwp_log :=
  match goal with |- context [LOG ?f ?args] =>
    rewrite (log_ret f args 400); [|vm_compute; reflexivity|solve_args|solve_len] end; cbn [bind gwp].

Lemma gwp_connectdb {X} ip port (Q : bool -> obs -> Prop) (G : X -> obs -> Prop) o :
  (slen ip < 1000)%Z ->
  (forall (b : bool) o', o_out o' = o_out o -> o_my o' = o_my o -> o_rd o' = (o_rd o + one_if b)%Z -> Q b o') ->
  gwp in_range (rop_connectdb_nopwd ip port) Q G o.
Proof.
  intros Hip HQ. pose proof (uint16_range (atoi port)) as Hp. unfold rop_connectdb_nopwd.
  apply gwp_bind, gwp_call; [done|]. intros sh Hsh c o1 Hc. cbn [gwp].
  destruct c as [|err|]; cbn [ev_spec connect_spec] in Hc; unfold connect_ctx.
  - subst o1. split; [done|]. gwp_log. apply HQ; cbn; [done|done|lia].
  - destruct Hc as [-> Hlen]. split; [done|]. gwp_log. intros sh2 Hsh2. split; [by apply always_answers|].
    intros [] o2 ->. split; [done|]. apply HQ; cbn; [done|done|lia].
  - subst o1. split; [done|]. cbn [bind negb gwp]. gwp_log. apply HQ; cbn; [done|done|lia].
Qed.

Lemma gwp_handler_redis {X} cf codes (body : prog end_state end_state) (G : X -> obs -> Prop) o :
  conf_fits cf -> (exists code, codes (-1)%Z = Some code /\ status_ok code = true) ->
  steady body (ending true codes) (ending true codes) ->
  gwp in_range
    (at_END
      (redis_conn <- rop_connectdb_nopwd (redis_ip cf) (redis_port cf) ;;
       if negb redis_conn then LOG0 "redis connected error" [] ;;; Goto (mkEnd (-1) false false) else
       conn <- msql_conn (mysql_user cf) (mysql_pwd cf) (mysql_db cf) ;;
       if negb conn then LOG "msql_conn err" [] ;;; Goto (mkEnd (-1) true false) else
       mysql_query "set names utf8" ;;; body)
      (finish codes))
    (answered codes o) G o.
Proof.
  intros Hcf (c1 & Hc1 & Hok1) Hbody. unfold conf_fits in Hcf. apply gwp_at_END.
  apply gwp_bind, gwp_connectdb; [lia|]. intros [|] o1 H1 H2 H3; cbn [negb].
  - apply gwp_bind, gwp_msql_conn. intros [|] o2 (K1 & K2 & K3); cbn [negb].
    + apply (gwp_body true); [done|congruence|lia|congruence].
    + apply (gwp_give_up _ true codes c1); [vm_compute; reflexivity|done|done|congruence|lia|congruence].
  - apply (gwp_give_up _ false codes c1); [vm_compute; reflexivity|done..].
Qed.

(** Commands: anything may be in Redis; only the length of an error text matters. *)
Lemma steady_redis {X} f args argv (G : X -> Prop) :
  redis_argv f args = Some (Some argv) -> always_answered (RedisCommand argv) = true ->
  steady (redisCommand f args)
    (fun r => exists rep old new, r = Some rep /\ redis_spec argv old rep new
       /\ match rep with RError s => (slen s <= MSG_MAX)%Z | _ => True end) G.
Proof.
  intros Hargv Ha. unfold redisCommand. rewrite Hargv. apply steady_call; [done|].
  intros o a o' Hin (rep & rd & -> & Hs & -> & Hm). split; [done|]. split; [by exists rep, (o_redis o), rd|done].
Qed.

Ltac steady_say :=
  eapply steady_bind; [apply (steady_log _ _ 400); [vm_compute; reflexivity|solve_args|solve_len]|]; intros ? _.

Lemma steady_zset_exit {X} key member (G : X -> Prop) :
  (slen key + slen member < 2000)%Z -> steady (rop_zset_exit key member) (fun _ => True) G.
Proof.
  intros Hl. unfold rop_zset_exit.
  eapply steady_bind; [apply (steady_redis _ _ ["zlexcount"; key; "[" +:+ member; "[" +:+ member]); [reflexivity|]|].
  - cbn [always_answered]. by rewrite (streq_refl ("[" +:+ member)), prefix_app.
  - intros r (rep & old & new & -> & Hs & Hm). cbn [deref bind].
    redis_inv Hs; cbn [is_integer negb reply_integer reply_str]; [by apply steady_ret|].
    steady_say. by apply steady_ret.
Qed.

Lemma steady_zset_add {X} key score member (G : X -> Prop) :
  (slen key + slen member < 2000)%Z -> steady (rop_zset_add key score member) (fun _ => True) G.
Proof.
  intros Hl. unfold rop_zset_add. eapply steady_bind; [eapply steady_redis; [reflexivity|done]|].
  intros r (rep & old & new & -> & Hs & Hm). cbn [deref bind].
  destruct (negb _); [|by apply steady_ret]. 
  redis_inv Hs; cbn [reply_str]; steady_say; by apply steady_ret.
Qed.

Lemma steady_hash_set {X} key field value (G : X -> Prop) :
  (slen key + slen field + slen value < 3000)%Z -> steady (rop_hash_set key field value) (fun _ => True) G.
Proof.
  intros Hl. unfold rop_hash_set. eapply steady_bind; [eapply steady_redis; [reflexivity|done]|].
  intros r (rep & old & new & -> & Hs & Hm).
  redis_inv Hs; [by apply steady_ret|]. steady_say. by apply steady_ret.
Qed.

(** The requests whose handlers take nothing away. *)
Inductive job :=
| Share (user md5 filename : string)
| Save (user md5 filename : string)
| Instant (user md5 filename : string)
| Count (user md5 filename : string).

Definition job_prog (cf : conf) (j : job) : prog Empty_set Z :=
  match j with
  | Share u m f => DealFile.share_file cf u m f
  | Save u m f => DealShareFile.save_file cf u m f
  | Instant u m f => Md5Cgi.deal_md5 cf u m f
  | Count u m f => DealFile.pv_file cf u m f
  end.

Definition job_codes (j : job) : Z -> option string :=
  match j with
  | Share _ _ _ => DealFile.share_codes
  | Save _ _ _ => DealShareFile.save_codes
  | Instant _ _ _ => Md5Cgi.md5_codes
  | Count _ _ _ => DealFile.pv_codes
  end.

Definition job_ok (j : job) : Prop :=
  match j with Share u m f | Save u m f | Instant u m f | Count u m f => names_ok u m f = true end.

Ltac ending_tac := repeat split; eexists; split; [reflexivity|vm_compute; reflexivity].

Lemma steady_user_file {X} s u m f (G : X -> Prop) :
  parse_sql s = Some (SelUserFile, [AStr u; AStr m; AStr f]) ->
  steady (process_result_one s None) (fun _ => True) G.
Proof.
  intros Hs. by apply (steady_select s SelUserFile [AStr u; AStr m; AStr f]
    (fun t => List.map ufl_cols (List.filter (is_ufl u m f) (user_file_list t)))).
Qed.

Lemma gwp_save cf u m f o :
  names_ok u m f = true ->
  gwp in_range (DealShareFile.save_file (X := Empty_set) cf u m f)
    (answered DealShareFile.save_codes o) (fun _ _ => False) o.
Proof.
  intros Hn. pose proof Hn as Hn'. split_names Hn'.
  unfold DealShareFile.save_file. apply gwp_handler; [ending_tac|].
  steady_text s1 Hs1 Hl1. eapply steady_bind; [by eapply steady_user_file|]. intros [ret2 tmp] _.
  destruct (ret2 =? 2)%Z.
  - eapply steady_bind; [apply (steady_log _ _ 400); [vm_compute; reflexivity|solve_args|solve_len]|].
    intros ? _. apply steady_goto. ending_tac.
  - steady_text s2 Hs2 Hl2.
    eapply steady_bind;
      [apply (steady_must_select _ s2 SelFileCount [AStr m] f_count
                (fun t => List.filter (is_file m) (file_info t)));
       [done|done|vm_compute; reflexivity|intros t t' rs H; exact H|apply ref_in_range|ending_tac]|].
    intros tmp2 _. eapply steady_bind; [apply steady_add_reference; [|done]|].
    + apply steady_must1; [intros; vm_compute; reflexivity|ending_tac].
    + intros ? _. apply steady_ret. ending_tac.
Qed.

Lemma gwp_instant cf u m f o :
  names_ok u m f = true ->
  gwp in_range (Md5Cgi.deal_md5 (X := Empty_set) cf u m f)
    (answered Md5Cgi.md5_codes o) (fun _ _ => False) o.
Proof.
  intros Hn. pose proof Hn as Hn'. split_names Hn'.
  unfold Md5Cgi.deal_md5. apply gwp_handler; [ending_tac|].
  steady_text s1 Hs1 Hl1.
  apply (steady_bind _ _ (fun _ => True)).
  { by apply (steady_select_num s1 SelFileCount [AStr m] f_count
                (fun t => List.filter (is_file m) (file_info t)));
      [|intros t t' rs H|apply ref_in_range|..]. }
  intros [ret2 tmp] _. destruct (ret2 =? 0)%Z; [|destruct (ret2 =? 1)%Z].
  - steady_text s2 Hs2 Hl2. eapply steady_bind; [by eapply steady_user_file|]. intros [ret3 tmp3] _.
    destruct (ret3 =? 2)%Z.
    + eapply steady_bind; [apply (steady_log _ _ 400); [vm_compute; reflexivity|solve_args|solve_len]|].
      intros ? _. apply steady_goto. ending_tac.
    + eapply steady_bind; [apply steady_add_reference; [|done]|].
      * apply steady_must; [intros; vm_compute; reflexivity|ending_tac].
      * intros ? _. apply steady_ret. ending_tac.
  - apply steady_goto. ending_tac.
  - apply steady_ret. ending_tac.
Qed.

Lemma gwp_count cf u m f o :
  names_ok u m f = true ->
  gwp in_range (DealFile.pv_file (X := Empty_set) cf u m f)
    (answered DealFile.pv_codes o) (fun _ _ => False) o.
Proof.
  intros Hn. split_names Hn. unfold DealFile.pv_file. apply gwp_handler; [ending_tac|].
  steady_text s1 Hs1 Hl1.
  eapply steady_bind;
    [apply (steady_must_select _ s1 SelPv [AStr u; AStr m; AStr f] l_pv
              (fun t => List.filter (is_ufl u m f) (user_file_list t)));
     [done|done|vm_compute; reflexivity|intros t t' rs H; exact H| |ending_tac]|].
  - intros t r (_ & _ & _ & _ & H & _) [Hr _]%filter_In. by apply small_int, H.
  - intros tmp _. pose proof (int32_long (atoi tmp + 1)). steady_text s2 Hs2 Hl2.
    eapply steady_bind; [eapply (steady_must DealFile.FAILED); [intros; vm_compute; reflexivity|ending_tac|done..|]|].
    + apply stable_pv, int32_range.
    + intros ? _. apply steady_ret. ending_tac.
Qed.

Lemma steady_share_check u m f (G := ending true DealFile.share_codes) :
  names_ok u m f = true ->
  steady (DealFile.share_check m f (m +:+ f)) (fun _ => True) G.
Proof.
  intros Hn. split_names Hn. pose proof (slen_nonneg u). unfold DealFile.share_check.
  assert (slen FILE_PUBLIC_ZSET < 100)%Z as Hz by done.
  eapply steady_bind; [apply steady_zset_exit; slen_lia|]. intros r _. destruct (r =? 1)%Z; [|destruct (r =? 0)%Z].
  - steady_say. apply steady_goto. ending_tac.
  - steady_text s1 Hs1 Hl1.
    eapply steady_bind; [by apply (steady_select s1 SelShare [AStr m; AStr f]
      (fun t => List.map share_cols (List.filter (is_share m f) (share_file_list t))) None (fun _ => True))|].
    intros [ret2 tmp] _. destruct (ret2 =? 2)%Z; [|by apply steady_ret].
    eapply steady_bind; [apply steady_zset_add; slen_lia|]. intros ? _. steady_say. apply steady_goto. ending_tac.
  - apply steady_goto. ending_tac.
Qed.

Lemma steady_share_store u m f (G := ending true DealFile.share_codes) :
  names_ok u m f = true -> steady (DealFile.share_store u m f (m +:+ f)) G G.
Proof.
  intros Hn. split_names Hn. unfold DealFile.share_store.
  assert (steady_send (fun s => must DealFile.FAILED s (both (-1))) G) as Hmust
    by (apply steady_must; [intros; vm_compute; reflexivity|ending_tac]).
  assert (slen FILE_PUBLIC_ZSET < 100 /\ slen FILE_NAME_HASH < 100)%Z as [Hz Hh] by done.
  steady_text s1 Hs1 Hl1. eapply steady_bind; [eapply Hmust; [done..|apply stable_shared]|]. intros ? _.
  eapply steady_bind; [apply steady_now|]. intros tm [Htm Hpl].
  steady_text s2 Hs2 Hl2. eapply steady_bind; [eapply Hmust; [done..|apply stable_share]|]. intros ? _.
  steady_text s3 Hs3 Hl3.
  eapply steady_bind; [apply steady_count_up; [by left|done..]|]. intros ? _.
  eapply steady_bind; [apply steady_zset_add; slen_lia|]. intros ? _.
  eapply steady_bind; [apply steady_hash_set; slen_lia|]. intros ? _. apply steady_ret. ending_tac.
Qed.

Lemma gwp_share cf u m f o :
  conf_fits cf -> names_ok u m f = true ->
  gwp in_range (DealFile.share_file (X := Empty_set) cf u m f)
    (answered DealFile.share_codes o) (fun _ _ => False) o.
Proof.
  intros Hcf Hn. pose proof Hn as Hn'. split_names Hn'.
  unfold DealFile.share_file. apply gwp_handler_redis; [done|ending_tac|].
  apply (steady_bind _ _ (fun s => s = m +:+ f)).
  { intros o1. unfold sprintf. rewrite format_ss. unfold strcpy.
    destruct (Z.ltb_spec (slen (m +:+ f)) 1024); [by split|slen_lia]. }
  intros ? ->. eapply steady_bind; [by apply (steady_share_check u)|intros ? _; by apply steady_share_store].
Qed.

Lemma gwp_job cf j o :
  conf_fits cf -> job_ok j -> gwp in_range (job_prog cf j) (answered (job_codes j) o) (fun _ _ => False) o.
Proof. destruct j; intros Hcf Hj; [by apply gwp_share|by apply gwp_save|by apply gwp_instant|by apply gwp_count]. Qed.

(** What may be seen of a process at any moment: it has not crashed, and once it has
    ended the response is the status of its result and its connections are closed. *)
Definition well_behaved (j : job) (s : session) : Prop :=
  s_prog s <> Crash /\ (forall e, s_prog s <> Goto e)
  /\ forall ret, s_prog s = Ret ret ->
       exists code, job_codes j ret = Some code /\ s_out s = status_text code
         /\ s_my s = 0%Z /\ s_rd s = 0%Z.

(** The own part of a new process. *)
Definition fresh : obs := mkObs (mkTables [] [] [] [] []) None ∅ EmptyString ∅ ∅ 0 0.

Lemma safe_well_behaved j s : safe in_range (answered (job_codes j) fresh) s -> well_behaved j s.
Proof.
  intros (o & Hs & Hg). unfold well_behaved. rewrite Hs. cbn [s_prog s_out s_my s_rd session_at].
  destruct (s_prog s) as [a|x| |e k]; cbn [gwp] in Hg; try done.
  repeat split; try done. intros ret [= ->]. destruct Hg as (code & H1 & H2 & H3 & H4).
  by exists code.
Qed.

(** What the process at place [i] may end with. *)
Definition job_result (jobs : list job) (i : nat) (ret : Z) (o : obs) : Prop :=
  forall j, jobs !! i = Some j -> answered (job_codes j) fresh ret o.

Lemma jobs_safe cf jobs i s :
  conf_fits cf -> Forall job_ok jobs -> List.map (fun j => start (job_prog cf j)) jobs !! i = Some s ->
  safe in_range (job_result jobs i) s.
Proof.
  intros Hcf Hjobs Hi. apply list_lookup_fmap_Some in Hi as (j & -> & Hj).
  exists fresh. split; [done|]. eapply gwp_mono; [apply gwp_job|..]; [done| |intros a o' Ha j'|done].
  - rewrite Forall_lookup in Hjobs. by eapply Hjobs.
  - intros Hj2. rewrite Hj in Hj2. by injection Hj2 as <-.
Qed.


End Handlers.

#[local] Existing Instance binary_collation.


(** When all have ended there is no further step. *)
Lemma ended_stuck ps sh zs c : results ps = Some zs -> ~ istep (ps, sh) c.
Proof.
  intros Hr Hc. inversion Hc as [ps0 sh0 i s e k a o' Hi Hp He]; subst. clear Hc He.
  revert i zs Hi Hr. induction ps as [|s0 ps IH]; intros i zs Hi Hr; [done|].
  cbn [results] in Hr. destruct (s_prog s0) as [z| | |] eqn:E0; try done.
  destruct (results ps) as [zs'|]; [|done]. destruct i as [|i].
  - injection Hi as ->. congruence.
  - exact (IH i zs' Hi eq_refl).
Qed.

